(** * store-rating-app: a shallow embedding of the Express/Mongoose backend

    The backend is a set of Express routes over three Mongoose models
    (User, Store, Rating).  The embedding follows the source files:

    - [backend/models/*]      : schemas, validators, hooks, [updateRating];
    - [backend/middleware/*]  : [authenticateToken], [authorize],
                                [verifyStoreOwner], the express-validator chains;
    - [backend/routes/*]      : one function per route handler;
    - [backend/scripts/seed]  : [seedData].

    Conventions of the model.
    - The database is explicit state: three collections kept as lists in
      insertion order, and a counter that supplies fresh ObjectIds.
    - Requests are handled one after the other ([handle]); [Date.now()] is an
      input of each request.
    - JavaScript numbers are exact rationals ([Q]).  A [string] stands for a
      JavaScript string, unit by unit: [String.length] is its [length], the
      number of UTF-16 code units, which is what Mongoose's [minlength] and
      [maxlength] and the password validator measure.  The tests on
      characters (white space, letter case, the classes of the password
      pattern) are those of the units up to 255.  validator.js' [isLength]
      counts characters instead, a surrogate pair once: that count is
      [charLength], one of the parameters below.
    - A JSON body field is absent ([None]) or has the type the handler
      expects; the [rating] field is a JSON number when present.
    - What the code takes from libraries outside the repository (bcrypt,
      validator.js' e-mail functions and its count of characters, the
      regular-expression engine on e-mail patterns and [$regex] filters) is
      a parameter: class [Externals]. *)

From Stdlib Require Import List String Ascii Bool Arith ZArith QArith Qround Lia.
From Stdlib Require Import Permutation Sorted.
Import ListNotations.
Local Open Scope string_scope.
Local Open Scope nat_scope.

Set Implicit Arguments.
Set Warnings "-register-all".

(* ------------------------------------------------------------------ *)
(** ** JavaScript strings *)

Module Js.

(** White space and line terminators, which [String.prototype.trim] and
    validator.js' [trim] remove: tab, line feed, vertical tab, form feed,
    carriage return, space and no-break space. *)
Definition isWhiteSpace (c : ascii) : bool :=
  let n := nat_of_ascii c in
  (n =? 9) || (n =? 10) || (n =? 11) || (n =? 12) || (n =? 13) || (n =? 32) || (n =? 160).

Fixpoint trimStart (s : string) : string :=
  match s with
  | EmptyString => EmptyString
  | String c t => if isWhiteSpace c then trimStart t else s
  end.

(** [trimEnd] keeps a character when it is not white space or when
    something that is kept follows it. *)
Fixpoint trimEnd (s : string) : string :=
  match s with
  | EmptyString => EmptyString
  | String c t =>
      match trimEnd t with
      | EmptyString => if isWhiteSpace c then EmptyString else String c EmptyString
      | t' => String c t'
      end
  end.

Definition trim (s : string) : string := trimEnd (trimStart s).

Definition startsWith (p s : string) : bool := String.prefix p s.

(** [A] to [Z], and the capital letters from 192 to 222 (215, the
    multiplication sign, is none). *)
Definition lowerChar (c : ascii) : ascii :=
  let n := nat_of_ascii c in
  if ((65 <=? n) && (n <=? 90)) || ((192 <=? n) && (n <=? 222) && negb (n =? 215))
  then ascii_of_nat (n + 32) else c.

Fixpoint toLowerCase (s : string) : string :=
  match s with
  | EmptyString => EmptyString
  | String c t => String (lowerChar c) (toLowerCase t)
  end.

Fixpoint existsChar (p : ascii -> bool) (s : string) : bool :=
  match s with
  | EmptyString => false
  | String c t => p c || existsChar p t
  end.

(** The part of [s] that [.*] can cross from the start: up to the first line
    terminator. *)
Fixpoint firstLine (s : string) : string :=
  match s with
  | EmptyString => EmptyString
  | String c t =>
      let n := nat_of_ascii c in
      if (n =? 10) || (n =? 13) then EmptyString else String c (firstLine t)
  end.

(** Truthiness of an optional string: [undefined] and [''] are falsy. *)
Definition truthyStr (o : option string) : bool :=
  match o with
  | Some s => negb (String.eqb s "")
  | None => false
  end.

(** [Number.isInteger]. *)
Definition isInteger (q : Q) : bool :=
  (Qnum q mod Zpos (Qden q) =? 0)%Z.

(** [x < y] and [x > y] on numbers. *)
Definition lt (x y : Q) : bool := negb (Qle_bool y x).
Definition gt (x y : Q) : bool := negb (Qle_bool x y).

(** Truthiness of a number: [0] is falsy. *)
Definition truthyNum (q : Q) : bool := negb (Qeq_bool q 0).

(** [Math.round]: the nearest integer, halves towards +infinity. *)
Definition Math_round (q : Q) : Z := Qfloor (q + (1 # 2)).

End Js.

(* ------------------------------------------------------------------ *)
(** ** JSON bodies *)

Inductive json : Type :=
| JNull
| JBool (b : bool)
| JNum (q : Q)
| JStr (s : string)
| JArr (l : list json)
| JObj (fields : list (string * json)).

Definition jnat (n : nat) : json := JNum (inject_Z (Z.of_nat n)).
Definition jint (z : Z) : json := JNum (inject_Z z).

Definition jopt {A} (f : A -> json) (o : option A) : json :=
  match o with Some a => f a | None => JNull end.

(** [hasKey k j]: some object inside [j] (at any depth) has a field [k]. *)
Fixpoint hasKey (k : string) (j : json) : bool :=
  match j with
  | JArr l => existsb (hasKey k) l
  | JObj fs => existsb (fun kv => String.eqb (fst kv) k || hasKey k (snd kv)) fs
  | _ => false
  end.

(** [delete obj[k]]. *)
Definition deleteKey (k : string) (fs : list (string * json)) : list (string * json) :=
  filter (fun kv => negb (String.eqb (fst kv) k)) fs.

(** Field selection of [populate(path, 'a b c')] and [select('a b c')]:
    [_id] and the listed fields are kept. *)
Definition pick (names : list string) (fs : list (string * json)) : list (string * json) :=
  filter (fun kv => String.eqb (fst kv) "_id" || existsb (String.eqb (fst kv)) names) fs.

(** Top-level field of an object. *)
Fixpoint getField (k : string) (fs : list (string * json)) : option json :=
  match fs with
  | [] => None
  | (k', v) :: t => if String.eqb k' k then Some v else getField k t
  end.

Record Response : Type := mkResponse { status : nat; body : json }.

Definition errorBody (message error : string) : json :=
  JObj [("message", JStr message); ("error", JStr error)].

Definition fail (code : nat) (message error : string) : Response :=
  mkResponse code (errorBody message error).

(* ------------------------------------------------------------------ *)
(** ** Libraries outside the repository *)

Class Externals : Type := {
  (** validator.js [isEmail] and [normalizeEmail] *)
  isEmail : string -> bool;
  normalizeEmail : string -> string;
  (** what validator.js' [isLength] measures: [str.length] less the number
      of surrogate pairs, so never more than [str.length] *)
  charLength : string -> nat;
  charLength_le : forall s, charLength s <= String.length s;
  (** [/^\w+([.-]?\w+)*@\w+([.-]?\w+)*(\.\w{2,3})+$/.test] *)
  emailPattern : string -> bool;
  (** a [$regex] filter with option [i] *)
  regexMatch : string -> string -> bool;
  (** [bcrypt.hash(password, salt)] with a 12-round salt, [bcrypt.compare] *)
  bcryptHash : string -> string;
  bcryptCompare : string -> string -> bool;
  (** a bcrypt hash starts with its version, [$2a] or [$2b] *)
  bcryptHash_version :
    forall password,
      Js.startsWith "$2a" (bcryptHash password) || Js.startsWith "$2b" (bcryptHash password)
      = true
}.

(* ------------------------------------------------------------------ *)
(** ** Data model (backend/models) *)

Definition ObjectId : Type := nat.
Definition Time : Type := nat.

(** [enum: ['admin', 'user', 'storeOwner']] *)
Inductive Role : Type := RAdmin | RUser | RStoreOwner.

Definition Role_eqb (a b : Role) : bool :=
  match a, b with
  | RAdmin, RAdmin | RUser, RUser | RStoreOwner, RStoreOwner => true
  | _, _ => false
  end.

Definition Role_toString (r : Role) : string :=
  match r with
  | RAdmin => "admin"
  | RUser => "user"
  | RStoreOwner => "storeOwner"
  end.

Definition Role_ofString (s : string) : option Role :=
  if String.eqb s "admin" then Some RAdmin
  else if String.eqb s "user" then Some RUser
  else if String.eqb s "storeOwner" then Some RStoreOwner
  else None.

Record User : Type := mkUser {
  u_id : ObjectId;
  u_name : string;
  u_email : string;
  u_password : string;
  u_address : string;
  u_role : Role;
  u_storeId : option ObjectId;
  u_isActive : bool;
  u_createdAt : Time;
  u_updatedAt : Time
}.

Record Store : Type := mkStore {
  s_id : ObjectId;
  s_name : string;
  s_email : string;
  s_address : string;
  s_ownerId : ObjectId;
  s_averageRating : Q;
  s_totalRatings : Z;
  s_isActive : bool;
  s_createdAt : Time;
  s_updatedAt : Time
}.

Record Rating : Type := mkRating {
  r_id : ObjectId;
  r_userId : ObjectId;
  r_storeId : ObjectId;
  r_rating : Q;
  r_comment : string;
  r_createdAt : Time;
  r_updatedAt : Time
}.

(** The database: the three collections and the source of fresh ids. *)
Record DB : Type := mkDB {
  Users : list User;
  Stores : list Store;
  Ratings : list Rating;
  nextId : ObjectId
}.

Definition emptyDB : DB := mkDB [] [] [] 1.

Definition setUsers (l : list User) (db : DB) : DB :=
  mkDB l (Stores db) (Ratings db) (nextId db).
Definition setStores (l : list Store) (db : DB) : DB :=
  mkDB (Users db) l (Ratings db) (nextId db).
Definition setRatings (l : list Rating) (db : DB) : DB :=
  mkDB (Users db) (Stores db) l (nextId db).
Definition bumpId (db : DB) : DB :=
  mkDB (Users db) (Stores db) (Ratings db) (S (nextId db)).

(** Errors thrown by Mongoose: [error.name === 'ValidationError'] with its
    [(path, message)] list, or a driver error with its [code]. *)
Inductive Error : Type :=
| ValidationError (errors : list (string * string))
| MongoError (code : Z).

Definition DUPLICATE_KEY : Z := 11000%Z.

(** Operations on one collection. *)
Section Collection.
Variable A : Type.
Variable idOf : A -> ObjectId.

Definition findById (i : ObjectId) (l : list A) : option A :=
  find (fun x => idOf x =? i) l.

Fixpoint replaceById (x : A) (l : list A) : list A :=
  match l with
  | [] => []
  | y :: t => if idOf y =? idOf x then x :: t else y :: replaceById x t
  end.

Fixpoint deleteById (i : ObjectId) (l : list A) : list A :=
  match l with
  | [] => []
  | y :: t => if idOf y =? i then t else y :: deleteById i t
  end.

(** The unique indexes of a collection ([_id], and the fields [sameKey]
    compares) refuse a write: an insert when a document with the same
    [_id] or the same key exists, an update when another document has
    the key. *)
Definition duplicateKey (sameKey : A -> bool) (isNew : bool) (x : A) (l : list A) : bool :=
  if isNew
  then existsb (fun o => (idOf o =? idOf x) || sameKey o) l
  else existsb (fun o => sameKey o && negb (idOf o =? idOf x)) l.
End Collection.

(** [Model.findOne({ email, _id: { $ne: id } })]: the filter is cast by the
    schema, whose [lowercase] setter runs on the address looked for. *)
Definition castEmail (email : string) : string := Js.toLowerCase email.

(** The message of an [enum] validator. *)
Definition enumMessage (value path : string) : string :=
  "`" ++ value ++ "` is not a valid enum value for path `" ++ path ++ "`.".

(** The first failing validator of a path gives the path's error. *)
Definition check (path : string) (rules : list (bool * string)) : list (string * string) :=
  match find (fun r => negb (fst r)) rules with
  | Some r => [(path, snd r)]
  | None => []
  end.

Definition isUpper (c : ascii) : bool :=
  let n := nat_of_ascii c in (65 <=? n) && (n <=? 90).

(** The character class of special characters in the password pattern, by
    character code (from 33, the exclamation mark, to 63, the question mark). *)
Definition specialCodes : list nat :=
  [33; 64; 35; 36; 37; 94; 38; 42; 40; 41; 95; 43; 45; 61; 91; 93; 123; 125;
   59; 39; 58; 34; 92; 124; 44; 46; 60; 62; 47; 63].

Definition isSpecial (c : ascii) : bool :=
  existsb (Nat.eqb (nat_of_ascii c)) specialCodes.

(** The password pattern: two look-aheads at the start of the string, one for
    an upper-case letter and one for a special character, each after any
    number of characters that are not line terminators. *)
Definition passwordPattern (s : string) : bool :=
  let l := Js.firstLine s in
  Js.existsChar isUpper l && Js.existsChar isSpecial l.

Section Models.
Context {ext : Externals}.

(** *** models/User.js *)

(** The [password] validator of the schema. *)
Definition User_passwordValidator (password : string) : bool :=
  if Js.startsWith "$2a" password || Js.startsWith "$2b" password then true
  else if (String.length password <? 8) || (16 <? String.length password) then false
  else passwordPattern password.

Definition User_validate (u : User) : list (string * string) :=
  check "name"
    [ (negb (String.eqb (u_name u) ""), "Name is required");
      (10 <=? String.length (u_name u), "Name must be at least 10 characters");
      (String.length (u_name u) <=? 60, "Name must not exceed 60 characters") ]
  ++ check "email"
    [ (negb (String.eqb (u_email u) ""), "Email is required");
      (emailPattern (u_email u), "Please provide a valid email") ]
  ++ check "password"
    [ (negb (String.eqb (u_password u) ""), "Password is required");
      (User_passwordValidator (u_password u),
       "Password must be 8-16 characters and include at least one uppercase letter and one special character") ]
  ++ check "address"
    [ (negb (String.eqb (u_address u) ""), "Address is required");
      (String.length (u_address u) <=? 400, "Address must not exceed 400 characters") ].

(** [new User({ name, email, password, address, role })]: the setters
    ([trim], [lowercase]) run, [_id] and the defaults are filled in. *)
Definition User_new (db : DB) (now : Time)
    (name email password address : string) (role : Role) : User :=
  mkUser (nextId db) (Js.trim name) (Js.toLowerCase email) password
         (Js.trim address) role None true now now.

(** [user.save()]: validation, the two [pre('save')] hooks (hash the
    password when it was modified; stamp [updatedAt]), then the write, which
    the unique index on [email] can refuse. *)
Definition User_save (isNew passwordModified : bool) (now : Time)
    (doc : User) (db : DB) : Error + (User * DB) :=
  match User_validate doc with
  | e :: es => inl (ValidationError (e :: es))
  | [] =>
      let hashed := if passwordModified then bcryptHash (u_password doc) else u_password doc in
      let doc' := mkUser (u_id doc) (u_name doc) (u_email doc) hashed (u_address doc)
                         (u_role doc) (u_storeId doc) (u_isActive doc)
                         (u_createdAt doc) now in
      if duplicateKey u_id (fun o => String.eqb (u_email o) (u_email doc')) isNew doc' (Users db)
      then inl (MongoError DUPLICATE_KEY)
      else if isNew
      then inr (doc', bumpId (setUsers (Users db ++ [doc']) db))
      else inr (doc', setUsers (replaceById u_id doc' (Users db)) db)
  end.

(** [user.comparePassword(candidate)] *)
Definition User_comparePassword (u : User) (candidate : string) : bool :=
  bcryptCompare candidate (u_password u).

(** [User.findByIdAndUpdate(id, { storeId: null })]: no validation, no
    document hooks. *)
Definition User_clearStoreId (i : ObjectId) (db : DB) : DB :=
  match findById u_id i (Users db) with
  | Some u =>
      setUsers (replaceById u_id
        (mkUser (u_id u) (u_name u) (u_email u) (u_password u) (u_address u)
                (u_role u) None (u_isActive u) (u_createdAt u) (u_updatedAt u))
        (Users db)) db
  | None => db
  end.

End Models.

Section StoreModel.
Context {ext : Externals}.

(** *** models/Store.js *)

Definition Store_validate (s : Store) : list (string * string) :=
  check "name"
    [ (negb (String.eqb (s_name s) ""), "Store name is required");
      (10 <=? String.length (s_name s), "Store name must be at least 10 characters");
      (String.length (s_name s) <=? 60, "Store name must not exceed 60 characters") ]
  ++ check "email"
    [ (negb (String.eqb (s_email s) ""), "Store email is required");
      (emailPattern (s_email s), "Please provide a valid email") ]
  ++ check "address"
    [ (negb (String.eqb (s_address s) ""), "Store address is required");
      (String.length (s_address s) <=? 400, "Address must not exceed 400 characters") ]
  ++ check "averageRating"
    [ (Qle_bool 0 (s_averageRating s), "averageRating is less than minimum allowed value (0)");
      (Qle_bool (s_averageRating s) 5, "averageRating is more than maximum allowed value (5)") ]
  ++ check "totalRatings"
    [ ((0 <=? s_totalRatings s)%Z, "totalRatings is less than minimum allowed value (0)") ].

(** [new Store({ name, email, address, ownerId })] *)
Definition Store_new (db : DB) (now : Time)
    (name email address : string) (ownerId : ObjectId) : Store :=
  mkStore (nextId db) (Js.trim name) (Js.toLowerCase email) (Js.trim address)
          ownerId 0 0 true now now.

(** [store.save()]: validation, [pre('save')] stamps [updatedAt], then the
    write, which the unique index on [email] can refuse. *)
Definition Store_save (isNew : bool) (now : Time) (doc : Store) (db : DB)
    : Error + (Store * DB) :=
  match Store_validate doc with
  | e :: es => inl (ValidationError (e :: es))
  | [] =>
      let doc' := mkStore (s_id doc) (s_name doc) (s_email doc) (s_address doc)
                          (s_ownerId doc) (s_averageRating doc) (s_totalRatings doc)
                          (s_isActive doc) (s_createdAt doc) now in
      if duplicateKey s_id (fun o => String.eqb (s_email o) (s_email doc')) isNew doc' (Stores db)
      then inl (MongoError DUPLICATE_KEY)
      else if isNew
      then inr (doc', bumpId (setStores (Stores db ++ [doc']) db))
      else inr (doc', setStores (replaceById s_id doc' (Stores db)) db)
  end.

(** One element of the result of the aggregation pipeline. *)
Record Stats : Type := mkStats { averageRating : Q; totalRatings : Z }.

Definition sumQ (l : list Q) : Q := fold_right Qplus 0%Q l.

(** [Rating.aggregate([{ $match: { storeId } },
                       { $group: { _id: null, averageRating: { $avg: '$rating' },
                                   totalRatings: { $sum: 1 } } }])]:
    no group when nothing matches, one group otherwise. *)
Definition Rating_aggregate (storeId : ObjectId) (db : DB) : list Stats :=
  match filter (fun r => r_storeId r =? storeId) (Ratings db) with
  | [] => []
  | rs => [ mkStats (sumQ (map r_rating rs) / inject_Z (Z.of_nat (List.length rs)))%Q
                    (Z.of_nat (List.length rs)) ]
  end.

(** [storeSchema.methods.updateRating] *)
Definition Store_updateRating (now : Time) (this : Store) (db : DB) : Error + (Store * DB) :=
  let stats := Rating_aggregate (s_id this) db in
  let this' :=
    match stats with
    | st :: _ =>
        mkStore (s_id this) (s_name this) (s_email this) (s_address this) (s_ownerId this)
                (inject_Z (Js.Math_round (averageRating st * 10)) / 10)%Q
                (totalRatings st)
                (s_isActive this) (s_createdAt this) (s_updatedAt this)
    | [] =>
        mkStore (s_id this) (s_name this) (s_email this) (s_address this) (s_ownerId this)
                0 0
                (s_isActive this) (s_createdAt this) (s_updatedAt this)
    end in
  Store_save false now this' db.

(** *** models/Rating.js *)

Definition Rating_validate (r : Rating) : list (string * string) :=
  check "rating"
    [ (Qle_bool 1 (r_rating r), "Rating must be at least 1");
      (Qle_bool (r_rating r) 5, "Rating must not exceed 5");
      (Js.isInteger (r_rating r), "Rating must be an integer between 1 and 5") ]
  ++ check "comment"
    [ (String.length (r_comment r) <=? 500, "Comment must not exceed 500 characters") ].

(** [new Rating({ userId, storeId, rating, comment })] *)
Definition Rating_new (db : DB) (now : Time)
    (userId storeId : ObjectId) (rating : Q) (comment : string) : Rating :=
  mkRating (nextId db) userId storeId rating (Js.trim comment) now now.

(** Assignments to a loaded document; the [trim] setter runs on [comment]. *)
Definition Rating_setRating (v : Q) (r : Rating) : Rating :=
  mkRating (r_id r) (r_userId r) (r_storeId r) v (r_comment r)
           (r_createdAt r) (r_updatedAt r).
Definition Rating_setComment (c : string) (r : Rating) : Rating :=
  mkRating (r_id r) (r_userId r) (r_storeId r) (r_rating r) (Js.trim c)
           (r_createdAt r) (r_updatedAt r).

(** The operations Mongoose middleware can be attached to.  A document's
    [save()] and [deleteOne()] run document middleware; the model functions
    [Model.deleteOne()] and [Model.findByIdAndDelete()] (which is
    [findOneAndDelete({ _id })]) run query middleware of their own name. *)
Inductive MiddlewareOp : Type :=
| OpSave
| OpDocumentDeleteOne
| OpQueryDeleteOne
| OpFindOneAndDelete.

(** The body shared by [ratingSchema.post('save')] and
    [ratingSchema.post('deleteOne', { document: true, query: false })]:
    reload the store and recompute; an error is caught and logged. *)
Definition Rating_updateStoreHook (now : Time) (doc : Rating) (db : DB) : DB :=
  match findById s_id (r_storeId doc) (Stores db) with
  | Some store =>
      match Store_updateRating now store db with
      | inr (_, db') => db'
      | inl _ => db
      end
  | None => db
  end.

(** The [post] middleware registered by the Rating schema. *)
Definition Rating_postHooks (op : MiddlewareOp) : list (Time -> Rating -> DB -> DB) :=
  match op with
  | OpSave => [Rating_updateStoreHook]
  | OpDocumentDeleteOne => [Rating_updateStoreHook]
  | OpQueryDeleteOne => []
  | OpFindOneAndDelete => []
  end.

Definition Rating_runPost (op : MiddlewareOp) (now : Time) (doc : Rating) (db : DB) : DB :=
  fold_left (fun d hook => hook now doc d) (Rating_postHooks op) db.

(** [rating.save()]: validation, [pre('save')] stamps [updatedAt], the write
    (the compound unique index on [(userId, storeId)] can refuse it), then
    the [post('save')] middleware. *)
Definition Rating_save (isNew : bool) (now : Time) (doc : Rating) (db : DB)
    : Error + (Rating * DB) :=
  match Rating_validate doc with
  | e :: es => inl (ValidationError (e :: es))
  | [] =>
      let doc' := mkRating (r_id doc) (r_userId doc) (r_storeId doc) (r_rating doc)
                           (r_comment doc) (r_createdAt doc) now in
      if duplicateKey r_id
           (fun o => (r_userId o =? r_userId doc') && (r_storeId o =? r_storeId doc'))
           isNew doc' (Ratings db)
      then inl (MongoError DUPLICATE_KEY)
      else
        let db' := if isNew
                   then bumpId (setRatings (Ratings db ++ [doc']) db)
                   else setRatings (replaceById r_id doc' (Ratings db)) db in
        inr (doc', Rating_runPost OpSave now doc' db')
  end.

(** [Rating.findByIdAndDelete(id)]: the document is removed and the
    [findOneAndDelete] middleware runs. *)
Definition Rating_findByIdAndDelete (now : Time) (i : ObjectId) (db : DB) : DB :=
  match findById r_id i (Ratings db) with
  | Some doc =>
      Rating_runPost OpFindOneAndDelete now doc
        (setRatings (deleteById r_id i (Ratings db)) db)
  | None => db
  end.

(** [Rating.findOne({ userId, storeId })] *)
Definition Rating_findOne (userId storeId : ObjectId) (db : DB) : option Rating :=
  find (fun r => (r_userId r =? userId) && (r_storeId r =? storeId)) (Ratings db).

End StoreModel.

(* ------------------------------------------------------------------ *)
(** ** Documents as JSON *)

(** Stable insertion sort, used for [.sort({ ... })]; [before a b] says that
    [a] may stay in front of [b]. *)
Section Sort.
Variable A : Type.
Variable before : A -> A -> bool.

Fixpoint insertSorted (x : A) (l : list A) : list A :=
  match l with
  | [] => [x]
  | y :: t => if before x y then x :: l else y :: insertSorted x t
  end.

Definition sortBy (l : list A) : list A := fold_right insertSorted [] l.
End Sort.

(** [user.toObject()]; [withPassword] is false for a document loaded with
    [select('-password')]; [storeId] is the (possibly populated) reference. *)
Definition User_toObject (withPassword : bool) (storeId : json) (u : User)
    : list (string * json) :=
  [ ("_id", jnat (u_id u)); ("name", JStr (u_name u)); ("email", JStr (u_email u)) ]
  ++ (if withPassword then [("password", JStr (u_password u))] else [])
  ++ [ ("address", JStr (u_address u)); ("role", JStr (Role_toString (u_role u)));
       ("storeId", storeId); ("isActive", JBool (u_isActive u));
       ("createdAt", jnat (u_createdAt u)); ("updatedAt", jnat (u_updatedAt u));
       ("__v", jnat 0) ].

(** [userSchema.methods.toJSON] *)
Definition User_toJSON (withPassword : bool) (storeId : json) (u : User) : json :=
  let userObject := User_toObject withPassword storeId u in
  JObj (deleteKey "password" userObject).

(** [store.toObject()] with [virtuals: true]; [ownerId] is the (possibly
    populated) reference. *)
Definition Store_toObject (ownerId : json) (s : Store) : list (string * json) :=
  [ ("_id", jnat (s_id s)); ("name", JStr (s_name s)); ("email", JStr (s_email s));
    ("address", JStr (s_address s)); ("ownerId", ownerId);
    ("averageRating", JNum (s_averageRating s)); ("totalRatings", jint (s_totalRatings s));
    ("isActive", JBool (s_isActive s));
    ("createdAt", jnat (s_createdAt s)); ("updatedAt", jnat (s_updatedAt s));
    ("__v", jnat 0); ("id", jnat (s_id s)) ].

(** [rating.toJSON()] with [virtuals: true]. *)
Definition Rating_toObject (userId storeId : json) (r : Rating) : list (string * json) :=
  [ ("_id", jnat (r_id r)); ("userId", userId); ("storeId", storeId);
    ("rating", JNum (r_rating r)); ("comment", JStr (r_comment r));
    ("createdAt", jnat (r_createdAt r)); ("updatedAt", jnat (r_updatedAt r));
    ("__v", jnat 0); ("id", jnat (r_id r)) ].

(** [.populate('storeId', fields)] on a reference to a store. *)
Definition populateStore (fields : list string) (ref : option ObjectId) (db : DB) : json :=
  match ref with
  | Some i =>
      match findById s_id i (Stores db) with
      | Some s => JObj (pick ("id" :: fields) (Store_toObject (jnat (s_ownerId s)) s))
      | None => JNull
      end
  | None => JNull
  end.

(** [.populate('userId', fields)] / [.populate('ownerId', fields)]: the
    user document restricted to [_id] and [fields]. *)
Definition populatedUser (fields : list string) (i : ObjectId) (db : DB)
    : option (list (string * json)) :=
  match findById u_id i (Users db) with
  | Some u => Some (pick fields (User_toObject true (jopt jnat (u_storeId u)) u))
  | None => None
  end.

(** The populated user inside a document sent with [res.json]: serialised by
    the User model's [toJSON]. *)
Definition populateUser (fields : list string) (i : ObjectId) (db : DB) : json :=
  match populatedUser fields i db with
  | Some o => JObj (deleteKey "password" o)
  | None => JNull
  end.

(** [doc.ownerId.toString() === id.toString()] on a populated [ownerId]: the
    text of a document is what [inspect] prints, an object in braces, and
    never the 24 hexadecimal digits of an id; on [null], which [populate]
    leaves when there is no such user, [toString] throws (no answer). *)
Definition populatedIs (populated : option (list (string * json))) (i : ObjectId)
    : option bool :=
  match populated with
  | Some _ => Some false
  | None => None
  end.

(** The populated user inside [store.toObject()]: a plain object. *)
Definition populateUserObject (fields : list string) (i : ObjectId) (db : DB) : json :=
  match populatedUser fields i db with
  | Some o => JObj o
  | None => JNull
  end.

(** What [generateToken(userId, role)] signs. *)
Definition generateToken (userId : ObjectId) (role : Role) (now : Time) : json :=
  JObj [ ("userId", jnat userId); ("role", JStr (Role_toString role)); ("iat", jnat now) ].

(* ------------------------------------------------------------------ *)
(** ** Requests *)

(** The [Authorization] header as [jwt.verify] sees it. *)
Inductive Auth : Type :=
| NoToken
| InvalidToken
| ExpiredToken
| Bearer (userId : ObjectId).

(** An id in the path or body: 24 hexadecimal digits, or anything else. *)
Inductive IdParam : Type :=
| BadId
| Id (i : ObjectId).

(** An integer in the query string: an integer literal, or anything else. *)
Inductive IntParam : Type :=
| NotInt
| Int (z : Z).

Record UserBody : Type := mkUserBody {
  ub_name : option string;
  ub_email : option string;
  ub_password : option string;
  ub_address : option string;
  ub_role : option string
}.

Record UserUpdate : Type := mkUserUpdate {
  uu_name : option string;
  uu_email : option string;
  uu_address : option string;
  uu_role : option string;
  uu_isActive : option bool
}.

Record StoreBody : Type := mkStoreBody {
  sb_name : option string;
  sb_email : option string;
  sb_address : option string;
  sb_ownerId : option IdParam
}.

Record RatingBody : Type := mkRatingBody {
  rb_storeId : option IdParam;
  rb_rating : option Q;
  rb_comment : option string
}.

Record Query : Type := mkQuery {
  q_page : option IntParam;
  q_limit : option IntParam;
  q_name : option string;
  q_email : option string;
  q_address : option string;
  q_role : option string
}.

(** The routes of the four routers. *)
Inductive Call : Type :=
(* routes/auth.js *)
| PostRegister (b : UserBody)
| PostLogin (email password : option string)
| GetProfile
| PatchPassword (currentPassword newPassword : option string)
| GetVerify
| PostLogout
(* routes/users.js *)
| GetDashboardStats
| PostUser (b : UserBody)
| GetUsers (q : Query)
| GetUser (userId : IdParam)
| PutUser (userId : IdParam) (b : UserUpdate)
| DeleteUser (userId : IdParam)
(* routes/ratings.js *)
| PostRating (b : RatingBody)
| GetUserRatingForStore (storeId : IdParam)
| GetStoreRatings (storeId : IdParam)
| GetMyRatings
| PutRating (ratingId : IdParam) (rating : option Q) (comment : option string)
| DeleteRating (ratingId : IdParam)
| GetRatingStats
(* routes/stores.js *)
| PostStore (b : StoreBody)
| GetStores (q : Query)
| GetStore (storeId : IdParam)
| GetStoreDashboard (storeId : IdParam)
| PutStore (storeId : IdParam) (name email address : option string)
| DeleteStore (storeId : IdParam).

Record Request : Type := mkRequest {
  auth : Auth;
  now : Time;
  call : Call
}.

(* ------------------------------------------------------------------ *)
(** ** middleware/validation.js *)

(** One entry of [validationResult(req).array()]. *)
(** An error of express-validator; [fe_value] is the value the validator
    saw, [None] for [undefined] (the field is absent and no sanitizer ran
    before). *)
Record FieldError : Type := mkFieldError {
  fe_path : string;
  fe_msg : string;
  fe_value : option json
}.

(** express-validator's [toString]: an absent field reads as ['']. *)
Definition str (o : option string) : string :=
  match o with Some s => s | None => "" end.

Definition ensure (ok : bool) (path msg : string) (value : option json) : list FieldError :=
  if ok then [] else [mkFieldError path msg value].

(** [.optional()]: the rest of the chain is skipped for an absent field. *)
Definition optional {A} (o : option A) (rest : A -> list FieldError) : list FieldError :=
  match o with Some a => rest a | None => [] end.

(** validator.js [isLength({ min, max })] *)
Definition isLength {ext : Externals} (lo hi : nat) (s : string) : bool :=
  (lo <=? charLength s) && (charLength s <=? hi).

Definition isIn (s : string) (l : list string) : bool := existsb (String.eqb s) l.

(** [isInt({ min, max })] on a JSON number. *)
Definition isIntNum (lo hi : Q) (o : option Q) : bool :=
  match o with
  | Some q => Js.isInteger q && Qle_bool lo q && Qle_bool q hi
  | None => false
  end.

(** [isInt({ min })] and [isInt({ min, max })] on a query parameter. *)
Definition isIntParam (lo : Z) (hi : option Z) (p : IntParam) : bool :=
  match p with
  | Int z => (lo <=? z)%Z && match hi with Some h => (z <=? h)%Z | None => true end
  | NotInt => false
  end.

Definition isMongoId (p : IdParam) : bool :=
  match p with Id _ => true | BadId => false end.

Definition jid (p : IdParam) : json :=
  match p with Id i => jnat i | BadId => JStr "?" end.

Definition roleNames : list string := ["admin"; "user"; "storeOwner"].

Section Validation.
Context {ext : Externals}.

(** Each chain gives the errors [handleValidationErrors] finds and the body
    as its sanitizers ([trim], [normalizeEmail]) leave it. *)

Definition userBodyErrors (roleOptional : bool) (b : UserBody) : list FieldError :=
  ensure (isLength 10 60 (Js.trim (str (ub_name b)))) "name"
         "Name must be between 10 and 60 characters" (Some (JStr (Js.trim (str (ub_name b)))))
  ++ ensure (isEmail (str (ub_email b))) "email"
         "Please provide a valid email address" (option_map JStr (ub_email b))
  ++ ensure (isLength 8 16 (str (ub_password b))) "password"
         "Password must be between 8 and 16 characters" (option_map JStr (ub_password b))
  ++ ensure (passwordPattern (str (ub_password b))) "password"
         "Password must include at least one uppercase letter and one special character"
         (option_map JStr (ub_password b))
  ++ ensure (isLength 1 400 (Js.trim (str (ub_address b)))) "address"
         "Address is required and must not exceed 400 characters"
         (Some (JStr (Js.trim (str (ub_address b)))))
  ++ match ub_role b with
     | Some r => ensure (isIn r roleNames) "role"
                   "Role must be admin, user, or storeOwner" (Some (JStr r))
     | None => if roleOptional then []
               else ensure false "role" "Role must be admin, user, or storeOwner" None
     end.

Definition userBodySanitized (b : UserBody) : UserBody :=
  mkUserBody (Some (Js.trim (str (ub_name b))))
             (Some (normalizeEmail (str (ub_email b))))
             (ub_password b)
             (Some (Js.trim (str (ub_address b))))
             (ub_role b).

Definition validateUserRegistration (b : UserBody) : list FieldError * UserBody :=
  (userBodyErrors true b, userBodySanitized b).

Definition validateAdminUserCreation (b : UserBody) : list FieldError * UserBody :=
  (userBodyErrors false b, userBodySanitized b).

Definition validateUserLogin (email password : option string)
    : list FieldError * (option string * option string) :=
  ((ensure (isEmail (str email)) "email" "Please provide a valid email address" (option_map JStr email)
    ++ ensure (negb (String.eqb (str password) "")) "password" "Password is required"
         (option_map JStr password))%list,
   (Some (normalizeEmail (str email)), password)).

Definition validatePasswordUpdate (currentPassword newPassword : option string)
    : list FieldError :=
  ensure (negb (String.eqb (str currentPassword) "")) "currentPassword"
         "Current password is required" (option_map JStr currentPassword)
  ++ ensure (isLength 8 16 (str newPassword)) "newPassword"
         "New password must be between 8 and 16 characters" (option_map JStr newPassword)
  ++ ensure (passwordPattern (str newPassword)) "newPassword"
         "New password must include at least one uppercase letter and one special character"
         (option_map JStr newPassword).

Definition validateStore (b : StoreBody) : list FieldError * StoreBody :=
  ((ensure (isLength 10 60 (Js.trim (str (sb_name b)))) "name"
          "Store name must be between 10 and 60 characters" (Some (JStr (Js.trim (str (sb_name b)))))
   ++ ensure (isEmail (str (sb_email b))) "email"
          "Please provide a valid email address" (option_map JStr (sb_email b))
   ++ ensure (isLength 1 400 (Js.trim (str (sb_address b)))) "address"
          "Store address is required and must not exceed 400 characters"
          (Some (JStr (Js.trim (str (sb_address b)))))
   ++ optional (sb_ownerId b) (fun o =>
        ensure (isMongoId o) "ownerId" "Invalid owner ID" (Some (jid o))))%list,
   mkStoreBody (Some (Js.trim (str (sb_name b))))
               (Some (normalizeEmail (str (sb_email b))))
               (Some (Js.trim (str (sb_address b))))
               (sb_ownerId b)).

Definition validateRating (b : RatingBody) : list FieldError * RatingBody :=
  ((ensure (isIntNum 1 5 (rb_rating b)) "rating"
          "Rating must be an integer between 1 and 5" (option_map JNum (rb_rating b))
   ++ optional (rb_comment b) (fun c =>
        ensure (isLength 0 500 (Js.trim c)) "comment"
               "Comment must not exceed 500 characters" (Some (JStr (Js.trim c))))
   ++ ensure (match rb_storeId b with Some i => isMongoId i | None => false end) "storeId"
          "Invalid store ID" (option_map jid (rb_storeId b)))%list,
   mkRatingBody (rb_storeId b) (rb_rating b) (option_map Js.trim (rb_comment b))).

Definition jintParam (p : IntParam) : json :=
  match p with Int z => jint z | NotInt => JStr "?" end.

Definition validatePagination (q : Query) : list FieldError :=
  optional (q_page q) (fun p =>
    ensure (isIntParam 1 None p) "page" "Page must be a positive integer" (Some (jintParam p)))
  ++ optional (q_limit q) (fun p =>
    ensure (isIntParam 1 (Some 100%Z) p) "limit" "Limit must be between 1 and 100" (Some (jintParam p))).

Definition validateSearch (q : Query) : list FieldError * Query :=
  ((optional (q_name q) (fun s =>
     ensure (1 <=? charLength (Js.trim s)) "name" "Search name must not be empty"
            (Some (JStr (Js.trim s))))
   ++ optional (q_email q) (fun s =>
     ensure (isEmail s) "email" "Invalid email format" (Some (JStr s)))
   ++ optional (q_address q) (fun s =>
     ensure (1 <=? charLength (Js.trim s)) "address" "Search address must not be empty"
            (Some (JStr (Js.trim s))))
   ++ optional (q_role q) (fun s =>
     ensure (isIn s roleNames) "role" "Invalid role" (Some (JStr s))))%list,
   mkQuery (q_page q) (q_limit q) (option_map Js.trim (q_name q))
           (option_map normalizeEmail (q_email q))
           (option_map Js.trim (q_address q)) (q_role q)).

Definition validateObjectId (paramName : string) (p : IdParam) : list FieldError :=
  ensure (isMongoId p) paramName ("Invalid " ++ paramName) (Some (jid p)).

(** The body sent by [handleValidationErrors]; [JSON.stringify] leaves out
    a [value] that is [undefined]. *)
Definition formattedErrors (errors : list FieldError) : json :=
  JArr (map (fun e => JObj ([ ("field", JStr (fe_path e)); ("message", JStr (fe_msg e)) ]
                            ++ match fe_value e with
                               | Some v => [ ("value", v) ]
                               | None => []
                               end)) errors).

Definition validationFailed (errors : list FieldError) : Response :=
  mkResponse 400 (JObj [ ("message", JStr "Validation failed");
                         ("errors", formattedErrors errors) ]).

End Validation.

(* ------------------------------------------------------------------ *)
(** ** middleware/auth.js *)

(** What the middleware attaches to the request. *)
Record Req : Type := mkReq {
  req_user : option User;
  req_store : option Store
}.

(** A middleware either calls [next()] or sends the response. *)
Inductive Step (A : Type) : Type :=
| Next (a : A)
| Send (r : Response).
Arguments Next {A} a.
Arguments Send {A} r.

Definition jroles (roles : list Role) : json :=
  JArr (map (fun r => JStr (Role_toString r)) roles).

Definition authenticateToken (db : DB) (a : Auth) (req : Req) : Step Req :=
  match a with
  | NoToken => Send (fail 401 "Access denied. No token provided." "NO_TOKEN")
  | InvalidToken => Send (fail 401 "Access denied. Invalid token." "INVALID_TOKEN")
  | ExpiredToken => Send (fail 401 "Access denied. Token expired." "TOKEN_EXPIRED")
  | Bearer userId =>
      match findById u_id userId (Users db) with
      | Some user =>
          if u_isActive user
          then Next (mkReq (Some user) (req_store req))
          else Send (fail 401 "Access denied. User not found or inactive." "USER_NOT_FOUND")
      | None => Send (fail 401 "Access denied. User not found or inactive." "USER_NOT_FOUND")
      end
  end.

Definition authorize (roles : list Role) (req : Req) : Step Req :=
  match req_user req with
  | None => Send (fail 401 "Access denied. User not authenticated." "NOT_AUTHENTICATED")
  | Some user =>
      if negb (existsb (Role_eqb (u_role user)) roles)
      then Send (mkResponse 403
                  (JObj [ ("message", JStr "Access denied. Insufficient permissions.");
                          ("error", JStr "INSUFFICIENT_PERMISSIONS");
                          ("requiredRoles", jroles roles);
                          ("userRole", JStr (Role_toString (u_role user))) ]))
      else Next req
  end.

Definition verifyStoreOwner (db : DB) (storeId : IdParam) (req : Req) : Step Req :=
  let serverError :=
    fail 500 "Server error during store ownership verification" "SERVER_ERROR" in
  match req_user req with
  | None => Send serverError
  | Some user =>
      if Role_eqb (u_role user) RAdmin then Next req
      else if negb (Role_eqb (u_role user) RStoreOwner)
      then Send (fail 403 "Access denied. Only store owners can perform this action."
                      "NOT_STORE_OWNER")
      else
        match storeId with
        | BadId => Send serverError
        | Id i =>
            match findById s_id i (Stores db) with
            | None => Send (fail 404 "Store not found" "STORE_NOT_FOUND")
            | Some store =>
                if negb (s_ownerId store =? u_id user)
                then Send (fail 403 "Access denied. You can only access your own store."
                                "NOT_YOUR_STORE")
                else Next (mkReq (req_user req) (Some store))
            end
        end
  end.

(** The middleware of a route, in the order the router lists them; a
    validation chain is given with the errors it collects. *)
Inductive Middleware : Type :=
| MAuthenticateToken
| MAuthorize (roles : list Role)
| MValidate (errors : list FieldError)
| MVerifyStoreOwner (storeId : IdParam).

Definition runMiddleware (db : DB) (a : Auth) (m : Middleware) (req : Req) : Step Req :=
  match m with
  | MAuthenticateToken => authenticateToken db a req
  | MAuthorize roles => authorize roles req
  | MValidate errors =>
      match errors with
      | [] => Next req
      | _ :: _ => Send (validationFailed errors)
      end
  | MVerifyStoreOwner storeId => verifyStoreOwner db storeId req
  end.

Fixpoint runChain (db : DB) (a : Auth) (ms : list Middleware) (req : Req) : Step Req :=
  match ms with
  | [] => Next req
  | m :: rest =>
      match runMiddleware db a m req with
      | Next req' => runChain db a rest req'
      | Send r => Send r
      end
  end.

(* ------------------------------------------------------------------ *)
(** ** Route handlers *)

(** The body of the [error.name === 'ValidationError'] branch of a handler's
    [catch]. *)
Definition mongooseValidationFailed (errors : list (string * string)) : Response :=
  mkResponse 400
    (JObj [ ("message", JStr "Validation failed");
            ("errors", JArr (map (fun e => JObj [ ("field", JStr (fst e));
                                                  ("message", JStr (snd e)) ]) errors)) ]).

Definition ok (fields : list (string * json)) : Response := mkResponse 200 (JObj fields).
Definition created (fields : list (string * json)) : Response := mkResponse 201 (JObj fields).

(** [parseInt(value) || dflt] on a validated query parameter. *)
Definition parseIntOr (dflt : Z) (p : option IntParam) : Z :=
  match p with
  | Some (Int z) => if (z =? 0)%Z then dflt else z
  | _ => dflt
  end.

(** [Math.ceil(a / b)] for [a >= 0], [b > 0]. *)
Definition ceilDiv (a b : Z) : Z := ((a + b - 1) / b)%Z.

Definition pagination (page limit totalCount : Z) : json :=
  let totalPages := ceilDiv totalCount limit in
  JObj [ ("currentPage", jint page); ("totalPages", jint totalPages);
         ("totalCount", jint totalCount);
         ("hasNextPage", JBool (page <? totalPages)%Z);
         ("hasPrevPage", JBool (1 <? page)%Z) ].

Definition paginate {A} (page limit : Z) (l : list A) : list A :=
  firstn (Z.to_nat limit) (skipn (Z.to_nat ((page - 1) * limit)) l).

Section AuthRoutes.
Context {ext : Externals}.

(** *** routes/auth.js *)

(** The user summary of the register and create-user responses. *)
Definition userSummary (u : User) : json :=
  JObj [ ("id", jnat (u_id u)); ("name", JStr (u_name u)); ("email", JStr (u_email u));
         ("address", JStr (u_address u)); ("role", JStr (Role_toString (u_role u)));
         ("createdAt", jnat (u_createdAt u)) ].

(** The part shared by [POST /api/auth/register] and [POST /api/users]:
    find, construct, save, and answer; [token] is what the register route
    adds to its answer. *)
Definition createUser (db : DB) (now : Time) (b : UserBody) (role : Role)
    (okMessage errMessage : string) (withToken : bool) : DB * Response :=
  let email := str (ub_email b) in
  match find (fun u => String.eqb (u_email u) email) (Users db) with
  | Some _ => (db, fail 400 "User already exists with this email" "USER_EXISTS")
  | None =>
      let user := User_new db now (str (ub_name b)) email (str (ub_password b))
                           (str (ub_address b)) role in
      match User_save true true now user db with
      | inr (user', db') =>
          (db', created ([ ("message", JStr okMessage) ]
                         ++ (if withToken
                             then [ ("token", generateToken (u_id user') (u_role user') now) ]
                             else [])
                         ++ [ ("user", userSummary user') ]))
      | inl (ValidationError errors) => (db, mongooseValidationFailed errors)
      | inl (MongoError code) =>
          if (code =? DUPLICATE_KEY)%Z
          then (db, fail 400 "User already exists with this email" "DUPLICATE_EMAIL")
          else (db, fail 500 errMessage "SERVER_ERROR")
      end
  end.

(** [POST /api/auth/register] *)
Definition auth_register (db : DB) (now : Time) (b : UserBody) : DB * Response :=
  createUser db now b RUser "User registered successfully"
             "Server error during registration" true.

(** [POST /api/auth/login] *)
Definition auth_login (db : DB) (now : Time) (email password : option string)
    : DB * Response :=
  match find (fun u => String.eqb (u_email u) (str email)) (Users db) with
  | None => (db, fail 401 "Invalid email or password" "INVALID_CREDENTIALS")
  | Some user =>
      if negb (u_isActive user)
      then (db, fail 401 "Invalid email or password" "INVALID_CREDENTIALS")
      else if negb (User_comparePassword user (str password))
      then (db, fail 401 "Invalid email or password" "INVALID_CREDENTIALS")
      else
        (db, ok [ ("message", JStr "Login successful");
                  ("token", generateToken (u_id user) (u_role user) now);
                  ("user", JObj [ ("id", jnat (u_id user)); ("name", JStr (u_name user));
                                  ("email", JStr (u_email user));
                                  ("address", JStr (u_address user));
                                  ("role", JStr (Role_toString (u_role user)));
                                  ("storeId", jopt jnat (u_storeId user)) ]) ])
  end.

(** [GET /api/auth/profile] *)
Definition auth_profile (db : DB) (reqUser : User) : DB * Response :=
  let user := findById u_id (u_id reqUser) (Users db) in
  (db, ok [ ("message", JStr "Profile retrieved successfully");
            ("user", jopt (fun u =>
                User_toJSON true
                  (populateStore ["name"; "email"; "address"; "averageRating"] (u_storeId u) db)
                  u) user) ]).

(** [PATCH /api/auth/password] *)
Definition auth_password (db : DB) (now : Time) (reqUser : User)
    (currentPassword newPassword : option string) : DB * Response :=
  match findById u_id (u_id reqUser) (Users db) with
  | None => (db, fail 404 "User not found" "USER_NOT_FOUND")
  | Some user =>
      if negb (User_comparePassword user (str currentPassword))
      then (db, fail 400 "Current password is incorrect" "INVALID_CURRENT_PASSWORD")
      else
        let modified := negb (String.eqb (str newPassword) (u_password user)) in
        let user' := mkUser (u_id user) (u_name user) (u_email user) (str newPassword)
                            (u_address user) (u_role user) (u_storeId user)
                            (u_isActive user) (u_createdAt user) (u_updatedAt user) in
        match User_save false modified now user' db with
        | inr (_, db') => (db', ok [ ("message", JStr "Password updated successfully") ])
        | inl (ValidationError errors) => (db, mongooseValidationFailed errors)
        | inl (MongoError _) =>
            (db, fail 500 "Server error during password update" "SERVER_ERROR")
        end
  end.

(** [GET /api/auth/verify]: [req.user] was loaded with [select('-password')]. *)
Definition auth_verify (db : DB) (reqUser : User) : DB * Response :=
  (db, ok [ ("message", JStr "Token is valid");
            ("user", User_toJSON false (jopt jnat (u_storeId reqUser)) reqUser) ]).

(** [POST /api/auth/logout] *)
Definition auth_logout (db : DB) : DB * Response :=
  (db, ok [ ("message", JStr "Logout successful") ]).

End AuthRoutes.

Section UserRoutes.
Context {ext : Externals}.

(** *** routes/users.js *)

(** [GET /api/users/dashboard/stats] *)
Definition users_dashboardStats (db : DB) : DB * Response :=
  (db, ok [ ("message", JStr "Dashboard statistics retrieved successfully");
            ("stats", JObj [ ("totalUsers", jnat (List.length (filter u_isActive (Users db))));
                             ("totalStores", jnat (List.length (filter s_isActive (Stores db))));
                             ("totalRatings", jnat (List.length (Ratings db))) ]) ]).

(** [POST /api/users] *)
Definition users_create (db : DB) (now : Time) (b : UserBody) : DB * Response :=
  match Role_ofString (str (ub_role b)) with
  | Some role =>
      createUser db now b role "User created successfully"
                 "Server error during user creation" false
  | None =>
      match find (fun u => String.eqb (u_email u) (str (ub_email b))) (Users db) with
      | Some _ => (db, fail 400 "User already exists with this email" "USER_EXISTS")
      | None => (db, mongooseValidationFailed [("role", enumMessage (str (ub_role b)) "role")])
      end
  end.

(** An optional [$regex] condition of a filter. *)
Definition regexFilter (pattern : option string) (value : string) : bool :=
  if Js.truthyStr pattern then regexMatch (str pattern) value else true.

Definition newestFirst (created : Time) (created' : Time) : bool := created' <=? created.

(** [GET /api/users] *)
Definition users_list (db : DB) (q : Query) : DB * Response :=
  let page := parseIntOr 1 (q_page q) in
  let limit := parseIntOr 10 (q_limit q) in
  let filter_ (u : User) :=
    u_isActive u
    && regexFilter (q_name q) (u_name u)
    && regexFilter (q_email q) (u_email u)
    && regexFilter (q_address q) (u_address u)
    && (if Js.truthyStr (q_role q)
        then String.eqb (Role_toString (u_role u)) (str (q_role q)) else true) in
  let found := filter filter_ (Users db) in
  let users :=
    paginate page limit
      (sortBy (fun a b => newestFirst (u_createdAt a) (u_createdAt b)) found) in
  (db, ok [ ("message", JStr "Users retrieved successfully");
            ("users", JArr (map (fun u =>
                User_toJSON false (populateStore ["name"; "averageRating"] (u_storeId u) db) u)
                users));
            ("pagination", pagination page limit (Z.of_nat (List.length found))) ]).

(** [Rating.find({ storeId }).populate('userId', fields).sort({ createdAt: -1 })] *)
Definition ratingsOfStore (db : DB) (storeId : ObjectId) : list Rating :=
  sortBy (fun a b => newestFirst (r_createdAt a) (r_createdAt b))
         (filter (fun r => r_storeId r =? storeId) (Ratings db)).

Definition ratingWithUser (db : DB) (fields : list string) (storeId : json) (r : Rating)
    : json :=
  JObj (Rating_toObject (populateUser fields (r_userId r) db) storeId r).

(** [GET /api/users/:userId] *)
Definition users_get (db : DB) (userId : ObjectId) : DB * Response :=
  match findById u_id userId (Users db) with
  | None => (db, fail 404 "User not found" "USER_NOT_FOUND")
  | Some user =>
      if negb (u_isActive user) then (db, fail 404 "User not found" "USER_NOT_FOUND")
      else
        let fields := ["name"; "email"; "address"; "averageRating"; "totalRatings"] in
        let populated :=
          match u_storeId user with
          | Some i => findById s_id i (Stores db)
          | None => None
          end in
        let additionalData :=
          match populated with
          | Some store =>
              if Role_eqb (u_role user) RStoreOwner
              then
                let ratings := filter (fun r => r_storeId r =? s_id store) (Ratings db) in
                let recentRatings := firstn 5 (ratingsOfStore db (s_id store)) in
                [ ("store",
                   JObj (pick ("id" :: fields) (Store_toObject (jnat (s_ownerId store)) store)
                         ++ [ ("ratingsCount", jnat (List.length ratings));
                              ("recentRatings",
                               JArr (map (fun r => ratingWithUser db ["name"; "email"]
                                                     (jnat (r_storeId r)) r)
                                         recentRatings)) ])) ]
              else []
          | None => []
          end in
        (db, ok ([ ("message", JStr "User retrieved successfully");
                   ("user", User_toJSON false (populateStore fields (u_storeId user) db) user) ]
                 ++ additionalData))
  end.

(** [PUT /api/users/:userId] *)
Definition users_update (db : DB) (now : Time) (userId : ObjectId) (b : UserUpdate)
    : DB * Response :=
  match findById u_id userId (Users db) with
  | None => (db, fail 404 "User not found" "USER_NOT_FOUND")
  | Some user =>
      if Js.truthyStr (uu_email b)
         && negb (String.eqb (str (uu_email b)) (u_email user))
         && existsb (fun o => String.eqb (u_email o) (castEmail (str (uu_email b)))
                              && negb (u_id o =? u_id user)) (Users db)
      then (db, fail 400 "Email already exists" "EMAIL_EXISTS")
      else
        let name := if Js.truthyStr (uu_name b) then Js.trim (str (uu_name b)) else u_name user in
        let email := if Js.truthyStr (uu_email b) then Js.toLowerCase (str (uu_email b))
                     else u_email user in
        let address := if Js.truthyStr (uu_address b) then Js.trim (str (uu_address b))
                       else u_address user in
        let isActive := match uu_isActive b with Some v => v | None => u_isActive user end in
        let role := if Js.truthyStr (uu_role b) then Role_ofString (str (uu_role b))
                    else Some (u_role user) in
        match role with
        | None =>
            let user' := mkUser (u_id user) name email (u_password user) address (u_role user)
                                (u_storeId user) isActive (u_createdAt user) (u_updatedAt user) in
            (db, mongooseValidationFailed
                   (User_validate user' ++ [("role", enumMessage (str (uu_role b)) "role")]))
        | Some role =>
            let user' := mkUser (u_id user) name email (u_password user) address role
                                (u_storeId user) isActive (u_createdAt user) (u_updatedAt user) in
            match User_save false false now user' db with
            | inr (saved, db') =>
                (db', ok [ ("message", JStr "User updated successfully");
                           ("user", JObj [ ("id", jnat (u_id saved)); ("name", JStr (u_name saved));
                                           ("email", JStr (u_email saved));
                                           ("address", JStr (u_address saved));
                                           ("role", JStr (Role_toString (u_role saved)));
                                           ("isActive", JBool (u_isActive saved));
                                           ("updatedAt", jnat (u_updatedAt saved)) ]) ])
            | inl (ValidationError errors) => (db, mongooseValidationFailed errors)
            | inl (MongoError _) => (db, fail 500 "Server error updating user" "SERVER_ERROR")
            end
        end
  end.

(** [DELETE /api/users/:userId]: soft delete. *)
Definition users_delete (db : DB) (now : Time) (userId : ObjectId) : DB * Response :=
  match findById u_id userId (Users db) with
  | None => (db, fail 404 "User not found" "USER_NOT_FOUND")
  | Some user =>
      let user' := mkUser (u_id user) (u_name user) (u_email user) (u_password user)
                          (u_address user) (u_role user) (u_storeId user) false
                          (u_createdAt user) (u_updatedAt user) in
      match User_save false false now user' db with
      | inr (_, db') => (db', ok [ ("message", JStr "User deleted successfully") ])
      | inl _ => (db, fail 500 "Server error deleting user" "SERVER_ERROR")
      end
  end.

End UserRoutes.

Section RatingRoutes.
Context {ext : Externals}.

(** *** routes/ratings.js *)

(** The rating summary of the submit and update responses; [stamp] names
    the timestamp the response carries. *)
Definition ratingSummary (stamp : string) (t : Time) (r : Rating) : json :=
  JObj [ ("id", jnat (r_id r)); ("rating", JNum (r_rating r));
         ("comment", JStr (r_comment r)); ("storeId", jnat (r_storeId r));
         (stamp, jnat t) ].

(** The [catch] of the submit and update handlers. *)
Definition ratingSaveFailed (db : DB) (e : Error) (message : string) : DB * Response :=
  match e with
  | ValidationError errors => (db, mongooseValidationFailed errors)
  | MongoError _ => (db, fail 500 message "SERVER_ERROR")
  end.

(** [POST /api/ratings]: submit or update the caller's rating of a store. *)
Definition ratings_submit (db : DB) (now : Time) (user : User) (b : RatingBody)
    : DB * Response :=
  let serverError := "Server error during rating submission" in
  let comment := match rb_comment b with Some c => c | None => "" end in
  match rb_storeId b, rb_rating b with
  | Some BadId, _ => (db, fail 500 serverError "SERVER_ERROR")
  | None, _ => (db, fail 404 "Store not found" "STORE_NOT_FOUND")
  | Some (Id storeId), rating =>
      match findById s_id storeId (Stores db) with
      | None => (db, fail 404 "Store not found" "STORE_NOT_FOUND")
      | Some store =>
          if negb (s_isActive store) then (db, fail 404 "Store not found" "STORE_NOT_FOUND")
          else
            match rating with
            | None => (db, mongooseValidationFailed [("rating", "Rating is required")])
            | Some rating =>
                match Rating_findOne (u_id user) storeId db with
                | Some existingRating =>
                    let existingRating :=
                      Rating_setComment comment (Rating_setRating rating existingRating) in
                    match Rating_save false now existingRating db with
                    | inr (saved, db') =>
                        (db', ok [ ("message", JStr "Rating updated successfully");
                                   ("rating", ratingSummary "updatedAt" (r_updatedAt saved) saved) ])
                    | inl e => ratingSaveFailed db e serverError
                    end
                | None =>
                    let newRating := Rating_new db now (u_id user) storeId rating comment in
                    match Rating_save true now newRating db with
                    | inr (saved, db') =>
                        (db', created
                                [ ("message", JStr "Rating submitted successfully");
                                  ("rating", ratingSummary "createdAt" (r_createdAt saved) saved) ])
                    | inl e => ratingSaveFailed db e serverError
                    end
                end
            end
      end
  end.

(** [GET /api/ratings/store/:storeId/user] *)
Definition ratings_mine (db : DB) (user : User) (storeId : ObjectId) : DB * Response :=
  match Rating_findOne (u_id user) storeId db with
  | None => (db, fail 404 "No rating found for this store" "RATING_NOT_FOUND")
  | Some rating =>
      (db, ok [ ("message", JStr "Rating retrieved successfully");
                ("rating", JObj (Rating_toObject (jnat (r_userId rating))
                                   (populateStore ["name"; "averageRating"]
                                                  (Some (r_storeId rating)) db)
                                   rating)) ])
  end.

(** [GET /api/ratings/store/:storeId] *)
Definition ratings_ofStore (db : DB) (user : User) (storeId : ObjectId) : DB * Response :=
  let denied :=
    match u_role user with
    | RStoreOwner =>
        match findById s_id storeId (Stores db) with
        | Some store => negb (s_ownerId store =? u_id user)
        | None => true
        end
    | _ => false
    end in
  if denied
  then (db, fail 403 "Access denied. You can only view ratings for your own store."
                 "ACCESS_DENIED")
  else
    let ratings := ratingsOfStore db storeId in
    (db, ok [ ("message", JStr "Store ratings retrieved successfully");
              ("ratings", JArr (map (fun r =>
                  ratingWithUser db ["name"; "email"]
                                 (populateStore ["name"] (Some (r_storeId r)) db) r) ratings));
              ("totalRatings", jnat (List.length ratings)) ]).

(** [GET /api/ratings/user/my-ratings] *)
Definition ratings_ofUser (db : DB) (user : User) : DB * Response :=
  let ratings :=
    sortBy (fun a b => newestFirst (r_createdAt a) (r_createdAt b))
           (filter (fun r => r_userId r =? u_id user) (Ratings db)) in
  (db, ok [ ("message", JStr "User ratings retrieved successfully");
            ("ratings", JArr (map (fun r =>
                JObj (Rating_toObject (jnat (r_userId r))
                        (populateStore ["name"; "email"; "address"; "averageRating"]
                                       (Some (r_storeId r)) db) r)) ratings));
            ("totalRatings", jnat (List.length ratings)) ]).

(** [PUT /api/ratings/:ratingId] *)
Definition ratings_update (db : DB) (now : Time) (user : User) (ratingId : ObjectId)
    (rating : option Q) (comment : option string) : DB * Response :=
  let comment := match comment with Some c => c | None => "" end in
  let truthy := match rating with Some q => Js.truthyNum q | None => false end in
  let invalid :=
    match rating with
    | Some q => Js.truthyNum q && (Js.lt q 1 || Js.gt q 5 || negb (Js.isInteger q))
    | None => false
    end in
  if invalid
  then (db, fail 400 "Rating must be an integer between 1 and 5" "INVALID_RATING")
  else
    match findById r_id ratingId (Ratings db) with
    | None => (db, fail 404 "Rating not found" "RATING_NOT_FOUND")
    | Some existingRating =>
        if negb (r_userId existingRating =? u_id user)
        then (db, fail 403 "Access denied. You can only update your own ratings."
                       "ACCESS_DENIED")
        else
          let existingRating :=
            match rating with
            | Some q => if truthy then Rating_setRating q existingRating else existingRating
            | None => existingRating
            end in
          let existingRating := Rating_setComment comment existingRating in
          match Rating_save false now existingRating db with
          | inr (saved, db') =>
              (db', ok [ ("message", JStr "Rating updated successfully");
                         ("rating", ratingSummary "updatedAt" (r_updatedAt saved) saved) ])
          | inl e => ratingSaveFailed db e "Server error updating rating"
          end
    end.

(** [DELETE /api/ratings/:ratingId] *)
Definition ratings_delete (db : DB) (now : Time) (user : User) (ratingId : ObjectId)
    : DB * Response :=
  match findById r_id ratingId (Ratings db) with
  | None => (db, fail 404 "Rating not found" "RATING_NOT_FOUND")
  | Some rating =>
      let canDelete :=
        Role_eqb (u_role user) RAdmin
        || (Role_eqb (u_role user) RUser && (r_userId rating =? u_id user)) in
      if negb canDelete
      then (db, fail 403 "Access denied. You can only delete your own ratings."
                     "ACCESS_DENIED")
      else
        (Rating_findByIdAndDelete now ratingId db,
         ok [ ("message", JStr "Rating deleted successfully") ])
  end.

(** [GET /api/ratings/stats/overview] *)
Definition ratings_stats (db : DB) : DB * Response :=
  let values := map r_rating (Ratings db) in
  let count (k : Z) := jnat (List.length (filter (fun q => Qeq_bool q (inject_Z k)) values)) in
  let topStores :=
    firstn 10
      (sortBy (fun a b =>
                 Js.gt (s_averageRating a) (s_averageRating b)
                 || (Qeq_bool (s_averageRating a) (s_averageRating b)
                     && (s_totalRatings b <=? s_totalRatings a)%Z))
              (filter s_isActive (Stores db))) in
  (db, ok [ ("message", JStr "Rating statistics retrieved successfully");
            ("stats",
             JObj [ ("totalRatings", jnat (List.length values));
                    ("overallAverageRating",
                     match values with
                     | [] => JNum 0
                     | _ => JNum (inject_Z (Js.Math_round
                                    (sumQ values / inject_Z (Z.of_nat (List.length values)) * 10))
                                  / 10)%Q
                     end);
                    ("ratingDistribution",
                     JObj [ ("1", count 1%Z); ("2", count 2%Z); ("3", count 3%Z);
                            ("4", count 4%Z); ("5", count 5%Z) ]);
                    ("topStores",
                     JArr (map (fun s =>
                             JObj (pick ["id"; "name"; "averageRating"; "totalRatings"]
                                        (Store_toObject (jnat (s_ownerId s)) s)))
                               topStores)) ]) ]).

End RatingRoutes.

Section StoreRoutes.
Context {ext : Externals}.

(** *** routes/stores.js *)

(** [{ rating, comment, ratingId }] or [null]. *)
Definition userRatingSummary (o : option Rating) : json :=
  jopt (fun r => JObj [ ("rating", JNum (r_rating r)); ("comment", JStr (r_comment r));
                        ("ratingId", jnat (r_id r)) ]) o.

(** [POST /api/stores] *)
Definition stores_create (db : DB) (now : Time) (b : StoreBody) : DB * Response :=
  let serverError := fail 500 "Server error during store creation" "SERVER_ERROR" in
  let email := str (sb_email b) in
  match find (fun s => String.eqb (s_email s) email) (Stores db) with
  | Some _ => (db, fail 400 "Store already exists with this email" "STORE_EXISTS")
  | None =>
      let owner :=
        match sb_ownerId b with
        | Some (Id i) => findById u_id i (Users db)
        | _ => None
        end in
      match sb_ownerId b, owner with
      | Some BadId, _ => (db, serverError)
      | _, None => (db, fail 400 "Invalid store owner" "INVALID_OWNER")
      | _, Some owner =>
          if negb (Role_eqb (u_role owner) RStoreOwner)
          then (db, fail 400 "Invalid store owner" "INVALID_OWNER")
          else
            match find (fun s => s_ownerId s =? u_id owner) (Stores db) with
            | Some _ => (db, fail 400 "Store owner already has a store" "OWNER_HAS_STORE")
            | None =>
                let store := Store_new db now (str (sb_name b)) email (str (sb_address b))
                                       (u_id owner) in
                let failed (d : DB) (e : Error) : DB * Response :=
                  match e with
                  | ValidationError errors => (d, mongooseValidationFailed errors)
                  | MongoError code =>
                      if (code =? DUPLICATE_KEY)%Z
                      then (d, fail 400 "Store already exists with this email" "DUPLICATE_EMAIL")
                      else (d, serverError)
                  end in
                match Store_save true now store db with
                | inl e => failed db e
                | inr (store', db1) =>
                    let owner' := mkUser (u_id owner) (u_name owner) (u_email owner)
                                         (u_password owner) (u_address owner) (u_role owner)
                                         (Some (s_id store')) (u_isActive owner)
                                         (u_createdAt owner) (u_updatedAt owner) in
                    match User_save false false now owner' db1 with
                    | inl e => failed db1 e
                    | inr (_, db2) =>
                        (db2, created
                           [ ("message", JStr "Store created successfully");
                             ("store",
                              JObj [ ("id", jnat (s_id store')); ("name", JStr (s_name store'));
                                     ("email", JStr (s_email store'));
                                     ("address", JStr (s_address store'));
                                     ("ownerId", jnat (s_ownerId store'));
                                     ("averageRating", JNum (s_averageRating store'));
                                     ("totalRatings", jint (s_totalRatings store'));
                                     ("createdAt", jnat (s_createdAt store')) ]) ])
                    end
                end
            end
      end
  end.

(** [GET /api/stores] *)
Definition stores_list (db : DB) (user : User) (q : Query) : DB * Response :=
  let page := parseIntOr 1 (q_page q) in
  let limit := parseIntOr 10 (q_limit q) in
  let filter_ (s : Store) :=
    s_isActive s && regexFilter (q_name q) (s_name s)
    && regexFilter (q_address q) (s_address s) in
  let populateOptions :=
    if Role_eqb (u_role user) RAdmin then ["name"; "email"; "address"; "role"]
    else ["name"; "email"] in
  let found := filter filter_ (Stores db) in
  let stores :=
    paginate page limit
      (sortBy (fun a b => newestFirst (s_createdAt a) (s_createdAt b)) found) in
  let storesWithUserRatings :=
    if Role_eqb (u_role user) RUser
    then
      let userRatings :=
        filter (fun r => (r_userId r =? u_id user)
                         && existsb (fun s => s_id s =? r_storeId r) stores) (Ratings db) in
      map (fun s =>
             let userRating := find (fun r => r_storeId r =? s_id s) (rev userRatings) in
             JObj (Store_toObject (populateUserObject populateOptions (s_ownerId s) db) s
                   ++ [ ("userRating", userRatingSummary userRating) ]))
          stores
    else
      map (fun s => JObj (Store_toObject (populateUser populateOptions (s_ownerId s) db) s))
          stores in
  (db, ok [ ("message", JStr "Stores retrieved successfully");
            ("stores", JArr storesWithUserRatings);
            ("pagination", pagination page limit (Z.of_nat (List.length found))) ]).

(** [GET /api/stores/:storeId] *)
Definition stores_get (db : DB) (user : User) (storeId : ObjectId) : DB * Response :=
  match findById s_id storeId (Stores db) with
  | None => (db, fail 404 "Store not found" "STORE_NOT_FOUND")
  | Some store =>
      if negb (s_isActive store) then (db, fail 404 "Store not found" "STORE_NOT_FOUND")
      else
        let forUser :=
          if Role_eqb (u_role user) RUser
          then [ ("userRating", userRatingSummary (Rating_findOne (u_id user) (s_id store) db)) ]
          else [] in
        let ownStore :=
          if Role_eqb (u_role user) RStoreOwner
          then populatedIs (populatedUser ["name"; "email"; "address"] (s_ownerId store) db)
                           (u_id user)
          else Some false in
        match ownStore with
        | None => (db, fail 500 "Server error retrieving store" "SERVER_ERROR")
        | Some ownStore =>
            let forOwner :=
              if ownStore || Role_eqb (u_role user) RAdmin
              then [ ("ratings",
                      JArr (map (fun r => ratingWithUser db ["name"; "email"]
                                                         (jnat (r_storeId r)) r)
                                (firstn 20 (ratingsOfStore db (s_id store))))) ]
              else [] in
            (db, ok ([ ("message", JStr "Store retrieved successfully");
                       ("store", JObj (Store_toObject
                                         (populateUser ["name"; "email"; "address"]
                                                       (s_ownerId store) db)
                                         store)) ]
                     ++ forUser ++ forOwner))
        end
  end.

(** [GET /api/stores/:storeId/dashboard]; [req.store] is set by
    [verifyStoreOwner] for a store owner. *)
Definition stores_dashboard (db : DB) (req : Req) : DB * Response :=
  match req_store req with
  | None => (db, fail 500 "Server error retrieving store dashboard" "SERVER_ERROR")
  | Some store =>
      let ratings := ratingsOfStore db (s_id store) in
      let count (k : Z) :=
        jnat (List.length (filter (fun r => Qeq_bool (r_rating r) (inject_Z k)) ratings)) in
      (db, ok [ ("message", JStr "Store dashboard retrieved successfully");
                ("dashboard",
                 JObj [ ("store",
                         JObj [ ("id", jnat (s_id store)); ("name", JStr (s_name store));
                                ("email", JStr (s_email store));
                                ("address", JStr (s_address store));
                                ("averageRating", JNum (s_averageRating store));
                                ("totalRatings", jint (s_totalRatings store)) ]);
                        ("ratingDistribution",
                         JObj [ ("1", count 1%Z); ("2", count 2%Z); ("3", count 3%Z);
                                ("4", count 4%Z); ("5", count 5%Z) ]);
                        ("recentRatings",
                         JArr (map (fun r => ratingWithUser db ["name"; "email"; "address"]
                                               (jnat (r_storeId r)) r)
                                   (firstn 10 ratings)));
                        ("totalRaters", jnat (List.length ratings)) ]) ])
  end.

(** [PUT /api/stores/:storeId] *)
Definition stores_update (db : DB) (now : Time) (storeId : ObjectId)
    (name email address : option string) : DB * Response :=
  match findById s_id storeId (Stores db) with
  | None => (db, fail 404 "Store not found" "STORE_NOT_FOUND")
  | Some store =>
      if Js.truthyStr email
         && negb (String.eqb (str email) (s_email store))
         && existsb (fun o => String.eqb (s_email o) (castEmail (str email))
                              && negb (s_id o =? s_id store)) (Stores db)
      then (db, fail 400 "Email already exists" "EMAIL_EXISTS")
      else
        let store' :=
          mkStore (s_id store)
                  (if Js.truthyStr name then Js.trim (str name) else s_name store)
                  (if Js.truthyStr email then Js.toLowerCase (str email) else s_email store)
                  (if Js.truthyStr address then Js.trim (str address) else s_address store)
                  (s_ownerId store) (s_averageRating store) (s_totalRatings store)
                  (s_isActive store) (s_createdAt store) (s_updatedAt store) in
        match Store_save false now store' db with
        | inr (saved, db') =>
            (db', ok [ ("message", JStr "Store updated successfully");
                       ("store",
                        JObj [ ("id", jnat (s_id saved)); ("name", JStr (s_name saved));
                               ("email", JStr (s_email saved));
                               ("address", JStr (s_address saved));
                               ("averageRating", JNum (s_averageRating saved));
                               ("totalRatings", jint (s_totalRatings saved));
                               ("updatedAt", jnat (s_updatedAt saved)) ]) ])
        | inl (ValidationError errors) => (db, mongooseValidationFailed errors)
        | inl (MongoError _) => (db, fail 500 "Server error updating store" "SERVER_ERROR")
        end
  end.

(** [DELETE /api/stores/:storeId]: soft delete, then the owner's [storeId]
    is cleared. *)
Definition stores_delete (db : DB) (now : Time) (storeId : ObjectId) : DB * Response :=
  match findById s_id storeId (Stores db) with
  | None => (db, fail 404 "Store not found" "STORE_NOT_FOUND")
  | Some store =>
      let store' := mkStore (s_id store) (s_name store) (s_email store) (s_address store)
                            (s_ownerId store) (s_averageRating store) (s_totalRatings store)
                            false (s_createdAt store) (s_updatedAt store) in
      match Store_save false now store' db with
      | inr (saved, db') =>
          (User_clearStoreId (s_ownerId saved) db',
           ok [ ("message", JStr "Store deleted successfully") ])
      | inl _ => (db, fail 500 "Server error deleting store" "SERVER_ERROR")
      end
  end.

End StoreRoutes.

(* ------------------------------------------------------------------ *)
(** ** The routers *)

Section Router.
Context {ext : Externals}.

Definition adminOnly (validation : list FieldError) : list Middleware :=
  [MAuthenticateToken; MAuthorize [RAdmin]; MValidate validation].

(** The middleware each route lists before its handler. *)
Definition chain (c : Call) : list Middleware :=
  match c with
  | PostRegister b => [MValidate (fst (validateUserRegistration b))]
  | PostLogin email password => [MValidate (fst (validateUserLogin email password))]
  | GetProfile => [MAuthenticateToken]
  | PatchPassword currentPassword newPassword =>
      [MAuthenticateToken; MValidate (validatePasswordUpdate currentPassword newPassword)]
  | GetVerify => [MAuthenticateToken]
  | PostLogout => [MAuthenticateToken]
  | GetDashboardStats => [MAuthenticateToken; MAuthorize [RAdmin]]
  | PostUser b => adminOnly (fst (validateAdminUserCreation b))
  | GetUsers q =>
      [MAuthenticateToken; MAuthorize [RAdmin]; MValidate (validatePagination q);
       MValidate (fst (validateSearch q))]
  | GetUser userId => adminOnly (validateObjectId "userId" userId)
  | PutUser userId _ => adminOnly (validateObjectId "userId" userId)
  | DeleteUser userId => adminOnly (validateObjectId "userId" userId)
  | PostRating b =>
      [MAuthenticateToken; MAuthorize [RUser]; MValidate (fst (validateRating b))]
  | GetUserRatingForStore storeId =>
      [MAuthenticateToken; MAuthorize [RUser]; MValidate (validateObjectId "storeId" storeId)]
  | GetStoreRatings storeId =>
      [MAuthenticateToken; MAuthorize [RAdmin; RStoreOwner];
       MValidate (validateObjectId "storeId" storeId)]
  | GetMyRatings => [MAuthenticateToken; MAuthorize [RUser]]
  | PutRating ratingId _ _ =>
      [MAuthenticateToken; MAuthorize [RUser]; MValidate (validateObjectId "ratingId" ratingId)]
  | DeleteRating ratingId =>
      [MAuthenticateToken; MValidate (validateObjectId "ratingId" ratingId)]
  | GetRatingStats => [MAuthenticateToken; MAuthorize [RAdmin]]
  | PostStore b => adminOnly (fst (validateStore b))
  | GetStores q =>
      [MAuthenticateToken; MValidate (validatePagination q); MValidate (fst (validateSearch q))]
  | GetStore storeId => [MAuthenticateToken; MValidate (validateObjectId "storeId" storeId)]
  | GetStoreDashboard storeId =>
      [MAuthenticateToken; MAuthorize [RStoreOwner; RAdmin]; MVerifyStoreOwner storeId]
  | PutStore storeId _ _ _ => adminOnly (validateObjectId "storeId" storeId)
  | DeleteStore storeId => adminOnly (validateObjectId "storeId" storeId)
  end.

(** The handler of each route, on the request as the middleware left it.
    A handler that reads [req.user] or casts an id that is not one throws,
    and its [catch] answers 500 (no route gets there: [authenticateToken]
    and [validateObjectId] come first). *)
Definition handler (db : DB) (now : Time) (req : Req) (c : Call) : DB * Response :=
  let withUser (message : string) (k : User -> DB * Response) : DB * Response :=
    match req_user req with
    | Some user => k user
    | None => (db, fail 500 message "SERVER_ERROR")
    end in
  let withId (message : string) (p : IdParam) (k : ObjectId -> DB * Response)
      : DB * Response :=
    match p with
    | Id i => k i
    | BadId => (db, fail 500 message "SERVER_ERROR")
    end in
  match c with
  | PostRegister b => auth_register db now (snd (validateUserRegistration b))
  | PostLogin email password =>
      let sanitized := snd (validateUserLogin email password) in
      auth_login db now (fst sanitized) (snd sanitized)
  | GetProfile => withUser "Server error during profile retrieval" (auth_profile db)
  | PatchPassword currentPassword newPassword =>
      withUser "Server error during password update"
               (fun user => auth_password db now user currentPassword newPassword)
  | GetVerify =>
      match req_user req with
      | Some user => auth_verify db user
      | None => (db, ok [ ("message", JStr "Token is valid") ])
      end
  | PostLogout => auth_logout db
  | GetDashboardStats => users_dashboardStats db
  | PostUser b => users_create db now (snd (validateAdminUserCreation b))
  | GetUsers q => users_list db (snd (validateSearch q))
  | GetUser userId => withId "Server error retrieving user" userId (users_get db)
  | PutUser userId b =>
      withId "Server error updating user" userId (fun i => users_update db now i b)
  | DeleteUser userId => withId "Server error deleting user" userId (users_delete db now)
  | PostRating b =>
      withUser "Server error during rating submission"
               (fun user => ratings_submit db now user (snd (validateRating b)))
  | GetUserRatingForStore storeId =>
      withUser "Server error retrieving rating"
               (fun user => withId "Server error retrieving rating" storeId (ratings_mine db user))
  | GetStoreRatings storeId =>
      withUser "Server error retrieving store ratings"
               (fun user => withId "Server error retrieving store ratings" storeId
                                   (ratings_ofStore db user))
  | GetMyRatings => withUser "Server error retrieving user ratings" (ratings_ofUser db)
  | PutRating ratingId rating comment =>
      withUser "Server error updating rating"
               (fun user => withId "Server error updating rating" ratingId
                                   (fun i => ratings_update db now user i rating comment))
  | DeleteRating ratingId =>
      withUser "Server error deleting rating"
               (fun user => withId "Server error deleting rating" ratingId
                                   (ratings_delete db now user))
  | GetRatingStats => ratings_stats db
  | PostStore b => stores_create db now (snd (validateStore b))
  | GetStores q =>
      withUser "Server error retrieving stores"
               (fun user => stores_list db user (snd (validateSearch q)))
  | GetStore storeId =>
      withUser "Server error retrieving store"
               (fun user => withId "Server error retrieving store" storeId (stores_get db user))
  | GetStoreDashboard _ => stores_dashboard db req
  | PutStore storeId name email address =>
      withId "Server error updating store" storeId
             (fun i => stores_update db now i name email address)
  | DeleteStore storeId => withId "Server error deleting store" storeId (stores_delete db now)
  end.

(** One request against the application. *)
Definition handle (db : DB) (r : Request) : DB * Response :=
  match runChain db (auth r) (chain (call r)) (mkReq None None) with
  | Send response => (db, response)
  | Next req => handler db (now r) req (call r)
  end.

(** A sequence of requests, one after the other. *)
Fixpoint run (db : DB) (rs : list Request) : DB :=
  match rs with
  | [] => db
  | r :: rest => run (fst (handle db r)) rest
  end.

(** The requests of a sequence, each with the database it meets. *)
Fixpoint trace (db : DB) (rs : list Request) : list (DB * Request) :=
  match rs with
  | [] => []
  | r :: rest => (db, r) :: trace (fst (handle db r)) rest
  end.

(** *** scripts/seed.js *)

(** [await doc.save()] inside the script's [try]: an error ends the script
    with the database as it is.  The script reads the clock at every
    document it builds and saves: [clock k] is the time of step [k]. *)
Definition orStop {A} (db : DB) (r : Error + (A * DB)) (k : A -> DB -> DB) : DB :=
  match r with
  | inr (a, db') => k a db'
  | inl _ => db
  end.

Definition seedUser (db : DB) (now : Time) (name email password address : string)
    (role : Role) (k : User -> DB -> DB) : DB :=
  orStop db (User_save true true now (User_new db now name email password address role) db) k.

Definition seedRating (db : DB) (now : Time) (u : User) (s : Store) (rating : Q)
    (comment : string) (k : DB -> DB) : DB :=
  orStop db (Rating_save true now (Rating_new db now (u_id u) (s_id s) rating comment) db)
         (fun _ => k).

Definition withStoreId (u : User) (s : Store) : User :=
  mkUser (u_id u) (u_name u) (u_email u) (u_password u) (u_address u) (u_role u)
         (Some (s_id s)) (u_isActive u) (u_createdAt u) (u_updatedAt u).

Definition seedData (clock : nat -> Time) : DB :=
  let db := emptyDB in
  seedUser db (clock 0) "System Administrator" "admin@example.com" "Admin123!"
    "123 Admin Street, Admin City, AC 12345" RAdmin (fun admin db =>
  seedUser db (clock 1) "John Store Owner Smith" "owner@example.com" "Owner123!"
    "456 Store Owner Ave, Business District, BD 67890" RStoreOwner (fun storeOwner1 db =>
  seedUser db (clock 2) "Jane Store Manager Jones" "jane.owner@example.com" "Owner123!"
    "789 Commerce Blvd, Trade Center, TC 11111" RStoreOwner (fun storeOwner2 db =>
  seedUser db (clock 3) "Alice Regular Customer" "user@example.com" "User123!"
    "321 User Lane, Customer City, CC 22222" RUser (fun user1 db =>
  seedUser db (clock 4) "Bob Shopping Expert" "bob.user@example.com" "User123!"
    "654 Shopping Mall Rd, Retail Town, RT 33333" RUser (fun user2 db =>
  seedUser db (clock 5) "Carol Review Writer" "carol.user@example.com" "User123!"
    "987 Review Street, Opinion City, OC 44444" RUser (fun user3 db =>
  orStop db (Store_save true (clock 6)
               (Store_new db (clock 6) "Tech Electronics Superstore" "contact@techelectronics.com"
                          "100 Technology Drive, Silicon Valley, SV 55555" (u_id storeOwner1)) db)
    (fun store1 db =>
  orStop db (Store_save true (clock 7)
               (Store_new db (clock 7) "Fashion Forward Boutique" "hello@fashionforward.com"
                          "200 Style Avenue, Fashion District, FD 66666" (u_id storeOwner2)) db)
    (fun store2 db =>
  orStop db (User_save false false (clock 8) (withStoreId storeOwner1 store1) db) (fun _ db =>
  orStop db (User_save false false (clock 9) (withStoreId storeOwner2 store2) db) (fun _ db =>
  seedRating db (clock 10) user1 store1 5
    "Amazing selection of electronics! Great customer service and competitive prices." (fun db =>
  seedRating db (clock 11) user2 store1 4
    "Good store with quality products. Could improve checkout speed." (fun db =>
  seedRating db (clock 12) user3 store2 5
    "Love their fashion collection! Always up-to-date with latest trends." (fun db =>
  seedRating db (clock 13) user1 store2 3
    "Decent fashion store but prices are a bit high for the quality." (fun db =>
  orStop db (Store_updateRating (clock 14) store1 db) (fun _ db =>
  orStop db (Store_updateRating (clock 15) store2 db) (fun _ db => db)))))))))))))))).

End Router.

(* ------------------------------------------------------------------ *)
(** ** A stand-in for the external libraries

    Used to run the model on concrete requests: an e-mail address is a
    string with an [@], normalisation lower-cases, every unit of a string is
    a character, a [$regex] filter matches when the pattern is a prefix
    (case-insensitively), and a bcrypt hash is the [$2a$12$] header followed
    by the password. *)

Definition hasAt (s : string) : bool :=
  Js.existsChar (fun c => nat_of_ascii c =? 64) s.

Definition standIn : Externals :=
  {| isEmail := hasAt;
     normalizeEmail := Js.toLowerCase;
     charLength := String.length;
     charLength_le := fun s => le_n (String.length s);
     emailPattern := hasAt;
     regexMatch := fun pattern value =>
       String.prefix (Js.toLowerCase pattern) (Js.toLowerCase value);
     bcryptHash := fun password => "$2a$12$" ++ password;
     bcryptCompare := fun candidate hash => String.eqb ("$2a$12$" ++ candidate) hash;
     bcryptHash_version := fun _ => eq_refl |}.

(** The database with other password hashes in its user records. *)
Definition withPassword (password : string) (u : User) : User :=
  mkUser (u_id u) (u_name u) (u_email u) password (u_address u) (u_role u)
         (u_storeId u) (u_isActive u) (u_createdAt u) (u_updatedAt u).

Definition rehashUser (hashes : User -> string) (u : User) : User :=
  withPassword (hashes u) u.

Definition rehash (hashes : User -> string) (db : DB) : DB :=
  setUsers (map (rehashUser hashes) (Users db)) db.

(** The routes that answer with user records. *)
Definition readsUsers (c : Call) : bool :=
  match c with
  | GetProfile | GetVerify | GetUsers _ | GetUser _ => true
  | _ => false
  end.

(** The database the seed script leaves when it starts at time 100 and
    every step takes one unit of time. *)
Definition seeded : DB := @seedData standIn (fun k => 100 + k).

(** [s.repeat(n)] *)
Fixpoint jsRepeat (s : string) (n : nat) : string :=
  match n with
  | O => EmptyString
  | S m => String.append s (jsRepeat s m)
  end.

(* ------------------------------------------------------------------ *)
(** * The vocabulary of the properties *)

Local Open Scope list_scope.

(** What a valid [Rating] document satisfies. *)
Definition ratingOK (r : Rating) : Prop :=
  Js.isInteger (r_rating r) = true /\
  (1 <= r_rating r)%Q /\ (r_rating r <= 5)%Q /\
  String.length (r_comment r) <= 500.

(** The numeric bounds a valid [Store] document satisfies. *)
Definition storeBounds (s : Store) : Prop :=
  (0 <= s_averageRating s)%Q /\ (s_averageRating s <= 5)%Q /\ (0 <= s_totalRatings s)%Z.

(** The mean of a list of numbers, and rounding to one decimal place (halves
    up), as the specification words them. *)
Definition mean (l : list Q) : Q := (sumQ l / inject_Z (Z.of_nat (List.length l)))%Q.

Definition roundToOneDecimal (q : Q) : Q := (inject_Z (Qfloor (q * 10 + (1 # 2))) / 10)%Q.

(** The values of the ratings of a store. *)
Definition ratingValues (storeId : ObjectId) (db : DB) : list Q :=
  map r_rating (filter (fun r => r_storeId r =? storeId) (Ratings db)).

(** What the specification expects in [averageRating]. *)
Definition expectedAverage (values : list Q) : Q :=
  match values with
  | [] => 0%Q
  | _ => roundToOneDecimal (mean values)
  end.

(** The store document after a recomputation at time [now]. *)
Definition recompute (now : Time) (s : Store) (db : DB) : Store :=
  mkStore (s_id s) (s_name s) (s_email s) (s_address s) (s_ownerId s)
          (expectedAverage (ratingValues (s_id s) db))
          (Z.of_nat (List.length (ratingValues (s_id s) db)))
          (s_isActive s) (s_createdAt s) now.

Definition ratingKey (r : Rating) : ObjectId * ObjectId := (r_userId r, r_storeId r).

Definition stampStore (now : Time) (s : Store) : Store :=
  mkStore (s_id s) (s_name s) (s_email s) (s_address s) (s_ownerId s)
          (s_averageRating s) (s_totalRatings s) (s_isActive s) (s_createdAt s) now.

Definition stampRating (now : Time) (r : Rating) : Rating :=
  mkRating (r_id r) (r_userId r) (r_storeId r) (r_rating r) (r_comment r)
           (r_createdAt r) now.

(** The user document [save()] writes: the password hashed when it was
    modified, [updatedAt] stamped. *)
Definition stampUser {ext : Externals} (modified : bool) (now : Time) (u : User) : User :=
  mkUser (u_id u) (u_name u) (u_email u)
         (if modified then bcryptHash (u_password u) else u_password u)
         (u_address u) (u_role u) (u_storeId u) (u_isActive u) (u_createdAt u) now.

Definition writeUser (isNew : bool) (doc : User) (db : DB) : DB :=
  if isNew then bumpId (setUsers (Users db ++ [doc]) db)
  else setUsers (replaceById u_id doc (Users db)) db.

(** The database after the write of [rating.save()], before the hooks. *)
Definition writeRating (isNew : bool) (doc : Rating) (db : DB) : DB :=
  if isNew then bumpId (setRatings (Ratings db ++ [doc]) db)
  else setRatings (replaceById r_id doc (Ratings db)) db.

Definition writeStore (isNew : bool) (doc : Store) (db : DB) : DB :=
  if isNew then bumpId (setStores (Stores db ++ [doc]) db)
  else setStores (replaceById s_id doc (Stores db)) db.

Section States.
Context {ext : Externals}.

(** Every stored rating and store passes its schema's validation, the unique
    index on the stores' e-mail holds, and so do the [_id] index and the
    compound [(userId, storeId)] index of the ratings. *)
Record Inv (db : DB) : Prop := mkInv {
  inv_ratings : Forall (fun r => Rating_validate r = []) (Ratings db);
  inv_stores : Forall (fun s => Store_validate s = []) (Stores db);
  inv_store_emails :
    forall a b, In a (Stores db) -> In b (Stores db) ->
                s_email a = s_email b -> s_id a = s_id b;
  inv_rating_ids : NoDup (map r_id (Ratings db));
  inv_rating_keys : NoDup (map ratingKey (Ratings db));
  inv_users : Forall (fun u => User_validate u = []) (Users db);
  inv_user_emails :
    forall a b, In a (Users db) -> In b (Users db) ->
                u_email a = u_email b -> u_id a = u_id b
}.

(** The states of the database: it starts empty or as the seed script leaves
    it, and changes through the requests the application handles. *)
Inductive reachable : DB -> Prop :=
| reach_empty : reachable emptyDB
| reach_seed clock : reachable (seedData clock)
| reach_handle db r : reachable db -> reachable (fst (handle db r)).

End States.

(** The caller [authenticateToken] lets through. *)
Definition authenticated (db : DB) (a : Auth) (user : User) : Prop :=
  a = Bearer (u_id user) /\
  findById u_id (u_id user) (Users db) = Some user /\
  u_isActive user = true.

(** A response that reports success. *)
Definition successful (r : Response) : Prop := status r = 200 \/ status r = 201.

(** The user exists and is not active. *)
Definition inactive (userId : ObjectId) (db : DB) : Prop :=
  exists u, findById u_id userId (Users db) = Some u /\ u_isActive u = false.

(** The request that sets [isActive] back: PUT /api/users/:userId with
    [isActive: true] in its body. *)
Definition reactivates (userId : ObjectId) (r : Request) : Prop :=
  exists b, call r = PutUser (Id userId) b /\ uu_isActive b = Some true.

(** No object inside [j] has a field [k]. *)
Definition noKey (k : string) (j : json) : Prop := hasKey k j = false.

(** No field of the list is [k] or holds a [k] inside. *)
Definition noKeyIn (k : string) (fs : list (string * json)) : Prop :=
  Forall (fun kv => String.eqb (fst kv) k = false /\ noKey k (snd kv)) fs.

(** The request as the middleware leaves it on the two databases. *)
Definition reqRehash (hashes : User -> string) (req : Req) : Req :=
  mkReq (option_map (rehashUser hashes) (req_user req)) (req_store req).

(** The request with other passwords in its body: [p1] for the password of
    a registration, of a login and of a user creation, [p1] and [p2] for the
    current and the new password of a password change. *)
Definition repassword (p1 p2 : option string) (c : Call) : Call :=
  match c with
  | PostRegister b =>
      PostRegister (mkUserBody (ub_name b) (ub_email b) p1 (ub_address b) (ub_role b))
  | PostLogin email _ => PostLogin email p1
  | PatchPassword _ _ => PatchPassword p1 p2
  | PostUser b =>
      PostUser (mkUserBody (ub_name b) (ub_email b) p1 (ub_address b) (ub_role b))
  | _ => c
  end.

(** What the password validator of the User schema takes for a bcrypt hash:
    a string that starts with [$2a] or [$2b]. *)
Definition isHash (password : string) : bool :=
  Js.startsWith "$2a" password || Js.startsWith "$2b" password.

(** What [bcrypt.hash] returns: the hash of some password. *)
Definition hashedBy {ext : Externals} (password : string) : Prop :=
  exists plain, password = bcryptHash plain.

(** Every stored password is what [bcrypt.hash] returned. *)
Definition Hashed {ext : Externals} (db : DB) : Prop :=
  Forall (fun u => hashedBy (u_password u)) (Users db).

(** The password a request asks to store: the [password] of a registration
    and of a user creation, the [newPassword] of a password change. *)
Definition sentPassword (c : Call) : option string :=
  match c with
  | PostRegister b | PostUser b => Some (str (ub_password b))
  | PatchPassword _ newPassword => Some (str newPassword)
  | _ => None
  end.

(** Every stored password of [db'] was there in [db], for the same user, or
    is the hash of the password [sent]. *)
Definition Stored {ext : Externals} (db db' : DB) (sent : option string) : Prop :=
  forall u', In u' (Users db') ->
    (exists u, In u (Users db) /\ u_id u = u_id u' /\ u_password u' = u_password u)
    \/ (exists password, sent = Some password /\ u_password u' = bcryptHash password).

(** The keys and references of the three collections: the [_id]s and the
    e-mail addresses are unique, no user owns two store records, the stored
    passwords are hashes, every [_id] was drawn before the next fresh one,
    and the references of ratings, stores and users point to documents that
    exist. *)
Record Wf (db : DB) : Prop := mkWf {
  wf_user_ids : NoDup (map u_id (Users db));
  wf_store_ids : NoDup (map s_id (Stores db));
  wf_user_emails : NoDup (map u_email (Users db));
  wf_store_emails : NoDup (map s_email (Stores db));
  wf_owners : NoDup (map s_ownerId (Stores db));
  wf_hashed : Forall (fun u => isHash (u_password u) = true) (Users db);
  wf_fresh_users : Forall (fun u => u_id u < nextId db) (Users db);
  wf_fresh_stores : Forall (fun s => s_id s < nextId db) (Stores db);
  wf_fresh_ratings : Forall (fun r => r_id r < nextId db) (Ratings db);
  wf_rating_refs :
    Forall (fun r => In (r_userId r) (map u_id (Users db)) /\
                     In (r_storeId r) (map s_id (Stores db))) (Ratings db);
  wf_store_refs : Forall (fun s => In (s_ownerId s) (map u_id (Users db))) (Stores db);
  wf_user_refs :
    Forall (fun u => forall i, u_storeId u = Some i ->
                     exists s, In s (Stores db) /\ s_id s = i /\
                               s_ownerId s = u_id u /\ s_isActive s = true) (Users db)
}.

(** What no write of the application changes in a store document. *)
Definition storeKey (s : Store) : ObjectId * ObjectId * bool :=
  (s_id s, s_ownerId s, s_isActive s).

(** The database along the seed script: its users' ids, its stores' keys
    and the next fresh id. *)
Definition Shape (db : DB) (users : list ObjectId)
    (stores : list (ObjectId * ObjectId * bool)) (n : ObjectId) : Prop :=
  Wf db /\ map u_id (Users db) = users /\ map storeKey (Stores db) = stores /\ nextId db = n.

(** From [db] to [db'] no user and no store was removed or moved: the
    [_id]s of [db], in their order, start the [_id]s of [db']. *)
Definition keeps (db db' : DB) : Prop :=
  (exists more, map u_id (Users db') = map u_id (Users db) ++ more) /\
  (exists more, map s_id (Stores db') = map s_id (Stores db) ++ more).

(** The number of the values equal to [k]. *)
Definition countOf (k : Z) (values : list Q) : nat :=
  List.length (filter (fun q => Qeq_bool q (inject_Z k)) values).

(* ------------------------------------------------------------------ *)
(** * Properties *)

(** ** Collections *)

Section CollectionFacts.
Variable A : Type.
Variable idOf : A -> ObjectId.

Lemma findById_In i l x : findById idOf i l = Some x -> In x l /\ idOf x = i.
Proof.
  unfold findById. intros H. apply find_some in H.
  destruct H as [Hin Heq]. apply Nat.eqb_eq in Heq. auto.
Qed.

Lemma findById_replaceById_same x l y :
  findById idOf (idOf x) l = Some y ->
  findById idOf (idOf x) (replaceById idOf x l) = Some x.
Proof.
  unfold findById. induction l as [|z t IH]; simpl; [discriminate|].
  destruct (idOf z =? idOf x) eqn:E; simpl.
  - intros _. now rewrite Nat.eqb_refl.
  - rewrite E. exact IH.
Qed.

Lemma findById_replaceById_other x l i :
  idOf x <> i ->
  findById idOf i (replaceById idOf x l) = findById idOf i l.
Proof.
  intros Hne. unfold findById. induction l as [|z t IH]; simpl; [reflexivity|].
  destruct (idOf z =? idOf x) eqn:E; simpl.
  - apply Nat.eqb_eq in E.
    destruct (idOf x =? i) eqn:E1; [apply Nat.eqb_eq in E1; contradiction|].
    destruct (idOf z =? i) eqn:E2; [apply Nat.eqb_eq in E2; congruence|reflexivity].
  - destruct (idOf z =? i); [reflexivity|exact IH].
Qed.

Lemma findById_app i l x y :
  findById idOf i l = Some x -> findById idOf i (l ++ [y]) = Some x.
Proof.
  unfold findById. induction l as [|z t IH]; simpl; [discriminate|].
  destruct (idOf z =? i); auto.
Qed.

Lemma length_replaceById x l : List.length (replaceById idOf x l) = List.length l.
Proof.
  induction l as [|z t IH]; simpl; [reflexivity|].
  destruct (idOf z =? idOf x); simpl; congruence.
Qed.

Lemma map_id_replaceById x l : map idOf (replaceById idOf x l) = map idOf l.
Proof.
  induction l as [|z t IH]; simpl; [reflexivity|].
  destruct (idOf z =? idOf x) eqn:E; simpl.
  - apply Nat.eqb_eq in E. congruence.
  - congruence.
Qed.

Lemma In_replaceById x l y : In y (replaceById idOf x l) -> y = x \/ In y l.
Proof.
  induction l as [|z t IH]; simpl; [tauto|].
  destruct (idOf z =? idOf x); simpl; intros [H|H]; auto.
  destruct (IH H); auto.
Qed.

Lemma Forall_replaceById (P : A -> Prop) x l :
  P x -> Forall P l -> Forall P (replaceById idOf x l).
Proof.
  intros Hx Hl. apply Forall_forall. intros y Hy.
  apply In_replaceById in Hy. destruct Hy as [->|Hy]; [exact Hx|].
  rewrite Forall_forall in Hl. auto.
Qed.

Lemma In_replaceById_self x l y :
  In y l -> idOf y = idOf x -> In x (replaceById idOf x l).
Proof.
  induction l as [|z t IH]; simpl; [tauto|].
  intros [->|Hin] Hid.
  - rewrite Hid, Nat.eqb_refl. now left.
  - destruct (idOf z =? idOf x); [now left|]. right. auto.
Qed.

Lemma In_deleteById i l y : In y (deleteById idOf i l) -> In y l.
Proof.
  induction l as [|z t IH]; simpl; [tauto|].
  destruct (idOf z =? i); simpl; intuition.
Qed.

Lemma Forall_deleteById (P : A -> Prop) i l :
  Forall P l -> Forall P (deleteById idOf i l).
Proof.
  intros Hl. apply Forall_forall. intros y Hy. apply In_deleteById in Hy.
  rewrite Forall_forall in Hl. auto.
Qed.

Lemma NoDup_map_deleteById (B : Type) (key : A -> B) i l :
  NoDup (map key l) -> NoDup (map key (deleteById idOf i l)).
Proof.
  induction l as [|z t IH]; simpl; [auto|].
  intros H. inversion H as [|? ? Hnot Hnd]; subst.
  destruct (idOf z =? i); simpl; [exact Hnd|].
  constructor; [|auto].
  intros Hin. apply Hnot. apply in_map_iff in Hin.
  destruct Hin as [o [Ho Hino]]. apply In_deleteById in Hino.
  apply in_map_iff. eauto.
Qed.

(** An update keeps a key unique when no other document holds the key of
    the written document. *)
Lemma NoDup_map_replaceById (B : Type) (key : A -> B) x l :
  NoDup (map idOf l) -> NoDup (map key l) ->
  (forall o, In o l -> key o = key x -> idOf o = idOf x) ->
  NoDup (map key (replaceById idOf x l)).
Proof.
  induction l as [|z t IH]; simpl; [auto|].
  intros Hid Hkey Hother.
  inversion Hid as [|? ? Hidz Hidt]; subst.
  inversion Hkey as [|? ? Hkz Hkt]; subst.
  destruct (idOf z =? idOf x) eqn:E; simpl.
  - apply Nat.eqb_eq in E. constructor; [|exact Hkt].
    intros Hin. apply in_map_iff in Hin. destruct Hin as [o [Ho Hino]].
    apply Hidz. apply in_map_iff. exists o. split; [|exact Hino].
    rewrite E. apply Hother; auto.
  - apply Nat.eqb_neq in E. constructor.
    + intros Hin. apply in_map_iff in Hin. destruct Hin as [o [Ho Hino]].
      apply In_replaceById in Hino. destruct Hino as [->|Hino].
      * apply E. apply Hother; auto.
      * apply Hkz. apply in_map_iff. eauto.
    + apply IH; auto.
Qed.

Lemma duplicateKey_insert sameKey x l :
  duplicateKey idOf sameKey true x l = false ->
  forall o, In o l -> idOf o <> idOf x /\ sameKey o = false.
Proof.
  unfold duplicateKey. intros H o Ho.
  assert (E : (idOf o =? idOf x) || sameKey o = false).
  { destruct ((idOf o =? idOf x) || sameKey o) eqn:E; [|reflexivity].
    assert (existsb (fun o => (idOf o =? idOf x) || sameKey o) l = true)
      by (apply existsb_exists; eauto).
    congruence. }
  apply orb_false_iff in E. destruct E as [E1 E2].
  apply Nat.eqb_neq in E1. auto.
Qed.

Lemma duplicateKey_update sameKey x l :
  duplicateKey idOf sameKey false x l = false ->
  forall o, In o l -> sameKey o = true -> idOf o = idOf x.
Proof.
  unfold duplicateKey. intros H o Ho Hk.
  destruct (idOf o =? idOf x) eqn:E; [now apply Nat.eqb_eq in E|].
  assert (existsb (fun o => sameKey o && negb (idOf o =? idOf x)) l = true).
  { apply existsb_exists. exists o. rewrite Hk, E. auto. }
  congruence.
Qed.
End CollectionFacts.

(** An insert keeps a key unique when no document holds the key. *)
Lemma NoDup_map_snoc (A B : Type) (key : A -> B) x l :
  NoDup (map key l) -> (forall o, In o l -> key o <> key x) ->
  NoDup (map key (l ++ [x])).
Proof.
  intros Hnd Hfresh. rewrite map_app. simpl.
  apply NoDup_app.
  - exact Hnd.
  - repeat constructor. simpl. tauto.
  - intros b Hb [Hx|[]]. subst b.
    apply in_map_iff in Hb. destruct Hb as [o [Ho Hino]].
    exact (Hfresh o Hino Ho).
Qed.

(** ** Schema validation and the average *)

Lemma check_nil path rules : check path rules = [] <-> forallb fst rules = true.
Proof.
  unfold check. destruct (find (fun r => negb (fst r)) rules) as [r|] eqn:E.
  - split; [discriminate|]. intros H.
    apply find_some in E. destruct E as [Hin Hr].
    rewrite forallb_forall in H. rewrite (H r Hin) in Hr. discriminate.
  - split; [|reflexivity]. intros _. apply forallb_forall. intros r Hr.
    pose proof (find_none _ _ E r Hr) as H. simpl in H.
    now destruct (fst r).
Qed.

Lemma Rating_validate_nil r : Rating_validate r = [] <-> ratingOK r.
Proof.
  unfold Rating_validate, ratingOK.
  split.
  - intros H. apply app_eq_nil in H. destruct H as [H1 H2].
    apply check_nil in H1. apply check_nil in H2. simpl in H1, H2.
    rewrite !andb_true_iff in H1. rewrite andb_true_iff in H2.
    destruct H1 as [Hlo [Hhi [Hint _]]]. destruct H2 as [Hlen _].
    apply Qle_bool_iff in Hlo. apply Qle_bool_iff in Hhi.
    apply Nat.leb_le in Hlen. auto.
  - intros [Hint [Hlo [Hhi Hlen]]].
    apply Qle_bool_iff in Hlo. apply Qle_bool_iff in Hhi. apply Nat.leb_le in Hlen.
    assert (H1 : check "rating"
              [ (Qle_bool 1 (r_rating r), "Rating must be at least 1");
                (Qle_bool (r_rating r) 5, "Rating must not exceed 5");
                (Js.isInteger (r_rating r), "Rating must be an integer between 1 and 5") ] = []).
    { apply check_nil. simpl. now rewrite Hlo, Hhi, Hint. }
    assert (H2 : check "comment"
              [ (String.length (r_comment r) <=? 500, "Comment must not exceed 500 characters") ]
              = []).
    { apply check_nil. simpl. now rewrite Hlen. }
    now rewrite H1, H2.
Qed.

Section SchemaFacts.
Context {ext : Externals}.

Lemma Store_validate_bounds s : Store_validate s = [] -> storeBounds s.
Proof.
  unfold Store_validate, storeBounds. intros H.
  repeat (apply app_eq_nil in H; destruct H as [? H]).
  match goal with Ha : check "averageRating" _ = [] |- _ =>
    apply check_nil in Ha; simpl in Ha; rewrite !andb_true_iff in Ha;
    destruct Ha as [Hlo [Hhi _]] end.
  apply check_nil in H. simpl in H. rewrite andb_true_iff in H. destruct H as [Ht _].
  apply Qle_bool_iff in Hlo. apply Qle_bool_iff in Hhi. apply Z.leb_le in Ht. auto.
Qed.

(** Validation looks at [averageRating] and [totalRatings] separately from
    the other fields, and not at [isActive] or the timestamps. *)
Lemma Store_validate_update s avg total active created updated :
  Store_validate s = [] ->
  (0 <= avg)%Q -> (avg <= 5)%Q -> (0 <= total)%Z ->
  Store_validate (mkStore (s_id s) (s_name s) (s_email s) (s_address s) (s_ownerId s)
                          avg total active created updated) = [].
Proof.
  unfold Store_validate. intros H Hlo Hhi Ht.
  cbn [s_name s_email s_address s_averageRating s_totalRatings].
  repeat (apply app_eq_nil in H; destruct H as [? H]).
  repeat match goal with Ha : check _ _ = [] |- _ => rewrite Ha; clear Ha end.
  apply Qle_bool_iff in Hlo. apply Qle_bool_iff in Hhi. apply Z.leb_le in Ht.
  rewrite Hlo, Hhi, Ht. reflexivity.
Qed.

End SchemaFacts.

Lemma sumQ_bounds l :
  Forall (fun q => (1 <= q)%Q /\ (q <= 5)%Q) l ->
  (inject_Z (Z.of_nat (List.length l)) <= sumQ l)%Q /\
  (sumQ l <= 5 * inject_Z (Z.of_nat (List.length l)))%Q.
Proof.
  induction 1 as [|q t [Hlo Hhi] _ [IHlo IHhi]]; simpl.
  - split; apply Qle_refl || (unfold Qle; simpl; lia).
  - assert (E : (inject_Z (Z.of_nat (S (List.length t)))
                 == 1 + inject_Z (Z.of_nat (List.length t)))%Q).
    { rewrite Nat2Z.inj_succ. unfold Z.succ. rewrite inject_Z_plus. simpl. ring. }
    rewrite E. split.
    + apply Qplus_le_compat; assumption.
    + setoid_replace (5 * (1 + inject_Z (Z.of_nat (List.length t))))%Q
        with (5 + 5 * inject_Z (Z.of_nat (List.length t)))%Q by ring.
      apply Qplus_le_compat; assumption.
Qed.

Lemma mean_bounds l :
  l <> [] -> Forall (fun q => (1 <= q)%Q /\ (q <= 5)%Q) l ->
  (1 <= mean l)%Q /\ (mean l <= 5)%Q.
Proof.
  intros Hne Hall. destruct (sumQ_bounds Hall) as [Hlo Hhi].
  assert (Hpos : (0 < inject_Z (Z.of_nat (List.length l)))%Q).
  { destruct l; [congruence|]. unfold Qlt. simpl. lia. }
  unfold mean. split.
  - apply Qle_shift_div_l; [exact Hpos|]. now rewrite Qmult_1_l.
  - apply Qle_shift_div_r; [exact Hpos|exact Hhi].
Qed.

Lemma roundToOneDecimal_bounds q :
  (1 <= q)%Q -> (q <= 5)%Q ->
  (1 <= roundToOneDecimal q)%Q /\ (roundToOneDecimal q <= 5)%Q.
Proof.
  intros Hlo Hhi. unfold roundToOneDecimal.
  assert (H1 : (10 <= Qfloor (q * 10 + (1 # 2)))%Z).
  { change 10%Z with (Qfloor (21 # 2)). apply Qfloor_resp_le.
    apply Qle_trans with (1 * 10 + (1 # 2))%Q; [discriminate|].
    apply Qplus_le_compat; [|apply Qle_refl].
    apply Qmult_le_compat_r; [exact Hlo|discriminate]. }
  assert (H2 : (Qfloor (q * 10 + (1 # 2)) <= 50)%Z).
  { change 50%Z with (Qfloor (101 # 2)). apply Qfloor_resp_le.
    apply Qle_trans with (5 * 10 + (1 # 2))%Q; [|discriminate].
    apply Qplus_le_compat; [|apply Qle_refl].
    apply Qmult_le_compat_r; [exact Hhi|discriminate]. }
  set (k := Qfloor (q * 10 + (1 # 2))) in *. clearbody k.
  unfold Qle, Qdiv, Qmult, Qinv, inject_Z. simpl. split; lia.
Qed.

(** Rounding to one decimal place gives a multiple of one tenth that is
    within one twentieth of the number. *)
Lemma roundToOneDecimal_near q :
  (roundToOneDecimal q - (1 # 20) <= q)%Q /\ (q < roundToOneDecimal q + (1 # 20))%Q /\
  (roundToOneDecimal q * 10 == inject_Z (Qfloor (q * 10 + (1 # 2))))%Q.
Proof.
  unfold roundToOneDecimal.
  pose proof (Qfloor_le (q * 10 + (1 # 2))) as Hle.
  pose proof (Qlt_floor (q * 10 + (1 # 2))) as Hlt.
  rewrite inject_Z_plus in Hlt.
  set (k := inject_Z (Qfloor (q * 10 + (1 # 2)))) in *.
  split; [|split].
  - apply Qmult_le_r with (z := 10%Q); [reflexivity|].
    setoid_replace ((k / 10 - (1 # 20)) * 10)%Q with (k - (1 # 2))%Q by field.
    apply Qplus_le_l with (z := (1 # 2)%Q).
    setoid_replace (k - (1 # 2) + (1 # 2))%Q with k by ring. exact Hle.
  - apply Qmult_lt_r with (z := 10%Q); [reflexivity|].
    setoid_replace ((k / 10 + (1 # 20)) * 10)%Q with (k + (1 # 2))%Q by field.
    apply Qplus_lt_l with (z := (1 # 2)%Q).
    setoid_replace (k + (1 # 2) + (1 # 2))%Q with (k + inject_Z 1)%Q by (simpl; ring).
    exact Hlt.
  - field.
Qed.

(** ** What the save operations do *)

Section SaveFacts.
Context {ext : Externals}.

Lemma User_save_inr isNew modified now doc db doc' db' :
  User_save isNew modified now doc db = inr (doc', db') ->
  Stores db' = Stores db /\ Ratings db' = Ratings db /\
  u_id doc' = u_id doc /\ u_isActive doc' = u_isActive doc /\
  Users db' = (if isNew then Users db ++ [doc'] else replaceById u_id doc' (Users db)).
Proof.
  unfold User_save. destruct (User_validate doc); [|discriminate].
  match goal with |- context [duplicateKey ?a ?b ?c ?d ?e] =>
    destruct (duplicateKey a b c d e) end; [discriminate|].
  destruct isNew; intros H; inversion H; subst; simpl; auto.
Qed.

Lemma User_save_inv isNew modified now doc db doc' db' :
  User_save isNew modified now doc db = inr (doc', db') ->
  User_validate doc = [] /\ doc' = stampUser modified now doc /\
  duplicateKey u_id (fun o => String.eqb (u_email o) (u_email doc)) isNew doc' (Users db) = false /\
  db' = writeUser isNew doc' db.
Proof.
  unfold User_save. destruct (User_validate doc); [|discriminate].
  fold (stampUser modified now doc). cbn [u_email stampUser].
  match goal with |- context [duplicateKey ?a ?b ?c ?d ?e] =>
    destruct (duplicateKey a b c d e) eqn:Hdup end; [discriminate|].
  unfold writeUser. destruct isNew; intros H; inversion H; subst; auto.
Qed.

Lemma User_save_ok isNew modified now doc db :
  User_validate doc = [] ->
  duplicateKey u_id (fun o => String.eqb (u_email o) (u_email doc)) isNew
               (stampUser modified now doc) (Users db) = false ->
  User_save isNew modified now doc db
  = inr (stampUser modified now doc, writeUser isNew (stampUser modified now doc) db).
Proof.
  intros Hv Hd. unfold User_save. rewrite Hv.
  fold (stampUser modified now doc). cbn [u_email stampUser]. rewrite Hd.
  unfold writeUser. now destruct isNew.
Qed.

(** The document [save()] writes passes validation again: a hashed password
    is accepted for its version header. *)
Lemma User_validate_stamp modified now doc :
  User_validate doc = [] -> User_validate (stampUser modified now doc) = [].
Proof.
  destruct modified; [|intros H; exact H].
  unfold User_validate, stampUser. cbn [u_name u_email u_password u_address]. intros H.
  repeat (apply app_eq_nil in H; destruct H as [? H]).
  repeat match goal with
         | Ha : check "name" _ = [] |- _ => rewrite Ha; clear Ha
         | Ha : check "email" _ = [] |- _ => rewrite Ha; clear Ha
         end.
  rewrite H. rewrite app_nil_r. cbn [app].
  apply check_nil. cbn [forallb fst].
  pose proof (bcryptHash_version (u_password doc)) as Hh.
  unfold User_passwordValidator. rewrite Hh.
  destruct (bcryptHash (u_password doc)) as [|c t]; [discriminate Hh|reflexivity].
Qed.

(** A [save()] of a user whose password was not modified changes
    [updatedAt] only. *)
Lemma User_save_unmodified isNew now doc db doc' db' :
  User_save isNew false now doc db = inr (doc', db') ->
  doc' = mkUser (u_id doc) (u_name doc) (u_email doc) (u_password doc) (u_address doc)
                (u_role doc) (u_storeId doc) (u_isActive doc) (u_createdAt doc) now.
Proof.
  unfold User_save. destruct (User_validate doc); [|discriminate].
  match goal with |- context [duplicateKey ?a ?b ?c ?d ?e] =>
    destruct (duplicateKey a b c d e) end; [discriminate|].
  destruct isNew; intros H; inversion H; subst; reflexivity.
Qed.

Lemma User_clearStoreId_frame i db :
  Stores (User_clearStoreId i db) = Stores db /\
  Ratings (User_clearStoreId i db) = Ratings db.
Proof.
  unfold User_clearStoreId. destruct (findById u_id i (Users db)); simpl; auto.
Qed.

Lemma Store_save_inr isNew now doc db doc' db' :
  Store_save isNew now doc db = inr (doc', db') ->
  Store_validate doc = [] /\ doc' = stampStore now doc /\
  duplicateKey s_id (fun o => String.eqb (s_email o) (s_email doc)) isNew doc' (Stores db) = false /\
  db' = writeStore isNew doc' db.
Proof.
  unfold Store_save. destruct (Store_validate doc); [|discriminate].
  fold (stampStore now doc). cbn [s_email stampStore].
  match goal with |- context [duplicateKey ?a ?b ?c ?d ?e] =>
    destruct (duplicateKey a b c d e) eqn:Hdup end; [discriminate|].
  unfold writeStore. destruct isNew; intros H; inversion H; subst; auto.
Qed.

Lemma Rating_save_inr isNew now doc db doc' db' :
  Rating_save isNew now doc db = inr (doc', db') ->
  Rating_validate doc = [] /\ doc' = stampRating now doc /\
  duplicateKey r_id (fun o => (r_userId o =? r_userId doc) && (r_storeId o =? r_storeId doc))
               isNew doc' (Ratings db) = false /\
  db' = Rating_updateStoreHook now doc' (writeRating isNew doc' db).
Proof.
  unfold Rating_save. destruct (Rating_validate doc); [|discriminate].
  fold (stampRating now doc). cbn [r_userId r_storeId stampRating].
  match goal with |- context [duplicateKey ?a ?b ?c ?d ?e] =>
    destruct (duplicateKey a b c d e) eqn:Hdup end; [discriminate|].
  unfold writeRating, Rating_runPost. simpl.
  destruct isNew; intros H; inversion H; subst; auto.
Qed.

End SaveFacts.

(** ** The invariant of the database *)

Section Invariant.
Context {ext : Externals}.

Lemma Inv_empty : Inv emptyDB.
Proof.
  constructor; simpl; try constructor; intros a b [].
Qed.

Lemma Store_save_ok isNew now doc db :
  Store_validate doc = [] ->
  duplicateKey s_id (fun o => String.eqb (s_email o) (s_email doc)) isNew
               (stampStore now doc) (Stores db) = false ->
  Store_save isNew now doc db
  = inr (stampStore now doc, writeStore isNew (stampStore now doc) db).
Proof.
  intros Hv Hd. unfold Store_save. rewrite Hv.
  fold (stampStore now doc). cbn [s_email stampStore]. rewrite Hd.
  unfold writeStore. now destruct isNew.
Qed.

Lemma Rating_save_ok isNew now doc db :
  Rating_validate doc = [] ->
  duplicateKey r_id (fun o => (r_userId o =? r_userId doc) && (r_storeId o =? r_storeId doc))
               isNew (stampRating now doc) (Ratings db) = false ->
  Rating_save isNew now doc db
  = inr (stampRating now doc,
         Rating_updateStoreHook now (stampRating now doc)
           (writeRating isNew (stampRating now doc) db)).
Proof.
  intros Hv Hd. unfold Rating_save. rewrite Hv.
  fold (stampRating now doc). cbn [r_userId r_storeId stampRating]. rewrite Hd.
  unfold writeRating, Rating_runPost. simpl. now destruct isNew.
Qed.

Lemma Inv_writeStore isNew now doc db :
  Store_validate doc = [] ->
  duplicateKey s_id (fun o => String.eqb (s_email o) (s_email doc)) isNew
               (stampStore now doc) (Stores db) = false ->
  Inv db -> Inv (writeStore isNew (stampStore now doc) db).
Proof.
  intros Hv Hd [H1 H2 H3 H4 H5 H6 H7]. unfold writeStore.
  destruct isNew; constructor; simpl; auto.
  - apply Forall_app. split; [exact H2|]. constructor; [exact Hv|constructor].
  - intros a b Ha Hb Heq.
    apply in_app_or in Ha. apply in_app_or in Hb.
    pose proof (duplicateKey_insert _ _ _ _ Hd) as Hfresh.
    destruct Ha as [Ha|[<-|[]]]; destruct Hb as [Hb|[<-|[]]]; auto.
    + destruct (Hfresh a Ha) as [_ Hk]. simpl in Heq. rewrite Heq in Hk.
      now rewrite String.eqb_refl in Hk.
    + destruct (Hfresh b Hb) as [_ Hk]. simpl in Heq. rewrite <- Heq in Hk.
      now rewrite String.eqb_refl in Hk.
  - apply Forall_replaceById; [exact Hv|exact H2].
  - intros a b Ha Hb Heq.
    pose proof (duplicateKey_update _ _ _ _ Hd) as Hsame. simpl in Hsame.
    apply In_replaceById in Ha. apply In_replaceById in Hb.
    destruct Ha as [->|Ha]; destruct Hb as [->|Hb]; auto.
    + simpl in *. symmetry. apply (Hsame b Hb). apply String.eqb_eq. now symmetry.
    + simpl in *. apply (Hsame a Ha). now apply String.eqb_eq.
Qed.

Lemma Inv_writeRating isNew now doc db :
  Rating_validate doc = [] ->
  duplicateKey r_id (fun o => (r_userId o =? r_userId doc) && (r_storeId o =? r_storeId doc))
               isNew (stampRating now doc) (Ratings db) = false ->
  Inv db -> Inv (writeRating isNew (stampRating now doc) db).
Proof.
  intros Hv Hd [H1 H2 H3 H4 H5 H6 H7]. unfold writeRating.
  destruct isNew; constructor; simpl; auto.
  - apply Forall_app. split; [exact H1|]. constructor; [exact Hv|constructor].
  - pose proof (duplicateKey_insert _ _ _ _ Hd) as Hfresh.
    apply NoDup_map_snoc; [exact H4|]. intros o Ho. now destruct (Hfresh o Ho).
  - pose proof (duplicateKey_insert _ _ _ _ Hd) as Hfresh.
    apply NoDup_map_snoc; [exact H5|]. intros o Ho Hk.
    destruct (Hfresh o Ho) as [_ Hs]. unfold ratingKey in Hk. simpl in Hk.
    inversion Hk as [[Hu Hst]]. now rewrite Hu, Hst, !Nat.eqb_refl in Hs.
  - apply Forall_replaceById; [exact Hv|exact H1].
  - now rewrite map_id_replaceById.
  - pose proof (duplicateKey_update _ _ _ _ Hd) as Hsame.
    apply NoDup_map_replaceById; auto. intros o Ho Hk. apply (Hsame o Ho).
    unfold ratingKey in Hk. simpl in Hk. inversion Hk as [[Hu Hst]].
    now rewrite Hu, Hst, !Nat.eqb_refl.
Qed.

Lemma Inv_writeUser isNew modified now doc db :
  User_validate doc = [] ->
  duplicateKey u_id (fun o => String.eqb (u_email o) (u_email doc)) isNew
               (stampUser modified now doc) (Users db) = false ->
  Inv db -> Inv (writeUser isNew (stampUser modified now doc) db).
Proof.
  intros Hv Hd [H1 H2 H3 H4 H5 H6 H7]. unfold writeUser.
  pose proof (User_validate_stamp modified now doc Hv) as Hv'.
  destruct isNew; constructor; simpl; auto.
  - apply Forall_app. split; [exact H6|]. constructor; [exact Hv'|constructor].
  - intros a b Ha Hb Heq.
    apply in_app_or in Ha. apply in_app_or in Hb.
    pose proof (duplicateKey_insert _ _ _ _ Hd) as Hfresh.
    destruct Ha as [Ha|[<-|[]]]; destruct Hb as [Hb|[<-|[]]]; auto.
    + destruct (Hfresh a Ha) as [_ Hk]. simpl in Heq. rewrite Heq in Hk.
      now rewrite String.eqb_refl in Hk.
    + destruct (Hfresh b Hb) as [_ Hk]. simpl in Heq. rewrite <- Heq in Hk.
      now rewrite String.eqb_refl in Hk.
  - apply Forall_replaceById; [exact Hv'|exact H6].
  - intros a b Ha Hb Heq.
    pose proof (duplicateKey_update _ _ _ _ Hd) as Hsame. simpl in Hsame.
    apply In_replaceById in Ha. apply In_replaceById in Hb.
    destruct Ha as [->|Ha]; destruct Hb as [->|Hb]; auto.
    + simpl in *. symmetry. apply (Hsame b Hb). apply String.eqb_eq. now symmetry.
    + simpl in *. apply (Hsame a Ha). now apply String.eqb_eq.
Qed.

Lemma Inv_User_save isNew modified now doc db doc' db' :
  User_save isNew modified now doc db = inr (doc', db') -> Inv db -> Inv db'.
Proof.
  intros H Hinv. apply User_save_inv in H. destruct H as [Hv [-> [Hd ->]]].
  now apply Inv_writeUser.
Qed.

Lemma Inv_clearStoreId i db : Inv db -> Inv (User_clearStoreId i db).
Proof.
  intros Hinv. unfold User_clearStoreId.
  destruct (findById u_id i (Users db)) as [u|] eqn:F; [|exact Hinv].
  destruct (findById_In _ _ _ F) as [Hin _].
  destruct Hinv as [H1 H2 H3 H4 H5 H6 H7].
  assert (Hu : User_validate u = []) by (rewrite Forall_forall in H6; auto).
  constructor; simpl; auto.
  - apply Forall_replaceById; [exact Hu|exact H6].
  - intros a b Ha Hb Heq.
    apply In_replaceById in Ha. apply In_replaceById in Hb.
    destruct Ha as [->|Ha]; destruct Hb as [->|Hb]; simpl in *; auto.
Qed.

Lemma Inv_Store_save isNew now doc db doc' db' :
  Store_save isNew now doc db = inr (doc', db') -> Inv db -> Inv db'.
Proof.
  intros H Hinv. apply Store_save_inr in H. destruct H as [Hv [-> [Hd ->]]].
  now apply Inv_writeStore.
Qed.

Lemma Inv_updateStoreHook now doc db : Inv db -> Inv (Rating_updateStoreHook now doc db).
Proof.
  intros Hinv. unfold Rating_updateStoreHook.
  destruct (findById s_id (r_storeId doc) (Stores db)) as [store|]; [|exact Hinv].
  unfold Store_updateRating.
  match goal with |- context [Store_save false now ?d db] =>
    destruct (Store_save false now d db) as [e|[s' db']] eqn:E end; [exact Hinv|].
  eapply Inv_Store_save; eauto.
Qed.

Lemma Inv_Rating_save isNew now doc db doc' db' :
  Rating_save isNew now doc db = inr (doc', db') -> Inv db -> Inv db'.
Proof.
  intros H Hinv. apply Rating_save_inr in H. destruct H as [Hv [-> [Hd ->]]].
  apply Inv_updateStoreHook. now apply Inv_writeRating.
Qed.

Lemma Rating_findByIdAndDelete_eq now i db :
  Rating_findByIdAndDelete now i db = setRatings (deleteById r_id i (Ratings db)) db.
Proof.
  unfold Rating_findByIdAndDelete.
  destruct (findById r_id i (Ratings db)) as [doc|] eqn:E; [reflexivity|].
  destruct db as [us ss rs n]. unfold setRatings. simpl in *. f_equal.
  unfold findById in E. induction rs as [|r t IH]; simpl in *; [reflexivity|].
  destruct (r_id r =? i); [discriminate|]. f_equal. auto.
Qed.

Lemma Inv_Rating_delete now i db : Inv db -> Inv (Rating_findByIdAndDelete now i db).
Proof.
  intros [H1 H2 H3 H4 H5 H6 H7]. rewrite Rating_findByIdAndDelete_eq.
  constructor; simpl; auto.
  - now apply Forall_deleteById.
  - now apply NoDup_map_deleteById.
  - now apply NoDup_map_deleteById.
Qed.

End Invariant.

(** ** Every request keeps the invariant *)

Section Preservation.
Context {ext : Externals}.

Ltac inv_leaf :=
  match goal with
  | H : Inv ?db |- Inv ?db => exact H
  | H : User_save _ _ _ _ ?db = inr (_, ?db') |- Inv ?db' =>
      eapply Inv_User_save; eauto
  | H : Store_save _ _ _ ?db = inr (_, ?db') |- Inv ?db' =>
      eapply Inv_Store_save; eauto
  | H : Rating_save _ _ _ ?db = inr (_, ?db') |- Inv ?db' =>
      eapply Inv_Rating_save; eauto
  | |- Inv (Rating_findByIdAndDelete _ _ _) => apply Inv_Rating_delete
  | |- Inv (User_clearStoreId ?i ?db) => apply Inv_clearStoreId
  end.

Ltac inv_split :=
  match goal with
  | |- Inv (fst (_, _)) => cbn [fst]
  | |- Inv (fst (match ?x with _ => _ end)) => destruct x eqn:?
  | |- Inv (fst (if ?b then _ else _)) => destruct b eqn:?
  end.

Ltac inv_auto := cbv zeta; repeat inv_split; repeat inv_leaf.

Lemma Inv_createUser db now b role okMessage errMessage withToken :
  Inv db -> Inv (fst (createUser db now b role okMessage errMessage withToken)).
Proof. intros H. unfold createUser. inv_auto. Qed.

Lemma Inv_auth_password db now u c n : Inv db -> Inv (fst (auth_password db now u c n)).
Proof. intros H. unfold auth_password. inv_auto. Qed.

Lemma Inv_users_create db now b : Inv db -> Inv (fst (users_create db now b)).
Proof.
  intros H. unfold users_create.
  destruct (Role_ofString (str (ub_role b))); [now apply Inv_createUser|].
  inv_auto.
Qed.

Lemma Inv_users_update db now i b : Inv db -> Inv (fst (users_update db now i b)).
Proof. intros H. unfold users_update. inv_auto. Qed.

Lemma Inv_users_delete db now i : Inv db -> Inv (fst (users_delete db now i)).
Proof. intros H. unfold users_delete. inv_auto. Qed.

Lemma Inv_ratings_submit db now u b : Inv db -> Inv (fst (ratings_submit db now u b)).
Proof. intros H. unfold ratings_submit, ratingSaveFailed. inv_auto. Qed.

Lemma Inv_ratings_update db now u i rating comment :
  Inv db -> Inv (fst (ratings_update db now u i rating comment)).
Proof. intros H. unfold ratings_update, ratingSaveFailed. inv_auto. Qed.

Lemma Inv_ratings_delete db now u i : Inv db -> Inv (fst (ratings_delete db now u i)).
Proof. intros H. unfold ratings_delete. inv_auto. Qed.

Lemma Inv_stores_create db now b : Inv db -> Inv (fst (stores_create db now b)).
Proof. intros H. unfold stores_create. inv_auto. Qed.

Lemma Inv_stores_update db now i name email address :
  Inv db -> Inv (fst (stores_update db now i name email address)).
Proof. intros H. unfold stores_update. inv_auto. Qed.

Lemma Inv_stores_delete db now i : Inv db -> Inv (fst (stores_delete db now i)).
Proof. intros H. unfold stores_delete. inv_auto. Qed.

(** The handlers that only read. *)
Lemma fst_readers db :
  (forall now e p, fst (auth_login db now e p) = db) /\
  (forall u, fst (auth_profile db u) = db) /\
  (forall u, fst (auth_verify db u) = db) /\
  fst (auth_logout db) = db /\
  fst (users_dashboardStats db) = db /\
  (forall q, fst (users_list db q) = db) /\
  (forall i, fst (users_get db i) = db) /\
  (forall u i, fst (ratings_mine db u i) = db) /\
  (forall u i, fst (ratings_ofStore db u i) = db) /\
  (forall u, fst (ratings_ofUser db u) = db) /\
  fst (ratings_stats db) = db /\
  (forall u q, fst (stores_list db u q) = db) /\
  (forall u i, fst (stores_get db u i) = db) /\
  (forall req, fst (stores_dashboard db req) = db).
Proof.
  repeat split; intros.
  - unfold auth_login. repeat (match goal with
      | |- fst (match ?x with _ => _ end) = _ => destruct x
      | |- fst (if ?x then _ else _) = _ => destruct x end); reflexivity.
  - unfold users_get. repeat (match goal with
      | |- fst (match ?x with _ => _ end) = _ => destruct x
      | |- fst (if ?x then _ else _) = _ => destruct x end); reflexivity.
  - unfold ratings_mine. now destruct (Rating_findOne (u_id u) i db).
  - unfold ratings_ofStore. cbv zeta.
    match goal with |- fst (if ?x then _ else _) = _ => destruct x end; reflexivity.
  - unfold stores_get. repeat (match goal with
      | |- fst (match ?x with _ => _ end) = _ => destruct x
      | |- fst (if ?x then _ else _) = _ => destruct x end); reflexivity.
  - unfold stores_dashboard. now destruct (req_store req).
Qed.

Lemma Inv_handler db now req c : Inv db -> Inv (fst (handler db now req c)).
Proof.
  intros H. destruct (fst_readers db)
    as (R1 & R2 & R3 & R4 & R5 & R6 & R7 & R8 & R9 & R10 & R11 & R12 & R13 & R14).
  unfold handler.
  destruct c; cbv zeta;
    repeat match goal with
    | |- context [match req_user req with _ => _ end] => destruct (req_user req)
    | |- context [match ?p with Id _ => _ | BadId => _ end] => destruct p
    end;
    cbn [fst]; unfold auth_register;
    rewrite ?R1, ?R2, ?R3, ?R4, ?R5, ?R6, ?R7, ?R8, ?R9, ?R10, ?R11, ?R12, ?R13, ?R14;
    auto using Inv_createUser, Inv_auth_password, Inv_users_create, Inv_users_update,
      Inv_users_delete, Inv_ratings_submit, Inv_ratings_update, Inv_ratings_delete,
      Inv_stores_create, Inv_stores_update, Inv_stores_delete.
Qed.

Lemma Inv_handle db r : Inv db -> Inv (fst (handle db r)).
Proof.
  intros H. unfold handle.
  destruct (runChain db (auth r) (chain (call r)) (mkReq None None)); cbn [fst].
  - now apply Inv_handler.
  - exact H.
Qed.

End Preservation.

(** ** Reachable states *)

Section Reachable.
Context {ext : Externals}.

Lemma Inv_orStop A db (r : Error + (A * DB)) (k : A -> DB -> DB) :
  Inv db -> (forall a db', r = inr (a, db') -> Inv (k a db')) -> Inv (orStop db r k).
Proof.
  intros H Hk. unfold orStop. destruct r as [e|[a db']]; auto.
Qed.

Lemma Inv_seedData clock : Inv (seedData clock).
Proof.
  unfold seedData, seedUser, seedRating, Store_updateRating. cbv zeta.
  pose proof Inv_empty as Hi0.
  repeat (apply Inv_orStop;
          [ assumption
          | let a := fresh "doc" in
            let d := fresh "db" in
            let Hs := fresh "Hs" in
            let Hi := fresh "Hi" in
            intros a d Hs;
            assert (Hi : Inv d) by
              (first [ solve [ eapply Inv_User_save; eauto ]
                     | solve [ eapply Inv_Store_save; eauto ]
                     | solve [ eapply Inv_Rating_save; eauto ] ]);
            clear Hs ]).
  assumption.
Qed.

Lemma reachable_Inv db : reachable db -> Inv db.
Proof.
  induction 1.
  - apply Inv_empty.
  - apply Inv_seedData.
  - now apply Inv_handle.
Qed.

Lemma reachable_run db rs : reachable db -> reachable (run db rs).
Proof.
  revert db. induction rs as [|r rest IH]; simpl; intros db H; [exact H|].
  apply IH. now constructor.
Qed.

End Reachable.

(** ** The recomputation of a store's rating *)

Section Recomputation.
Context {ext : Externals}.

Lemma duplicateKey_store_update db s doc :
  Inv db -> In s (Stores db) -> s_email doc = s_email s -> s_id doc = s_id s ->
  duplicateKey s_id (fun o => String.eqb (s_email o) (s_email doc)) false doc (Stores db)
  = false.
Proof.
  intros Hinv Hin He Hi. unfold duplicateKey.
  destruct (existsb _ (Stores db)) eqn:E; [|reflexivity].
  apply existsb_exists in E. destruct E as [o [Ho Hk]].
  apply andb_true_iff in Hk. destruct Hk as [Hk Hne].
  apply String.eqb_eq in Hk. apply negb_true_iff in Hne. apply Nat.eqb_neq in Hne.
  exfalso. apply Hne. rewrite Hi. apply (inv_store_emails Hinv); auto. congruence.
Qed.

Lemma ratingValues_bounds db storeId :
  Inv db -> Forall (fun q => (1 <= q)%Q /\ (q <= 5)%Q) (ratingValues storeId db).
Proof.
  intros Hinv. unfold ratingValues. apply Forall_forall. intros q Hq.
  apply in_map_iff in Hq. destruct Hq as [r [<- Hr]].
  apply filter_In in Hr. destruct Hr as [Hr _].
  pose proof (inv_ratings Hinv) as Hall. rewrite Forall_forall in Hall.
  apply Hall in Hr. apply Rating_validate_nil in Hr. unfold ratingOK in Hr. tauto.
Qed.

Lemma expectedAverage_bounds db storeId :
  Inv db ->
  (0 <= expectedAverage (ratingValues storeId db))%Q /\
  (expectedAverage (ratingValues storeId db) <= 5)%Q.
Proof.
  intros Hinv. pose proof (ratingValues_bounds storeId Hinv) as Hall.
  unfold expectedAverage. destruct (ratingValues storeId db) as [|q t] eqn:E.
  - split; discriminate.
  - assert (Hne : q :: t <> []) by discriminate.
    destruct (mean_bounds Hne Hall) as [Hlo Hhi].
    destruct (roundToOneDecimal_bounds Hlo Hhi) as [Hlo' Hhi'].
    split; [|exact Hhi']. apply Qle_trans with 1%Q; [discriminate|exact Hlo'].
Qed.

(** [updateRating] succeeds on every store of a database that satisfies the
    invariant, and writes the recomputed document. *)
Lemma Store_updateRating_spec now s db :
  Inv db -> In s (Stores db) ->
  Store_updateRating now s db
  = inr (recompute now s db, writeStore false (recompute now s db) db).
Proof.
  intros Hinv Hin.
  pose proof (inv_stores Hinv) as Hvalid. rewrite Forall_forall in Hvalid.
  destruct (expectedAverage_bounds (s_id s) Hinv) as [Hlo Hhi].
  assert (Hv : Store_validate
                 (mkStore (s_id s) (s_name s) (s_email s) (s_address s) (s_ownerId s)
                    (expectedAverage (ratingValues (s_id s) db))
                    (Z.of_nat (List.length (ratingValues (s_id s) db)))
                    (s_isActive s) (s_createdAt s) (s_updatedAt s)) = []).
  { apply Store_validate_update; auto. apply Nat2Z.is_nonneg. }
  assert (Hd : forall doc, s_email doc = s_email s -> s_id doc = s_id s ->
                 duplicateKey s_id (fun o => String.eqb (s_email o) (s_email doc)) false
                              (stampStore now doc) (Stores db) = false).
  { intros doc He Hi.
    apply (duplicateKey_store_update s (stampStore now doc) Hinv Hin); auto. }
  unfold Store_updateRating, Rating_aggregate.
  unfold ratingValues, expectedAverage in Hv. unfold recompute, ratingValues, expectedAverage.
  destruct (filter (fun r => r_storeId r =? s_id s) (Ratings db)) as [|r0 rs] eqn:F.
  - simpl in Hv. simpl. rewrite (Store_save_ok false now _ db Hv); [reflexivity|].
    now apply Hd.
  - cbn [map averageRating totalRatings] in *.
    unfold roundToOneDecimal, mean in Hv. unfold roundToOneDecimal, mean.
    unfold Js.Math_round.
    change (List.length (r_rating r0 :: map r_rating rs))
      with (S (List.length (map r_rating rs))) in *.
    rewrite length_map in *.
    change (List.length (r0 :: rs)) with (S (List.length rs)).
    rewrite (Store_save_ok false now _ db Hv); [reflexivity|].
    now apply Hd.
Qed.

Lemma Ratings_writeStore isNew doc db : Ratings (writeStore isNew doc db) = Ratings db.
Proof. unfold writeStore. now destruct isNew. Qed.

Lemma Stores_writeRating isNew doc db : Stores (writeRating isNew doc db) = Stores db.
Proof. unfold writeRating. now destruct isNew. Qed.

(** The hook of a rating of store [storeId]: the ratings stay, and the store
    holds the recomputed values. *)
Lemma Rating_updateStoreHook_spec now doc db store :
  Inv db -> findById s_id (r_storeId doc) (Stores db) = Some store ->
  let db' := Rating_updateStoreHook now doc db in
  Ratings db' = Ratings db /\
  findById s_id (r_storeId doc) (Stores db') = Some (recompute now store db).
Proof.
  intros Hinv Hfind. unfold Rating_updateStoreHook. rewrite Hfind.
  destruct (findById_In _ _ _ Hfind) as [Hin Hid].
  rewrite (Store_updateRating_spec now store Hinv Hin). cbv zeta. split.
  - apply Ratings_writeStore.
  - unfold writeStore. simpl. rewrite <- Hid.
    change (s_id store) with (s_id (recompute now store db)).
    eapply findById_replaceById_same. simpl. rewrite Hid. exact Hfind.
Qed.

Lemma Ratings_updateStoreHook now doc db :
  Ratings (Rating_updateStoreHook now doc db) = Ratings db.
Proof.
  unfold Rating_updateStoreHook.
  destruct (findById s_id (r_storeId doc) (Stores db)) as [store|]; [|reflexivity].
  unfold Store_updateRating.
  match goal with |- context [Store_save false now ?d db] =>
    destruct (Store_save false now d db) as [e|[s' db']] eqn:E end; [reflexivity|].
  apply Store_save_inr in E. destruct E as (_ & _ & _ & ->). apply Ratings_writeStore.
Qed.

End Recomputation.

(** ** The middleware chains *)

Section ChainFacts.
Context {ext : Externals}.

Lemma authenticateToken_Next db a req req' :
  authenticateToken db a req = Next req' ->
  exists user, authenticated db a user /\ req' = mkReq (Some user) (req_store req).
Proof.
  unfold authenticateToken, authenticated. destruct a as [| | |uid]; try discriminate.
  destruct (findById u_id uid (Users db)) as [user|] eqn:F; [|discriminate].
  destruct (u_isActive user) eqn:Ha; [|discriminate].
  intros H. inversion H. subst. exists user.
  destruct (findById_In _ _ _ F) as [_ Hid]. subst uid. auto.
Qed.

Lemma authenticateToken_pass db a req user :
  authenticated db a user ->
  authenticateToken db a req = Next (mkReq (Some user) (req_store req)).
Proof.
  intros (-> & F & Ha). unfold authenticateToken. now rewrite F, Ha.
Qed.

Lemma authorize_Next roles req req' :
  authorize roles req = Next req' ->
  req' = req /\
  exists user, req_user req = Some user /\ existsb (Role_eqb (u_role user)) roles = true.
Proof.
  unfold authorize. destruct (req_user req) as [user|]; [|discriminate].
  destruct (existsb (Role_eqb (u_role user)) roles) eqn:E; simpl; [|discriminate].
  intros H. inversion H. eauto.
Qed.

(** A chain [authenticateToken, authorize(roles), validation] that calls the
    handler. *)
Lemma gated_chain_Next db a roles errors req' :
  runChain db a [MAuthenticateToken; MAuthorize roles; MValidate errors] (mkReq None None)
  = Next req' ->
  exists user,
    authenticated db a user /\
    existsb (Role_eqb (u_role user)) roles = true /\
    errors = [] /\ req' = mkReq (Some user) None.
Proof.
  cbn [runChain runMiddleware].
  destruct (authenticateToken db a (mkReq None None)) as [req1|] eqn:E1; [|discriminate].
  apply authenticateToken_Next in E1. destruct E1 as (user & Hauth & ->).
  destruct (authorize roles _) as [req2|] eqn:E2; [|discriminate].
  apply authorize_Next in E2. destruct E2 as (-> & user' & Hu & Hrole).
  simpl in Hu. inversion Hu. subst user'.
  destruct errors; [|discriminate]. intros H. inversion H. subst.
  exists user. auto.
Qed.

Lemma Role_eqb_eq a b : Role_eqb a b = true <-> a = b.
Proof. destruct a, b; simpl; split; congruence. Qed.

(** A middleware that answers does not answer with a success. *)
Lemma runMiddleware_Send db a m req resp :
  runMiddleware db a m req = Send resp -> ~ successful resp.
Proof.
  unfold successful.
  destruct m as [|roles|errors|storeId]; simpl.
  - unfold authenticateToken. destruct a as [| | |uid].
    1-3: intros H; inversion H; simpl; intros [?|?]; discriminate.
    destruct (findById u_id uid (Users db)) as [user|];
      [destruct (u_isActive user)|]; intros H; inversion H; simpl;
      intros [?|?]; discriminate.
  - unfold authorize. destruct (req_user req) as [user|].
    + destruct (negb _); intros H; inversion H; simpl; intros [?|?]; discriminate.
    + intros H; inversion H; simpl; intros [?|?]; discriminate.
  - destruct errors; intros H; inversion H; simpl; intros [?|?]; discriminate.
  - unfold verifyStoreOwner. destruct (req_user req) as [user|].
    + destruct (Role_eqb (u_role user) RAdmin); [discriminate|].
      destruct (negb (Role_eqb (u_role user) RStoreOwner)).
      * intros H; inversion H; simpl; intros [?|?]; discriminate.
      * destruct storeId as [|i].
        -- intros H; inversion H; simpl; intros [?|?]; discriminate.
        -- destruct (findById s_id i (Stores db)) as [store|];
             [destruct (negb (s_ownerId store =? u_id user))|];
             intros H; inversion H; simpl; intros [?|?]; discriminate.
    + intros H; inversion H; simpl; intros [?|?]; discriminate.
Qed.

Lemma runChain_Send db a ms req resp :
  runChain db a ms req = Send resp -> ~ successful resp.
Proof.
  revert req. induction ms as [|m rest IH]; simpl; intros req; [discriminate|].
  destruct (runMiddleware db a m req) as [req'|resp'] eqn:E.
  - apply IH.
  - intros H. inversion H. subst. eapply runMiddleware_Send; eauto.
Qed.

End ChainFacts.

(** ** Submitting a rating *)

Section Submit.
Context {ext : Externals}.

(** What a successful [POST /api/ratings] did: the caller is an active user
    of role [user], the body passed [validateRating], the store exists and
    is active, and the caller's rating of the store was updated (when there
    was one) or created, by a [save()] that went through. *)
Lemma ratings_submit_success db r b db' resp :
  call r = PostRating b -> handle db r = (db', resp) -> successful resp ->
  exists user storeId store rating saved,
    authenticated db (auth r) user /\ u_role user = RUser /\
    fst (validateRating b) = [] /\
    rb_storeId b = Some (Id storeId) /\ rb_rating b = Some rating /\
    findById s_id storeId (Stores db) = Some store /\ s_isActive store = true /\
    let comment := match rb_comment b with Some c => Js.trim c | None => "" end in
    match Rating_findOne (u_id user) storeId db with
    | Some existing =>
        Rating_save false (now r) (Rating_setComment comment (Rating_setRating rating existing)) db
        = inr (saved, db') /\ status resp = 200
    | None =>
        Rating_save true (now r) (Rating_new db (now r) (u_id user) storeId rating comment) db
        = inr (saved, db') /\ status resp = 201
    end.
Proof.
  intros Hcall Hh Hok. unfold handle in Hh. rewrite Hcall in Hh. cbn [chain] in Hh.
  destruct (runChain _ _ _ _) as [req|resp0] eqn:Hchain.
  2:{ inversion Hh; subst. now apply runChain_Send in Hchain. }
  apply gated_chain_Next in Hchain. destruct Hchain as (user & Hauth & Hrole & Hval & ->).
  simpl in Hrole. rewrite orb_false_r in Hrole. apply Role_eqb_eq in Hrole.
  cbn [handler req_user] in Hh. unfold ratings_submit, ratingSaveFailed in Hh.
  cbn [validateRating snd rb_storeId rb_rating rb_comment] in Hh.
  unfold successful in Hok.
  destruct (rb_storeId b) as [[|storeId]|] eqn:Hsid;
    try (inversion Hh; subst; simpl in Hok; destruct Hok; discriminate).
  destruct (findById s_id storeId (Stores db)) as [store|] eqn:Hstore;
    try (inversion Hh; subst; simpl in Hok; destruct Hok; discriminate).
  destruct (s_isActive store) eqn:Hactive; cbn [negb] in Hh;
    try (inversion Hh; subst; simpl in Hok; destruct Hok; discriminate).
  destruct (rb_rating b) as [rating|] eqn:Hrating;
    try (inversion Hh; subst; simpl in Hok; destruct Hok; discriminate).
  assert (Hc : match option_map Js.trim (rb_comment b) with Some c => c | None => "" end
               = match rb_comment b with Some c => Js.trim c | None => "" end)
    by (destruct (rb_comment b); reflexivity).
  rewrite Hc in Hh. clear Hc.
  exists user, storeId, store, rating.
  destruct (Rating_findOne (u_id user) storeId db) as [existing|] eqn:Hfind.
  - destruct (Rating_save false _ _ db) as [[errors|code]|[saved db1]] eqn:Hsave;
      try (inversion Hh; subst; simpl in Hok; destruct Hok; discriminate).
    inversion Hh; subst. exists saved. unfold authenticated in *. intuition auto.
  - destruct (Rating_save true _ _ db) as [[errors|code]|[saved db1]] eqn:Hsave;
      try (inversion Hh; subst; simpl in Hok; destruct Hok; discriminate).
    inversion Hh; subst. exists saved. unfold authenticated in *. intuition auto.
Qed.

End Submit.

Section SubmitFacts.
Context {ext : Externals}.

(** A rating [save()] that goes through leaves the rating's store with the
    values recomputed from the ratings then stored. *)
Lemma Rating_save_recomputes isNew now doc db saved db' store :
  Inv db -> Rating_save isNew now doc db = inr (saved, db') ->
  findById s_id (r_storeId doc) (Stores db) = Some store ->
  Ratings db' = Ratings (writeRating isNew (stampRating now doc) db) /\
  findById s_id (r_storeId doc) (Stores db') = Some (recompute now store db').
Proof.
  intros Hinv Hsave Hstore.
  apply Rating_save_inr in Hsave. destruct Hsave as (Hv & -> & Hd & ->).
  pose proof (@Inv_writeRating ext isNew now doc db Hv Hd Hinv) as Hinv1.
  set (db1 := writeRating isNew (stampRating now doc) db) in *.
  assert (Hstore1 : findById s_id (r_storeId (stampRating now doc)) (Stores db1) = Some store).
  { unfold db1. rewrite Stores_writeRating. exact Hstore. }
  destruct (@Rating_updateStoreHook_spec ext now (stampRating now doc) db1 store Hinv1 Hstore1)
    as [Hr Hs].
  split; [exact Hr|].
  change (r_storeId (stampRating now doc)) with (r_storeId doc) in Hs.
  rewrite Hs. f_equal. unfold recompute, ratingValues. now rewrite Hr.
Qed.

Lemma Rating_findOne_Some userId storeId db r :
  Rating_findOne userId storeId db = Some r ->
  In r (Ratings db) /\ r_userId r = userId /\ r_storeId r = storeId.
Proof.
  unfold Rating_findOne. intros H. apply find_some in H. destruct H as [Hin Hk].
  apply andb_true_iff in Hk. destruct Hk as [Hu Hs].
  apply Nat.eqb_eq in Hu. apply Nat.eqb_eq in Hs. auto.
Qed.

End SubmitFacts.

(** ** The gates of the routes *)

Section Gates.
Context {ext : Externals}.

(** A route that authenticates does so first, and a route with a role gate
    has it right after. *)
Lemma chain_authenticates c :
  In MAuthenticateToken (chain c) -> exists rest, chain c = MAuthenticateToken :: rest.
Proof.
  destruct c; simpl; unfold adminOnly; intros H; eauto;
    repeat (destruct H as [H|H]; try discriminate H); contradiction.
Qed.

Lemma chain_authorizes c roles :
  In (MAuthorize roles) (chain c) ->
  exists rest, chain c = MAuthenticateToken :: MAuthorize roles :: rest.
Proof.
  destruct c; simpl; unfold adminOnly; intros H;
    repeat (destruct H as [H|H]; try discriminate H); try contradiction;
    inversion H; subst; eauto.
Qed.

Lemma handle_not_authenticated db r userId rest :
  auth r = Bearer userId ->
  chain (call r) = MAuthenticateToken :: rest ->
  (forall u, findById u_id userId (Users db) = Some u -> u_isActive u = false) ->
  handle db r
  = (db, fail 401 "Access denied. User not found or inactive." "USER_NOT_FOUND").
Proof.
  intros Hauth Hchain Hu. unfold handle. rewrite Hchain, Hauth.
  cbn [runChain runMiddleware]. unfold authenticateToken.
  destruct (findById u_id userId (Users db)) as [u|] eqn:F; [|reflexivity].
  now rewrite (Hu u eq_refl).
Qed.

Lemma handle_forbidden db r user roles rest :
  authenticated db (auth r) user ->
  chain (call r) = MAuthenticateToken :: MAuthorize roles :: rest ->
  existsb (Role_eqb (u_role user)) roles = false ->
  handle db r
  = (db, mkResponse 403
           (JObj [ ("message", JStr "Access denied. Insufficient permissions.");
                   ("error", JStr "INSUFFICIENT_PERMISSIONS");
                   ("requiredRoles", jroles roles);
                   ("userRole", JStr (Role_toString (u_role user))) ])).
Proof.
  intros Hauth Hchain Hrole. unfold handle. rewrite Hchain.
  cbn [runChain runMiddleware].
  erewrite authenticateToken_pass by exact Hauth.
  unfold authorize. cbn [req_user]. now rewrite Hrole.
Qed.

(** The chain up to a validation that fails. *)
Lemma runChain_validation_fails db a pre errors post req0 req :
  runChain db a pre req0 = Next req -> errors <> [] ->
  runChain db a (pre ++ MValidate errors :: post) req0 = Send (validationFailed errors).
Proof.
  revert req0. induction pre as [|m pre IH]; simpl; intros req0 Hpre Hne.
  - destruct errors; [congruence|reflexivity].
  - destruct (runMiddleware db a m req0) as [req1|resp]; [|discriminate].
    now apply IH.
Qed.

End Gates.

(** ** Soft-deleted users *)

Section Inactive.
Context {ext : Externals}.

Lemma Store_save_Users isNew now doc db doc' db' :
  Store_save isNew now doc db = inr (doc', db') -> Users db' = Users db.
Proof.
  intros H. apply Store_save_inr in H. destruct H as (_ & _ & _ & ->).
  unfold writeStore. now destruct isNew.
Qed.

Lemma Users_updateStoreHook now doc db :
  Users (Rating_updateStoreHook now doc db) = Users db.
Proof.
  unfold Rating_updateStoreHook.
  destruct (findById s_id (r_storeId doc) (Stores db)) as [store|]; [|reflexivity].
  unfold Store_updateRating.
  match goal with |- context [Store_save false now ?d db] =>
    destruct (Store_save false now d db) as [e|[s' db']] eqn:E end; [reflexivity|].
  eapply Store_save_Users; eauto.
Qed.

Lemma Rating_save_Users isNew now doc db doc' db' :
  Rating_save isNew now doc db = inr (doc', db') -> Users db' = Users db.
Proof.
  intros H. apply Rating_save_inr in H. destruct H as (_ & _ & _ & ->).
  rewrite Users_updateStoreHook. unfold writeRating. now destruct isNew.
Qed.

Lemma Rating_delete_Users now i db : Users (Rating_findByIdAndDelete now i db) = Users db.
Proof. now rewrite Rating_findByIdAndDelete_eq. Qed.

Lemma inactive_frame userId db db' : Users db' = Users db -> inactive userId db -> inactive userId db'.
Proof. unfold inactive. intros ->. auto. Qed.

(** A user [save()] keeps a user inactive unless it writes that user as
    active. *)
Lemma inactive_User_save userId isNew modified now doc db doc' db' :
  User_save isNew modified now doc db = inr (doc', db') ->
  inactive userId db ->
  (isNew = false -> u_id doc = userId -> u_isActive doc = false) ->
  inactive userId db'.
Proof.
  intros Hsave [u [Hu Ha]] Hdoc.
  apply User_save_inr in Hsave. destruct Hsave as (_ & _ & Hid & Hact & HU).
  unfold inactive. rewrite HU. destruct isNew.
  - exists u. split; [|exact Ha]. now apply findById_app.
  - destruct (Nat.eq_dec (u_id doc') userId) as [E|E].
    + exists doc'. split.
      * rewrite <- E. eapply findById_replaceById_same. rewrite E. exact Hu.
      * rewrite Hact. apply Hdoc; congruence.
    + exists u. split; [|exact Ha]. now rewrite findById_replaceById_other.
Qed.

Lemma inactive_clearStoreId userId i db :
  inactive userId db -> inactive userId (User_clearStoreId i db).
Proof.
  intros [u [Hu Ha]]. unfold User_clearStoreId.
  destruct (findById u_id i (Users db)) as [o|] eqn:F; [|exists u; auto].
  unfold inactive. simpl.
  destruct (findById_In _ _ _ F) as [_ Hid].
  match goal with |- context [replaceById u_id ?d _] => set (x := d) end.
  destruct (Nat.eq_dec i userId) as [E|E].
  - rewrite E in F. rewrite Hu in F. inversion F; subst o.
    assert (Hx : u_id x = userId) by (simpl; congruence).
    exists x. split; [|exact Ha].
    rewrite <- Hx. eapply findById_replaceById_same. rewrite Hx. exact Hu.
  - exists u. split; [|exact Ha]. rewrite findById_replaceById_other; [exact Hu|].
    simpl. congruence.
Qed.

Lemma inactive_found userId db i user :
  inactive userId db -> findById u_id i (Users db) = Some user -> u_id user = userId ->
  u_isActive user = false.
Proof.
  intros [u [Hu Ha]] Hf Hid. destruct (findById_In _ _ _ Hf) as [_ Hi].
  assert (i = userId) by congruence. subst i. congruence.
Qed.

Ltac inactive_split :=
  match goal with
  | |- inactive _ (fst (_, _)) => cbn [fst]
  | |- inactive _ (fst (match ?x with _ => _ end)) => destruct x eqn:?
  | |- inactive _ (fst (if ?b then _ else _)) => destruct b eqn:?
  end.

Ltac inactive_leaf :=
  match goal with
  | H : inactive ?u ?db |- inactive ?u ?db => exact H
  | H : Store_save _ _ _ ?db = inr (_, ?db') |- inactive _ ?db' =>
      eapply inactive_frame; [eapply Store_save_Users; exact H|]
  | H : Rating_save _ _ _ ?db = inr (_, ?db') |- inactive _ ?db' =>
      eapply inactive_frame; [eapply Rating_save_Users; exact H|]
  | |- inactive _ (Rating_findByIdAndDelete _ _ _) =>
      eapply inactive_frame; [apply Rating_delete_Users|]
  | |- inactive _ (User_clearStoreId _ _) => apply inactive_clearStoreId
  | H : User_save _ _ _ _ ?db = inr (_, ?db') |- inactive _ ?db' =>
      eapply inactive_User_save; [exact H| |]
  end.

Ltac inactive_auto := cbv zeta; repeat inactive_split; repeat inactive_leaf.

Lemma inactive_createUser userId db now b role okMessage errMessage withToken :
  inactive userId db ->
  inactive userId (fst (createUser db now b role okMessage errMessage withToken)).
Proof. intros H. unfold createUser. inactive_auto. discriminate. Qed.

Lemma inactive_auth_password userId db now u c n :
  inactive userId db -> inactive userId (fst (auth_password db now u c n)).
Proof.
  intros H. unfold auth_password. inactive_auto.
  intros _ Hid. simpl in *. eapply inactive_found; eauto.
Qed.

Lemma inactive_users_create userId db now b :
  inactive userId db -> inactive userId (fst (users_create db now b)).
Proof.
  intros H. unfold users_create.
  destruct (Role_ofString (str (ub_role b))); [now apply inactive_createUser|].
  inactive_auto.
Qed.

Lemma inactive_users_update userId db now i b :
  inactive userId db -> (i = userId -> uu_isActive b <> Some true) ->
  inactive userId (fst (users_update db now i b)).
Proof.
  intros H Hb. unfold users_update. inactive_auto.
  intros _ Hid. simpl in *.
  match goal with Hf : findById u_id i (Users db) = Some ?u |- _ =>
    destruct (findById_In _ _ _ Hf) as [_ Hi];
    assert (Hu : u_isActive u = false) by (eapply inactive_found; eauto) end.
  assert (Hiu : i = userId) by congruence. specialize (Hb Hiu).
  destruct (uu_isActive b) as [[|]|]; congruence.
Qed.

Lemma inactive_users_delete userId db now i :
  inactive userId db -> inactive userId (fst (users_delete db now i)).
Proof. intros H. unfold users_delete. inactive_auto. reflexivity. Qed.

Lemma inactive_stores_create userId db now b :
  inactive userId db -> inactive userId (fst (stores_create db now b)).
Proof.
  intros H. unfold stores_create. inactive_auto.
  intros _ Hid. simpl in *. eapply inactive_found; eauto.
Qed.

Lemma inactive_handler userId db now req c :
  inactive userId db ->
  (forall b, c = PutUser (Id userId) b -> uu_isActive b <> Some true) ->
  inactive userId (fst (handler db now req c)).
Proof.
  intros H Hc. destruct (fst_readers db)
    as (R1 & R2 & R3 & R4 & R5 & R6 & R7 & R8 & R9 & R10 & R11 & R12 & R13 & R14).
  unfold handler.
  destruct c; cbv zeta;
    repeat match goal with
    | |- context [match req_user req with _ => _ end] => destruct (req_user req)
    | |- context [match ?p with Id _ => _ | BadId => _ end] => destruct p
    end;
    cbn [fst]; unfold auth_register;
    rewrite ?R1, ?R2, ?R3, ?R4, ?R5, ?R6, ?R7, ?R8, ?R9, ?R10, ?R11, ?R12, ?R13, ?R14;
    auto using inactive_createUser, inactive_auth_password, inactive_users_create,
      inactive_users_delete, inactive_stores_create.
  - apply inactive_users_update; [exact H|]. intros ->. eapply Hc. reflexivity.
  - unfold ratings_submit, ratingSaveFailed. inactive_auto.
  - unfold ratings_update, ratingSaveFailed. inactive_auto.
  - unfold ratings_delete. inactive_auto.
  - unfold stores_update. inactive_auto.
  - unfold stores_delete. inactive_auto.
Qed.

(** A request keeps a soft-deleted user inactive unless it is the
    reactivation of that user. *)
Lemma inactive_handle userId db r :
  inactive userId db -> ~ reactivates userId r -> inactive userId (fst (handle db r)).
Proof.
  intros H Hr. unfold handle.
  destruct (runChain db (auth r) (chain (call r)) (mkReq None None)); cbn [fst]; [|exact H].
  apply inactive_handler; [exact H|].
  intros b Hcall Hb. apply Hr. exists b. auto.
Qed.

End Inactive.

(** Two documents of a collection with the same unique key are the same. *)
Lemma NoDup_map_eq (A B : Type) (key : A -> B) (l : list A) a b :
  NoDup (map key l) -> In a l -> In b l -> key a = key b -> a = b.
Proof.
  induction l as [|x t IH]; simpl; [tauto|].
  intros Hnd Ha Hb Hk. inversion Hnd as [|? ? Hnot Hnd']; subst.
  destruct Ha as [->|Ha]; destruct Hb as [->|Hb]; auto.
  - exfalso. apply Hnot. rewrite Hk. now apply in_map.
  - exfalso. apply Hnot. rewrite <- Hk. now apply in_map.
Qed.

Section UpdateFacts.
Context {ext : Externals}.

(** Writing a stored rating back under its own key never trips the unique
    indexes. *)
Lemma duplicateKey_rating_update db e doc :
  Inv db -> In e (Ratings db) ->
  r_userId doc = r_userId e -> r_storeId doc = r_storeId e -> r_id doc = r_id e ->
  duplicateKey r_id (fun o => (r_userId o =? r_userId doc) && (r_storeId o =? r_storeId doc))
               false doc (Ratings db) = false.
Proof.
  intros Hinv Hin Hu Hs Hi. unfold duplicateKey.
  destruct (existsb _ (Ratings db)) eqn:E; [|reflexivity].
  apply existsb_exists in E. destruct E as [o [Ho Hk]].
  apply andb_true_iff in Hk. destruct Hk as [Hk Hne].
  apply andb_true_iff in Hk. destruct Hk as [Hku Hks].
  apply Nat.eqb_eq in Hku. apply Nat.eqb_eq in Hks.
  apply negb_true_iff in Hne. apply Nat.eqb_neq in Hne.
  exfalso. apply Hne. rewrite Hi. f_equal.
  apply (@NoDup_map_eq _ _ ratingKey (Ratings db)); auto.
  - exact (inv_rating_keys Hinv).
  - unfold ratingKey. congruence.
Qed.

End UpdateFacts.

(** ** Bodies without a given field *)

Lemma noKey_JObj k fs : noKeyIn k fs -> noKey k (JObj fs).
Proof.
  unfold noKeyIn, noKey. intros H. simpl.
  induction H as [|kv t [Hk Hv] _ IH]; simpl; [reflexivity|].
  now rewrite Hk, Hv, IH.
Qed.

Lemma noKey_JArr k l : Forall (noKey k) l -> noKey k (JArr l).
Proof.
  unfold noKey. intros H. simpl.
  induction H as [|j t Hj _ IH]; simpl; [reflexivity|]. now rewrite Hj, IH.
Qed.

Lemma noKey_JArr_map (A : Type) k (f : A -> json) l :
  (forall x, noKey k (f x)) -> noKey k (JArr (map f l)).
Proof.
  intros H. apply noKey_JArr. apply Forall_forall. intros j Hj.
  apply in_map_iff in Hj. destruct Hj as [x [<- _]]. apply H.
Qed.

Lemma noKeyIn_filter k p fs : noKeyIn k fs -> noKeyIn k (filter p fs).
Proof.
  unfold noKeyIn. intros H. apply Forall_forall. intros kv Hkv.
  apply filter_In in Hkv. destruct Hkv as [Hin _].
  rewrite Forall_forall in H. auto.
Qed.

Lemma noKeyIn_app k fs gs : noKeyIn k fs -> noKeyIn k gs -> noKeyIn k (fs ++ gs).
Proof. unfold noKeyIn. intros. apply Forall_app. auto. Qed.

(** [delete obj[k]] removes the field; what is left has no [k] when the
    values have none inside. *)
Lemma noKeyIn_deleteKey k fs :
  Forall (fun kv => noKey k (snd kv)) fs -> noKeyIn k (deleteKey k fs).
Proof.
  unfold noKeyIn, deleteKey. intros H. apply Forall_forall. intros kv Hkv.
  apply filter_In in Hkv. destruct Hkv as [Hin Hk].
  rewrite Forall_forall in H. split; [|auto].
  now apply negb_true_iff in Hk.
Qed.

(** A field selection that does not list [k] leaves no field [k]. *)
Lemma noKeyIn_pick k names fs :
  String.eqb k "_id" = false -> existsb (String.eqb k) names = false ->
  Forall (fun kv => noKey k (snd kv)) fs -> noKeyIn k (pick names fs).
Proof.
  unfold noKeyIn, pick. intros Hid Hnames H. apply Forall_forall. intros kv Hkv.
  apply filter_In in Hkv. destruct Hkv as [Hin Hk].
  rewrite Forall_forall in H. split; [|auto].
  destruct (String.eqb (fst kv) k) eqn:E; [|reflexivity].
  apply String.eqb_eq in E. rewrite E in Hk. rewrite Hid, Hnames in Hk. discriminate.
Qed.

Lemma noKey_jnat k n : noKey k (jnat n).
Proof. reflexivity. Qed.

Lemma noKey_jopt (A : Type) k (f : A -> json) o :
  (forall a, noKey k (f a)) -> noKey k (jopt f o).
Proof. intros H. destruct o; simpl; [apply H|reflexivity]. Qed.

Lemma Forall_filter_keep (A : Type) (P : A -> Prop) p (l : list A) :
  Forall P l -> Forall P (filter p l).
Proof.
  intros H. apply Forall_forall. intros x Hx. apply filter_In in Hx.
  rewrite Forall_forall in H. apply H. tauto.
Qed.

Create HintDb nokey.

Ltac no_key_step :=
  first
    [ solve [auto with nokey]
    | reflexivity
    | apply noKey_JObj
    | apply noKeyIn_app
    | apply Forall_nil
    | apply Forall_cons; [split; [reflexivity|] | ]
    | apply noKey_JArr_map; intros
    | apply noKey_jopt; intros
    | assumption ].

Ltac no_key := unfold noKeyIn; repeat no_key_step.

Section NoPassword.

Lemma Store_toObject_noPassword ownerId s :
  noKey "password" ownerId -> noKeyIn "password" (Store_toObject ownerId s).
Proof. intros H. unfold Store_toObject. no_key. Qed.

Lemma Rating_toObject_noPassword userId storeId r :
  noKey "password" userId -> noKey "password" storeId ->
  noKeyIn "password" (Rating_toObject userId storeId r).
Proof. intros Hu Hs. unfold Rating_toObject. no_key. Qed.

Lemma populateStore_noPassword fields ref db :
  noKey "password" (populateStore fields ref db).
Proof.
  unfold populateStore. destruct ref as [i|]; [|reflexivity].
  destruct (findById s_id i (Stores db)) as [s|]; [|reflexivity].
  apply noKey_JObj. unfold pick. apply noKeyIn_filter.
  apply Store_toObject_noPassword. reflexivity.
Qed.

Lemma User_toObject_values withPassword storeId u :
  noKey "password" storeId ->
  Forall (fun kv => noKey "password" (snd kv)) (User_toObject withPassword storeId u).
Proof.
  intros H. unfold User_toObject.
  destruct withPassword; simpl; repeat (constructor; [first [reflexivity|exact H]|]);
    constructor.
Qed.

(** The [toJSON] of the User model leaves no [password] field. *)
Lemma User_toJSON_noPassword withPassword storeId u :
  noKey "password" storeId -> noKey "password" (User_toJSON withPassword storeId u).
Proof.
  intros H. unfold User_toJSON. apply noKey_JObj. apply noKeyIn_deleteKey.
  now apply User_toObject_values.
Qed.

Lemma populateUser_noPassword fields i db : noKey "password" (populateUser fields i db).
Proof.
  unfold populateUser, populatedUser.
  destruct (findById u_id i (Users db)) as [u|]; [|reflexivity].
  apply noKey_JObj. apply noKeyIn_deleteKey. unfold pick. apply Forall_filter_keep.
  apply User_toObject_values. apply noKey_jopt. reflexivity.
Qed.

(** A populated user that is not serialised by [toJSON] has no [password]
    field when the selection does not list it. *)
Lemma populateUserObject_noPassword fields i db :
  existsb (String.eqb "password") fields = false ->
  noKey "password" (populateUserObject fields i db).
Proof.
  intros Hf. unfold populateUserObject, populatedUser.
  destruct (findById u_id i (Users db)) as [u|]; [|reflexivity].
  apply noKey_JObj. apply noKeyIn_pick; [reflexivity|exact Hf|].
  apply User_toObject_values. apply noKey_jopt. reflexivity.
Qed.

Lemma ratingWithUser_noPassword db fields storeId r :
  noKey "password" storeId -> noKey "password" (ratingWithUser db fields storeId r).
Proof.
  intros H. unfold ratingWithUser. apply noKey_JObj.
  apply Rating_toObject_noPassword; [apply populateUser_noPassword|exact H].
Qed.

Lemma mongooseValidationFailed_noPassword errors :
  noKey "password" (body (mongooseValidationFailed errors)).
Proof. unfold mongooseValidationFailed. cbn [body]. no_key. Qed.

End NoPassword.

#[local] Hint Resolve populateStore_noPassword User_toJSON_noPassword
  populateUser_noPassword ratingWithUser_noPassword Store_toObject_noPassword
  Rating_toObject_noPassword mongooseValidationFailed_noPassword noKey_jnat : nokey.

Ltac body_split :=
  match goal with
  | |- noKey _ (body (snd (_, _))) => cbn [snd]
  | |- noKey _ (body (snd (match ?x with _ => _ end))) => destruct x eqn:?
  | |- noKey _ (body (snd (if ?b then _ else _))) => destruct b eqn:?
  end.

Ltac body_leaf :=
  unfold ok, created, fail, errorBody; cbn [body];
  repeat first
    [ solve [auto with nokey]
    | no_key_step
    | match goal with
      | |- context [if ?b then _ else _] => destruct b
      | |- context [match ?o with Some _ => _ | None => _ end] => destruct o
      end ].

Ltac body_auto := cbv zeta; repeat body_split; try solve [body_leaf].

Section NoPasswordInBodies.
Context {ext : Externals}.

Lemma createUser_noPassword db now b role okMessage errMessage withToken :
  noKey "password" (body (snd (createUser db now b role okMessage errMessage withToken))).
Proof. unfold createUser. body_auto. Qed.

Lemma auth_login_noPassword db now e p : noKey "password" (body (snd (auth_login db now e p))).
Proof. unfold auth_login. body_auto. Qed.

Lemma auth_profile_noPassword db u : noKey "password" (body (snd (auth_profile db u))).
Proof. unfold auth_profile. body_auto. Qed.

Lemma auth_password_noPassword db now u c n :
  noKey "password" (body (snd (auth_password db now u c n))).
Proof. unfold auth_password. body_auto. Qed.

Lemma auth_verify_noPassword db u : noKey "password" (body (snd (auth_verify db u))).
Proof. unfold auth_verify. body_auto. Qed.

Lemma users_create_noPassword db now b : noKey "password" (body (snd (users_create db now b))).
Proof.
  unfold users_create. destruct (Role_ofString _); [apply createUser_noPassword|].
  body_auto.
Qed.

Lemma users_list_noPassword db q : noKey "password" (body (snd (users_list db q))).
Proof. unfold users_list, pagination. body_auto. Qed.

Lemma users_get_noPassword db i : noKey "password" (body (snd (users_get db i))).
Proof. unfold users_get. body_auto. Qed.

Lemma users_update_noPassword db now i b :
  noKey "password" (body (snd (users_update db now i b))).
Proof. unfold users_update. body_auto. Qed.

Lemma users_delete_noPassword db now i : noKey "password" (body (snd (users_delete db now i))).
Proof. unfold users_delete. body_auto. Qed.

Lemma ratings_submit_noPassword db now u b :
  noKey "password" (body (snd (ratings_submit db now u b))).
Proof. unfold ratings_submit, ratingSaveFailed, ratingSummary. body_auto. Qed.

Lemma ratings_mine_noPassword db u i : noKey "password" (body (snd (ratings_mine db u i))).
Proof. unfold ratings_mine. body_auto. Qed.

Lemma ratings_ofStore_noPassword db u i :
  noKey "password" (body (snd (ratings_ofStore db u i))).
Proof. unfold ratings_ofStore. body_auto. Qed.

Lemma ratings_ofUser_noPassword db u : noKey "password" (body (snd (ratings_ofUser db u))).
Proof. unfold ratings_ofUser. body_auto. Qed.

Lemma ratings_update_noPassword db now u i rating comment :
  noKey "password" (body (snd (ratings_update db now u i rating comment))).
Proof. unfold ratings_update, ratingSaveFailed, ratingSummary. body_auto. Qed.

Lemma ratings_delete_noPassword db now u i :
  noKey "password" (body (snd (ratings_delete db now u i))).
Proof. unfold ratings_delete. body_auto. Qed.

Lemma ratings_stats_noPassword db : noKey "password" (body (snd (ratings_stats db))).
Proof.
  unfold ratings_stats. cbv zeta. cbn [snd]. unfold ok. cbn [body].
  no_key. cbn [snd]. destruct (map r_rating (Ratings db)); reflexivity.
Qed.

Lemma stores_create_noPassword db now b :
  noKey "password" (body (snd (stores_create db now b))).
Proof. unfold stores_create. body_auto. Qed.

Lemma stores_list_noPassword db u q : noKey "password" (body (snd (stores_list db u q))).
Proof.
  unfold stores_list, pagination, userRatingSummary. cbv zeta. cbn [snd]. unfold ok. cbn [body].
  no_key.
  destruct (Role_eqb (u_role u) RUser).
  - apply noKey_JArr_map. intros s. apply noKey_JObj. apply noKeyIn_app.
    + apply Store_toObject_noPassword. apply populateUserObject_noPassword.
      now destruct (Role_eqb (u_role u) RAdmin).
    + no_key.
  - apply noKey_JArr_map. intros s. apply noKey_JObj.
    apply Store_toObject_noPassword. apply populateUser_noPassword.
Qed.

Lemma stores_get_noPassword db u i : noKey "password" (body (snd (stores_get db u i))).
Proof.
  unfold stores_get, userRatingSummary.
  destruct (findById s_id i (Stores db)) as [s|]; [|reflexivity].
  destruct (negb (s_isActive s)); [reflexivity|]. cbv zeta.
  destruct (if Role_eqb (u_role u) RStoreOwner then _ else _) as [own|]; [|reflexivity].
  cbn [snd]. unfold ok. cbn [body]. apply noKey_JObj. repeat apply noKeyIn_app.
  - no_key.
  - destruct (Role_eqb (u_role u) RUser); no_key.
  - destruct (_ || _); no_key.
Qed.

Lemma stores_dashboard_noPassword db req :
  noKey "password" (body (snd (stores_dashboard db req))).
Proof.
  unfold stores_dashboard. destruct (req_store req) as [s|]; [|reflexivity].
  cbv zeta. cbn [snd]. unfold ok. cbn [body]. no_key.
Qed.

Lemma stores_update_noPassword db now i name email address :
  noKey "password" (body (snd (stores_update db now i name email address))).
Proof. unfold stores_update. body_auto. Qed.

Lemma stores_delete_noPassword db now i :
  noKey "password" (body (snd (stores_delete db now i))).
Proof. unfold stores_delete. body_auto. Qed.

End NoPasswordInBodies.

(** ** Requests answered 400 *)

Ltac bad_split :=
  match goal with
  | |- status (snd (?d, _)) = 400 -> fst (?d, _) = ?d => intros _; reflexivity
  | |- status (snd (_, ok _)) = 400 -> _ => intros Hbad; discriminate Hbad
  | |- status (snd (_, created _)) = 400 -> _ => intros Hbad; discriminate Hbad
  | |- status (snd (match ?x with _ => _ end)) = 400 -> _ => destruct x eqn:?
  | |- status (snd (if ?b then _ else _)) = 400 -> _ => destruct b eqn:?
  end.

Ltac bad_auto := cbv zeta; repeat bad_split.

Section BadRequests.
Context {ext : Externals}.

Lemma createUser_bad db now b role okMessage errMessage withToken :
  status (snd (createUser db now b role okMessage errMessage withToken)) = 400 ->
  fst (createUser db now b role okMessage errMessage withToken) = db.
Proof. unfold createUser. bad_auto. Qed.

Lemma auth_password_bad db now u c n :
  status (snd (auth_password db now u c n)) = 400 -> fst (auth_password db now u c n) = db.
Proof. unfold auth_password. bad_auto. Qed.

Lemma users_create_bad db now b :
  status (snd (users_create db now b)) = 400 -> fst (users_create db now b) = db.
Proof.
  unfold users_create. destruct (Role_ofString _); [apply createUser_bad|]. bad_auto.
Qed.

Lemma users_update_bad db now i b :
  status (snd (users_update db now i b)) = 400 -> fst (users_update db now i b) = db.
Proof. unfold users_update. bad_auto. Qed.

Lemma users_delete_bad db now i :
  status (snd (users_delete db now i)) = 400 -> fst (users_delete db now i) = db.
Proof. unfold users_delete. bad_auto. Qed.

Lemma ratings_submit_bad db now u b :
  status (snd (ratings_submit db now u b)) = 400 -> fst (ratings_submit db now u b) = db.
Proof. unfold ratings_submit, ratingSaveFailed. bad_auto. Qed.

Lemma ratings_update_bad db now u i rating comment :
  status (snd (ratings_update db now u i rating comment)) = 400 ->
  fst (ratings_update db now u i rating comment) = db.
Proof. unfold ratings_update, ratingSaveFailed. bad_auto. Qed.

Lemma ratings_delete_bad db now u i :
  status (snd (ratings_delete db now u i)) = 400 -> fst (ratings_delete db now u i) = db.
Proof.
  unfold ratings_delete. bad_auto.
Qed.

(** In [POST /api/stores] the owner is saved after the store; on a database
    that satisfies the invariant that second [save()] goes through. *)
Lemma stores_create_bad db now b :
  Inv db ->
  status (snd (stores_create db now b)) = 400 -> fst (stores_create db now b) = db.
Proof.
  intros Hinv. unfold stores_create. bad_auto; exfalso;
    match goal with
    | Hs : Store_save true _ _ ?d0 = inr (_, ?d),
      Hu : User_save false false _ ?doc ?d = inl _,
      Ho : findById u_id _ (Users ?d0) = Some ?owner |- _ =>
        assert (Hinv1 : Inv d) by (eapply Inv_Store_save; eauto);
        assert (HU : Users d = Users d0) by (eapply Store_save_Users; eauto);
        destruct (findById_In _ _ _ Ho) as [Hin _];
        rewrite <- HU in Hin;
        rewrite User_save_ok in Hu; [discriminate Hu| |]
    end;
    match goal with
    | |- User_validate _ = [] =>
        pose proof (inv_users Hinv1) as Hall; rewrite Forall_forall in Hall;
        exact (Hall _ Hin)
    | |- duplicateKey _ _ _ _ _ = false =>
        unfold duplicateKey;
        match goal with |- existsb ?f ?l = false =>
          destruct (existsb f l) eqn:E; [|reflexivity] end;
        apply existsb_exists in E; destruct E as [o [Hino Hk]];
        apply andb_true_iff in Hk; destruct Hk as [Hk Hne];
        apply String.eqb_eq in Hk; apply negb_true_iff in Hne;
        apply Nat.eqb_neq in Hne; exfalso; apply Hne;
        match goal with
        | Hin' : In ?owner (Users _) |- _ =>
            exact (inv_user_emails Hinv1 o owner Hino Hin' Hk)
        end
    end.
Qed.

Lemma stores_update_bad db now i name email address :
  status (snd (stores_update db now i name email address)) = 400 ->
  fst (stores_update db now i name email address) = db.
Proof. unfold stores_update. bad_auto. Qed.

Lemma stores_delete_bad db now i :
  status (snd (stores_delete db now i)) = 400 -> fst (stores_delete db now i) = db.
Proof.
  unfold stores_delete. bad_auto.
Qed.

(** On a database that satisfies the invariant, a request answered 400
    changed nothing. *)
Lemma handle_bad db r :
  Inv db -> status (snd (handle db r)) = 400 -> fst (handle db r) = db.
Proof.
  intros Hinv. destruct (fst_readers db)
    as (R1 & R2 & R3 & R4 & R5 & R6 & R7 & R8 & R9 & R10 & R11 & R12 & R13 & R14).
  unfold handle.
  destruct (runChain db (auth r) (chain (call r)) (mkReq None None)) as [req|resp];
    [|intros _; reflexivity].
  unfold handler.
  destruct (call r); cbv zeta;
    repeat match goal with
    | |- context [match req_user req with _ => _ end] => destruct (req_user req)
    | |- context [match ?p with Id _ => _ | BadId => _ end] => destruct p
    end;
    try (intros _; cbn [fst]; reflexivity); unfold auth_register;
    rewrite ?R1, ?R2, ?R3, ?R4, ?R5, ?R6, ?R7, ?R8, ?R9, ?R10, ?R11, ?R12, ?R13, ?R14;
    auto using createUser_bad, auth_password_bad, users_create_bad, users_update_bad,
      users_delete_bad, ratings_submit_bad, ratings_update_bad, ratings_delete_bad,
      stores_create_bad, stores_update_bad, stores_delete_bad.
Qed.

End BadRequests.

(** ** Responses do not depend on the stored password hashes *)

Section MapFacts.
Variables A : Type.
Variable g : A -> A.

Lemma find_map_commute (p : A -> bool) l :
  (forall x, p (g x) = p x) -> find p (map g l) = option_map g (find p l).
Proof.
  intros Hp. induction l as [|x t IH]; simpl; [reflexivity|].
  rewrite Hp. destruct (p x); [reflexivity|exact IH].
Qed.

Lemma filter_map_commute (p : A -> bool) l :
  (forall x, p (g x) = p x) -> filter p (map g l) = map g (filter p l).
Proof.
  intros Hp. induction l as [|x t IH]; simpl; [reflexivity|].
  rewrite Hp. destruct (p x); simpl; congruence.
Qed.

Lemma insertSorted_map (before : A -> A -> bool) x l :
  (forall a b, before (g a) (g b) = before a b) ->
  insertSorted before (g x) (map g l) = map g (insertSorted before x l).
Proof.
  intros Hb. induction l as [|y t IH]; simpl; [reflexivity|].
  rewrite Hb. destruct (before x y); simpl; congruence.
Qed.

Lemma sortBy_map (before : A -> A -> bool) l :
  (forall a b, before (g a) (g b) = before a b) ->
  sortBy before (map g l) = map g (sortBy before l).
Proof.
  intros Hb. unfold sortBy. induction l as [|x t IH]; simpl; [reflexivity|].
  rewrite IH. now apply insertSorted_map.
Qed.

Lemma paginate_map page limit l :
  paginate page limit (map g l) = map g (paginate page limit l).
Proof. unfold paginate. now rewrite skipn_map, firstn_map. Qed.

End MapFacts.

Section Rehash.
Context {ext : Externals}.
Variable hashes : User -> string.

Local Abbreviation g := (rehashUser hashes).

Lemma findById_rehash i db :
  findById u_id i (Users (rehash hashes db)) = option_map g (findById u_id i (Users db)).
Proof. unfold rehash, findById. simpl. now apply find_map_commute. Qed.

Lemma User_toJSON_rehash withPw storeId u :
  User_toJSON withPw storeId (g u) = User_toJSON withPw storeId u.
Proof. unfold User_toJSON, User_toObject. now destruct withPw. Qed.

Lemma populateStore_rehash fields ref db :
  populateStore fields ref (rehash hashes db) = populateStore fields ref db.
Proof. reflexivity. Qed.

Lemma deleteKey_pick k names fs :
  deleteKey k (pick names fs) = pick names (deleteKey k fs).
Proof.
  unfold deleteKey, pick. induction fs as [|kv t IH]; simpl; [reflexivity|].
  destruct (String.eqb (fst kv) "_id" || existsb (String.eqb (fst kv)) names) eqn:E1;
    destruct (negb (String.eqb (fst kv) k)) eqn:E2; simpl; rewrite ?E1, ?E2; congruence.
Qed.

Lemma populateUser_rehash fields i db :
  populateUser fields i (rehash hashes db) = populateUser fields i db.
Proof.
  unfold populateUser, populatedUser. rewrite findById_rehash.
  destruct (findById u_id i (Users db)) as [u|]; [|reflexivity].
  cbn [option_map]. f_equal. rewrite !deleteKey_pick. reflexivity.
Qed.

Lemma runMiddleware_rehash db a m req :
  runMiddleware (rehash hashes db) a m (reqRehash hashes req)
  = match runMiddleware db a m req with
    | Next req' => Next (reqRehash hashes req')
    | Send resp => Send resp
    end.
Proof.
  destruct req as [user store0].
  destruct m as [|roles|errors|storeId]; simpl.
  - unfold authenticateToken. destruct a as [| | |uid]; try reflexivity.
    rewrite findById_rehash.
    destruct (findById u_id uid (Users db)) as [u|]; [|reflexivity].
    simpl. destruct (u_isActive u); reflexivity.
  - unfold authorize, reqRehash. destruct user as [u|]; [|reflexivity].
    simpl. destruct (negb _); reflexivity.
  - destruct errors; reflexivity.
  - unfold verifyStoreOwner, reqRehash. destruct user as [u|]; [|reflexivity].
    simpl. destruct (Role_eqb (u_role u) RAdmin); [reflexivity|].
    destruct (negb (Role_eqb (u_role u) RStoreOwner)); [reflexivity|].
    destruct storeId as [|i]; [reflexivity|].
    destruct (findById s_id i (Stores db)) as [store|]; [|reflexivity].
    destruct (negb (s_ownerId store =? u_id u)); reflexivity.
Qed.

Lemma runChain_rehash db a ms req :
  runChain (rehash hashes db) a ms (reqRehash hashes req)
  = match runChain db a ms req with
    | Next req' => Next (reqRehash hashes req')
    | Send resp => Send resp
    end.
Proof.
  revert req. induction ms as [|m rest IH]; intros req; simpl; [reflexivity|].
  rewrite runMiddleware_rehash.
  destruct (runMiddleware db a m req) as [req'|resp]; [apply IH|reflexivity].
Qed.

Lemma auth_profile_rehash db u :
  snd (auth_profile (rehash hashes db) (g u)) = snd (auth_profile db u).
Proof.
  unfold auth_profile. cbn [snd u_id g withPassword]. rewrite findById_rehash.
  destruct (findById u_id (u_id u) (Users db)) as [v|]; [|reflexivity].
  simpl. now rewrite User_toJSON_rehash.
Qed.

Lemma auth_verify_rehash db u :
  snd (auth_verify (rehash hashes db) (g u)) = snd (auth_verify db u).
Proof. reflexivity. Qed.

Lemma users_list_rehash db q :
  snd (users_list (rehash hashes db) q) = snd (users_list db q).
Proof.
  unfold users_list. cbv zeta. cbn [snd].
  change (Users (rehash hashes db)) with (map g (Users db)).
  rewrite filter_map_commute by reflexivity.
  rewrite sortBy_map by reflexivity. rewrite paginate_map, map_map, length_map.
  rewrite (map_ext _ (fun u => User_toJSON false
             (populateStore ["name"; "averageRating"] (u_storeId u) db) u));
    [reflexivity|].
  intros u. now rewrite User_toJSON_rehash.
Qed.

Lemma users_get_rehash db i :
  snd (users_get (rehash hashes db) i) = snd (users_get db i).
Proof.
  unfold users_get. rewrite findById_rehash.
  destruct (findById u_id i (Users db)) as [u|]; [|reflexivity].
  cbn [option_map]. change (u_isActive (g u)) with (u_isActive u).
  destruct (negb (u_isActive u)); [reflexivity|].
  cbv zeta. cbn [snd]. rewrite User_toJSON_rehash.
  change (u_storeId (g u)) with (u_storeId u).
  change (u_role (g u)) with (u_role u).
  change (Stores (rehash hashes db)) with (Stores db).
  change (Ratings (rehash hashes db)) with (Ratings db).
  rewrite populateStore_rehash.
  do 3 f_equal.
  destruct (match u_storeId u with Some i0 => findById s_id i0 (Stores db) | None => None end)
    as [store|]; [|reflexivity].
  destruct (Role_eqb (u_role u) RStoreOwner); [|reflexivity].
  do 4 f_equal. f_equal. f_equal. f_equal.
  unfold ratingsOfStore. change (Ratings (rehash hashes db)) with (Ratings db).
  f_equal. apply map_ext. intros r. unfold ratingWithUser. now rewrite populateUser_rehash.
Qed.

Lemma handle_rehash db r :
  readsUsers (call r) = true ->
  snd (handle (rehash hashes db) r) = snd (handle db r).
Proof.
  intros Hread. unfold handle.
  change (mkReq None None) with (reqRehash hashes (mkReq None None)) at 1.
  rewrite runChain_rehash.
  destruct (runChain db (auth r) (chain (call r)) (mkReq None None)) as [req|resp];
    [|reflexivity].
  destruct req as [user store]. unfold handler.
  destruct (call r) as [| | | | | | | |q|userId| | | | | | | | | | | | | | |];
    try discriminate Hread; cbv zeta.
  - destruct user as [u|]; [apply auth_profile_rehash|reflexivity].
  - destruct user as [u|]; [apply auth_verify_rehash|reflexivity].
  - apply users_list_rehash.
  - destruct userId as [|i]; [reflexivity|apply users_get_rehash].
Qed.

End Rehash.

(** A unique key selects at most one document. *)
Lemma NoDup_key_filter (A B : Type) (key : A -> B) (p : A -> bool) (k : B) (l : list A) :
  NoDup (map key l) -> (forall x, p x = true -> key x = k) ->
  List.length (filter p l) <= 1.
Proof.
  intros Hnd Hp. induction l as [|x t IH]; simpl; [lia|].
  inversion Hnd as [|? ? Hnot Hnd']; subst.
  destruct (p x) eqn:E; [|auto].
  assert (Hnil : filter p t = []).
  { destruct (filter p t) as [|y t'] eqn:F; [reflexivity|].
    assert (Hy : In y (filter p t)) by (rewrite F; now left).
    apply filter_In in Hy. destruct Hy as [Hin Hpy].
    exfalso. apply Hnot. apply in_map_iff. exists y. split; [|exact Hin].
    rewrite (Hp _ Hpy), (Hp _ E). reflexivity. }
  rewrite Hnil. simpl. lia.
Qed.

(** ** [trim] *)

Lemma trimEnd_cons c t :
  Js.trimEnd (String c t)
  = match Js.trimEnd t with
    | EmptyString => if Js.isWhiteSpace c then EmptyString else String c EmptyString
    | String d t' => String c (String d t')
    end.
Proof. reflexivity. Qed.

Lemma trimEnd_idempotent s : Js.trimEnd (Js.trimEnd s) = Js.trimEnd s.
Proof.
  induction s as [|c t IH]; [reflexivity|].
  rewrite trimEnd_cons. destruct (Js.trimEnd t) as [|d t'] eqn:E.
  - destruct (Js.isWhiteSpace c) eqn:W; [reflexivity|].
    rewrite trimEnd_cons. cbn [Js.trimEnd]. now rewrite W.
  - rewrite trimEnd_cons, IH. reflexivity.
Qed.

Lemma trimStart_head s :
  match Js.trimStart s with
  | EmptyString => True
  | String c _ => Js.isWhiteSpace c = false
  end.
Proof.
  induction s as [|c t IH]; [exact I|].
  cbn [Js.trimStart]. destruct (Js.isWhiteSpace c) eqn:W; [exact IH|exact W].
Qed.

Lemma trimStart_trimEnd s :
  match s with
  | EmptyString => True
  | String c _ => Js.isWhiteSpace c = false
  end ->
  Js.trimStart (Js.trimEnd s) = Js.trimEnd s.
Proof.
  destruct s as [|c t]; [reflexivity|]. intros W.
  rewrite trimEnd_cons. destruct (Js.trimEnd t) as [|d t'].
  - rewrite W. cbn [Js.trimStart]. now rewrite W.
  - cbn [Js.trimStart]. now rewrite W.
Qed.

Lemma trim_idempotent s : Js.trim (Js.trim s) = Js.trim s.
Proof.
  unfold Js.trim. rewrite trimStart_trimEnd by apply trimStart_head.
  apply trimEnd_idempotent.
Qed.

(** ** Writes that go through *)

Lemma ensure_nil ok path msg value : ensure ok path msg value = [] <-> ok = true.
Proof. unfold ensure. destruct ok; split; congruence. Qed.

Section Accepted.
Context {ext : Externals}.

(** A body that passes [validateRating], with a comment that after [trim]
    is within the 500 units of the schema, gives a rating document that
    passes the schema. *)
Lemma validateRating_ok b :
  fst (validateRating b) = [] ->
  String.length (Js.trim (match rb_comment b with Some c => c | None => "" end)) <= 500 ->
  exists q storeId,
    rb_rating b = Some q /\ rb_storeId b = Some storeId /\ isMongoId storeId = true /\
    forall i u s created updated,
      Rating_validate
        (mkRating i u s q
           (Js.trim (match rb_comment (snd (validateRating b)) with
                     | Some c => c
                     | None => ""
                     end)) created updated) = [].
Proof.
  cbn [validateRating fst snd rb_comment]. intros H Hlen.
  apply app_eq_nil in H. destruct H as [Hr H].
  apply app_eq_nil in H. destruct H as [_ Hs].
  apply ensure_nil in Hr. apply ensure_nil in Hs.
  destruct (rb_rating b) as [q|]; [|discriminate].
  destruct (rb_storeId b) as [storeId|]; [|discriminate].
  exists q, storeId. repeat split; auto.
  intros i u s created updated. apply Rating_validate_nil. unfold ratingOK.
  cbn [r_rating r_comment]. cbn [isIntNum] in Hr.
  rewrite !andb_true_iff in Hr. destruct Hr as [[Hint Hlo] Hhi].
  apply Qle_bool_iff in Hlo. apply Qle_bool_iff in Hhi.
  repeat split; auto.
  destruct (rb_comment b) as [c|]; cbn [option_map].
  - now rewrite trim_idempotent.
  - simpl. lia.
Qed.

(** In a database that satisfies the invariant, the rating of a user for a
    store is the one [findOne] returns. *)
Lemma Rating_findOne_unique db existing :
  Inv db -> In existing (Ratings db) ->
  Rating_findOne (r_userId existing) (r_storeId existing) db = Some existing.
Proof.
  intros Hinv Hin. unfold Rating_findOne.
  destruct (find _ (Ratings db)) as [x|] eqn:F.
  - apply find_some in F. destruct F as [Hx Hk].
    apply andb_true_iff in Hk. destruct Hk as [Hu Hs].
    apply Nat.eqb_eq in Hu. apply Nat.eqb_eq in Hs. f_equal.
    apply (NoDup_map_eq ratingKey _ _ _ (inv_rating_keys Hinv) Hx Hin).
    unfold ratingKey. now rewrite Hu, Hs.
  - pose proof (find_none _ _ F existing Hin) as Hn. simpl in Hn.
    now rewrite !Nat.eqb_refl in Hn.
Qed.

(** On a database that satisfies the invariant, saving a user again as it
    is stored, whatever its [storeId] and [isActive], goes through. *)
Lemma User_save_again db now u doc :
  Inv db -> In u (Users db) ->
  u_id doc = u_id u -> u_name doc = u_name u -> u_email doc = u_email u ->
  u_password doc = u_password u -> u_address doc = u_address u ->
  exists saved db', User_save false false now doc db = inr (saved, db').
Proof.
  intros Hinv Hin Hid Hname Hemail Hpass Haddr.
  rewrite User_save_ok; [eauto| |].
  - pose proof (inv_users Hinv) as Hall. rewrite Forall_forall in Hall.
    specialize (Hall _ Hin). unfold User_validate in *.
    now rewrite Hname, Hemail, Hpass, Haddr.
  - unfold duplicateKey.
    match goal with |- existsb ?f ?l = false =>
      destruct (existsb f l) eqn:E; [|reflexivity] end.
    apply existsb_exists in E. destruct E as [o [Hino Hk]].
    apply andb_true_iff in Hk. destruct Hk as [Hk Hne].
    apply String.eqb_eq in Hk. apply negb_true_iff in Hne.
    apply Nat.eqb_neq in Hne. exfalso. apply Hne.
    cbn [stampUser u_id]. rewrite Hid.
    apply (inv_user_emails Hinv o u Hino Hin). congruence.
Qed.

(** And so does saving a store again, whatever its [isActive]. *)
Lemma Store_save_again db now s doc :
  Inv db -> In s (Stores db) ->
  s_id doc = s_id s -> s_name doc = s_name s -> s_email doc = s_email s ->
  s_address doc = s_address s -> s_averageRating doc = s_averageRating s ->
  s_totalRatings doc = s_totalRatings s ->
  exists saved db', Store_save false now doc db = inr (saved, db').
Proof.
  intros Hinv Hin Hid Hname Hemail Haddr Havg Htot.
  rewrite Store_save_ok; [eauto| |].
  - pose proof (inv_stores Hinv) as Hall. rewrite Forall_forall in Hall.
    specialize (Hall _ Hin). unfold Store_validate in *.
    now rewrite Hname, Hemail, Haddr, Havg, Htot.
  - change (duplicateKey s_id
              (fun o => String.eqb (s_email o) (s_email (stampStore now doc)))
              false (stampStore now doc) (Stores db) = false).
    apply duplicateKey_store_update with (s := s); auto.
Qed.

End Accepted.

(** ** Responses do not depend on passwords *)

Section Independence.
Context {ext : Externals}.
Variable hashes : User -> string.

Local Abbreviation g := (rehashUser hashes).

Ltac not_ok := intros [Hx|Hx]; simpl in Hx; discriminate Hx.

(** Two bodies of the same shape are compared field by field. *)
Ltac peel :=
  repeat match goal with
         | |- map _ ?l = map _ ?l => apply map_ext; intros ?
         | |- JArr _ = JArr _ => f_equal
         | |- JObj _ = JObj _ => f_equal
         | |- _ :: _ = _ :: _ => f_equal
         | |- (_, _) = (_, _) => f_equal
         | |- _ ++ _ = _ ++ _ => f_equal
         | |- mkResponse _ _ = mkResponse _ _ => f_equal
         | |- ok _ = ok _ => unfold ok
         | |- created _ = created _ => unfold created
         end; try reflexivity.

Lemma rehash_setStores l db : rehash hashes (setStores l db) = setStores l (rehash hashes db).
Proof. reflexivity. Qed.

Lemma Store_save_rehash isNew now doc db :
  Store_save isNew now doc (rehash hashes db)
  = match Store_save isNew now doc db with
    | inr (saved, db') => inr (saved, rehash hashes db')
    | inl e => inl e
    end.
Proof.
  unfold Store_save. destruct (Store_validate doc); [|reflexivity].
  change (Stores (rehash hashes db)) with (Stores db).
  destruct (duplicateKey _ _ _ _ _); [reflexivity|]. destruct isNew; reflexivity.
Qed.

Lemma Store_updateRating_rehash now s db :
  Store_updateRating now s (rehash hashes db)
  = match Store_updateRating now s db with
    | inr (saved, db') => inr (saved, rehash hashes db')
    | inl e => inl e
    end.
Proof. unfold Store_updateRating. apply Store_save_rehash. Qed.

Lemma Rating_updateStoreHook_rehash now doc db :
  Rating_updateStoreHook now doc (rehash hashes db)
  = rehash hashes (Rating_updateStoreHook now doc db).
Proof.
  unfold Rating_updateStoreHook. change (Stores (rehash hashes db)) with (Stores db).
  destruct (findById s_id (r_storeId doc) (Stores db)) as [store|]; [|reflexivity].
  rewrite Store_updateRating_rehash.
  destruct (Store_updateRating now store db) as [e|[saved db']]; reflexivity.
Qed.

Lemma Rating_save_rehash isNew now doc db :
  Rating_save isNew now doc (rehash hashes db)
  = match Rating_save isNew now doc db with
    | inr (saved, db') => inr (saved, rehash hashes db')
    | inl e => inl e
    end.
Proof.
  unfold Rating_save. destruct (Rating_validate doc); [|reflexivity].
  change (Ratings (rehash hashes db)) with (Ratings db).
  destruct (duplicateKey _ _ _ _ _); [reflexivity|].
  cbv zeta. unfold Rating_runPost. cbn [Rating_postHooks fold_left].
  destruct isNew; f_equal; f_equal; rewrite <- Rating_updateStoreHook_rehash; reflexivity.
Qed.

Lemma ratingWithUser_rehash db fields storeId r :
  ratingWithUser (rehash hashes db) fields storeId r = ratingWithUser db fields storeId r.
Proof. unfold ratingWithUser. now rewrite populateUser_rehash. Qed.

Lemma ratingsOfStore_rehash db i : ratingsOfStore (rehash hashes db) i = ratingsOfStore db i.
Proof. reflexivity. Qed.

Lemma populatedUser_rehash fields i db :
  existsb (String.eqb "password") fields = false ->
  populatedUser fields i (rehash hashes db) = populatedUser fields i db.
Proof.
  intros Hno. unfold populatedUser. rewrite findById_rehash.
  destruct (findById u_id i (Users db)) as [u|]; [|reflexivity].
  cbn [option_map]. f_equal. unfold pick, User_toObject. rewrite !filter_app.
  f_equal. f_equal. cbn [filter fst].
  change (String.eqb "password" "_id") with false. cbn [orb]. now rewrite Hno.
Qed.

Lemma populateUserObject_rehash fields i db :
  existsb (String.eqb "password") fields = false ->
  populateUserObject fields i (rehash hashes db) = populateUserObject fields i db.
Proof. intros Hno. unfold populateUserObject. now rewrite populatedUser_rehash. Qed.

(** *** The handlers that read *)

Lemma users_dashboardStats_rehash db :
  snd (users_dashboardStats (rehash hashes db)) = snd (users_dashboardStats db).
Proof.
  unfold users_dashboardStats. cbn [snd].
  change (Users (rehash hashes db)) with (map g (Users db)).
  rewrite filter_map_commute by reflexivity. now rewrite length_map.
Qed.

Lemma ratings_mine_rehash db u i :
  snd (ratings_mine (rehash hashes db) (g u) i) = snd (ratings_mine db u i).
Proof.
  unfold ratings_mine.
  change (Rating_findOne (u_id (g u)) i (rehash hashes db))
    with (Rating_findOne (u_id u) i db).
  destruct (Rating_findOne (u_id u) i db); reflexivity.
Qed.

Lemma ratings_ofStore_rehash db u i :
  snd (ratings_ofStore (rehash hashes db) (g u) i) = snd (ratings_ofStore db u i).
Proof.
  unfold ratings_ofStore. cbv zeta.
  change (Stores (rehash hashes db)) with (Stores db).
  change (u_role (g u)) with (u_role u). change (u_id (g u)) with (u_id u).
  match goal with |- snd (if ?c then _ else _) = _ => destruct c end; [reflexivity|].
  cbn [snd]. rewrite ratingsOfStore_rehash. peel. now rewrite ratingWithUser_rehash.
Qed.

Lemma ratings_ofUser_rehash db u :
  snd (ratings_ofUser (rehash hashes db) (g u)) = snd (ratings_ofUser db u).
Proof. unfold ratings_ofUser. cbv zeta. cbn [snd]. reflexivity. Qed.

Lemma ratings_stats_rehash db :
  snd (ratings_stats (rehash hashes db)) = snd (ratings_stats db).
Proof. unfold ratings_stats. cbv zeta. cbn [snd]. reflexivity. Qed.

Lemma stores_list_rehash db u q :
  snd (stores_list (rehash hashes db) (g u) q) = snd (stores_list db u q).
Proof.
  unfold stores_list. cbv zeta. cbn [snd].
  change (Stores (rehash hashes db)) with (Stores db).
  change (Ratings (rehash hashes db)) with (Ratings db).
  change (u_role (g u)) with (u_role u). change (u_id (g u)) with (u_id u).
  destruct (Role_eqb (u_role u) RUser); peel.
  - rewrite populateUserObject_rehash; [reflexivity|].
    now destruct (Role_eqb (u_role u) RAdmin).
  - now rewrite populateUser_rehash.
Qed.

Lemma stores_get_rehash db u i :
  snd (stores_get (rehash hashes db) (g u) i) = snd (stores_get db u i).
Proof.
  unfold stores_get. change (Stores (rehash hashes db)) with (Stores db).
  destruct (findById s_id i (Stores db)) as [store|]; [|reflexivity].
  destruct (negb (s_isActive store)); [reflexivity|]. cbv zeta.
  change (u_role (g u)) with (u_role u). change (u_id (g u)) with (u_id u).
  rewrite populatedUser_rehash by reflexivity.
  destruct (if Role_eqb (u_role u) RStoreOwner then _ else _) as [own|]; [|reflexivity].
  cbn [snd]. rewrite populateUser_rehash. rewrite ratingsOfStore_rehash.
  change (Rating_findOne (u_id u) (s_id store) (rehash hashes db))
    with (Rating_findOne (u_id u) (s_id store) db).
  destruct (own || Role_eqb (u_role u) RAdmin); peel; now rewrite ratingWithUser_rehash.
Qed.

Lemma stores_dashboard_rehash db req :
  snd (stores_dashboard (rehash hashes db) (reqRehash hashes req))
  = snd (stores_dashboard db req).
Proof.
  unfold stores_dashboard. cbn [reqRehash req_store].
  destruct (req_store req) as [store|]; [|reflexivity].
  cbv zeta. cbn [snd]. rewrite ratingsOfStore_rehash. peel. now rewrite ratingWithUser_rehash.
Qed.


(** *** The handlers that write ratings and stores *)

Lemma ratings_submit_rehash db now u b :
  snd (ratings_submit (rehash hashes db) now (g u) b) = snd (ratings_submit db now u b).
Proof.
  unfold ratings_submit, ratingSaveFailed. cbv zeta.
  change (Stores (rehash hashes db)) with (Stores db).
  change (u_id (g u)) with (u_id u).
  destruct (rb_storeId b) as [[|storeId]|]; try reflexivity.
  destruct (findById s_id storeId (Stores db)) as [store|]; [|reflexivity].
  destruct (negb (s_isActive store)); [reflexivity|].
  destruct (rb_rating b) as [rating|]; [|reflexivity].
  change (Rating_findOne (u_id u) storeId (rehash hashes db))
    with (Rating_findOne (u_id u) storeId db).
  change (Rating_new (rehash hashes db)) with (Rating_new db).
  destruct (Rating_findOne (u_id u) storeId db) as [existing|];
    rewrite Rating_save_rehash;
    match goal with |- context [Rating_save ?n now ?d db] =>
      destruct (Rating_save n now d db) as [[errors|code]|[saved db']] end;
    reflexivity.
Qed.

Lemma ratings_update_rehash db now u i rating comment :
  snd (ratings_update (rehash hashes db) now (g u) i rating comment)
  = snd (ratings_update db now u i rating comment).
Proof.
  unfold ratings_update, ratingSaveFailed. cbv zeta.
  change (Ratings (rehash hashes db)) with (Ratings db).
  change (u_id (g u)) with (u_id u).
  match goal with |- snd (if ?c then _ else _) = _ => destruct c end; [reflexivity|].
  destruct (findById r_id i (Ratings db)) as [existing|]; [|reflexivity].
  destruct (negb (r_userId existing =? u_id u)); [reflexivity|].
  rewrite Rating_save_rehash.
  match goal with |- context [Rating_save ?n now ?d db] =>
    destruct (Rating_save n now d db) as [[errors|code]|[saved db']] end;
    reflexivity.
Qed.

Lemma ratings_delete_rehash db now u i :
  snd (ratings_delete (rehash hashes db) now (g u) i) = snd (ratings_delete db now u i).
Proof.
  unfold ratings_delete. cbv zeta.
  change (Ratings (rehash hashes db)) with (Ratings db).
  change (u_id (g u)) with (u_id u). change (u_role (g u)) with (u_role u).
  destruct (findById r_id i (Ratings db)) as [rating|]; [|reflexivity].
  match goal with |- snd (if ?c then _ else _) = _ => destruct c end; reflexivity.
Qed.

Lemma stores_update_rehash db now i name email address :
  snd (stores_update (rehash hashes db) now i name email address)
  = snd (stores_update db now i name email address).
Proof.
  unfold stores_update. cbv zeta.
  change (Stores (rehash hashes db)) with (Stores db).
  destruct (findById s_id i (Stores db)) as [store|]; [|reflexivity].
  match goal with |- snd (if ?c then _ else _) = _ => destruct c end; [reflexivity|].
  rewrite Store_save_rehash.
  match goal with |- context [Store_save ?n now ?d db] =>
    destruct (Store_save n now d db) as [[errors|code]|[saved db']] end;
    reflexivity.
Qed.

Lemma stores_delete_rehash db now i :
  snd (stores_delete (rehash hashes db) now i) = snd (stores_delete db now i).
Proof.
  unfold stores_delete. cbv zeta.
  change (Stores (rehash hashes db)) with (Stores db).
  destruct (findById s_id i (Stores db)) as [store|]; [|reflexivity].
  rewrite Store_save_rehash.
  match goal with |- context [Store_save ?n now ?d db] =>
    destruct (Store_save n now d db) as [e|[saved db']] end;
    reflexivity.
Qed.

(** *** The handlers that save a user: two successful answers are equal *)

Lemma existsb_rehash (p : User -> bool) l :
  (forall x, p (g x) = p x) -> existsb p (map g l) = existsb p l.
Proof.
  intros Hp. induction l as [|x t IH]; simpl; [reflexivity|]. now rewrite Hp, IH.
Qed.

Lemma find_email_rehash email db :
  find (fun u => String.eqb (u_email u) email) (Users (rehash hashes db))
  = option_map g (find (fun u => String.eqb (u_email u) email) (Users db)).
Proof.
  change (Users (rehash hashes db)) with (map g (Users db)).
  now apply find_map_commute.
Qed.

Lemma createUser_rehash db now b b' role okMessage errMessage withToken :
  ub_name b' = ub_name b -> ub_email b' = ub_email b -> ub_address b' = ub_address b ->
  successful (snd (createUser db now b role okMessage errMessage withToken)) ->
  successful (snd (createUser (rehash hashes db) now b' role okMessage errMessage withToken)) ->
  snd (createUser (rehash hashes db) now b' role okMessage errMessage withToken)
  = snd (createUser db now b role okMessage errMessage withToken).
Proof.
  intros Hn He Ha. unfold createUser. cbv zeta. rewrite find_email_rehash, Hn, He, Ha.
  destruct (find _ (Users db)) as [x|]; [not_ok|]. cbn [option_map].
  destruct (User_save true true now _ db) as [[errors|code]|[saved db1]] eqn:S1;
    [not_ok|destruct (code =? DUPLICATE_KEY)%Z; not_ok|].
  destruct (User_save true true now _ (rehash hashes db)) as [[errors|code]|[saved2 db2]] eqn:S2;
    [intros _; not_ok|intros _; destruct (code =? DUPLICATE_KEY)%Z; not_ok|].
  intros _ _. apply User_save_inv in S1. apply User_save_inv in S2.
  destruct S1 as (_ & -> & _ & _). destruct S2 as (_ & -> & _ & _).
  reflexivity.
Qed.

Lemma auth_login_rehash db now email password password' :
  successful (snd (auth_login db now email password)) ->
  successful (snd (auth_login (rehash hashes db) now email password')) ->
  snd (auth_login (rehash hashes db) now email password')
  = snd (auth_login db now email password).
Proof.
  unfold auth_login. rewrite find_email_rehash.
  destruct (find _ (Users db)) as [u|]; [|not_ok]. cbn [option_map].
  change (u_isActive (g u)) with (u_isActive u).
  destruct (negb (u_isActive u)); [not_ok|].
  destruct (negb (User_comparePassword u (str password))); [not_ok|].
  destruct (negb (User_comparePassword (g u) (str password'))); [intros _; not_ok|].
  reflexivity.
Qed.

Lemma auth_password_rehash db now u current new current' new' :
  successful (snd (auth_password db now u current new)) ->
  successful (snd (auth_password (rehash hashes db) now (g u) current' new')) ->
  snd (auth_password (rehash hashes db) now (g u) current' new')
  = snd (auth_password db now u current new).
Proof.
  unfold auth_password. cbv zeta. change (u_id (g u)) with (u_id u).
  rewrite findById_rehash.
  destruct (findById u_id (u_id u) (Users db)) as [user|]; [|not_ok]. cbn [option_map].
  destruct (negb (User_comparePassword user (str current))); [not_ok|].
  destruct (negb (User_comparePassword (g user) (str current'))); [intros _; not_ok|].
  destruct (User_save false _ now _ db) as [[errors|code]|[saved db1]]; [not_ok|not_ok|].
  destruct (User_save false _ now _ (rehash hashes db)) as [[errors|code]|[saved2 db2]];
    [intros _; not_ok|intros _; not_ok|].
  reflexivity.
Qed.

Lemma users_update_rehash db now i b :
  successful (snd (users_update db now i b)) ->
  successful (snd (users_update (rehash hashes db) now i b)) ->
  snd (users_update (rehash hashes db) now i b) = snd (users_update db now i b).
Proof.
  unfold users_update. cbv zeta. rewrite findById_rehash.
  destruct (findById u_id i (Users db)) as [user|]; [|not_ok]. cbn [option_map].
  change (Users (rehash hashes db)) with (map g (Users db)).
  rewrite existsb_rehash by reflexivity.
  change (u_email (g user)) with (u_email user). change (u_id (g user)) with (u_id user).
  change (u_name (g user)) with (u_name user). change (u_address (g user)) with (u_address user).
  change (u_role (g user)) with (u_role user).
  change (u_isActive (g user)) with (u_isActive user).
  change (u_storeId (g user)) with (u_storeId user).
  change (u_createdAt (g user)) with (u_createdAt user).
  change (u_updatedAt (g user)) with (u_updatedAt user).
  match goal with |- successful (snd (if ?c then _ else _)) -> _ =>
    change (existsb (fun x => String.eqb (u_email (g x)) (castEmail (str (uu_email b)))
                              && negb (u_id (g x) =? u_id user)) (Users db))
      with (existsb (fun o => String.eqb (u_email o) (castEmail (str (uu_email b)))
                              && negb (u_id o =? u_id user)) (Users db));
    destruct c end; [not_ok|].
  destruct (if Js.truthyStr (uu_role b) then _ else _) as [role|]; [|not_ok].
  destruct (User_save false false now _ db) as [[errors|code]|[saved db1]] eqn:S1;
    [not_ok|not_ok|].
  destruct (User_save false false now _ (rehash hashes db)) as [[errors|code]|[saved2 db2]] eqn:S2;
    [intros _; not_ok|intros _; not_ok|].
  intros _ _. apply User_save_inv in S1. apply User_save_inv in S2.
  destruct S1 as (_ & -> & _ & _). destruct S2 as (_ & -> & _ & _).
  reflexivity.
Qed.

Lemma users_delete_rehash db now i :
  successful (snd (users_delete db now i)) ->
  successful (snd (users_delete (rehash hashes db) now i)) ->
  snd (users_delete (rehash hashes db) now i) = snd (users_delete db now i).
Proof.
  unfold users_delete. cbv zeta. rewrite findById_rehash.
  destruct (findById u_id i (Users db)) as [user|]; [|not_ok]. cbn [option_map].
  destruct (User_save false false now _ db) as [e|[saved db1]]; [not_ok|].
  destruct (User_save false false now _ (rehash hashes db)) as [e|[saved2 db2]];
    [intros _; not_ok|].
  reflexivity.
Qed.

Lemma users_create_rehash db now b b' :
  ub_name b' = ub_name b -> ub_email b' = ub_email b -> ub_address b' = ub_address b ->
  ub_role b' = ub_role b ->
  successful (snd (users_create db now b)) ->
  successful (snd (users_create (rehash hashes db) now b')) ->
  snd (users_create (rehash hashes db) now b') = snd (users_create db now b).
Proof.
  intros Hn He Ha Hr. unfold users_create. rewrite Hr.
  destruct (Role_ofString (str (ub_role b))) as [role|].
  - now apply createUser_rehash.
  - destruct (find _ (Users db)); not_ok.
Qed.

Lemma stores_create_rehash db now b :
  successful (snd (stores_create db now b)) ->
  successful (snd (stores_create (rehash hashes db) now b)) ->
  snd (stores_create (rehash hashes db) now b) = snd (stores_create db now b).
Proof.
  unfold stores_create. cbv zeta.
  change (Stores (rehash hashes db)) with (Stores db).
  destruct (find _ (Stores db)) as [x|]; [not_ok|].
  destruct (sb_ownerId b) as [[|j]|]; [not_ok| |not_ok].
  rewrite findById_rehash.
  destruct (findById u_id j (Users db)) as [owner|]; [|not_ok]. cbn [option_map].
  change (u_role (g owner)) with (u_role owner). change (u_id (g owner)) with (u_id owner).
  destruct (negb (Role_eqb (u_role owner) RStoreOwner)); [not_ok|].
  destruct (find (fun s => s_ownerId s =? u_id owner) (Stores db)) as [x|]; [not_ok|].
  change (Store_new (rehash hashes db)) with (Store_new db).
  rewrite Store_save_rehash.
  destruct (Store_save true now _ db) as [[errors|code]|[store db1]];
    [not_ok|destruct (code =? DUPLICATE_KEY)%Z; not_ok|].
  destruct (User_save false false now _ db1) as [[errors|code]|[saved db2]];
    [not_ok|destruct (code =? DUPLICATE_KEY)%Z; not_ok|].
  destruct (User_save false false now _ (rehash hashes db1)) as [[errors|code]|[saved' db2']];
    [intros _; not_ok|intros _; destruct (code =? DUPLICATE_KEY)%Z; not_ok|].
  reflexivity.
Qed.


(** *** Every route *)

Lemma validated_or_failed errors db a rest req :
  successful (snd (match runChain db a (MValidate errors :: rest) req with
                   | Send response => (db, response)
                   | Next req' => (db, mkResponse 200 JNull)
                   end)) ->
  runChain db a (MValidate errors :: rest) req = runChain db a rest req.
Proof.
  cbn [runChain runMiddleware]. destruct errors; [reflexivity|not_ok].
Qed.

Ltac through :=
  change (mkReq None None) with (reqRehash hashes (mkReq None None)) at 2 3;
  rewrite runChain_rehash;
  match goal with |- context [runChain ?d ?a ?ms (mkReq None None)] =>
    destruct (runChain d a ms (mkReq None None)) as [[user store]|resp] end;
  [unfold handler; cbv zeta; cbn [reqRehash req_user req_store]|reflexivity].

Lemma handle_repassword db r p1 p2 :
  successful (snd (handle db r)) ->
  successful (snd (handle (rehash hashes db)
                          (mkRequest (auth r) (now r) (repassword p1 p2 (call r))))) ->
  snd (handle (rehash hashes db) (mkRequest (auth r) (now r) (repassword p1 p2 (call r))))
  = snd (handle db r).
Proof.
  destruct r as [a t c]. unfold handle. cbn [auth now call].
  destruct c; cbn [repassword].
  - (* POST /api/auth/register *)
    cbn [chain runChain runMiddleware].
    destruct (fst (validateUserRegistration b)); [|not_ok].
    destruct (fst (validateUserRegistration _)); [|intros _; not_ok].
    unfold handler, auth_register; cbv zeta. now apply createUser_rehash.
  - (* POST /api/auth/login *)
    cbn [chain runChain runMiddleware].
    destruct (fst (validateUserLogin email password)); [|not_ok].
    destruct (fst (validateUserLogin email p1)); [|intros _; not_ok].
    unfold handler; cbv zeta. apply auth_login_rehash.
  - through. destruct user as [u|]; [intros _ _; apply auth_profile_rehash|reflexivity].
  - (* PATCH /api/auth/password *)
    cbn [chain runChain runMiddleware].
    pose proof (runMiddleware_rehash hashes db a MAuthenticateToken (mkReq None None)) as Ha.
    cbn [runMiddleware] in Ha. change (reqRehash hashes (mkReq None None)) with (mkReq None None) in Ha.
    rewrite Ha. clear Ha.
    destruct (authenticateToken db a (mkReq None None)) as [[user store]|resp];
      [|reflexivity].
    destruct (validatePasswordUpdate currentPassword newPassword); [|not_ok].
    destruct (validatePasswordUpdate p1 p2); [|intros _; not_ok].
    unfold handler; cbv zeta; cbn [reqRehash req_user req_store].
    destruct user as [u|]; [apply auth_password_rehash|reflexivity].
  - through. destruct user as [u|]; [intros _ _; apply auth_verify_rehash|reflexivity].
  - through. reflexivity.
  - through. intros _ _. apply users_dashboardStats_rehash.
  - (* POST /api/users *)
    unfold chain, adminOnly. cbn [runChain].
    pose proof (runMiddleware_rehash hashes db a MAuthenticateToken (mkReq None None)) as Ha.
    change (reqRehash hashes (mkReq None None)) with (mkReq None None) in Ha.
    rewrite Ha. clear Ha.
    destruct (runMiddleware db a MAuthenticateToken (mkReq None None)) as [req|resp];
      [|reflexivity].
    rewrite runMiddleware_rehash.
    destruct (runMiddleware db a (MAuthorize [RAdmin]) req) as [req'|resp]; [|reflexivity].
    cbn [runMiddleware].
    destruct (fst (validateAdminUserCreation b)); [|not_ok].
    destruct (fst (validateAdminUserCreation _)); [|intros _; not_ok].
    unfold handler; cbv zeta. now apply users_create_rehash.
  - through. intros _ _. apply users_list_rehash.
  - through. destruct userId as [|i]; [reflexivity|intros _ _; apply users_get_rehash].
  - through. destruct userId as [|i]; [reflexivity|apply users_update_rehash].
  - through. destruct userId as [|i]; [reflexivity|apply users_delete_rehash].
  - through. destruct user as [u|]; [intros _ _; apply ratings_submit_rehash|reflexivity].
  - through. destruct user as [u|]; [|reflexivity].
    destruct storeId as [|i]; [reflexivity|intros _ _; apply ratings_mine_rehash].
  - through. destruct user as [u|]; [|reflexivity].
    destruct storeId as [|i]; [reflexivity|intros _ _; apply ratings_ofStore_rehash].
  - through. destruct user as [u|]; [intros _ _; apply ratings_ofUser_rehash|reflexivity].
  - through. destruct user as [u|]; [|reflexivity].
    destruct ratingId as [|i]; [reflexivity|intros _ _; apply ratings_update_rehash].
  - through. destruct user as [u|]; [|reflexivity].
    destruct ratingId as [|i]; [reflexivity|intros _ _; apply ratings_delete_rehash].
  - through. intros _ _. apply ratings_stats_rehash.
  - through. apply stores_create_rehash.
  - through. destruct user as [u|]; [intros _ _; apply stores_list_rehash|reflexivity].
  - through. destruct user as [u|]; [|reflexivity].
    destruct storeId as [|i]; [reflexivity|intros _ _; apply stores_get_rehash].
  - through. intros _ _. apply (stores_dashboard_rehash db (mkReq user store)).
  - through. destruct storeId as [|i]; [reflexivity|intros _ _; apply stores_update_rehash].
  - through. destruct storeId as [|i]; [reflexivity|intros _ _; apply stores_delete_rehash].
Qed.

End Independence.

(* ------------------------------------------------------------------ *)
(** * The claims *)

Section Claims.
Context {ext : Externals}.

(** C1. After every successful POST /api/ratings (a new rating or an update
    of the caller's rating of the store), the store's [averageRating] is the
    arithmetic mean of the values of all the ratings of the store rounded to
    one decimal place, and its [totalRatings] is their number.  And whenever
    [updateRating] runs on a store that has no ratings, it stores 0 and 0. *)
Theorem C1_submit_recomputes_store db r b db' resp :
  reachable db ->
  call r = PostRating b ->
  handle db r = (db', resp) ->
  successful resp ->
  (exists storeId store,
      rb_storeId b = Some (Id storeId) /\
      findById s_id storeId (Stores db') = Some store /\
      ratingValues storeId db' <> [] /\
      (s_averageRating store == roundToOneDecimal (mean (ratingValues storeId db')))%Q /\
      s_totalRatings store = Z.of_nat (List.length (ratingValues storeId db')))
  /\
  (forall now store,
      In store (Stores db') -> ratingValues (s_id store) db' = [] ->
      exists store' db'',
        Store_updateRating now store db' = inr (store', db'') /\
        findById s_id (s_id store) (Stores db'') = Some store' /\
        (s_averageRating store' == 0)%Q /\ s_totalRatings store' = 0%Z).
Proof.
  intros Hreach Hcall Hh Hok.
  pose proof (reachable_Inv Hreach) as Hinv.
  assert (Hinv' : Inv db').
  { replace db' with (fst (handle db r)) by now rewrite Hh. now apply Inv_handle. }
  split.
  - destruct (@ratings_submit_success ext db r b db' resp Hcall Hh Hok)
      as (user & storeId & store & rating & saved & _ & _ & _ & Hsid & _ & Hstore & _ & Hcase).
    cbv zeta in Hcase.
    assert (Hgoal : exists isNew doc,
               r_storeId doc = storeId /\
               Rating_save isNew (now r) doc db = inr (saved, db') /\
               (isNew = false -> exists e, In e (Ratings db) /\ r_id e = r_id doc)).
    { destruct (Rating_findOne (u_id user) storeId db) as [existing|] eqn:Hfind.
      - destruct Hcase as [Hsave _]. apply Rating_findOne_Some in Hfind.
        destruct Hfind as (Hin & _ & Hs).
        match type of Hsave with Rating_save ?n _ ?d _ = _ => exists n, d end.
        split; [exact Hs|].
        split; [exact Hsave|]. intros _. exists existing. split; [exact Hin|reflexivity].
      - destruct Hcase as [Hsave _].
        match type of Hsave with Rating_save ?n _ ?d _ = _ => exists n, d end.
        split; [reflexivity|].
        split; [exact Hsave|]. discriminate. }
    destruct Hgoal as (isNew & doc & Hs & Hsave & Hold). subst storeId.
    destruct (@Rating_save_recomputes ext isNew (now r) doc db saved db' store Hinv Hsave Hstore)
      as [Hr Hfound].
    assert (Hne : ratingValues (r_storeId doc) db' <> []).
    { unfold ratingValues. rewrite Hr.
      assert (Hin : In (stampRating (now r) doc)
                       (Ratings (writeRating isNew (stampRating (now r) doc) db))).
      { unfold writeRating. destruct isNew; simpl.
        - apply in_or_app. right. now left.
        - destruct (Hold eq_refl) as (e & Hin & Hid).
          eapply In_replaceById_self; eauto. }
      intros Hnil. apply map_eq_nil in Hnil.
      assert (Hf : In (stampRating (now r) doc)
                      (filter (fun x => r_storeId x =? r_storeId doc)
                              (Ratings (writeRating isNew (stampRating (now r) doc) db)))).
      { apply filter_In. split; [exact Hin|]. simpl. apply Nat.eqb_refl. }
      rewrite Hnil in Hf. exact Hf. }
    destruct (findById_In _ _ _ Hstore) as [_ Hid].
    exists (r_storeId doc), (recompute (now r) store db').
    unfold recompute at 2 3. cbn [s_averageRating s_totalRatings]. rewrite Hid.
    repeat split; auto.
    unfold expectedAverage.
    destruct (ratingValues (r_storeId doc) db'); [congruence|reflexivity].
  - intros t store Hin Hnil.
    exists (recompute t store db'), (writeStore false (recompute t store db') db').
    split; [now apply (@Store_updateRating_spec ext t store db' Hinv' Hin)|].
    assert (Hf : exists s0, findById s_id (s_id store) (Stores db') = Some s0).
    { unfold findById. destruct (find _ (Stores db')) as [s0|] eqn:E; [eauto|].
      pose proof (find_none _ _ E store Hin) as Hn. simpl in Hn.
      now rewrite Nat.eqb_refl in Hn. }
    destruct Hf as [s0 Hs0]. split; [|split].
    + unfold writeStore. simpl.
      change (s_id store) with (s_id (recompute t store db')).
      eapply findById_replaceById_same. simpl. exact Hs0.
    + unfold recompute. cbn [s_averageRating]. rewrite Hnil. reflexivity.
    + unfold recompute. cbn [s_totalRatings]. now rewrite Hnil.
Qed.

(** C3. In every reachable state there is at most one rating per
    (user, store) pair.  A POST /api/ratings by a user who has already rated
    the store, whenever it succeeds, updates that rating's value and comment
    in place and adds no document; and it does succeed, with 200, whenever
    the body passes [validateRating], the trimmed comment is within the 500
    units of the schema, and the store is active.  So no sequence of
    requests ever yields two ratings of one store by one user. *)
Theorem C3_one_rating_per_user_and_store db :
  reachable db ->
  (forall userId storeId,
      List.length (filter (fun r => (r_userId r =? userId) && (r_storeId r =? storeId))
                          (Ratings db)) <= 1)
  /\
  (forall r b userId storeId existing db' resp,
      call r = PostRating b -> auth r = Bearer userId ->
      rb_storeId b = Some (Id storeId) ->
      In existing (Ratings db) -> r_userId existing = userId -> r_storeId existing = storeId ->
      handle db r = (db', resp) -> successful resp ->
      exists rating,
        rb_rating b = Some rating /\
        Ratings db'
        = replaceById r_id
            (mkRating (r_id existing) (r_userId existing) (r_storeId existing) rating
                      (Js.trim (match rb_comment b with Some c => Js.trim c | None => "" end))
                      (r_createdAt existing) (now r))
            (Ratings db) /\
        List.length (Ratings db') = List.length (Ratings db))
  /\
  (forall r b user storeId store existing rating,
      call r = PostRating b ->
      authenticated db (auth r) user -> u_role user = RUser ->
      fst (validateRating b) = [] ->
      String.length (Js.trim (match rb_comment b with Some c => c | None => "" end)) <= 500 ->
      rb_storeId b = Some (Id storeId) -> rb_rating b = Some rating ->
      findById s_id storeId (Stores db) = Some store -> s_isActive store = true ->
      In existing (Ratings db) -> r_userId existing = u_id user -> r_storeId existing = storeId ->
      status (snd (handle db r)) = 200 /\
      Ratings (fst (handle db r))
      = replaceById r_id
          (mkRating (r_id existing) (r_userId existing) (r_storeId existing) rating
                    (Js.trim (match rb_comment b with Some c => c | None => "" end))
                    (r_createdAt existing) (now r))
          (Ratings db))
  /\
  (forall rs userId storeId,
      List.length (filter (fun r => (r_userId r =? userId) && (r_storeId r =? storeId))
                          (Ratings (run db rs))) <= 1).
Proof.
  intros Hreach. pose proof (reachable_Inv Hreach) as Hinv.
  assert (Hcount : forall d, reachable d -> forall userId storeId,
             List.length (filter (fun r => (r_userId r =? userId) && (r_storeId r =? storeId))
                                 (Ratings d)) <= 1).
  { intros d Hd userId storeId.
    apply (@NoDup_key_filter _ _ ratingKey _ (userId, storeId)).
    - exact (inv_rating_keys (reachable_Inv Hd)).
    - intros x Hx. apply andb_true_iff in Hx. destruct Hx as [Hu Hs].
      apply Nat.eqb_eq in Hu. apply Nat.eqb_eq in Hs. unfold ratingKey.
      now rewrite Hu, Hs. }
  split; [now apply Hcount|]. split; [|split].
  - intros r b userId storeId existing db' resp Hcall Hauth Hsid Hin Heu Hes Hh Hok.
    pose proof (@Rating_findOne_unique ext db existing Hinv Hin) as Hfind. rewrite Heu, Hes in Hfind.
    destruct (@ratings_submit_success ext db r b db' resp Hcall Hh Hok)
      as (user & storeId' & store & rating & saved
          & (Hbearer & _ & _) & _ & _ & Hsid' & Hrating & _ & _ & Hcase).
    rewrite Hsid in Hsid'. inversion Hsid'; subst storeId'.
    rewrite Hauth in Hbearer. inversion Hbearer as [Hid].
    cbv zeta in Hcase. rewrite <- Hid, Hfind in Hcase. destruct Hcase as [Hsave _].
    apply Rating_save_inr in Hsave. destruct Hsave as (_ & -> & _ & ->).
    exists rating. split; [exact Hrating|].
    rewrite Ratings_updateStoreHook. unfold writeRating. simpl.
    split; [reflexivity|]. apply length_replaceById.
  - intros r b user storeId store existing rating Hcall Hauth Hrole Hval Hlen Hsid Hrating
           Hstore Hact Hin Heu Hes.
    pose proof (@Rating_findOne_unique ext db existing Hinv Hin) as Hfind. rewrite Heu, Hes in Hfind.
    destruct (validateRating_ok b Hval Hlen) as (q & sid & Hq & _ & _ & Hvalid).
    rewrite Hrating in Hq. inversion Hq; subst q.
    unfold handle. rewrite Hcall. cbn [chain runChain runMiddleware].
    erewrite authenticateToken_pass by exact Hauth.
    unfold authorize. cbn [req_user req_store]. rewrite Hrole, Hval.
    cbn [existsb Role_eqb orb negb handler req_user].
    unfold ratings_submit. cbv zeta.
    replace (rb_storeId (snd (validateRating b))) with (Some (Id storeId))
      by (now rewrite <- Hsid).
    replace (rb_rating (snd (validateRating b))) with (Some rating)
      by (now rewrite <- Hrating).
    rewrite Hstore, Hact, Hfind. cbn [negb].
    rewrite Rating_save_ok.
    + cbn [fst snd status ok]. split; [reflexivity|].
      rewrite Ratings_updateStoreHook. unfold writeRating. cbn [Ratings setRatings].
      f_equal. unfold stampRating, Rating_setComment, Rating_setRating.
      cbn [r_id r_userId r_storeId r_rating r_comment r_createdAt r_updatedAt].
      f_equal. cbn [validateRating snd rb_comment].
      destruct (rb_comment b) as [c|]; cbn [option_map]; [apply trim_idempotent|reflexivity].
    + apply Hvalid.
    + match goal with |- duplicateKey _ _ false ?d _ = false =>
        change (duplicateKey r_id
                  (fun o => (r_userId o =? r_userId d) && (r_storeId o =? r_storeId d))
                  false d (Ratings db) = false)
      end.
      eapply duplicateKey_rating_update; [exact Hinv|exact Hin|..]; reflexivity.
  - intros rs userId storeId. apply Hcount. now apply reachable_run.
Qed.

(** C4. Under every sequence of requests, every stored rating has an integer
    value between 1 and 5 and a comment of at most 500 characters, and every
    store has an [averageRating] between 0 and 5 and a [totalRatings] of at
    least 0. *)
Theorem C4_stored_values_in_range db :
  reachable db ->
  Forall (fun r => Js.isInteger (r_rating r) = true /\
                   (1 <= r_rating r)%Q /\ (r_rating r <= 5)%Q /\
                   String.length (r_comment r) <= 500) (Ratings db)
  /\
  Forall (fun s => (0 <= s_averageRating s)%Q /\ (s_averageRating s <= 5)%Q /\
                   (0 <= s_totalRatings s)%Z) (Stores db).
Proof.
  intros Hreach. pose proof (reachable_Inv Hreach) as Hinv. split.
  - eapply Forall_impl; [|exact (inv_ratings Hinv)].
    intros r Hr. now apply Rating_validate_nil in Hr.
  - eapply Forall_impl; [|exact (inv_stores Hinv)].
    intros s Hs. now apply Store_validate_bounds in Hs.
Qed.

(** C5. A request that fails the input validation of its route (it reaches
    a validation middleware, and that finds errors) is answered with status
    400 and the JSON body [{ message: 'Validation failed', errors }], and
    the database is left as it was.  So are the two examples: a registration
    whose password is not 8 to 16 characters with an upper-case letter and a
    special character, and a rating submitted by an authenticated caller of
    role [user] whose value is not an integer from 1 to 5.  And in every
    reachable state a request answered 400, for whatever reason (a
    validation that fails later, in the schema at [save()], is one), changed
    nothing. *)
Theorem C5_failed_validation_changes_nothing db r :
  (forall pre errors post req,
      chain (call r) = pre ++ MValidate errors :: post ->
      runChain db (auth r) pre (mkReq None None) = Next req ->
      errors <> [] ->
      handle db r = (db, validationFailed errors) /\
      status (validationFailed errors) = 400 /\
      body (validationFailed errors)
      = JObj [ ("message", JStr "Validation failed");
               ("errors", formattedErrors errors) ])
  /\
  (reachable db -> status (snd (handle db r)) = 400 -> fst (handle db r) = db)
  /\
  (forall b,
      call r = PostRegister b ->
      isLength 8 16 (str (ub_password b)) && passwordPattern (str (ub_password b)) = false ->
      fst (handle db r) = db /\ status (snd (handle db r)) = 400)
  /\
  (forall b user,
      call r = PostRating b ->
      authenticated db (auth r) user -> u_role user = RUser ->
      isIntNum 1 5 (rb_rating b) = false ->
      fst (handle db r) = db /\ status (snd (handle db r)) = 400).
Proof.
  assert (Hgen : forall pre errors post req,
             chain (call r) = pre ++ MValidate errors :: post ->
             runChain db (auth r) pre (mkReq None None) = Next req ->
             errors <> [] ->
             handle db r = (db, validationFailed errors)).
  { intros pre errors post req Hchain Hpre Hne. unfold handle. rewrite Hchain.
    now erewrite runChain_validation_fails by eassumption. }
  split; [|split; [|split]].
  - intros pre errors post req Hchain Hpre Hne. split; [eapply Hgen; eauto|]. split; reflexivity.
  - intros Hreach. apply handle_bad. now apply reachable_Inv.
  - intros b Hcall Hpw.
    assert (Hne : fst (validateUserRegistration b) <> []).
    { cbn [validateUserRegistration fst]. unfold userBodyErrors.
      apply andb_false_iff in Hpw. destruct Hpw as [Hpw|Hpw]; rewrite Hpw;
        destruct (ensure (isLength 10 60 _) _ _ _); try discriminate;
        destruct (ensure (isEmail _) _ _ _); try discriminate;
        cbn [ensure app];
        destruct (ensure (isLength 8 16 _) _ _ _); discriminate. }
    rewrite (Hgen [] (fst (validateUserRegistration b)) [] (mkReq None None));
      [split; reflexivity| now rewrite Hcall | reflexivity | exact Hne].
  - intros b user Hcall Hauth Hrole Hrating.
    assert (Hne : fst (validateRating b) <> []).
    { cbn [validateRating fst]. rewrite Hrating. discriminate. }
    rewrite (Hgen [MAuthenticateToken; MAuthorize [RUser]] (fst (validateRating b)) []
                  (mkReq (Some user) None));
      [split; reflexivity| now rewrite Hcall | | exact Hne].
    cbn [runChain runMiddleware].
    erewrite authenticateToken_pass by exact Hauth.
    unfold authorize. cbn [req_user req_store]. rewrite Hrole. reflexivity.
Qed.

(** C6. A role-gated route answers an authenticated caller whose role is not
    in the route's allowed set with status 403 and changes nothing.  The
    gate of POST /api/users, PUT /api/users/:userId, DELETE
    /api/stores/:storeId and GET /api/ratings/stats/overview is [admin];
    the gate of POST /api/ratings is [user]. *)
Theorem C6_role_gate_rejects db r user roles :
  (authenticated db (auth r) user ->
   In (MAuthorize roles) (chain (call r)) ->
   existsb (Role_eqb (u_role user)) roles = false ->
   status (snd (handle db r)) = 403 /\ fst (handle db r) = db)
  /\
  (forall b, In (MAuthorize [RAdmin]) (chain (PostUser b))) /\
  (forall i b, In (MAuthorize [RAdmin]) (chain (PutUser i b))) /\
  (forall i, In (MAuthorize [RAdmin]) (chain (DeleteStore i))) /\
  In (MAuthorize [RAdmin]) (chain GetRatingStats) /\
  (forall b, In (MAuthorize [RUser]) (chain (PostRating b))).
Proof.
  split.
  - intros Hauth Hgate Hrole.
    apply chain_authorizes in Hgate. destruct Hgate as [rest Hchain].
    erewrite handle_forbidden by eassumption. split; reflexivity.
  - repeat split; intros; simpl; auto.
Qed.

(** C7. DELETE /api/users/:userId and DELETE /api/stores/:storeId are soft
    deletes guarded by the role check.  A success keeps the target record
    in its collection, with [isActive] false, [updatedAt] the time of the
    request, and every other field as it was.  In a reachable state the
    administrator's request for an existing user or store does succeed, and
    the request of an authenticated caller who is no administrator is
    answered 403 and changes nothing. *)
Theorem C7_soft_delete_keeps_record db r :
  (forall i,
      call r = DeleteUser (Id i) -> successful (snd (handle db r)) ->
      exists u,
        findById u_id i (Users db) = Some u /\
        Users (fst (handle db r))
        = replaceById u_id
            (mkUser (u_id u) (u_name u) (u_email u) (u_password u) (u_address u)
                    (u_role u) (u_storeId u) false (u_createdAt u) (now r))
            (Users db) /\
        findById u_id i (Users (fst (handle db r)))
        = Some (mkUser (u_id u) (u_name u) (u_email u) (u_password u) (u_address u)
                       (u_role u) (u_storeId u) false (u_createdAt u) (now r)))
  /\
  (forall i,
      call r = DeleteStore (Id i) -> successful (snd (handle db r)) ->
      exists s,
        findById s_id i (Stores db) = Some s /\
        Stores (fst (handle db r))
        = replaceById s_id
            (mkStore (s_id s) (s_name s) (s_email s) (s_address s) (s_ownerId s)
                     (s_averageRating s) (s_totalRatings s) false (s_createdAt s) (now r))
            (Stores db) /\
        findById s_id i (Stores (fst (handle db r)))
        = Some (mkStore (s_id s) (s_name s) (s_email s) (s_address s) (s_ownerId s)
                        (s_averageRating s) (s_totalRatings s) false (s_createdAt s) (now r)))
  /\
  (forall admin,
      reachable db -> authenticated db (auth r) admin -> u_role admin = RAdmin ->
      (forall i u, call r = DeleteUser (Id i) -> findById u_id i (Users db) = Some u ->
                   status (snd (handle db r)) = 200) /\
      (forall i s, call r = DeleteStore (Id i) -> findById s_id i (Stores db) = Some s ->
                   status (snd (handle db r)) = 200))
  /\
  (forall user i,
      authenticated db (auth r) user -> u_role user <> RAdmin ->
      call r = DeleteUser i \/ call r = DeleteStore i ->
      status (snd (handle db r)) = 403 /\ fst (handle db r) = db).
Proof.
  split; [|split; [|split]].
  1,2: intros i Hcall Hok; unfold handle in *; rewrite Hcall in *;
    cbn [chain] in *;
    destruct (runChain db (auth r) _ (mkReq None None)) as [req|resp] eqn:Hchain;
    try (exfalso; eapply runChain_Send; eauto; fail);
    cbn [handler] in *.
  - unfold users_delete in *.
    destruct (findById u_id i (Users db)) as [u|] eqn:Hu;
      [|destruct Hok; discriminate].
    exists u. split; [reflexivity|].
    destruct (User_save false false (now r) _ db) as [e|[saved db']] eqn:Hsave;
      [destruct Hok; discriminate|].
    cbn [fst]. pose proof (User_save_unmodified _ _ _ _ Hsave) as Hdoc. simpl in Hdoc.
    apply User_save_inr in Hsave. destruct Hsave as (_ & _ & _ & _ & HU).
    rewrite HU, Hdoc. split; [reflexivity|].
    destruct (findById_In _ _ _ Hu) as [_ Hid]. rewrite <- Hid at 1.
    match goal with |- findById _ _ (replaceById _ ?x _) = _ =>
      change (u_id u) with (u_id x) end.
    eapply findById_replaceById_same. simpl. rewrite Hid. exact Hu.
  - unfold stores_delete in *.
    destruct (findById s_id i (Stores db)) as [s|] eqn:Hs;
      [|destruct Hok; discriminate].
    exists s. split; [reflexivity|].
    destruct (Store_save false (now r) _ db) as [e|[saved db']] eqn:Hsave;
      [destruct Hok; discriminate|].
    cbn [fst]. apply Store_save_inr in Hsave. destruct Hsave as (_ & -> & _ & ->).
    destruct (User_clearStoreId_frame
                (s_ownerId (stampStore (now r)
                   (mkStore (s_id s) (s_name s) (s_email s) (s_address s) (s_ownerId s)
                      (s_averageRating s) (s_totalRatings s) false (s_createdAt s)
                      (s_updatedAt s))))
                (writeStore false (stampStore (now r)
                   (mkStore (s_id s) (s_name s) (s_email s) (s_address s) (s_ownerId s)
                      (s_averageRating s) (s_totalRatings s) false (s_createdAt s)
                      (s_updatedAt s))) db)) as [HS _].
    rewrite HS. unfold writeStore, stampStore. simpl. split; [reflexivity|].
    destruct (findById_In _ _ _ Hs) as [_ Hid]. rewrite <- Hid at 1.
    match goal with |- findById _ _ (replaceById _ ?x _) = _ =>
      change (s_id s) with (s_id x) end.
    eapply findById_replaceById_same. simpl. rewrite Hid. exact Hs.
  - intros admin Hreach Hauth Hrole. pose proof (reachable_Inv Hreach) as Hinv.
    split.
    + intros i u Hcall Hu. unfold handle. rewrite Hcall.
      cbn [chain adminOnly runChain runMiddleware].
      erewrite authenticateToken_pass by exact Hauth.
      unfold authorize. cbn [req_user req_store]. rewrite Hrole.
      cbn [existsb Role_eqb orb negb validateObjectId isMongoId ensure handler].
      unfold users_delete. rewrite Hu. cbv zeta.
      destruct (findById_In _ _ _ Hu) as [Hin _].
      match goal with |- context [User_save false false (now r) ?d db] =>
        destruct (@User_save_again ext db (now r) u d Hinv Hin eq_refl eq_refl eq_refl
                                   eq_refl eq_refl) as (saved & db' & ->)
      end.
      reflexivity.
    + intros i s Hcall Hs. unfold handle. rewrite Hcall.
      cbn [chain adminOnly runChain runMiddleware].
      erewrite authenticateToken_pass by exact Hauth.
      unfold authorize. cbn [req_user req_store]. rewrite Hrole.
      cbn [existsb Role_eqb orb negb validateObjectId isMongoId ensure handler].
      unfold stores_delete. rewrite Hs. cbv zeta.
      destruct (findById_In _ _ _ Hs) as [Hin _].
      match goal with |- context [Store_save false (now r) ?d db] =>
        destruct (@Store_save_again ext db (now r) s d Hinv Hin eq_refl eq_refl eq_refl
                                    eq_refl eq_refl eq_refl) as (saved & db' & ->)
      end.
      reflexivity.
  - intros user i Hauth Hrole Hcall.
    assert (Hno : existsb (Role_eqb (u_role user)) [RAdmin] = false).
    { destruct (u_role user); [congruence|reflexivity|reflexivity]. }
    destruct Hcall as [Hcall|Hcall];
      erewrite handle_forbidden; try exact Hauth; try exact Hno;
      try (rewrite Hcall; reflexivity); split; reflexivity.
Qed.

(** C9 (as amended). A request that bears a valid, unexpired token of a user
    who no longer exists or is not active gets status 401 from every route
    that authenticates, and changes nothing.  So from the moment a user is
    soft-deleted, and for as long as no PUT /api/users/:userId sets the
    user's [isActive] back to true, the user stays inactive and every
    request under the user's tokens is answered 401 and changes nothing,
    whatever other requests come in between. *)
Theorem C9_inactive_user_is_rejected db userId :
  (forall r,
      auth r = Bearer userId ->
      In MAuthenticateToken (chain (call r)) ->
      (forall u, findById u_id userId (Users db) = Some u -> u_isActive u = false) ->
      status (snd (handle db r)) = 401 /\ fst (handle db r) = db)
  /\
  (forall rs,
      inactive userId db ->
      Forall (fun r => ~ reactivates userId r) rs ->
      inactive userId (run db rs) /\
      Forall (fun step =>
                auth (snd step) = Bearer userId ->
                In MAuthenticateToken (chain (call (snd step))) ->
                status (snd (handle (fst step) (snd step))) = 401 /\
                fst (handle (fst step) (snd step)) = fst step)
             (trace db rs)).
Proof.
  assert (Hone : forall d r,
             auth r = Bearer userId ->
             In MAuthenticateToken (chain (call r)) ->
             (forall u, findById u_id userId (Users d) = Some u -> u_isActive u = false) ->
             status (snd (handle d r)) = 401 /\ fst (handle d r) = d).
  { intros d r Hauth Hin Hu. apply chain_authenticates in Hin. destruct Hin as [rest Hchain].
    erewrite handle_not_authenticated by eassumption. split; reflexivity. }
  split; [apply Hone|].
  intros rs. revert db. induction rs as [|r rest IH]; intros db Hina Hrs; simpl.
  - split; [exact Hina|constructor].
  - inversion Hrs as [|? ? Hr Hrest]; subst.
    destruct (IH (fst (handle db r)) (@inactive_handle ext userId db r Hina Hr) Hrest)
      as [Hend Htrace].
    split; [exact Hend|]. constructor; [|exact Htrace].
    simpl. intros Hauth Hin. apply Hone; auto.
    destruct Hina as [u0 [Hu0 Ha0]]. intros u Hu. congruence.
Qed.

(** C8 (as amended). For a PUT /api/ratings/:ratingId by an authenticated
    caller of role [user] on the caller's own rating, when the body's rating
    is absent or 0 and the comment, once trimmed, has at most 500 characters
    (or is omitted), the request is not rejected: the stored value stays,
    the comment is replaced (by the empty string when omitted), and the
    answer is 200. *)
Theorem C8_update_without_rating db r ratingId rating comment user existing :
  reachable db ->
  call r = PutRating (Id ratingId) rating comment ->
  authenticated db (auth r) user -> u_role user = RUser ->
  findById r_id ratingId (Ratings db) = Some existing ->
  r_userId existing = u_id user ->
  (rating = None \/ exists q, rating = Some q /\ (q == 0)%Q) ->
  String.length (Js.trim (match comment with Some c => c | None => "" end)) <= 500 ->
  status (snd (handle db r)) = 200 /\
  findById r_id ratingId (Ratings (fst (handle db r)))
  = Some (mkRating (r_id existing) (r_userId existing) (r_storeId existing)
                   (r_rating existing)
                   (Js.trim (match comment with Some c => c | None => "" end))
                   (r_createdAt existing) (now r)).
Proof.
  intros Hreach Hcall Hauth Hrole Hfind Hown Hrating Hlen.
  pose proof (reachable_Inv Hreach) as Hinv.
  destruct (findById_In _ _ _ Hfind) as [Hin Hid].
  unfold handle. rewrite Hcall. cbn [chain runChain runMiddleware].
  erewrite authenticateToken_pass by exact Hauth.
  unfold authorize. cbn [req_user req_store]. rewrite Hrole.
  cbn [existsb Role_eqb orb negb validateObjectId isMongoId ensure handler req_user].
  unfold ratings_update. cbv zeta.
  assert (Hfalsy : match rating with Some q => Js.truthyNum q | None => false end = false).
  { destruct Hrating as [->|[q [-> Hq]]]; [reflexivity|].
    unfold Js.truthyNum. apply Qeq_bool_iff in Hq. now rewrite Hq. }
  assert (Hvalid : match rating with
                   | Some q => Js.truthyNum q && (Js.lt q 1 || Js.gt q 5 || negb (Js.isInteger q))
                   | None => false
                   end = false).
  { destruct rating as [q|]; [|reflexivity]. now rewrite Hfalsy. }
  rewrite Hvalid, Hfind.
  replace (r_userId existing =? u_id user) with true
    by (symmetry; apply Nat.eqb_eq; exact Hown).
  cbn [negb].
  assert (Hdoc : match rating with
                 | Some q =>
                     if match rating with Some q0 => Js.truthyNum q0 | None => false end
                     then Rating_setRating q existing else existing
                 | None => existing
                 end = existing).
  { destruct rating; [now rewrite Hfalsy|reflexivity]. }
  rewrite Hdoc.
  set (c := match comment with Some c => c | None => "" end) in *.
  rewrite Rating_save_ok.
  - cbn [fst snd status ok]. split; [reflexivity|].
    rewrite Ratings_updateStoreHook. unfold writeRating. cbn [Ratings setRatings].
    set (doc' := stampRating (now r) (Rating_setComment c existing)).
    transitivity (Some doc'); [|reflexivity].
    replace ratingId with (r_id doc') by exact Hid.
    eapply findById_replaceById_same. change (r_id doc') with (r_id existing).
    rewrite Hid. exact Hfind.
  - apply Rating_validate_nil.
    pose proof (inv_ratings Hinv) as Hall. rewrite Forall_forall in Hall.
    apply Hall in Hin. apply Rating_validate_nil in Hin.
    unfold ratingOK in *. simpl. tauto.
  - set (doc' := stampRating (now r) (Rating_setComment c existing)).
    change (duplicateKey r_id
              (fun o => (r_userId o =? r_userId doc') && (r_storeId o =? r_storeId doc'))
              false doc' (Ratings db) = false).
    apply (@duplicateKey_rating_update ext db existing); auto.
Qed.

(** C10. No successful response of the API (registration, login, profile,
    token verification, the admin's user list and user retrieval, and every
    other route) has a [password] field anywhere in its JSON body; the
    response of the routes that answer with user records (profile, token
    verification, user list, user retrieval) is the same whatever password
    hashes the user records hold; and on every route the successful
    response is a function of what is not a password: the same request with
    other passwords in its body (registration, login, password change, user
    creation), sent to the database with other password hashes in its user
    records, gets the same response whenever it succeeds too. A response
    that held a stored hash, the hash of the password sent or the password
    itself, under whatever key, would differ between the two. *)
Theorem C10_no_password_in_successful_responses db r :
  successful (snd (handle db r)) ->
  hasKey "password" (body (snd (handle db r))) = false
  /\ (forall hashes, readsUsers (call r) = true ->
        snd (handle (rehash hashes db) r) = snd (handle db r))
  /\ (forall hashes p1 p2,
        successful (snd (handle (rehash hashes db)
                                (mkRequest (auth r) (now r) (repassword p1 p2 (call r))))) ->
        snd (handle (rehash hashes db) (mkRequest (auth r) (now r) (repassword p1 p2 (call r))))
        = snd (handle db r)).
Proof.
  intros Hok. split; [|split; [intros hashes; apply handle_rehash
                              |intros hashes p1 p2 Hok'; now apply handle_repassword]].
  unfold handle in *.
  destruct (runChain db (auth r) (chain (call r)) (mkReq None None)) as [req|resp] eqn:Hchain.
  2:{ exfalso. eapply runChain_Send; eauto. }
  clear Hok Hchain. fold (noKey "password" (body (snd (handler db (now r) req (call r))))).
  unfold handler.
  destruct (call r); cbv zeta;
    repeat match goal with
    | |- context [match req_user req with _ => _ end] => destruct (req_user req)
    | |- context [match ?p with Id _ => _ | BadId => _ end] => destruct p
    end;
    try reflexivity; unfold auth_register, auth_logout, users_dashboardStats;
    auto using createUser_noPassword, auth_login_noPassword, auth_profile_noPassword,
      auth_password_noPassword, auth_verify_noPassword, users_create_noPassword,
      users_list_noPassword, users_get_noPassword, users_update_noPassword,
      users_delete_noPassword, ratings_submit_noPassword, ratings_mine_noPassword,
      ratings_ofStore_noPassword, ratings_ofUser_noPassword, ratings_update_noPassword,
      ratings_delete_noPassword, ratings_stats_noPassword, stores_create_noPassword,
      stores_list_noPassword, stores_get_noPassword, stores_dashboard_noPassword,
      stores_update_noPassword, stores_delete_noPassword.
Qed.

End Claims.

(* ------------------------------------------------------------------ *)
(** * The claims on the seeded database

    The model run on the database of the seed script (with the stand-in
    for the external libraries): the administrator is user 1, the store
    owners are users 2 and 3, Alice, Bob and Carol are users 4, 5 and 6, the
    stores are 7 and 8, and the ratings are 9 (Alice, store 7, value 5),
    10 (Bob, store 7, value 4), 11 (Carol, store 8, value 5) and
    12 (Alice, store 8, value 3). *)

(** C2, at DELETE /api/ratings/9 by Alice: the request succeeds and rating 9
    is gone, so store 7 has the single rating 4; but the store still says
    4.5 over 2 ratings, which is neither the mean of what remains nor its
    count.  [findByIdAndDelete] runs the [findOneAndDelete] middleware, and
    the schema registered its recomputation under the document [deleteOne]:
    running that hook on the result gives 4.0 over 1 rating. *)
Lemma C2_delete_leaves_store_stale :
  let r := mkRequest (Bearer 4) 200 (DeleteRating (Id 9)) in
  let db' := fst (@handle standIn seeded r) in
  status (snd (@handle standIn seeded r)) = 200 /\
  ratingValues 7 db' = [4%Q] /\
  (exists store,
      findById s_id 7 (Stores db') = Some store /\
      (s_averageRating store == 45 # 10)%Q /\ s_totalRatings store = 2%Z /\
      ~ (s_averageRating store == roundToOneDecimal (mean (ratingValues 7%nat db')))%Q /\
      s_totalRatings store <> Z.of_nat (List.length (ratingValues 7 db'))) /\
  (exists deleted store,
      findById r_id 9 (Ratings seeded) = Some deleted /\
      findById s_id 7 (Stores (@Rating_runPost standIn OpDocumentDeleteOne 200 deleted db'))
      = Some store /\
      (s_averageRating store == 4)%Q /\ s_totalRatings store = 1%Z).
Proof.
  cbv zeta. split; [vm_compute; reflexivity|]. split; [vm_compute; reflexivity|]. split.
  - eexists. split; [vm_compute; reflexivity|].
    split; [vm_compute; reflexivity|]. split; [vm_compute; reflexivity|].
    split; intros H; vm_compute in H; discriminate.
  - eexists. eexists. split; [vm_compute; reflexivity|].
    split; [vm_compute; reflexivity|]. split; vm_compute; reflexivity.
Qed.

(** C8, as stated, fails: Alice's PUT on her own rating 9 with no [rating]
    and a comment of 501 characters is rejected with 400, and nothing
    changes. *)
Lemma C8_counterexample :
  let r := mkRequest (Bearer 4) 200 (PutRating (Id 9) None (Some (jsRepeat "a" 501))) in
  option_map r_userId (findById r_id 9 (Ratings seeded)) = Some 4 /\
  status (snd (@handle standIn seeded r)) = 400 /\
  fst (@handle standIn seeded r) = seeded.
Proof.
  cbv zeta. split; [vm_compute; reflexivity|]. split; vm_compute; reflexivity.
Qed.

(** C9, as stated, fails: the administrator soft-deletes Alice, then sets
    her [isActive] back to true; the token Alice held all along then submits
    a rating, and the ratings of store 7 change. *)
Lemma C9_counterexample :
  let db1 := fst (@handle standIn seeded (mkRequest (Bearer 1) 200 (DeleteUser (Id 4)))) in
  let db2 := fst (@handle standIn db1
                    (mkRequest (Bearer 1) 201
                       (PutUser (Id 4) (mkUserUpdate None None None None (Some true))))) in
  let r := mkRequest (Bearer 4) 202 (PostRating (mkRatingBody (Some (Id 7)) (Some 1%Q) None)) in
  inactive 4 db1 /\
  status (snd (@handle standIn db1 r)) = 401 /\
  status (snd (@handle standIn db2 r)) = 200 /\
  ratingValues 7 db2 = [5%Q; 4%Q] /\
  ratingValues 7 (fst (@handle standIn db2 r)) = [1%Q; 4%Q].
Proof.
  cbv zeta. split.
  - eexists. split; vm_compute; reflexivity.
  - repeat split; vm_compute; reflexivity.
Qed.

(** C1 at Alice's POST of the value 2 for store 7: the store then holds 3.0
    over 2 ratings. *)
Lemma C1_witness :
  let b := mkRatingBody (Some (Id 7)) (Some 2%Q) (Some " meh ") in
  let r := mkRequest (Bearer 4) 200 (PostRating b) in
  @reachable standIn seeded /\
  successful (snd (@handle standIn seeded r)) /\
  exists store,
    findById s_id 7 (Stores (fst (@handle standIn seeded r))) = Some store /\
    (s_averageRating store == 3)%Q /\ s_totalRatings store = 2%Z.
Proof.
  intros b r.
  assert (Hr : @reachable standIn seeded) by apply reach_seed.
  assert (Hok : successful (snd (@handle standIn seeded r)))
    by (left; vm_compute; reflexivity).
  split; [exact Hr|]. split; [exact Hok|].
  destruct (@C1_submit_recomputes_store standIn seeded r b _ _ Hr eq_refl
              (surjective_pairing _) Hok)
    as [(storeId & store & Hsid & Hfind & _ & Havg & Htot) _].
  inversion Hsid; subst storeId. exists store. split; [exact Hfind|]. split.
  - apply (Qeq_trans _ _ _ Havg). vm_compute. reflexivity.
  - rewrite Htot. vm_compute. reflexivity.
Defined.

(** C3 at Alice's second POST for store 7, which she rated 5 in rating 9:
    the request is answered 200, rating 9 now holds the value 2 and no
    rating was added; and after two more POSTs she still has one rating of
    the store. *)
Lemma C3_witness :
  let b := mkRatingBody (Some (Id 7)) (Some 2%Q) (Some " meh ") in
  let r := mkRequest (Bearer 4) 200 (PostRating b) in
  @reachable standIn seeded /\
  map (fun x => (r_id x, r_userId x, r_storeId x, r_rating x)) (Ratings seeded)
  = [(9, 4, 7, 5%Q); (10, 5, 7, 4%Q); (11, 6, 8, 5%Q); (12, 4, 8, 3%Q)] /\
  status (snd (@handle standIn seeded r)) = 200 /\
  map (fun x => (r_id x, r_userId x, r_storeId x, r_rating x, r_comment x))
      (Ratings (fst (@handle standIn seeded r)))
  = map (fun x => (r_id x, r_userId x, r_storeId x, r_rating x, r_comment x))
      (replaceById r_id (mkRating 9 4 7 2%Q "meh" 109 200) (Ratings seeded)) /\
  List.length (Ratings (fst (@handle standIn seeded r))) = 4 /\
  List.length (filter (fun x => (r_userId x =? 4) && (r_storeId x =? 7))
                      (Ratings (@run standIn seeded [r; r]))) <= 1.
Proof.
  intros b r.
  assert (Hr : @reachable standIn seeded) by apply reach_seed.
  pose (user := nth 3 (Users seeded) (mkUser 0 "" "" "" "" RUser None false 0 0)).
  pose (store := nth 0 (Stores seeded) (mkStore 0 "" "" "" 0 0%Q 0%Z false 0 0)).
  pose (existing := nth 0 (Ratings seeded) (mkRating 0 0 0 0%Q "" 0 0)).
  assert (Hauth : authenticated seeded (auth r) user)
    by (repeat split; vm_compute; reflexivity).
  assert (Hrole : u_role user = RUser) by (vm_compute; reflexivity).
  assert (Hval : fst (@validateRating standIn b) = []) by (vm_compute; reflexivity).
  assert (Hlen : String.length (Js.trim (match rb_comment b with Some c => c | None => "" end))
                 <= 500) by (vm_compute; lia).
  assert (Hstore : findById s_id 7 (Stores seeded) = Some store) by (vm_compute; reflexivity).
  assert (Hact : s_isActive store = true) by (vm_compute; reflexivity).
  assert (Hin : In existing (Ratings seeded)) by (apply nth_In; vm_compute; lia).
  assert (Hu : r_userId existing = u_id user) by (vm_compute; reflexivity).
  assert (Hs : r_storeId existing = 7) by (vm_compute; reflexivity).
  destruct (@C3_one_rating_per_user_and_store standIn seeded Hr) as (_ & _ & Hlive & Hseq).
  destruct (Hlive r b user 7 store existing 2%Q eq_refl Hauth Hrole Hval Hlen eq_refl eq_refl
                  Hstore Hact Hin Hu Hs) as [H200 Hratings].
  split; [exact Hr|]. split; [vm_compute; reflexivity|]. split; [exact H200|].
  split; [rewrite Hratings; vm_compute; reflexivity|].
  split; [rewrite Hratings; vm_compute; reflexivity|].
  exact (Hseq [r; r] 4 7).
Defined.

(** C4 on the seeded database. *)
Lemma C4_witness :
  @reachable standIn seeded /\
  Forall (fun s => (0 <= s_averageRating s)%Q /\ (s_averageRating s <= 5)%Q /\
                   (0 <= s_totalRatings s)%Z) (Stores seeded).
Proof.
  assert (Hr : @reachable standIn seeded) by apply reach_seed.
  split; [exact Hr|]. exact (proj2 (@C4_stored_values_in_range standIn seeded Hr)).
Defined.

(** C5 at a registration with the password [short], and at Bob's POST of
    the value 9 for store 7. *)
Lemma C5_witness :
  let b := mkUserBody (Some "Dave New Customer") (Some "dave@example.com") (Some "short")
                      (Some "1 Main Street") None in
  let r := mkRequest NoToken 200 (PostRegister b) in
  let b' := mkRatingBody (Some (Id 7)) (Some 9%Q) None in
  let r' := mkRequest (Bearer 5) 201 (PostRating b') in
  (@isLength standIn 8 16 (str (ub_password b)) && passwordPattern (str (ub_password b))
   = false /\
   fst (@handle standIn seeded r) = seeded /\ status (snd (@handle standIn seeded r)) = 400)
  /\
  (exists user,
      authenticated seeded (auth r') user /\ u_role user = RUser /\
      isIntNum 1 5 (rb_rating b') = false /\
      fst (@handle standIn seeded r') = seeded /\
      status (snd (@handle standIn seeded r')) = 400).
Proof.
  intros b r b' r'. split.
  - assert (H : @isLength standIn 8 16 (str (ub_password b))
                && passwordPattern (str (ub_password b)) = false)
      by (vm_compute; reflexivity).
    split; [exact H|].
    exact (proj1 (proj2 (proj2 (@C5_failed_validation_changes_nothing standIn seeded r)))
             b eq_refl H).
  - pose (user := nth 4 (Users seeded) (mkUser 0 "" "" "" "" RUser None false 0 0)).
    assert (Hauth : authenticated seeded (auth r') user)
      by (repeat split; vm_compute; reflexivity).
    assert (Hrole : u_role user = RUser) by (vm_compute; reflexivity).
    assert (H : isIntNum 1 5 (rb_rating b') = false) by (vm_compute; reflexivity).
    exists user. split; [exact Hauth|]. split; [exact Hrole|]. split; [exact H|].
    exact (proj2 (proj2 (proj2 (@C5_failed_validation_changes_nothing standIn seeded r')))
             b' user eq_refl Hauth Hrole H).
Defined.

(** C6 at the administrator's POST /api/ratings. *)
Lemma C6_witness :
  let r := mkRequest (Bearer 1) 200
             (PostRating (mkRatingBody (Some (Id 7)) (Some 5%Q) None)) in
  exists user,
    authenticated seeded (auth r) user /\ u_role user = RAdmin /\
    status (snd (@handle standIn seeded r)) = 403 /\ fst (@handle standIn seeded r) = seeded.
Proof.
  intros r.
  pose (user := nth 0 (Users seeded) (mkUser 0 "" "" "" "" RUser None false 0 0)).
  assert (Hauth : authenticated seeded (auth r) user)
    by (repeat split; vm_compute; reflexivity).
  exists user. split; [exact Hauth|]. split; [vm_compute; reflexivity|].
  apply (proj1 (@C6_role_gate_rejects standIn seeded r user [RUser]) Hauth).
  - simpl. auto.
  - vm_compute. reflexivity.
Defined.

(** C7 at the administrator's DELETE of Alice (user 4) and of store 7: both
    requests are answered 200, and the record is still found by its id, with
    [isActive] false and nothing else changed but [updatedAt]; Alice's own
    DELETE of store 7 is answered 403. *)
Lemma C7_witness :
  let r := mkRequest (Bearer 1) 200 (DeleteUser (Id 4)) in
  let r' := mkRequest (Bearer 1) 200 (DeleteStore (Id 7)) in
  let r'' := mkRequest (Bearer 4) 200 (DeleteStore (Id 7)) in
  @reachable standIn seeded /\
  (status (snd (@handle standIn seeded r)) = 200 /\
   exists u,
     findById u_id 4 (Users seeded) = Some u /\ u_isActive u = true /\
     List.length (Users (fst (@handle standIn seeded r))) = List.length (Users seeded) /\
     findById u_id 4 (Users (fst (@handle standIn seeded r)))
     = Some (mkUser (u_id u) (u_name u) (u_email u) (u_password u) (u_address u)
                    (u_role u) (u_storeId u) false (u_createdAt u) 200))
  /\
  (status (snd (@handle standIn seeded r')) = 200 /\
   exists s,
     findById s_id 7 (Stores seeded) = Some s /\ s_isActive s = true /\
     List.length (Stores (fst (@handle standIn seeded r'))) = List.length (Stores seeded) /\
     findById s_id 7 (Stores (fst (@handle standIn seeded r')))
     = Some (mkStore (s_id s) (s_name s) (s_email s) (s_address s) (s_ownerId s)
                     (s_averageRating s) (s_totalRatings s) false (s_createdAt s) 200))
  /\
  (status (snd (@handle standIn seeded r'')) = 403 /\ fst (@handle standIn seeded r'') = seeded).
Proof.
  intros r r' r''.
  assert (Hr : @reachable standIn seeded) by apply reach_seed.
  pose (admin := nth 0 (Users seeded) (mkUser 0 "" "" "" "" RUser None false 0 0)).
  pose (alice := nth 3 (Users seeded) (mkUser 0 "" "" "" "" RUser None false 0 0)).
  pose (store := nth 0 (Stores seeded) (mkStore 0 "" "" "" 0 0%Q 0%Z false 0 0)).
  assert (Hauth : authenticated seeded (Bearer 1) admin)
    by (repeat split; vm_compute; reflexivity).
  assert (Hrole : u_role admin = RAdmin) by (vm_compute; reflexivity).
  assert (Hauth' : authenticated seeded (Bearer 4) alice)
    by (repeat split; vm_compute; reflexivity).
  assert (Hrole' : u_role alice <> RAdmin) by (vm_compute; discriminate).
  assert (Hu : findById u_id 4 (Users seeded) = Some alice) by (vm_compute; reflexivity).
  assert (Hs : findById s_id 7 (Stores seeded) = Some store) by (vm_compute; reflexivity).
  split; [exact Hr|]. split; [|split].
  - destruct (@C7_soft_delete_keeps_record standIn seeded r) as (Hkeep & _ & Hlive & _).
    pose proof (proj1 (Hlive admin Hr Hauth Hrole) 4 alice eq_refl Hu) as H200.
    split; [exact H200|].
    destruct (Hkeep 4 eq_refl (or_introl H200)) as (u & Hfind & Hcol & Hafter).
    exists u. split; [exact Hfind|].
    assert (Hua : u = alice) by congruence.
    split; [rewrite Hua; vm_compute; reflexivity|].
    split; [rewrite Hcol, Hua; vm_compute; reflexivity|exact Hafter].
  - destruct (@C7_soft_delete_keeps_record standIn seeded r') as (_ & Hkeep & Hlive & _).
    pose proof (proj2 (Hlive admin Hr Hauth Hrole) 7 store eq_refl Hs) as H200.
    split; [exact H200|].
    destruct (Hkeep 7 eq_refl (or_introl H200)) as (s & Hfind & Hcol & Hafter).
    exists s. split; [exact Hfind|].
    assert (Hsa : s = store) by congruence.
    split; [rewrite Hsa; vm_compute; reflexivity|].
    split; [rewrite Hcol, Hsa; vm_compute; reflexivity|exact Hafter].
  - destruct (@C7_soft_delete_keeps_record standIn seeded r'') as (_ & _ & _ & Hdenied).
    exact (Hdenied alice (Id 7) Hauth' Hrole' (or_intror eq_refl)).
Defined.

(** C8 at Alice's PUT on her rating 9 with a comment and no [rating]. *)
Lemma C8_witness :
  let r := mkRequest (Bearer 4) 200 (PutRating (Id 9) None (Some "fine")) in
  @reachable standIn seeded /\
  status (snd (@handle standIn seeded r)) = 200 /\
  option_map r_rating (findById r_id 9 (Ratings (fst (@handle standIn seeded r))))
  = option_map r_rating (findById r_id 9 (Ratings seeded)).
Proof.
  intros r.
  assert (Hr : @reachable standIn seeded) by apply reach_seed.
  pose (user := nth 3 (Users seeded) (mkUser 0 "" "" "" "" RUser None false 0 0)).
  pose (existing := nth 0 (Ratings seeded) (mkRating 0 0 0 0 "" 0 0)).
  assert (Hauth : authenticated seeded (auth r) user)
    by (repeat split; vm_compute; reflexivity).
  assert (Hfind : findById r_id 9 (Ratings seeded) = Some existing)
    by (vm_compute; reflexivity).
  destruct (@C8_update_without_rating standIn seeded r 9 None (Some "fine") user existing
              Hr eq_refl Hauth eq_refl Hfind eq_refl (or_introl eq_refl))
    as [Hstatus Hafter].
  - vm_compute. lia.
  - split; [exact Hr|]. split; [exact Hstatus|]. rewrite Hafter, Hfind. reflexivity.
Defined.

(** C9 at Alice's GET /api/auth/profile after her soft delete. *)
Lemma C9_witness :
  let db1 := fst (@handle standIn seeded (mkRequest (Bearer 1) 200 (DeleteUser (Id 4)))) in
  let r := mkRequest (Bearer 4) 201 GetProfile in
  inactive 4 db1 /\
  status (snd (@handle standIn db1 r)) = 401 /\ fst (@handle standIn db1 r) = db1.
Proof.
  intros db1 r.
  assert (Hina : inactive 4 db1) by (eexists; split; vm_compute; reflexivity).
  split; [exact Hina|].
  apply (proj1 (@C9_inactive_user_is_rejected standIn db1 4) r eq_refl).
  - simpl. auto.
  - destruct Hina as [u0 [Hu0 Ha0]]. intros u Hu. congruence.
Defined.

(** C10 at Alice's login with her password, and at the login with another
    password on the database where every stored password is the hash of that
    one: both succeed, with the same response; and at two registrations that
    differ in the password only. *)
Lemma C10_witness :
  let r := mkRequest NoToken 200 (PostLogin (Some "user@example.com") (Some "User123!")) in
  let hashes := fun _ : User => @bcryptHash standIn "Other#456" in
  let r' := mkRequest NoToken 200 (PostLogin (Some "user@example.com") (Some "Other#456")) in
  let b := mkUserBody (Some "Dave New Customer") (Some "dave@example.com") (Some "First#123")
                      (Some "1 Main Street") None in
  let b' := mkUserBody (Some "Dave New Customer") (Some "dave@example.com") (Some "Second#45")
                       (Some "1 Main Street") None in
  (successful (snd (@handle standIn seeded r)) /\
   successful (snd (@handle standIn (rehash hashes seeded) r')) /\
   hasKey "password" (body (snd (@handle standIn seeded r))) = false /\
   snd (@handle standIn (rehash hashes seeded) r') = snd (@handle standIn seeded r))
  /\
  (successful (snd (@handle standIn seeded (mkRequest NoToken 200 (PostRegister b)))) /\
   successful (snd (@handle standIn (rehash hashes seeded)
                            (mkRequest NoToken 200 (PostRegister b')))) /\
   snd (@handle standIn (rehash hashes seeded) (mkRequest NoToken 200 (PostRegister b')))
   = snd (@handle standIn seeded (mkRequest NoToken 200 (PostRegister b)))).
Proof.
  intros r hashes r' b b'. split.
  - assert (Hok : successful (snd (@handle standIn seeded r)))
      by (left; vm_compute; reflexivity).
    assert (Hok' : successful (snd (@handle standIn (rehash hashes seeded) r')))
      by (left; vm_compute; reflexivity).
    destruct (@C10_no_password_in_successful_responses standIn seeded r Hok)
      as (Hkey & _ & Hsame).
    split; [exact Hok|]. split; [exact Hok'|]. split; [exact Hkey|].
    exact (Hsame hashes (Some "Other#456") None Hok').
  - assert (Hok : successful (snd (@handle standIn seeded (mkRequest NoToken 200 (PostRegister b)))))
      by (right; vm_compute; reflexivity).
    assert (Hok' : successful (snd (@handle standIn (rehash hashes seeded)
                                            (mkRequest NoToken 200 (PostRegister b')))))
      by (right; vm_compute; reflexivity).
    destruct (@C10_no_password_in_successful_responses standIn seeded
                (mkRequest NoToken 200 (PostRegister b)) Hok) as (_ & _ & Hsame).
    split; [exact Hok|]. split; [exact Hok'|].
    exact (Hsame hashes (Some "Second#45") None Hok').
Defined.

(* ------------------------------------------------------------------ *)
(** * Further properties of the code *)

(** ** Collections, continued *)

Section MoreCollectionFacts.
Variable A : Type.
Variable idOf : A -> ObjectId.

Lemma In_replaceById_other x l y :
  In y l -> idOf y <> idOf x -> In y (replaceById idOf x l).
Proof.
  induction l as [|z t IH]; simpl; intros Hin Hne; [contradiction|].
  destruct (idOf z =? idOf x) eqn:E.
  - destruct Hin as [->|Hin]; [|now right].
    apply Nat.eqb_eq in E. contradiction.
  - destruct Hin as [->|Hin]; [now left|right; auto].
Qed.

Lemma In_replaceById_NoDup x l y :
  NoDup (map idOf l) -> In y (replaceById idOf x l) ->
  y = x \/ (In y l /\ idOf y <> idOf x).
Proof.
  induction l as [|z t IH]; simpl; intros Hnd Hin; [contradiction|].
  inversion Hnd as [|? ? Hnot Hnd']; subst.
  destruct (idOf z =? idOf x) eqn:E.
  - apply Nat.eqb_eq in E. destruct Hin as [<-|Hin]; [now left|].
    right. split; [now right|]. intros Hy. apply Hnot. rewrite E, <- Hy. now apply in_map.
  - apply Nat.eqb_neq in E. destruct Hin as [<-|Hin]; [right; split; auto|].
    destruct (IH Hnd' Hin) as [->|[Hy Hne]]; [now left|right; split; auto].
Qed.

Lemma findById_Some_of_In i l :
  In i (map idOf l) -> exists x, findById idOf i l = Some x.
Proof.
  intros Hin. apply in_map_iff in Hin. destruct Hin as (x & Hx & Hin).
  unfold findById. destruct (find (fun y => idOf y =? i) l) as [y|] eqn:E; [eauto|].
  pose proof (find_none _ _ E x Hin) as Hn. simpl in Hn.
  rewrite Hx, Nat.eqb_refl in Hn. discriminate.
Qed.

Lemma findById_NoDup i l x :
  NoDup (map idOf l) -> In x l -> idOf x = i -> findById idOf i l = Some x.
Proof.
  intros Hnd Hin Hid.
  destruct (@findById_Some_of_In i l) as [y Hy].
  { rewrite <- Hid. now apply in_map. }
  rewrite Hy. f_equal. destruct (findById_In _ _ _ Hy) as [Hyin Hyid].
  apply (@NoDup_map_eq _ _ idOf l); auto. congruence.
Qed.

Lemma findById_None_notIn i l :
  findById idOf i l = None -> ~ In i (map idOf l).
Proof.
  intros Hn Hin. destruct (findById_Some_of_In _ _ Hin) as [x Hx]. congruence.
Qed.

Lemma replaceById_absent x l :
  ~ In (idOf x) (map idOf l) -> replaceById idOf x l = l.
Proof.
  induction l as [|y t IH]; simpl; intros Hn; [reflexivity|].
  destruct (idOf y =? idOf x) eqn:E.
  - apply Nat.eqb_eq in E. exfalso. apply Hn. now left.
  - f_equal. apply IH. intros H. apply Hn. now right.
Qed.

Lemma deleteById_absent i l :
  ~ In i (map idOf l) -> deleteById idOf i l = l.
Proof.
  induction l as [|y t IH]; simpl; intros Hn; [reflexivity|].
  destruct (idOf y =? i) eqn:E.
  - apply Nat.eqb_eq in E. exfalso. apply Hn. now left.
  - f_equal. apply IH. intros H. apply Hn. now right.
Qed.

Lemma findById_deleteById_same i l :
  NoDup (map idOf l) -> findById idOf i (deleteById idOf i l) = None.
Proof.
  induction l as [|y t IH]; simpl; intros Hnd; [reflexivity|].
  inversion Hnd as [|? ? Hnot Hnd']; subst.
  destruct (idOf y =? i) eqn:E.
  - apply Nat.eqb_eq in E. subst i.
    destruct (findById idOf (idOf y) t) as [z|] eqn:F; [|reflexivity].
    destruct (findById_In _ _ _ F) as [Hz Hid]. exfalso. apply Hnot.
    rewrite <- Hid. now apply in_map.
  - unfold findById in *. simpl. rewrite E. now apply IH.
Qed.

Lemma findById_deleteById_other i j l :
  i <> j -> findById idOf j (deleteById idOf i l) = findById idOf j l.
Proof.
  intros Hne. induction l as [|y t IH]; simpl; [reflexivity|].
  destruct (idOf y =? i) eqn:E.
  - apply Nat.eqb_eq in E. unfold findById. simpl.
    destruct (idOf y =? j) eqn:E2; [|reflexivity].
    apply Nat.eqb_eq in E2. congruence.
  - unfold findById in *. simpl. destruct (idOf y =? j); [reflexivity|exact IH].
Qed.

End MoreCollectionFacts.

(** ** Keys and references under the writes *)

Lemma Wf_empty : Wf emptyDB.
Proof. constructor; simpl; constructor. Qed.

Lemma In_map_app_l (A B : Type) (f : A -> B) (l : list A) (x : A) (b : B) :
  In b (map f l) -> In b (map f (l ++ [x])).
Proof. intros H. rewrite map_app. apply in_or_app. now left. Qed.

Lemma Wf_writeUser_insert doc db :
  Wf db -> u_id doc = nextId db -> u_storeId doc = None ->
  isHash (u_password doc) = true ->
  (forall o, In o (Users db) -> u_email o <> u_email doc) ->
  Wf (writeUser true doc db).
Proof.
  intros [] Hid Hsid Hhash Hmail. unfold writeUser.
  constructor; cbn [Users Stores Ratings nextId bumpId setUsers]; auto.
  - apply NoDup_map_snoc; [assumption|]. intros o Ho.
    rewrite Forall_forall in wf_fresh_users0. specialize (wf_fresh_users0 o Ho). lia.
  - apply NoDup_map_snoc; assumption.
  - apply Forall_app. split; [assumption|]. constructor; [assumption|constructor].
  - apply Forall_app. split.
    + eapply Forall_impl; [|exact wf_fresh_users0]. simpl. intros; lia.
    + constructor; [lia|constructor].
  - eapply Forall_impl; [|exact wf_fresh_stores0]. simpl. intros; lia.
  - eapply Forall_impl; [|exact wf_fresh_ratings0]. simpl. intros; lia.
  - eapply Forall_impl; [|exact wf_rating_refs0]. simpl. intros r [Hu Hs].
    split; [now apply In_map_app_l|assumption].
  - eapply Forall_impl; [|exact wf_store_refs0]. simpl. intros s Hs.
    now apply In_map_app_l.
  - apply Forall_app. split; [assumption|].
    constructor; [|constructor]. intros i Hi. congruence.
Qed.

Lemma Wf_writeUser_update doc db u :
  Wf db -> In u (Users db) -> u_id doc = u_id u ->
  isHash (u_password doc) = true ->
  (forall o, In o (Users db) -> u_email o = u_email doc -> u_id o = u_id doc) ->
  (forall i, u_storeId doc = Some i ->
             exists s, In s (Stores db) /\ s_id s = i /\
                       s_ownerId s = u_id doc /\ s_isActive s = true) ->
  Wf (writeUser false doc db).
Proof.
  intros [] Hin Hid Hhash Hmail Hlink. unfold writeUser.
  constructor; cbn [Users Stores Ratings nextId setUsers];
    rewrite ?map_id_replaceById; auto.
  - apply NoDup_map_replaceById; assumption.
  - apply Forall_replaceById; assumption.
  - apply Forall_replaceById; [|assumption].
    rewrite Forall_forall in wf_fresh_users0. rewrite Hid. now apply wf_fresh_users0.
  - apply Forall_replaceById; assumption.
Qed.

Lemma Wf_writeStore_insert doc db :
  Wf db -> s_id doc = nextId db ->
  In (s_ownerId doc) (map u_id (Users db)) ->
  (forall o, In o (Stores db) -> s_ownerId o <> s_ownerId doc) ->
  (forall o, In o (Stores db) -> s_email o <> s_email doc) ->
  Wf (writeStore true doc db).
Proof.
  intros [] Hid Hown Hone Hmail. unfold writeStore.
  constructor; cbn [Users Stores Ratings nextId bumpId setStores]; auto.
  - apply NoDup_map_snoc; [assumption|]. intros o Ho.
    rewrite Forall_forall in wf_fresh_stores0. specialize (wf_fresh_stores0 o Ho). lia.
  - apply NoDup_map_snoc; assumption.
  - apply NoDup_map_snoc; assumption.
  - eapply Forall_impl; [|exact wf_fresh_users0]. simpl. intros; lia.
  - apply Forall_app. split.
    + eapply Forall_impl; [|exact wf_fresh_stores0]. simpl. intros; lia.
    + constructor; [lia|constructor].
  - eapply Forall_impl; [|exact wf_fresh_ratings0]. simpl. intros; lia.
  - eapply Forall_impl; [|exact wf_rating_refs0]. simpl. intros r [Hu Hs].
    split; [assumption|now apply In_map_app_l].
  - apply Forall_app. split; [assumption|]. constructor; [assumption|constructor].
  - eapply Forall_impl; [|exact wf_user_refs0]. simpl. intros u Hu i Hi.
    destruct (Hu i Hi) as (s & Hs & Hrest). exists s. split; [|exact Hrest].
    apply in_or_app. now left.
Qed.

Lemma Wf_writeStore_update doc db s :
  Wf db -> In s (Stores db) -> s_id doc = s_id s -> s_ownerId doc = s_ownerId s ->
  (s_isActive doc = s_isActive s \/
   forall u, In u (Users db) -> u_storeId u <> Some (s_id s)) ->
  (forall o, In o (Stores db) -> s_email o = s_email doc -> s_id o = s_id doc) ->
  Wf (writeStore false doc db).
Proof.
  intros [] Hin Hid Hown Hact Hmail. unfold writeStore.
  constructor; cbn [Users Stores Ratings nextId setStores];
    rewrite ?map_id_replaceById; auto.
  - apply NoDup_map_replaceById; assumption.
  - apply NoDup_map_replaceById; try assumption.
    intros o Ho E. rewrite Hown in E.
    rewrite (NoDup_map_eq s_ownerId _ _ _ wf_owners0 Ho Hin E). congruence.
  - apply Forall_replaceById; [|assumption].
    rewrite Forall_forall in wf_fresh_stores0. rewrite Hid. now apply wf_fresh_stores0.
  - apply Forall_replaceById; [|assumption].
    rewrite Forall_forall in wf_store_refs0. rewrite Hown. now apply wf_store_refs0.
  - rewrite Forall_forall in *. intros u Hu i Hi.
    destruct (wf_user_refs0 u Hu i Hi) as (s0 & Hs0 & Hi0 & Ho0 & Ha0).
    destruct (Nat.eq_dec (s_id s0) (s_id doc)) as [E|E].
    + assert (s0 = s).
      { apply (NoDup_map_eq s_id _ _ _ wf_store_ids0 Hs0 Hin). congruence. }
      subst s0. destruct Hact as [Hact|Hact].
      * exists doc. repeat split; try congruence.
        eapply In_replaceById_self; eauto.
      * exfalso. apply (Hact u Hu). congruence.
    + exists s0. repeat split; auto. now apply In_replaceById_other.
Qed.

Lemma Wf_writeRating_insert doc db :
  Wf db -> r_id doc = nextId db ->
  In (r_userId doc) (map u_id (Users db)) ->
  In (r_storeId doc) (map s_id (Stores db)) ->
  Wf (writeRating true doc db).
Proof.
  intros [] Hid Hu Hs. unfold writeRating.
  constructor; cbn [Users Stores Ratings nextId bumpId setRatings]; auto.
  - eapply Forall_impl; [|exact wf_fresh_users0]. simpl. intros; lia.
  - eapply Forall_impl; [|exact wf_fresh_stores0]. simpl. intros; lia.
  - apply Forall_app. split.
    + eapply Forall_impl; [|exact wf_fresh_ratings0]. simpl. intros; lia.
    + constructor; [lia|constructor].
  - apply Forall_app. split; [assumption|]. constructor; [auto|constructor].
Qed.

Lemma Wf_writeRating_update doc db e :
  Wf db -> In e (Ratings db) -> r_id doc = r_id e ->
  r_userId doc = r_userId e -> r_storeId doc = r_storeId e ->
  Wf (writeRating false doc db).
Proof.
  intros [] Hin Hid Hu Hs. unfold writeRating.
  constructor; cbn [Users Stores Ratings nextId setRatings]; auto.
  - apply Forall_replaceById; [|assumption].
    rewrite Forall_forall in wf_fresh_ratings0. rewrite Hid. now apply wf_fresh_ratings0.
  - apply Forall_replaceById; [|assumption].
    rewrite Forall_forall in wf_rating_refs0. rewrite Hu, Hs. now apply wf_rating_refs0.
Qed.

Lemma Wf_deleteRating i db :
  Wf db -> Wf (setRatings (deleteById r_id i (Ratings db)) db).
Proof.
  intros []. constructor; cbn [Users Stores Ratings nextId setRatings]; auto.
  - now apply Forall_deleteById.
  - now apply Forall_deleteById.
Qed.

Section WfSaves.
Context {ext : Externals}.

Lemma isHash_bcryptHash password : isHash (bcryptHash password) = true.
Proof. apply bcryptHash_version. Qed.

Lemma eqb_email_neq (a b : string) : String.eqb a b = false -> a <> b.
Proof. intros H E. subst. now rewrite String.eqb_refl in H. Qed.

Lemma Wf_User_save_new now doc db doc' db' :
  Wf db -> u_id doc = nextId db -> u_storeId doc = None ->
  User_save true true now doc db = inr (doc', db') -> Wf db'.
Proof.
  intros Hwf Hid Hsid Hsave.
  apply User_save_inv in Hsave. destruct Hsave as (_ & -> & Hdup & ->).
  apply Wf_writeUser_insert; auto.
  - apply isHash_bcryptHash.
  - intros o Ho. destruct (duplicateKey_insert _ _ _ _ Hdup o Ho) as [_ Hk].
    now apply eqb_email_neq.
Qed.

Lemma Wf_User_save_old modified now doc db doc' db' u :
  Wf db -> In u (Users db) -> u_id doc = u_id u ->
  (modified = false -> isHash (u_password doc) = true) ->
  (forall i, u_storeId doc = Some i ->
             exists s, In s (Stores db) /\ s_id s = i /\
                       s_ownerId s = u_id doc /\ s_isActive s = true) ->
  User_save false modified now doc db = inr (doc', db') -> Wf db'.
Proof.
  intros Hwf Hin Hid Hhash Hlink Hsave.
  apply User_save_inv in Hsave. destruct Hsave as (_ & -> & Hdup & ->).
  apply Wf_writeUser_update with (u := u); auto.
  - unfold stampUser. cbn [u_password]. destruct modified; [apply isHash_bcryptHash|auto].
  - intros o Ho E. apply (duplicateKey_update _ _ _ _ Hdup o Ho).
    cbn [stampUser u_email] in E. rewrite E. apply String.eqb_refl.
Qed.

Lemma Wf_Store_save_new now doc db doc' db' :
  Wf db -> s_id doc = nextId db ->
  In (s_ownerId doc) (map u_id (Users db)) ->
  (forall o, In o (Stores db) -> s_ownerId o <> s_ownerId doc) ->
  Store_save true now doc db = inr (doc', db') -> Wf db'.
Proof.
  intros Hwf Hid Hown Hone Hsave.
  apply Store_save_inr in Hsave. destruct Hsave as (_ & -> & Hdup & ->).
  apply Wf_writeStore_insert; auto.
  intros o Ho. destruct (duplicateKey_insert _ _ _ _ Hdup o Ho) as [_ Hk].
  now apply eqb_email_neq.
Qed.

Lemma Wf_Store_save_old now doc db doc' db' s :
  Wf db -> In s (Stores db) -> s_id doc = s_id s -> s_ownerId doc = s_ownerId s ->
  (s_isActive doc = s_isActive s \/
   forall u, In u (Users db) -> u_storeId u <> Some (s_id s)) ->
  Store_save false now doc db = inr (doc', db') -> Wf db'.
Proof.
  intros Hwf Hin Hid Hown Hact Hsave.
  apply Store_save_inr in Hsave. destruct Hsave as (_ & -> & Hdup & ->).
  apply Wf_writeStore_update with (s := s); auto.
  intros o Ho E. apply (duplicateKey_update _ _ _ _ Hdup o Ho).
  cbn [stampStore s_email] in E. rewrite E. apply String.eqb_refl.
Qed.

Lemma Wf_updateStoreHook now doc db : Wf db -> Wf (Rating_updateStoreHook now doc db).
Proof.
  intros Hwf. unfold Rating_updateStoreHook.
  destruct (findById s_id (r_storeId doc) (Stores db)) as [store|] eqn:F; [|exact Hwf].
  destruct (Store_updateRating now store db) as [e|[s' db']] eqn:E; [exact Hwf|].
  destruct (findById_In _ _ _ F) as [Hin _].
  unfold Store_updateRating in E.
  eapply Wf_Store_save_old with (s := store); [exact Hwf|exact Hin| | | |exact E];
    destruct (Rating_aggregate (s_id store) db); auto.
Qed.

Lemma Wf_Rating_save_new now doc db doc' db' :
  Wf db -> r_id doc = nextId db ->
  In (r_userId doc) (map u_id (Users db)) ->
  In (r_storeId doc) (map s_id (Stores db)) ->
  Rating_save true now doc db = inr (doc', db') -> Wf db'.
Proof.
  intros Hwf Hid Hu Hs Hsave.
  apply Rating_save_inr in Hsave. destruct Hsave as (_ & -> & _ & ->).
  apply Wf_updateStoreHook. apply Wf_writeRating_insert; auto.
Qed.

Lemma Wf_Rating_save_old now doc db doc' db' e :
  Wf db -> In e (Ratings db) -> r_id doc = r_id e ->
  r_userId doc = r_userId e -> r_storeId doc = r_storeId e ->
  Rating_save false now doc db = inr (doc', db') -> Wf db'.
Proof.
  intros Hwf Hin Hid Hu Hs Hsave.
  apply Rating_save_inr in Hsave. destruct Hsave as (_ & -> & _ & ->).
  apply Wf_updateStoreHook. apply Wf_writeRating_update with (e := e); auto.
Qed.

Lemma Wf_Rating_delete now i db : Wf db -> Wf (Rating_findByIdAndDelete now i db).
Proof. intros H. rewrite Rating_findByIdAndDelete_eq. now apply Wf_deleteRating. Qed.

Lemma Wf_clearStoreId i db : Wf db -> Wf (User_clearStoreId i db).
Proof.
  intros Hwf. unfold User_clearStoreId.
  destruct (findById u_id i (Users db)) as [u|] eqn:F; [|exact Hwf].
  destruct (findById_In _ _ _ F) as [Hin _].
  apply (@Wf_writeUser_update _ db u); auto; cbn [u_id u_password u_email u_storeId].
  - destruct Hwf. rewrite Forall_forall in wf_hashed0. now apply wf_hashed0.
  - intros o Ho E. apply (NoDup_map_eq u_email _ _ _ (wf_user_emails Hwf) Ho Hin) in E.
    now subst.
  - discriminate.
Qed.

(** After [User.findByIdAndUpdate(ownerId, { storeId: null })] no user
    refers to the owner's store. *)
Lemma clearStoreId_unlinks s db :
  Wf db -> In s (Stores db) ->
  forall u, In u (Users (User_clearStoreId (s_ownerId s) db)) ->
            u_storeId u <> Some (s_id s).
Proof.
  intros Hwf Hin u Hu Hlink.
  assert (Hown : In (s_ownerId s) (map u_id (Users db))).
  { pose proof (wf_store_refs Hwf) as H. rewrite Forall_forall in H. now apply H. }
  destruct (findById_Some_of_In u_id _ _ Hown) as [owner Hf].
  unfold User_clearStoreId in Hu. rewrite Hf in Hu. cbn [Users setUsers] in Hu.
  apply In_replaceById_NoDup in Hu; [|exact (wf_user_ids Hwf)].
  destruct Hu as [->|[Hu Hne]]; [discriminate|].
  cbn [u_id] in Hne.
  pose proof (wf_user_refs Hwf) as H. rewrite Forall_forall in H.
  destruct (H u Hu _ Hlink) as (s0 & Hs0 & Hid0 & Ho0 & _).
  assert (s0 = s) by (apply (NoDup_map_eq s_id _ _ _ (wf_store_ids Hwf) Hs0 Hin Hid0)).
  subst s0. destruct (findById_In _ _ _ Hf) as [_ Hoid]. congruence.
Qed.

Lemma clearStoreId_writeStore i doc db :
  User_clearStoreId i (writeStore false doc db)
  = writeStore false doc (User_clearStoreId i db).
Proof.
  unfold User_clearStoreId, writeStore. cbn [Users setStores].
  destruct (findById u_id i (Users db)); reflexivity.
Qed.

(** The two writes of the store's soft delete, together. *)
Lemma Wf_deactivate now doc db doc' db' s :
  Wf db -> In s (Stores db) -> s_id doc = s_id s -> s_ownerId doc = s_ownerId s ->
  Store_save false now doc db = inr (doc', db') ->
  Wf (User_clearStoreId (s_ownerId doc') db').
Proof.
  intros Hwf Hin Hid Hown Hsave.
  apply Store_save_inr in Hsave. destruct Hsave as (_ & -> & Hdup & ->).
  rewrite clearStoreId_writeStore.
  cbn [stampStore s_ownerId]. rewrite Hown.
  destruct (User_clearStoreId_frame (s_ownerId s) db) as [HS _].
  apply Wf_writeStore_update with (s := s); auto.
  - now apply Wf_clearStoreId.
  - now rewrite HS.
  - right. now apply clearStoreId_unlinks.
  - rewrite HS. intros o Ho E. apply (duplicateKey_update _ _ _ _ Hdup o Ho).
    cbn [stampStore s_email] in E. rewrite E. apply String.eqb_refl.
Qed.

End WfSaves.

Section WfPreservation.
Context {ext : Externals}.

Ltac wf_split :=
  cbv zeta;
  repeat match goal with
  | |- Wf (fst (_, _)) => cbn [fst]
  | |- Wf (fst (match ?x with _ => _ end)) => destruct x eqn:?
  | |- Wf (fst (if ?b then _ else _)) => destruct b eqn:?
  end;
  try assumption.

Lemma Wf_user_hashed db u : Wf db -> In u (Users db) -> isHash (u_password u) = true.
Proof. intros Hwf Hin. pose proof (wf_hashed Hwf) as H. rewrite Forall_forall in H. auto. Qed.

Lemma Wf_user_link db u i :
  Wf db -> In u (Users db) -> u_storeId u = Some i ->
  exists s, In s (Stores db) /\ s_id s = i /\ s_ownerId s = u_id u /\ s_isActive s = true.
Proof. intros Hwf Hin. pose proof (wf_user_refs Hwf) as H. rewrite Forall_forall in H. auto. Qed.

Lemma Wf_createUser db now b role okMessage errMessage withToken :
  Wf db -> Wf (fst (createUser db now b role okMessage errMessage withToken)).
Proof.
  intros H. unfold createUser. wf_split.
  match goal with Hs : User_save _ _ _ _ _ = inr _ |- _ =>
    eapply Wf_User_save_new; [exact H| | |exact Hs]; reflexivity end.
Qed.

Lemma Wf_auth_password db now u c n : Wf db -> Wf (fst (auth_password db now u c n)).
Proof.
  intros H. unfold auth_password. wf_split.
  match goal with
  | Hf : findById u_id _ _ = Some ?user, Hs : User_save _ _ _ _ _ = inr _ |- _ =>
    destruct (findById_In _ _ _ Hf) as [Hin _];
    eapply Wf_User_save_old with (u := user); [exact H|exact Hin| | | |exact Hs];
      [reflexivity| |]
  end.
  - intros Hm. apply negb_false_iff in Hm. apply String.eqb_eq in Hm.
    cbn [u_password]. rewrite Hm. eapply Wf_user_hashed; eauto.
  - cbn [u_storeId u_id]. intros i Hi. eapply Wf_user_link; eauto.
Qed.

Lemma Wf_users_create db now b : Wf db -> Wf (fst (users_create db now b)).
Proof.
  intros H. unfold users_create.
  destruct (Role_ofString (str (ub_role b))); [now apply Wf_createUser|].
  wf_split.
Qed.

Ltac wf_user_update H :=
  match goal with
  | Hf : findById u_id _ _ = Some ?user, Hs : User_save false false _ _ _ = inr _ |- _ =>
    destruct (findById_In _ _ _ Hf) as [Hin _];
    eapply Wf_User_save_old with (u := user);
      [exact H|exact Hin| | | |exact Hs];
      [ reflexivity
      | intros _; cbn [u_password]; eapply Wf_user_hashed; eauto
      | cbn [u_storeId u_id]; intros ? ?; eapply Wf_user_link; eauto ]
  end.

Lemma Wf_users_update db now i b : Wf db -> Wf (fst (users_update db now i b)).
Proof. intros H. unfold users_update. wf_split; wf_user_update H. Qed.

Lemma Wf_users_delete db now i : Wf db -> Wf (fst (users_delete db now i)).
Proof. intros H. unfold users_delete. wf_split; wf_user_update H. Qed.

Lemma Wf_ratings_submit db now u b :
  Wf db -> In (u_id u) (map u_id (Users db)) ->
  Wf (fst (ratings_submit db now u b)).
Proof.
  intros H Hu. unfold ratings_submit, ratingSaveFailed. wf_split.
  - match goal with
    | Hf : Rating_findOne _ _ _ = Some ?old, Hs : Rating_save false _ _ _ = inr _ |- _ =>
      destruct (Rating_findOne_Some _ _ _ Hf) as (Hin & _ & _);
      eapply Wf_Rating_save_old with (e := old); [exact H|exact Hin| | | |exact Hs];
      reflexivity
    end.
  - match goal with
    | Hf : findById s_id _ _ = Some ?old, Hs : Rating_save true _ _ _ = inr _ |- _ =>
      destruct (findById_In _ _ _ Hf) as [Hin Hid];
      eapply Wf_Rating_save_new; [exact H| | | |exact Hs];
      cbn [Rating_new r_id r_userId r_storeId]; [reflexivity|exact Hu|]
    end.
    rewrite <- Hid. now apply in_map.
Qed.

Lemma Wf_ratings_update db now u i rating comment :
  Wf db -> Wf (fst (ratings_update db now u i rating comment)).
Proof.
  intros H. unfold ratings_update, ratingSaveFailed. wf_split;
  match goal with
  | Hf : findById r_id _ _ = Some ?old, Hs : Rating_save false _ _ _ = inr _ |- _ =>
    destruct (findById_In _ _ _ Hf) as [Hin _];
    eapply Wf_Rating_save_old with (e := old); [exact H|exact Hin| | | |exact Hs];
    (destruct rating as [q|]; [destruct (Js.truthyNum q)|]; reflexivity)
  end.
Qed.

Lemma Wf_ratings_delete db now u i : Wf db -> Wf (fst (ratings_delete db now u i)).
Proof. intros H. unfold ratings_delete. wf_split. now apply Wf_Rating_delete. Qed.

Lemma Wf_stores_update db now i name email address :
  Wf db -> Wf (fst (stores_update db now i name email address)).
Proof.
  intros H. unfold stores_update. wf_split;
  match goal with
  | Hf : findById s_id _ _ = Some ?old, Hs : Store_save false _ _ _ = inr _ |- _ =>
    destruct (findById_In _ _ _ Hf) as [Hin _];
    eapply Wf_Store_save_old with (s := old); [exact H|exact Hin| | | |exact Hs];
    auto
  end.
Qed.

Lemma Wf_stores_delete db now i : Wf db -> Wf (fst (stores_delete db now i)).
Proof.
  intros H. unfold stores_delete. wf_split.
  match goal with
  | Hf : findById s_id _ _ = Some ?old, Hs : Store_save false _ _ _ = inr _ |- _ =>
    destruct (findById_In _ _ _ Hf) as [Hin _];
    eapply Wf_deactivate with (s := old); [exact H|exact Hin| | |exact Hs]; reflexivity
  end.
Qed.

Lemma Wf_stores_create db now b : Wf db -> Wf (fst (stores_create db now b)).
Proof.
  intros H. unfold stores_create. wf_split;
  match goal with
  | Hf : findById u_id _ _ = Some ?owner,
    Hn : find (fun s => s_ownerId s =? u_id ?owner) _ = None,
    Hs : Store_save true _ _ _ = inr (_, ?d) |- _ =>
      destruct (findById_In _ _ _ Hf) as [Hin _];
      assert (Hd : Wf d) by
        (eapply Wf_Store_save_new; [exact H| | | |exact Hs];
         [ reflexivity
         | cbn [Store_new s_ownerId]; now apply in_map
         | intros o Ho; cbn [Store_new s_ownerId]; intros E;
           pose proof (find_none _ _ Hn o Ho) as Hx; simpl in Hx;
           rewrite E, Nat.eqb_refl in Hx; discriminate ]);
      try assumption;
      apply Store_save_inr in Hs; destruct Hs as (_ & Hs1 & _ & Hs2)
  end.
  match goal with
  | Hu : User_save false false _ _ _ = inr _ |- _ =>
      eapply Wf_User_save_old with (u := u); [exact Hd| | | | |exact Hu]
  end.
  - subst d. unfold writeStore. exact Hin.
  - reflexivity.
  - intros _. cbn [u_password]. eapply Wf_user_hashed; [exact H|exact Hin].
  - cbn [u_storeId u_id]. intros i1 Hi. inversion Hi; subst i1. exists s.
    subst d. unfold writeStore. cbn [Stores bumpId setStores].
    split; [apply in_or_app; right; now left|].
    subst s. repeat split.
Qed.

(** The user the middleware attaches to the request is a user of the
    database, found under its [_id], and active. *)
Lemma runMiddleware_user db a m req req' :
  (forall u, req_user req = Some u ->
             findById u_id (u_id u) (Users db) = Some u /\ u_isActive u = true) ->
  runMiddleware db a m req = Next req' ->
  forall u, req_user req' = Some u ->
            findById u_id (u_id u) (Users db) = Some u /\ u_isActive u = true.
Proof.
  intros Hreq Hrun. destruct m as [|roles|errors|storeId]; simpl in Hrun.
  - unfold authenticateToken in Hrun. destruct a as [| | |uid]; try discriminate.
    destruct (findById u_id uid (Users db)) as [user|] eqn:F; [|discriminate].
    destruct (u_isActive user) eqn:Ha; [|discriminate].
    inversion Hrun; subst. cbn [req_user]. intros u Hu. inversion Hu; subst.
    destruct (findById_In _ _ _ F) as [_ Hid]. subst uid. auto.
  - unfold authorize in Hrun. destruct (req_user req) as [user|] eqn:Hu; [|discriminate].
    destruct (negb _); [discriminate|]. inversion Hrun; subst. rewrite Hu. exact Hreq.
  - destruct errors; [|discriminate]. inversion Hrun; subst. exact Hreq.
  - unfold verifyStoreOwner in Hrun. destruct (req_user req) as [user|] eqn:Hu; [|discriminate].
    destruct (Role_eqb (u_role user) RAdmin).
    + inversion Hrun; subst. rewrite Hu. exact Hreq.
    + destruct (negb (Role_eqb (u_role user) RStoreOwner)); [discriminate|].
      destruct storeId as [|i]; [discriminate|].
      destruct (findById s_id i (Stores db)) as [store|]; [|discriminate].
      destruct (negb (s_ownerId store =? u_id user)); [discriminate|].
      inversion Hrun; subst. cbn [req_user]. exact Hreq.
Qed.

Lemma runChain_user db a ms req req' :
  (forall u, req_user req = Some u ->
             findById u_id (u_id u) (Users db) = Some u /\ u_isActive u = true) ->
  runChain db a ms req = Next req' ->
  forall u, req_user req' = Some u ->
            findById u_id (u_id u) (Users db) = Some u /\ u_isActive u = true.
Proof.
  revert req. induction ms as [|m rest IH]; simpl; intros req Hreq Hrun.
  - inversion Hrun; subst. exact Hreq.
  - destruct (runMiddleware db a m req) as [req1|resp] eqn:Hm; [|discriminate].
    eapply IH; [|exact Hrun]. eapply runMiddleware_user; eauto.
Qed.

Lemma handle_user db r req :
  runChain db (auth r) (chain (call r)) (mkReq None None) = Next req ->
  forall u, req_user req = Some u ->
            findById u_id (u_id u) (Users db) = Some u /\ u_isActive u = true.
Proof. apply runChain_user. discriminate. Qed.

Lemma Wf_handler db now req c :
  Wf db -> (forall u, req_user req = Some u -> In u (Users db)) ->
  Wf (fst (handler db now req c)).
Proof.
  intros H Hreq. destruct (fst_readers db)
    as (R1 & R2 & R3 & R4 & R5 & R6 & R7 & R8 & R9 & R10 & R11 & R12 & R13 & R14).
  unfold handler.
  destruct c; cbv zeta;
    repeat match goal with
    | |- context [match req_user req with _ => _ end] => destruct (req_user req) eqn:?
    | |- context [match ?p with Id _ => _ | BadId => _ end] => destruct p
    end;
    cbn [fst]; unfold auth_register;
    rewrite ?R1, ?R2, ?R3, ?R4, ?R5, ?R6, ?R7, ?R8, ?R9, ?R10, ?R11, ?R12, ?R13, ?R14;
    auto using Wf_createUser, Wf_auth_password, Wf_users_create, Wf_users_update,
      Wf_users_delete, Wf_ratings_update, Wf_ratings_delete,
      Wf_stores_create, Wf_stores_update, Wf_stores_delete.
  apply Wf_ratings_submit; [exact H|]. apply in_map. now apply Hreq.
Qed.

Lemma Wf_handle db r : Wf db -> Wf (fst (handle db r)).
Proof.
  intros H. unfold handle.
  destruct (runChain db (auth r) (chain (call r)) (mkReq None None)) as [req|resp] eqn:E;
    cbn [fst]; [|exact H].
  apply Wf_handler; [exact H|]. intros u Hu.
  destruct (handle_user _ _ E Hu) as [Hf _]. now destruct (findById_In _ _ _ Hf).
Qed.

End WfPreservation.

Lemma map_key_replaceById (A B : Type) (idOf : A -> ObjectId) (f : A -> B) x y l :
  NoDup (map idOf l) -> In y l -> idOf x = idOf y -> f x = f y ->
  map f (replaceById idOf x l) = map f l.
Proof.
  intros Hnd Hin Hid Hf. induction l as [|z t IH]; simpl; [reflexivity|].
  inversion Hnd as [|? ? Hnot Hnd']; subst.
  destruct (idOf z =? idOf x) eqn:E.
  - apply Nat.eqb_eq in E. simpl. f_equal.
    destruct Hin as [->|Hin]; [exact Hf|].
    exfalso. apply Hnot. rewrite E, Hid. now apply in_map.
  - apply Nat.eqb_neq in E. simpl. f_equal.
    destruct Hin as [->|Hin]; [congruence|]. now apply IH.
Qed.

(** ** The seed script *)

Section SeedFacts.
Context {ext : Externals}.

Lemma nextId_updateStoreHook now doc db :
  nextId (Rating_updateStoreHook now doc db) = nextId db.
Proof.
  unfold Rating_updateStoreHook.
  destruct (findById s_id (r_storeId doc) (Stores db)) as [store|]; [|reflexivity].
  destruct (Store_updateRating now store db) as [e|[s' db']] eqn:E; [reflexivity|].
  unfold Store_updateRating in E. apply Store_save_inr in E.
  destruct E as (_ & _ & _ & ->). reflexivity.
Qed.

Lemma storeKeys_updateRating now store db s' db' :
  Wf db -> In store (Stores db) ->
  Store_updateRating now store db = inr (s', db') ->
  map storeKey (Stores db') = map storeKey (Stores db) /\
  Users db' = Users db /\ Ratings db' = Ratings db /\ nextId db' = nextId db.
Proof.
  intros Hwf Hin E. unfold Store_updateRating in E. apply Store_save_inr in E.
  destruct E as (_ & -> & _ & ->). unfold writeStore. cbn [Stores Users Ratings nextId setStores].
  split; [|auto].
  apply map_key_replaceById with (y := store); auto.
  - exact (wf_store_ids Hwf).
  - destruct (Rating_aggregate (s_id store) db); reflexivity.
  - destruct (Rating_aggregate (s_id store) db); reflexivity.
Qed.

Lemma storeKeys_updateStoreHook now doc db :
  Wf db ->
  map storeKey (Stores (Rating_updateStoreHook now doc db)) = map storeKey (Stores db).
Proof.
  intros Hwf. unfold Rating_updateStoreHook.
  destruct (findById s_id (r_storeId doc) (Stores db)) as [store|] eqn:F; [|reflexivity].
  destruct (Store_updateRating now store db) as [e|[s' db']] eqn:E; [reflexivity|].
  destruct (findById_In _ _ _ F) as [Hin _].
  now destruct (storeKeys_updateRating _ _ Hwf Hin E).
Qed.

Lemma Shape_user db us ss n now name email password address role doc d :
  Shape db us ss n ->
  User_save true true now (User_new db now name email password address role) db
  = inr (doc, d) ->
  Shape d (us ++ [n]) ss (S n) /\ u_id doc = n /\ isHash (u_password doc) = true.
Proof.
  intros (Hwf & Hu & Hs & Hn) Hsave.
  assert (Hwf' : Wf d).
  { eapply Wf_User_save_new; [exact Hwf| | |exact Hsave]; reflexivity. }
  apply User_save_inv in Hsave. destruct Hsave as (_ & -> & _ & ->).
  split; [split; [exact Hwf'|]|].
  - unfold writeUser. cbn [Users Stores nextId bumpId setUsers].
    rewrite map_app, Hu, Hs, Hn. cbn [map stampUser User_new u_id]. rewrite Hn. auto.
  - cbn [stampUser User_new u_id u_password]. split; [exact Hn|apply isHash_bcryptHash].
Qed.

Lemma Shape_store db us ss n now name email address owner doc d :
  Shape db us ss n ->
  In owner us -> (forall k, In k ss -> snd (fst k) <> owner) ->
  Store_save true now (Store_new db now name email address owner) db = inr (doc, d) ->
  Shape d us (ss ++ [(n, owner, true)]) (S n) /\ storeKey doc = (n, owner, true).
Proof.
  intros (Hwf & Hu & Hs & Hn) Hown Hone Hsave.
  assert (Hwf' : Wf d).
  { eapply Wf_Store_save_new; [exact Hwf| | | |exact Hsave].
    - reflexivity.
    - cbn [Store_new s_ownerId]. now rewrite Hu.
    - intros o Ho. cbn [Store_new s_ownerId].
      apply (Hone (storeKey o)). rewrite <- Hs. now apply in_map. }
  apply Store_save_inr in Hsave. destruct Hsave as (_ & -> & _ & ->).
  split; [split; [exact Hwf'|]|].
  - unfold writeStore. cbn [Users Stores nextId bumpId setStores].
    rewrite map_app, Hu, Hs, Hn. cbn [map]. unfold storeKey at 1.
    cbn [stampStore Store_new s_id s_ownerId s_isActive]. rewrite Hn. auto.
  - unfold storeKey. cbn [stampStore Store_new s_id s_ownerId s_isActive]. now rewrite Hn.
Qed.

Lemma Shape_link db us ss n now u sid doc d :
  Shape db us ss n ->
  In (u_id u) us -> isHash (u_password u) = true -> In (sid, u_id u, true) ss ->
  User_save false false now
            (mkUser (u_id u) (u_name u) (u_email u) (u_password u) (u_address u)
                    (u_role u) (Some sid) (u_isActive u) (u_createdAt u) (u_updatedAt u))
            db = inr (doc, d) ->
  Shape d us ss n.
Proof.
  intros (Hwf & Hu & Hs & Hn) Huin Hhash Hsin Hsave.
  rewrite <- Hu in Huin. apply in_map_iff in Huin. destruct Huin as (u0 & Hid0 & Hin0).
  rewrite <- Hs in Hsin. apply in_map_iff in Hsin. destruct Hsin as (s0 & Hk0 & Hsin0).
  inversion Hk0.
  assert (Hwf' : Wf d).
  { eapply Wf_User_save_old with (u := u0); [exact Hwf|exact Hin0| | | |exact Hsave].
    - cbn [u_id]. congruence.
    - intros _. exact Hhash.
    - cbn [u_storeId u_id]. intros i Hi. inversion Hi; subst i. exists s0. auto. }
  apply User_save_inv in Hsave. destruct Hsave as (_ & -> & _ & ->).
  unfold Shape, writeUser. cbn [Users Stores nextId setUsers].
  rewrite map_id_replaceById. split; [exact Hwf'|auto].
Qed.

Lemma Shape_rating db us ss n now userId storeId rating comment doc d :
  Shape db us ss n ->
  In userId us -> In storeId (map (fun k => fst (fst k)) ss) ->
  Rating_save true now (Rating_new db now userId storeId rating comment) db = inr (doc, d) ->
  Shape d us ss (S n).
Proof.
  intros (Hwf & Hu & Hs & Hn) Huin Hsin Hsave.
  assert (Hsin' : In storeId (map s_id (Stores db))).
  { rewrite <- Hs, map_map in Hsin. exact Hsin. }
  assert (Hwf' : Wf d).
  { eapply Wf_Rating_save_new; [exact Hwf| | | |exact Hsave];
      cbn [Rating_new r_id r_userId r_storeId]; [reflexivity|now rewrite Hu|exact Hsin']. }
  apply Rating_save_inr in Hsave. destruct Hsave as (_ & -> & _ & ->).
  unfold Shape. rewrite Users_updateStoreHook, nextId_updateStoreHook.
  rewrite storeKeys_updateStoreHook.
  - unfold writeRating. cbn [Users Stores nextId bumpId setRatings]. rewrite Hn.
    split; [exact Hwf'|auto].
  - apply Wf_writeRating_insert; auto.
    cbn [stampRating Rating_new r_userId]. now rewrite Hu.
Qed.

Lemma Shape_update db us ss n now s doc d :
  Shape db us ss n -> In (storeKey s) ss ->
  Store_updateRating now s db = inr (doc, d) ->
  Shape d us ss n.
Proof.
  intros (Hwf & Hu & Hs & Hn) Hsin Hsave.
  rewrite <- Hs in Hsin. apply in_map_iff in Hsin. destruct Hsin as (s0 & Hk0 & Hsin0).
  inversion Hk0 as [[Hid Hown Hact]].
  assert (Hwf' : Wf d).
  { unfold Store_updateRating in Hsave.
    eapply Wf_Store_save_old with (s := s0); [exact Hwf|exact Hsin0| | | |exact Hsave];
      destruct (Rating_aggregate (s_id s) db); cbn [s_id s_ownerId s_isActive]; auto. }
  unfold Store_updateRating in Hsave. apply Store_save_inr in Hsave.
  destruct Hsave as (_ & -> & _ & ->).
  unfold Shape, writeStore. cbn [Users Stores nextId setStores].
  split; [exact Hwf'|]. split; [exact Hu|]. split; [|exact Hn]. rewrite <- Hs.
  apply map_key_replaceById with (y := s0); auto.
  - exact (wf_store_ids Hwf).
  - destruct (Rating_aggregate (s_id s) db); cbn [stampStore s_id]; auto.
  - destruct (Rating_aggregate (s_id s) db); unfold storeKey;
      cbn [stampStore s_id s_ownerId s_isActive]; congruence.
Qed.

End SeedFacts.

Section SeedWf.
Context {ext : Externals}.

Lemma Shape_empty : Shape emptyDB [] [] 1.
Proof. split; [apply Wf_empty|auto]. Qed.

Ltac seed_ids :=
  repeat match goal with
         | H : u_id ?x = _ |- context [u_id ?x] => rewrite H
         | H : s_id ?x = _ |- context [s_id ?x] => rewrite H
         | H : s_ownerId ?x = _ |- context [s_ownerId ?x] => rewrite H
         | H : s_isActive ?x = _ |- context [s_isActive ?x] => rewrite H
         end.

Ltac seed_side :=
  seed_ids; simpl;
  first [ assumption
        | solve [ intuition (try discriminate; try lia; congruence) ]
        | solve [ intros k Hk; simpl in Hk;
                  repeat (destruct Hk as [<-|Hk]; [simpl; lia|]); contradiction ] ].

Ltac seed_step :=
  match goal with
  | Hsh : Shape ?db _ _ _ |- Wf (orStop ?db ?save _) =>
      let Hs := fresh "Hs" in
      let doc := fresh "doc" in
      let d := fresh "d" in
      unfold orStop at 1;
      destruct save as [?|[doc d]] eqn:Hs; [exact (proj1 Hsh)|];
      first
        [ let Hid := fresh "Hid" in
          let Hh := fresh "Hh" in
          eapply Shape_user in Hs; [|exact Hsh];
          destruct Hs as (Hs & Hid & Hh)
        | let H1 := fresh "Hsid" in
          let H2 := fresh "Hsown" in
          let H3 := fresh "Hsact" in
          let Hk := fresh "Hk" in
          eapply Shape_store in Hs; [|exact Hsh|seed_side|seed_side];
          destruct Hs as (Hs & Hk);
          unfold storeKey in Hk; injection Hk as H1 H2 H3
        | eapply Shape_link in Hs; [|exact Hsh|seed_side|assumption|seed_side]
        | eapply Shape_rating in Hs; [|exact Hsh|seed_side|seed_side]
        | eapply Shape_update in Hs; [|exact Hsh|unfold storeKey; seed_side] ];
      clear Hsh; cbn [app] in Hs
  end.

Lemma Wf_seedData clock : Wf (seedData clock).
Proof.
  unfold seedData, seedUser, seedRating, withStoreId. cbv zeta.
  pose proof Shape_empty as Hsh.
  do 16 seed_step.
  match goal with Hsh : Shape _ _ _ _ |- _ => exact (proj1 Hsh) end.
Qed.

End SeedWf.

Section ReachableWf.
Context {ext : Externals}.

Lemma reachable_Wf db : reachable db -> Wf db.
Proof.
  induction 1.
  - apply Wf_empty.
  - apply Wf_seedData.
  - now apply Wf_handle.
Qed.

Lemma not_successful_fail code message error :
  code <> 200 -> code <> 201 -> ~ successful (fail code message error).
Proof. unfold successful. simpl. intros H1 H2 [H|H]; contradiction. Qed.

End ReachableWf.

(** ** Stored passwords *)

Section Hashed.
Context {ext : Externals}.

Lemma hashedBy_bcryptHash password : hashedBy (bcryptHash password).
Proof. now exists password. Qed.

Lemma hashedBy_isHash password : hashedBy password -> isHash password = true.
Proof. intros [plain ->]. apply bcryptHash_version. Qed.

Lemma Hashed_In db u : Hashed db -> In u (Users db) -> hashedBy (u_password u).
Proof. unfold Hashed. rewrite Forall_forall. auto. Qed.

Lemma Hashed_Users db db' : Users db' = Users db -> Hashed db -> Hashed db'.
Proof. unfold Hashed. now intros ->. Qed.

(** [user.save()] stores the hash of the password when the password was
    modified, and the password of the document otherwise. *)
Lemma Hashed_User_save isNew modified now doc db doc' db' :
  Hashed db -> (modified = false -> hashedBy (u_password doc)) ->
  User_save isNew modified now doc db = inr (doc', db') ->
  Hashed db' /\ hashedBy (u_password doc').
Proof.
  intros H Hdoc Hsave. apply User_save_inv in Hsave. destruct Hsave as (_ & -> & _ & ->).
  assert (Hp : hashedBy (u_password (stampUser modified now doc))).
  { unfold stampUser. cbn [u_password].
    destruct modified; [apply hashedBy_bcryptHash|now apply Hdoc]. }
  split; [|exact Hp].
  unfold Hashed, writeUser in *. destruct isNew; cbn [Users bumpId setUsers].
  - apply Forall_app. split; [exact H|]. constructor; [exact Hp|constructor].
  - apply Forall_replaceById; assumption.
Qed.

Lemma Hashed_clearStoreId i db : Hashed db -> Hashed (User_clearStoreId i db).
Proof.
  intros H. unfold User_clearStoreId.
  destruct (findById u_id i (Users db)) as [u|] eqn:F; [|exact H].
  destruct (findById_In _ _ _ F) as [Hin _].
  unfold Hashed. cbn [Users setUsers]. apply Forall_replaceById; [|exact H].
  cbn [u_password]. exact (@Hashed_In _ _ H Hin).
Qed.

Ltac hashed_split :=
  cbv zeta;
  repeat match goal with
  | |- Hashed (fst (_, _)) => cbn [fst]
  | |- Hashed (fst (match ?x with _ => _ end)) => destruct x eqn:?
  | |- Hashed (fst (if ?b then _ else _)) => destruct b eqn:?
  end;
  try assumption.

Ltac hashed_save H :=
  match goal with
  | Hs : User_save _ _ _ _ _ = inr _ |- _ =>
      eapply (@Hashed_User_save _ _ _ _ _ _ _ H) in Hs; [exact (proj1 Hs)|]
  | Hs : Store_save _ _ _ _ = inr _ |- _ =>
      apply Store_save_Users in Hs; exact (@Hashed_Users _ _ Hs H)
  | Hs : Rating_save _ _ _ _ = inr _ |- _ =>
      apply Rating_save_Users in Hs; exact (@Hashed_Users _ _ Hs H)
  end.

Ltac hashed_found H :=
  match goal with
  | Hf : findById u_id _ _ = Some ?user |- hashedBy (u_password ?user) =>
      destruct (findById_In _ _ _ Hf) as [Hin _]; exact (@Hashed_In _ _ H Hin)
  end.

Lemma Hashed_createUser db now b role okMessage errMessage withToken :
  Hashed db -> Hashed (fst (createUser db now b role okMessage errMessage withToken)).
Proof. intros H. unfold createUser. hashed_split. hashed_save H. discriminate. Qed.

Lemma Hashed_auth_password db now u c n : Hashed db -> Hashed (fst (auth_password db now u c n)).
Proof.
  intros H. unfold auth_password. hashed_split. hashed_save H.
  intros Hm. apply negb_false_iff in Hm. apply String.eqb_eq in Hm.
  cbn [u_password]. rewrite Hm. hashed_found H.
Qed.

Lemma Hashed_users_create db now b : Hashed db -> Hashed (fst (users_create db now b)).
Proof.
  intros H. unfold users_create.
  destruct (Role_ofString (str (ub_role b))); [now apply Hashed_createUser|].
  hashed_split.
Qed.

Lemma Hashed_users_update db now i b : Hashed db -> Hashed (fst (users_update db now i b)).
Proof.
  intros H. unfold users_update. hashed_split; hashed_save H; intros _; cbn [u_password];
    hashed_found H.
Qed.

Lemma Hashed_users_delete db now i : Hashed db -> Hashed (fst (users_delete db now i)).
Proof.
  intros H. unfold users_delete. hashed_split; hashed_save H; intros _; cbn [u_password];
    hashed_found H.
Qed.

Lemma Hashed_ratings_submit db now u b : Hashed db -> Hashed (fst (ratings_submit db now u b)).
Proof. intros H. unfold ratings_submit, ratingSaveFailed. hashed_split; hashed_save H. Qed.

Lemma Hashed_ratings_update db now u i rating comment :
  Hashed db -> Hashed (fst (ratings_update db now u i rating comment)).
Proof. intros H. unfold ratings_update, ratingSaveFailed. hashed_split; hashed_save H. Qed.

Lemma Hashed_ratings_delete db now u i : Hashed db -> Hashed (fst (ratings_delete db now u i)).
Proof.
  intros H. unfold ratings_delete. hashed_split.
  exact (@Hashed_Users _ _ (Rating_delete_Users now i db) H).
Qed.

Lemma Hashed_stores_update db now i name email address :
  Hashed db -> Hashed (fst (stores_update db now i name email address)).
Proof. intros H. unfold stores_update. hashed_split; hashed_save H. Qed.

Lemma Hashed_stores_delete db now i : Hashed db -> Hashed (fst (stores_delete db now i)).
Proof.
  intros H. unfold stores_delete. hashed_split. apply Hashed_clearStoreId.
  hashed_save H.
Qed.

Lemma Hashed_stores_create db now b : Hashed db -> Hashed (fst (stores_create db now b)).
Proof.
  intros H. unfold stores_create. hashed_split;
  match goal with
  | Hs : Store_save true _ _ _ = inr (_, ?d) |- _ =>
      assert (Hd : Hashed d)
        by (apply Store_save_Users in Hs; exact (@Hashed_Users _ _ Hs H));
      try assumption; pose proof (Store_save_Users _ _ _ _ Hs) as Hus
  end.
  match goal with
  | Hu : User_save false false _ _ _ = inr _ |- _ =>
      eapply (@Hashed_User_save _ _ _ _ _ _ _ Hd) in Hu; [exact (proj1 Hu)|]
  end.
  intros _. cbn [u_password]. hashed_found H.
Qed.

Lemma Hashed_handler db now req c : Hashed db -> Hashed (fst (handler db now req c)).
Proof.
  intros H. destruct (fst_readers db)
    as (R1 & R2 & R3 & R4 & R5 & R6 & R7 & R8 & R9 & R10 & R11 & R12 & R13 & R14).
  unfold handler.
  destruct c; cbv zeta;
    repeat match goal with
    | |- context [match req_user req with _ => _ end] => destruct (req_user req) eqn:?
    | |- context [match ?p with Id _ => _ | BadId => _ end] => destruct p
    end;
    cbn [fst]; unfold auth_register;
    rewrite ?R1, ?R2, ?R3, ?R4, ?R5, ?R6, ?R7, ?R8, ?R9, ?R10, ?R11, ?R12, ?R13, ?R14;
    auto using Hashed_createUser, Hashed_auth_password, Hashed_users_create,
      Hashed_users_update, Hashed_users_delete, Hashed_ratings_submit,
      Hashed_ratings_update, Hashed_ratings_delete, Hashed_stores_create,
      Hashed_stores_update, Hashed_stores_delete.
Qed.

Lemma Hashed_handle db r : Hashed db -> Hashed (fst (handle db r)).
Proof.
  intros H. unfold handle.
  destruct (runChain db (auth r) (chain (call r)) (mkReq None None)) as [req|resp];
    cbn [fst]; [|exact H].
  now apply Hashed_handler.
Qed.

(** The seed script: every user it saves is hashed by the [pre('save')]
    hook, and the owners it saves again keep the hash. *)
Ltac seed_hashed :=
  match goal with
  | H : Hashed ?db |- Hashed (orStop ?db ?save _) =>
      let Hs := fresh "Hs" in
      let doc := fresh "doc" in
      let d := fresh "d" in
      unfold orStop at 1;
      destruct save as [?|[doc d]] eqn:Hs; [exact H|];
      first
        [ eapply (@Hashed_User_save _ _ _ _ _ _ _ H) in Hs;
          [destruct Hs as [Hs ?]|first [discriminate|intros _; cbn [u_password]; assumption]]
        | apply Store_save_Users in Hs; apply (fun E => @Hashed_Users _ _ E H) in Hs
        | apply Rating_save_Users in Hs; apply (fun E => @Hashed_Users _ _ E H) in Hs
        | unfold Store_updateRating in Hs; apply Store_save_Users in Hs;
          apply (fun E => @Hashed_Users _ _ E H) in Hs ];
      clear H
  end.

Lemma Hashed_seedData clock : Hashed (seedData clock).
Proof.
  unfold seedData, seedUser, seedRating, withStoreId. cbv zeta.
  assert (H : Hashed emptyDB) by constructor.
  do 16 seed_hashed.
  assumption.
Qed.

Lemma reachable_Hashed db : reachable db -> Hashed db.
Proof.
  induction 1.
  - constructor.
  - apply Hashed_seedData.
  - now apply Hashed_handle.
Qed.

(** *** What a request stores *)

Lemma Stored_Users db db' sent : Users db' = Users db -> Stored db db' sent.
Proof. intros E u' Hin. rewrite E in Hin. left. now exists u'. Qed.

Lemma Stored_same db sent : Stored db db sent.
Proof. now apply Stored_Users. Qed.

Lemma Stored_User_save isNew modified now doc db doc' db' sent :
  (modified = true -> sent = Some (u_password doc)) ->
  (modified = false ->
   exists u, In u (Users db) /\ u_id u = u_id doc /\ u_password doc = u_password u) ->
  User_save isNew modified now doc db = inr (doc', db') ->
  Stored db db' sent.
Proof.
  intros Hnew Hold Hsave. apply User_save_inv in Hsave. destruct Hsave as (_ & -> & _ & ->).
  assert (Hdoc : (exists u, In u (Users db) /\ u_id u = u_id (stampUser modified now doc) /\
                            u_password (stampUser modified now doc) = u_password u)
                 \/ (exists password, sent = Some password /\
                       u_password (stampUser modified now doc) = bcryptHash password)).
  { unfold stampUser. cbn [u_id u_password]. destruct modified.
    - right. exists (u_password doc). split; [now apply Hnew|reflexivity].
    - left. now apply Hold. }
  intros u' Hin. unfold writeUser in Hin. destruct isNew; cbn [Users bumpId setUsers] in Hin.
  - apply in_app_or in Hin. destruct Hin as [Hin|[<-|[]]]; [|exact Hdoc].
    left. now exists u'.
  - apply In_replaceById in Hin. destruct Hin as [->|Hin]; [exact Hdoc|].
    left. now exists u'.
Qed.

Lemma Stored_clearStoreId i db db0 sent :
  Users db = Users db0 -> Stored db0 (User_clearStoreId i db) sent.
Proof.
  intros E. unfold User_clearStoreId.
  destruct (findById u_id i (Users db)) as [u|] eqn:F; [|now apply Stored_Users].
  destruct (findById_In _ _ _ F) as [Hin _].
  intros u' Hin'. cbn [Users setUsers] in Hin'. apply In_replaceById in Hin'.
  left. rewrite <- E. destruct Hin' as [->|Hin']; [now exists u|now exists u'].
Qed.

Ltac stored_split :=
  cbv zeta;
  repeat match goal with
  | |- Stored _ (fst (_, _)) _ => cbn [fst]
  | |- Stored _ (fst (match ?x with _ => _ end)) _ => destruct x eqn:?
  | |- Stored _ (fst (if ?b then _ else _)) _ => destruct b eqn:?
  end;
  try apply Stored_same.

Ltac stored_save :=
  match goal with
  | Hs : User_save _ _ _ _ _ = inr _ |- _ =>
      eapply Stored_User_save; [| |exact Hs]
  | Hs : Store_save _ _ _ _ = inr _ |- _ =>
      apply Stored_Users; exact (Store_save_Users _ _ _ _ Hs)
  | Hs : Rating_save _ _ _ _ = inr _ |- _ =>
      apply Stored_Users; exact (Rating_save_Users _ _ _ _ Hs)
  end.

Ltac stored_found :=
  intros _;
  match goal with
  | Hf : findById u_id _ _ = Some ?user |- _ =>
      destruct (findById_In _ _ _ Hf) as [Hin _]; exists user; repeat split; exact Hin
  end.

Lemma Stored_createUser db now b role okMessage errMessage withToken :
  Stored db (fst (createUser db now b role okMessage errMessage withToken))
         (Some (str (ub_password b))).
Proof. unfold createUser. stored_split. stored_save; [reflexivity|discriminate]. Qed.

Lemma Stored_auth_password db now u c n :
  Stored db (fst (auth_password db now u c n)) (Some (str n)).
Proof.
  unfold auth_password. stored_split. stored_save; [reflexivity|].
  intros Hm. apply negb_false_iff in Hm. apply String.eqb_eq in Hm.
  match goal with
  | Hf : findById u_id _ _ = Some ?user |- _ =>
      destruct (findById_In _ _ _ Hf) as [Hin _]; exists user; repeat split;
        [exact Hin|exact Hm]
  end.
Qed.

Lemma Stored_users_create db now b :
  Stored db (fst (users_create db now b)) (Some (str (ub_password b))).
Proof.
  unfold users_create.
  destruct (Role_ofString (str (ub_role b))); [apply Stored_createUser|].
  stored_split.
Qed.

Lemma Stored_users_update db now i b : Stored db (fst (users_update db now i b)) None.
Proof. unfold users_update. stored_split; stored_save; [discriminate|stored_found]. Qed.

Lemma Stored_users_delete db now i : Stored db (fst (users_delete db now i)) None.
Proof. unfold users_delete. stored_split; stored_save; [discriminate|stored_found]. Qed.

Lemma Stored_ratings_submit db now u b : Stored db (fst (ratings_submit db now u b)) None.
Proof. unfold ratings_submit, ratingSaveFailed. stored_split; stored_save. Qed.

Lemma Stored_ratings_update db now u i rating comment :
  Stored db (fst (ratings_update db now u i rating comment)) None.
Proof. unfold ratings_update, ratingSaveFailed. stored_split; stored_save. Qed.

Lemma Stored_ratings_delete db now u i : Stored db (fst (ratings_delete db now u i)) None.
Proof.
  unfold ratings_delete. stored_split. apply Stored_Users. apply Rating_delete_Users.
Qed.

Lemma Stored_stores_update db now i name email address :
  Stored db (fst (stores_update db now i name email address)) None.
Proof. unfold stores_update. stored_split; stored_save. Qed.

Lemma Stored_stores_delete db now i : Stored db (fst (stores_delete db now i)) None.
Proof.
  unfold stores_delete. stored_split. apply Stored_clearStoreId.
  match goal with Hs : Store_save _ _ _ _ = inr _ |- _ => exact (Store_save_Users _ _ _ _ Hs) end.
Qed.

Lemma Stored_stores_create db now b : Stored db (fst (stores_create db now b)) None.
Proof.
  unfold stores_create. stored_split;
  match goal with
  | Hs : Store_save true _ _ _ = inr (_, ?d) |- _ =>
      pose proof (Store_save_Users _ _ _ _ Hs) as Hus
  end; try (now apply Stored_Users).
  match goal with
  | Hf : findById u_id _ _ = Some ?owner, Hu : User_save false false _ _ ?d0 = inr (_, ?d1) |- _ =>
      destruct (findById_In _ _ _ Hf) as [Hin _];
      assert (Hst : Stored d0 d1 None)
        by (eapply Stored_User_save; [| |exact Hu];
            [discriminate|intros _; exists owner; rewrite Hus; repeat split; exact Hin])
  end.
  intros u' Hin'. destruct (Hst u' Hin') as [(x & Hx & Hid & Hp)|(p' & Hp & _)]; [|discriminate].
  left. exists x. rewrite <- Hus. auto.
Qed.

Lemma Stored_handler db now req c :
  Stored db (fst (handler db now req c)) (sentPassword c).
Proof.
  destruct (fst_readers db)
    as (R1 & R2 & R3 & R4 & R5 & R6 & R7 & R8 & R9 & R10 & R11 & R12 & R13 & R14).
  unfold handler.
  destruct c; cbv zeta; cbn [sentPassword];
    repeat match goal with
    | |- context [match req_user req with _ => _ end] => destruct (req_user req) eqn:?
    | |- context [match ?p with Id _ => _ | BadId => _ end] => destruct p
    end;
    cbn [fst]; unfold auth_register;
    rewrite ?R1, ?R2, ?R3, ?R4, ?R5, ?R6, ?R7, ?R8, ?R9, ?R10, ?R11, ?R12, ?R13, ?R14;
    auto using Stored_same, Stored_auth_password, Stored_users_update,
      Stored_users_delete, Stored_ratings_submit, Stored_ratings_update,
      Stored_ratings_delete, Stored_stores_create, Stored_stores_update,
      Stored_stores_delete.
  - apply (Stored_createUser db now (snd (validateUserRegistration b))).
  - apply (Stored_users_create db now (snd (validateAdminUserCreation b))).
Qed.

Lemma Stored_handle db r : Stored db (fst (handle db r)) (sentPassword (call r)).
Proof.
  unfold handle.
  destruct (runChain db (auth r) (chain (call r)) (mkReq None None)) as [req|resp];
    cbn [fst]; [apply Stored_handler|apply Stored_same].
Qed.

End Hashed.

(** ** Integrity of the stored data *)

Section Integrity.
Context {ext : Externals}.

(** X1. In every state the application can reach, every stored password is
    what [bcrypt.hash] returned for some password, and so a string the
    schema's validator takes for a hash (it starts with [$2a] or [$2b]).
    No request stores a password as it was sent: after a request, the
    password of every user record is the one the record of that user held
    before the request, or the hash of the password the request sent (the
    [password] of a registration and of a user creation, the [newPassword]
    of a password change); a request of another route stores no password. *)
Theorem X1_stored_passwords_are_hashes db :
  reachable db ->
  Forall (fun u => (exists plain, u_password u = bcryptHash plain) /\
                   isHash (u_password u) = true) (Users db)
  /\
  (forall r u',
      In u' (Users (fst (handle db r))) ->
      (exists u, In u (Users db) /\ u_id u = u_id u' /\ u_password u' = u_password u)
      \/ (exists password,
            sentPassword (call r) = Some password /\ u_password u' = bcryptHash password)).
Proof.
  intros H. split; [|intros r; apply Stored_handle].
  eapply Forall_impl; [|exact (reachable_Hashed H)].
  intros u Hu. split; [exact Hu|now apply hashedBy_isHash].
Qed.

(** X2. In every reachable state no two users share an [_id] or an e-mail
    address, no two stores share an [_id] or an e-mail address, and no two
    ratings share an [_id]. *)
Theorem X2_ids_and_emails_are_unique db :
  reachable db ->
  NoDup (map u_id (Users db)) /\ NoDup (map u_email (Users db)) /\
  NoDup (map s_id (Stores db)) /\ NoDup (map s_email (Stores db)) /\
  NoDup (map r_id (Ratings db)).
Proof.
  intros H. pose proof (reachable_Wf H) as Hwf. pose proof (reachable_Inv H) as Hinv.
  repeat split.
  - exact (wf_user_ids Hwf).
  - exact (wf_user_emails Hwf).
  - exact (wf_store_ids Hwf).
  - exact (wf_store_emails Hwf).
  - exact (inv_rating_ids Hinv).
Qed.

(** X3. In every reachable state no user owns two store records, counting
    the soft-deleted ones; and a POST /api/stores for an owner who already
    has a store record, active or soft-deleted, never succeeds and changes
    nothing. *)
Theorem X3_one_store_per_owner db :
  reachable db ->
  NoDup (map s_ownerId (Stores db)) /\
  (forall r b owner s,
      call r = PostStore b -> sb_ownerId b = Some (Id owner) ->
      In s (Stores db) -> s_ownerId s = owner ->
      ~ successful (snd (handle db r)) /\ fst (handle db r) = db).
Proof.
  intros H. split; [exact (wf_owners (reachable_Wf H))|].
  intros r b owner s Hcall Hown Hin Hs. unfold handle. rewrite Hcall.
  destruct (runChain db (auth r) (chain (PostStore b)) (mkReq None None)) as [req|resp] eqn:E.
  2:{ split; [|reflexivity]. eapply runChain_Send; eauto. }
  cbn [handler]. unfold stores_create. cbv zeta.
  cbn [validateStore snd sb_ownerId sb_email]. rewrite Hown.
  destruct (find _ (Stores db)) as [s0|];
    [split; [apply not_successful_fail; discriminate|reflexivity]|].
  destruct (findById u_id owner (Users db)) as [u|] eqn:F;
    [|split; [apply not_successful_fail; discriminate|reflexivity]].
  destruct (negb (Role_eqb (u_role u) RStoreOwner));
    [split; [apply not_successful_fail; discriminate|reflexivity]|].
  destruct (findById_In _ _ _ F) as [_ Hid].
  destruct (find (fun s1 => s_ownerId s1 =? u_id u) (Stores db)) as [s1|] eqn:F1;
    [split; [apply not_successful_fail; discriminate|reflexivity]|].
  exfalso. pose proof (find_none _ _ F1 s Hin) as Hn. simpl in Hn.
  rewrite Hs, Hid, Nat.eqb_refl in Hn. discriminate.
Qed.

(** X4. In every reachable state the references hold: every rating's
    [userId] and [storeId] are found in the users and the stores, every
    store's [ownerId] is found in the users, and a user's [storeId], when
    set, is the [_id] of an active store whose [ownerId] is that user. *)
Theorem X4_references_resolve db :
  reachable db ->
  Forall (fun r => (exists u, findById u_id (r_userId r) (Users db) = Some u) /\
                   (exists s, findById s_id (r_storeId r) (Stores db) = Some s))
         (Ratings db) /\
  Forall (fun s => exists u, findById u_id (s_ownerId s) (Users db) = Some u) (Stores db) /\
  Forall (fun u => forall i, u_storeId u = Some i ->
                   exists s, findById s_id i (Stores db) = Some s /\
                             s_ownerId s = u_id u /\ s_isActive s = true) (Users db).
Proof.
  intros H. pose proof (reachable_Wf H) as Hwf. repeat split.
  - eapply Forall_impl; [|exact (wf_rating_refs Hwf)]. simpl. intros r [Hu Hs].
    split; now apply findById_Some_of_In.
  - eapply Forall_impl; [|exact (wf_store_refs Hwf)]. simpl. intros s Hs.
    now apply findById_Some_of_In.
  - eapply Forall_impl; [|exact (wf_user_refs Hwf)]. simpl. intros u Hu i Hi.
    destruct (Hu i Hi) as (s & Hin & Hid & Hrest). exists s. split; [|exact Hrest].
    apply findById_NoDup; auto. exact (wf_store_ids Hwf).
Qed.

End Integrity.

(** ** Sorting *)

Section SortFacts.
Variable A : Type.
Variable before : A -> A -> bool.

Lemma insertSorted_perm x l : Permutation (insertSorted before x l) (x :: l).
Proof.
  induction l as [|y t IH]; simpl; [reflexivity|].
  destruct (before x y); [reflexivity|].
  rewrite IH. apply perm_swap.
Qed.

Lemma sortBy_perm l : Permutation (sortBy before l) l.
Proof.
  unfold sortBy. induction l as [|x t IH]; simpl; [reflexivity|].
  rewrite insertSorted_perm. now constructor.
Qed.

Lemma length_sortBy l : List.length (sortBy before l) = List.length l.
Proof. apply Permutation_length, sortBy_perm. Qed.

Lemma In_sortBy x l : In x (sortBy before l) <-> In x l.
Proof.
  split; apply Permutation_in; [apply sortBy_perm|apply Permutation_sym, sortBy_perm].
Qed.

Hypothesis before_total : forall a b, before a b = true \/ before b a = true.
Hypothesis before_trans :
  forall a b c, before a b = true -> before b c = true -> before a c = true.

Lemma insertSorted_sorted x l :
  StronglySorted (fun a b => before a b = true) l ->
  StronglySorted (fun a b => before a b = true) (insertSorted before x l).
Proof.
  induction 1 as [|y t Hs IH Hy]; simpl.
  - constructor; constructor.
  - destruct (before x y) eqn:E.
    + constructor; [constructor; assumption|].
      constructor; [exact E|]. rewrite Forall_forall in *. intros z Hz.
      eapply before_trans; [exact E|]. auto.
    + constructor; [exact IH|].
      rewrite Forall_forall in *. intros z Hz.
      apply (Permutation_in _ (insertSorted_perm x t)) in Hz. destruct Hz as [<-|Hz]; auto.
      destruct (before_total x y) as [H|H]; congruence.
Qed.

Lemma sortBy_sorted l : StronglySorted (fun a b => before a b = true) (sortBy before l).
Proof.
  unfold sortBy. induction l as [|x t IH]; simpl; [constructor|].
  now apply insertSorted_sorted.
Qed.

End SortFacts.

(** ** Who may read and write what *)

Section Access.
Context {ext : Externals}.

Lemma successful_status (r : Response) :
  successful r <-> (status r =? 200) || (status r =? 201) = true.
Proof.
  unfold successful. rewrite orb_true_iff, !Nat.eqb_eq. tauto.
Qed.

Ltac not_ok := intros [Hx|Hx]; simpl in Hx; discriminate Hx.
Ltac fin :=
  try (intros Hx; discriminate Hx); try not_ok;
  try match goal with
      | H : successful _ |- _ => destruct H as [Hx|Hx]; simpl in Hx; discriminate Hx
      | H : _ = _ |- _ => discriminate H
      end.

(** X5. GET /api/stores/:storeId/dashboard changes nothing, and answers an
    authenticated caller by role: a store owner gets the dashboard of a
    store whose [ownerId] is the caller and 403 for any other store; a
    normal user gets 403; an administrator passes [verifyStoreOwner], which
    leaves [req.store] unset, and gets 500 from the handler.  So a success
    means that the caller is a store owner and owns the store. *)
Theorem X5_dashboard_is_for_the_owner db r i user :
  call r = GetStoreDashboard i ->
  authenticated db (auth r) user ->
  fst (handle db r) = db /\
  (u_role user = RAdmin -> status (snd (handle db r)) = 500) /\
  (u_role user = RUser -> status (snd (handle db r)) = 403) /\
  (u_role user = RStoreOwner ->
   forall j store, i = Id j -> findById s_id j (Stores db) = Some store ->
     status (snd (handle db r)) = if s_ownerId store =? u_id user then 200 else 403) /\
  (successful (snd (handle db r)) ->
   u_role user = RStoreOwner /\
   exists j store, i = Id j /\ findById s_id j (Stores db) = Some store /\
                   s_ownerId store = u_id user).
Proof.
  intros Hcall Hauth. unfold handle. rewrite Hcall.
  cbn [chain runChain runMiddleware].
  erewrite authenticateToken_pass by exact Hauth.
  unfold authorize, verifyStoreOwner. cbn [req_user req_store].
  destruct (u_role user) eqn:Hrole;
    cbn [existsb Role_eqb orb negb handler req_user req_store];
    rewrite ?Hrole; cbn [existsb Role_eqb orb negb handler req_user req_store].
  - unfold stores_dashboard. cbn [req_store fst snd status fail].
    repeat split; fin.
  - repeat split; fin.
  - destruct i as [|j]; cbn [fst snd].
    + repeat split; fin. intros _ j store Hj. discriminate Hj.
    + destruct (findById s_id j (Stores db)) as [store|] eqn:F.
      * destruct (s_ownerId store =? u_id user) eqn:E; cbn [negb];
          unfold stores_dashboard; cbn [req_store fst snd].
        -- repeat split; fin.
           ++ intros _ j0 store0 Hj Hs. inversion Hj; subst j0.
              rewrite F in Hs. inversion Hs; subst store0. now rewrite E.
           ++ exists j, store. apply Nat.eqb_eq in E. auto.
        -- repeat split; fin.
           intros _ j0 store0 Hj Hs. inversion Hj; subst j0.
           rewrite F in Hs. inversion Hs; subst store0. now rewrite E.
      * repeat split; fin.
        intros _ j0 store0 Hj Hs. inversion Hj; subst j0. congruence.
Qed.

(** X6. GET /api/ratings/store/:storeId changes nothing; a store owner gets
    403 for a store that does not exist or whose [ownerId] is another user,
    and a normal user gets 403; a success means that the caller is an
    administrator, or a store owner who owns the store, and the response
    then counts the ratings of that store. *)
Theorem X6_store_ratings_are_for_admin_and_owner db r i user :
  call r = GetStoreRatings i ->
  authenticated db (auth r) user ->
  fst (handle db r) = db /\
  (u_role user = RUser -> status (snd (handle db r)) = 403) /\
  (u_role user = RStoreOwner ->
   forall j, i = Id j ->
     (forall store, findById s_id j (Stores db) = Some store -> s_ownerId store <> u_id user) ->
     status (snd (handle db r)) = 403) /\
  (successful (snd (handle db r)) ->
   exists j, i = Id j /\
     (u_role user = RAdmin \/
      (u_role user = RStoreOwner /\
       exists store, findById s_id j (Stores db) = Some store /\
                     s_ownerId store = u_id user)) /\
     getField "totalRatings"
       (match body (snd (handle db r)) with JObj fs => fs | _ => [] end)
     = Some (jnat (List.length (filter (fun x => r_storeId x =? j) (Ratings db))))).
Proof.
  intros Hcall Hauth. unfold handle. rewrite Hcall.
  cbn [chain runChain runMiddleware].
  erewrite authenticateToken_pass by exact Hauth.
  unfold authorize. cbn [req_user req_store].
  destruct (u_role user) eqn:Hrole;
    cbn [existsb Role_eqb orb negb handler req_user req_store];
    rewrite ?Hrole; cbn [existsb Role_eqb orb negb handler req_user req_store].
  - destruct i as [|j]; cbn [validateObjectId isMongoId ensure fst snd req_user req_store].
    + repeat split; fin.
    + unfold ratings_ofStore. rewrite Hrole. cbv zeta. cbn [fst snd body ok].
      repeat split; fin. exists j. repeat split; auto.
      cbn [getField String.eqb Ascii.eqb Bool.eqb]. simpl.
      unfold ratingsOfStore. now rewrite length_sortBy.
  - repeat split; fin.
  - destruct i as [|j]; cbn [validateObjectId isMongoId ensure fst snd req_user req_store].
    + repeat split; fin. intros _ j Hj. discriminate Hj.
    + unfold ratings_ofStore. rewrite Hrole. cbv zeta.
      destruct (findById s_id j (Stores db)) as [store|] eqn:F.
      * destruct (s_ownerId store =? u_id user) eqn:E; cbn [negb fst snd body ok].
        -- repeat split; fin.
           ++ intros _ j0 Hj Hno. inversion Hj; subst j0. apply Nat.eqb_eq in E.
              now destruct (Hno store F).
           ++ exists j. split; [reflexivity|]. split.
              ** right. split; [reflexivity|]. exists store. apply Nat.eqb_eq in E. auto.
              ** simpl. unfold ratingsOfStore. now rewrite length_sortBy.
        -- repeat split; fin.
      * cbn [fst snd]. repeat split; fin.
Qed.

(** X7. PUT /api/ratings/:ratingId by a normal user: a rating of another
    user is never updated (the request does not succeed and changes
    nothing); a success means the rating is the caller's, and it rewrites
    that one document only: its [_id], [userId], [storeId] and [createdAt]
    stay, the value is the body's rating when that is truthy and the stored
    one otherwise, the comment is the trimmed body comment; the other
    ratings and the users are untouched. *)
Theorem X7_rating_update_is_for_the_author db r ratingId rating comment user :
  call r = PutRating (Id ratingId) rating comment ->
  authenticated db (auth r) user -> u_role user = RUser ->
  (forall existing,
      findById r_id ratingId (Ratings db) = Some existing ->
      r_userId existing <> u_id user ->
      ~ successful (snd (handle db r)) /\ fst (handle db r) = db) /\
  (successful (snd (handle db r)) ->
   exists existing,
     findById r_id ratingId (Ratings db) = Some existing /\
     r_userId existing = u_id user /\
     Ratings (fst (handle db r))
     = replaceById r_id
         (mkRating (r_id existing) (r_userId existing) (r_storeId existing)
                   (match rating with
                    | Some q => if Js.truthyNum q then q else r_rating existing
                    | None => r_rating existing
                    end)
                   (Js.trim (match comment with Some c => c | None => "" end))
                   (r_createdAt existing) (now r))
         (Ratings db) /\
     Users (fst (handle db r)) = Users db /\
     (forall j, j <> ratingId ->
                findById r_id j (Ratings (fst (handle db r))) = findById r_id j (Ratings db))).
Proof.
  intros Hcall Hauth Hrole. unfold handle. rewrite Hcall.
  cbn [chain runChain runMiddleware].
  erewrite authenticateToken_pass by exact Hauth.
  unfold authorize. cbn [req_user req_store]. rewrite Hrole.
  cbn [existsb Role_eqb orb negb validateObjectId isMongoId ensure handler req_user].
  unfold ratings_update, ratingSaveFailed. cbv zeta.
  destruct (match rating with
            | Some q => Js.truthyNum q && (Js.lt q 1 || Js.gt q 5 || negb (Js.isInteger q))
            | None => false
            end) eqn:Hinvalid; cbn [fst snd].
  { split; [intros; split; [not_ok|reflexivity]|not_ok]. }
  destruct (findById r_id ratingId (Ratings db)) as [existing|] eqn:F; cbn [fst snd].
  2:{ split; [intros; discriminate|not_ok]. }
  destruct (r_userId existing =? u_id user) eqn:E; cbn [negb fst snd].
  2:{ split; [|not_ok]. intros e He Hne. split; [not_ok|reflexivity]. }
  apply Nat.eqb_eq in E.
  split.
  { intros e He Hne. inversion He; subst e. contradiction. }
  match goal with |- context [Rating_save false (now r) ?d db] =>
    set (doc := d); destruct (Rating_save false (now r) doc db) as [e|[saved db']] eqn:Hsave end.
  { destruct e; cbn [fst snd]; not_ok. }
  cbn [fst snd]. intros _. exists existing. split; [reflexivity|]. split; [exact E|].
  pose proof (Rating_save_Users _ _ _ _ Hsave) as HU.
  apply Rating_save_inr in Hsave. destruct Hsave as (_ & -> & _ & ->).
  rewrite Ratings_updateStoreHook in *. unfold writeRating. cbn [Ratings setRatings].
  assert (Hdoc : stampRating (now r) doc
                 = mkRating (r_id existing) (r_userId existing) (r_storeId existing)
                     (match rating with
                      | Some q => if Js.truthyNum q then q else r_rating existing
                      | None => r_rating existing
                      end)
                     (Js.trim (match comment with Some c => c | None => "" end))
                     (r_createdAt existing) (now r)).
  { unfold doc. destruct rating as [q|]; [destruct (Js.truthyNum q)|]; reflexivity. }
  split; [now rewrite Hdoc|]. split; [exact HU|].
  intros j Hj. rewrite Hdoc. apply findById_replaceById_other. cbn [r_id].
  destruct (findById_In _ _ _ F) as [_ Hid]. congruence.
Qed.

(** X8. DELETE /api/ratings/:ratingId: an administrator may delete any
    rating and a normal user only a rating of their own; every other caller
    gets 403 and nothing changes.  A success removes that rating and nothing
    else: the users are untouched, and in a reachable state the rating is no
    longer found while every other rating is found as before. *)
Theorem X8_rating_delete_is_for_admin_and_author db r ratingId user :
  call r = DeleteRating (Id ratingId) ->
  authenticated db (auth r) user ->
  (findById r_id ratingId (Ratings db) = None ->
   status (snd (handle db r)) = 404 /\ fst (handle db r) = db) /\
  (forall rating,
      findById r_id ratingId (Ratings db) = Some rating ->
      u_role user = RStoreOwner \/ (u_role user = RUser /\ r_userId rating <> u_id user) ->
      status (snd (handle db r)) = 403 /\ fst (handle db r) = db) /\
  (successful (snd (handle db r)) ->
   exists rating,
     findById r_id ratingId (Ratings db) = Some rating /\
     (u_role user = RAdmin \/ (u_role user = RUser /\ r_userId rating = u_id user)) /\
     Ratings (fst (handle db r)) = deleteById r_id ratingId (Ratings db) /\
     Users (fst (handle db r)) = Users db /\
     (reachable db ->
      findById r_id ratingId (Ratings (fst (handle db r))) = None /\
      forall j, j <> ratingId ->
                findById r_id j (Ratings (fst (handle db r))) = findById r_id j (Ratings db))).
Proof.
  intros Hcall Hauth. unfold handle. rewrite Hcall.
  cbn [chain runChain runMiddleware].
  erewrite authenticateToken_pass by exact Hauth.
  cbn [validateObjectId isMongoId ensure handler req_user].
  unfold ratings_delete. cbv zeta.
  destruct (findById r_id ratingId (Ratings db)) as [rating|] eqn:F; cbn [fst snd].
  2:{ split; [auto|]. split; [intros; discriminate|not_ok]. }
  split; [intros; discriminate|].
  destruct (u_role user) eqn:Hrole; cbn [Role_eqb orb andb negb fst snd].
  - split; [intros x Hx [Hy|[Hy _]]; discriminate|].
    intros _. exists rating. split; [reflexivity|]. split; [now left|].
    rewrite Rating_findByIdAndDelete_eq. cbn [Ratings Users setRatings].
    split; [reflexivity|]. split; [reflexivity|]. intros Hreach. split.
    + apply findById_deleteById_same. exact (inv_rating_ids (reachable_Inv Hreach)).
    + intros j Hj. apply findById_deleteById_other. congruence.
  - destruct (r_userId rating =? u_id user) eqn:E; cbn [negb fst snd].
    + apply Nat.eqb_eq in E. split.
      * intros x Hx [Hy|[_ Hy]]; [discriminate|]. inversion Hx; subst x. contradiction.
      * intros _. exists rating. split; [reflexivity|]. split; [now right|].
        rewrite Rating_findByIdAndDelete_eq. cbn [Ratings Users setRatings].
        split; [reflexivity|]. split; [reflexivity|]. intros Hreach. split.
        -- apply findById_deleteById_same. exact (inv_rating_ids (reachable_Inv Hreach)).
        -- intros j Hj. apply findById_deleteById_other. congruence.
    + split; [auto|not_ok].
  - split; [auto|not_ok].
Qed.

End Access.

(** ** Registration, login and passwords *)

Section AuthFacts.
Context {ext : Externals}.

Ltac not_ok := intros [Hx|Hx]; simpl in Hx; discriminate Hx.

(** What a successful [createUser] did. *)
Lemma createUser_success db now b role okMessage errMessage withToken :
  successful (snd (createUser db now b role okMessage errMessage withToken)) ->
  let doc := stampUser true now
               (User_new db now (str (ub_name b)) (str (ub_email b)) (str (ub_password b))
                         (str (ub_address b)) role) in
  fst (createUser db now b role okMessage errMessage withToken) = writeUser true doc db /\
  status (snd (createUser db now b role okMessage errMessage withToken)) = 201 /\
  find (fun u => String.eqb (u_email u) (str (ub_email b))) (Users db) = None /\
  (forall o, In o (Users db) -> u_email o <> u_email doc).
Proof.
  unfold createUser. cbv zeta.
  destruct (find _ (Users db)) as [u|] eqn:F; [not_ok|].
  destruct (User_save true true now _ db) as [e|[doc' db']] eqn:Hsave.
  - destruct e as [errors|code]; [not_ok|]. destruct (code =? DUPLICATE_KEY)%Z; not_ok.
  - intros _. cbn [fst snd]. apply User_save_inv in Hsave.
    destruct Hsave as (_ & -> & Hdup & ->). repeat split.
    intros o Ho. destruct (duplicateKey_insert _ _ _ _ Hdup o Ho) as [_ Hk].
    cbn [stampUser u_email]. now apply eqb_email_neq.
Qed.

(** The answers of the login route. *)
Lemma handle_login db r email password :
  call r = PostLogin email password ->
  fst (handle db r) = db /\
  (fst (validateUserLogin email password) = [] ->
   (exists user,
       In user (Users db) /\ u_email user = normalizeEmail (str email) /\
       u_isActive user = true /\
       bcryptCompare (str password) (u_password user) = true /\
       snd (handle db r)
       = ok [ ("message", JStr "Login successful");
              ("token", generateToken (u_id user) (u_role user) (now r));
              ("user", JObj [ ("id", jnat (u_id user)); ("name", JStr (u_name user));
                              ("email", JStr (u_email user));
                              ("address", JStr (u_address user));
                              ("role", JStr (Role_toString (u_role user)));
                              ("storeId", jopt jnat (u_storeId user)) ]) ])
   \/ snd (handle db r) = fail 401 "Invalid email or password" "INVALID_CREDENTIALS").
Proof.
  intros Hcall. unfold handle. rewrite Hcall. cbn [chain runChain runMiddleware].
  destruct (fst (validateUserLogin email password)) as [|e es] eqn:Hval.
  2:{ split; [reflexivity|discriminate]. }
  cbn [handler]. cbv zeta. cbn [validateUserLogin fst snd]. unfold auth_login.
  destruct (find _ (Users db)) as [user|] eqn:F; [|split; [reflexivity|now right]].
  destruct (u_isActive user) eqn:Ha; cbn [negb]; [|split; [reflexivity|now right]].
  unfold User_comparePassword.
  destruct (bcryptCompare (str password) (u_password user)) eqn:Hc; cbn [negb];
    [|split; [reflexivity|now right]].
  split; [reflexivity|]. intros _. left. exists user.
  apply find_some in F. destruct F as [Hin He]. apply String.eqb_eq in He.
  repeat split; auto.
Qed.

Lemma find_snoc (A : Type) (p : A -> bool) l x :
  find p l = None -> find p (l ++ [x]) = if p x then Some x else None.
Proof.
  induction l as [|y t IH]; simpl; [reflexivity|].
  destruct (p y); [discriminate|exact IH].
Qed.

(** A chain that ends in a validation and calls the handler passed it. *)
Lemma runChain_validated db a pre errors req0 req :
  runChain db a (pre ++ [MValidate errors]) req0 = Next req -> errors = [].
Proof.
  revert req0. induction pre as [|m pre IH]; simpl; intros req0 H.
  - destruct errors; [reflexivity|discriminate].
  - destruct (runMiddleware db a m req0) as [req1|resp]; [eauto|discriminate].
Qed.

End AuthFacts.

Section Auth.
Context {ext : Externals}.

Ltac not_ok := intros [Hx|Hx]; simpl in Hx; discriminate Hx.

(** X9. A successful POST /api/auth/register answers 201 and appends one
    user whose role is [user] whatever [role] the body carries, active,
    without a store, under an e-mail address no other user has, and whose
    stored password is the bcrypt hash of the password sent; the earlier
    users, the stores and the ratings are untouched. *)
Theorem X9_register_creates_a_normal_user db r b :
  call r = PostRegister b ->
  successful (snd (handle db r)) ->
  status (snd (handle db r)) = 201 /\
  exists new,
    Users (fst (handle db r)) = Users db ++ [new] /\
    u_role new = RUser /\ u_isActive new = true /\ u_storeId new = None /\
    u_password new = bcryptHash (str (ub_password b)) /\
    u_email new = Js.toLowerCase (normalizeEmail (str (ub_email b))) /\
    (forall o, In o (Users db) -> u_email o <> u_email new) /\
    Stores (fst (handle db r)) = Stores db /\
    Ratings (fst (handle db r)) = Ratings db.
Proof.
  intros Hcall Hok. unfold handle in *. rewrite Hcall in *.
  destruct (runChain db (auth r) (chain (PostRegister b)) (mkReq None None)) as [req|resp] eqn:E.
  2:{ exfalso. eapply runChain_Send; eauto. }
  cbn [handler] in *. unfold auth_register in *.
  apply createUser_success in Hok. cbv zeta in Hok. destruct Hok as (-> & Hst & _ & Hfresh).
  split; [exact Hst|]. eexists. unfold writeUser. cbn [Users Stores Ratings bumpId setUsers].
  split; [reflexivity|]. repeat split. exact Hfresh.
Qed.

(** X10. POST /api/auth/login never changes the database.  Once the two
    fields pass validation, the answer is either 200 with a token for an
    active user stored under the normalised e-mail address whose hash
    [bcrypt.compare] accepts, or one and the same 401 response: an unknown
    address, a deactivated user and a wrong password cannot be told
    apart. *)
Theorem X10_login_failures_look_alike db r email password :
  call r = PostLogin email password ->
  fst (handle db r) = db /\
  (fst (validateUserLogin email password) = [] ->
   (exists user,
       In user (Users db) /\ u_email user = normalizeEmail (str email) /\
       u_isActive user = true /\
       bcryptCompare (str password) (u_password user) = true /\
       snd (handle db r)
       = ok [ ("message", JStr "Login successful");
              ("token", generateToken (u_id user) (u_role user) (now r));
              ("user", JObj [ ("id", jnat (u_id user)); ("name", JStr (u_name user));
                              ("email", JStr (u_email user));
                              ("address", JStr (u_address user));
                              ("role", JStr (Role_toString (u_role user)));
                              ("storeId", jopt jnat (u_storeId user)) ]) ])
   \/ snd (handle db r) = fail 401 "Invalid email or password" "INVALID_CREDENTIALS").
Proof. apply handle_login. Qed.

(** X11. In a reachable state, the token a successful login issues carries
    the [_id] of an active user of the database, and [authenticateToken]
    accepts a request that bears it as that user. *)
Theorem X11_login_token_authenticates db r email password :
  reachable db ->
  call r = PostLogin email password ->
  successful (snd (handle db r)) ->
  exists user,
    getField "token" (match body (snd (handle db r)) with JObj fs => fs | _ => [] end)
    = Some (generateToken (u_id user) (u_role user) (now r)) /\
    authenticated db (Bearer (u_id user)) user /\
    forall req, authenticateToken db (Bearer (u_id user)) req
                = Next (mkReq (Some user) (req_store req)).
Proof.
  intros Hreach Hcall Hok.
  destruct (handle_login db r Hcall) as [_ H].
  unfold handle in *. rewrite Hcall in *. cbn [chain runChain runMiddleware] in *.
  destruct (fst (validateUserLogin email password)) as [|e es] eqn:Hval.
  2:{ exfalso. revert Hok. not_ok. }
  destruct (H eq_refl) as [(user & Hin & He & Ha & Hc & Hresp)|Hresp]; rewrite Hresp in *.
  2:{ exfalso. revert Hok. not_ok. }
  exists user. split; [reflexivity|].
  assert (Hauth : authenticated db (Bearer (u_id user)) user).
  { split; [reflexivity|]. split; [|exact Ha].
    apply findById_NoDup; auto. exact (wf_user_ids (reachable_Wf Hreach)). }
  split; [exact Hauth|]. intros req. now apply authenticateToken_pass.
Qed.

(** X12. Registration and login fit together: after a successful POST
    /api/auth/register, a POST /api/auth/login with the same e-mail address
    and password is answered 200 with a token for the new user, provided
    [bcrypt.compare] accepts the hash of the password it was made from and
    [normalizeEmail] returned a lower-case address. *)
Theorem X12_register_then_login db r b r' :
  call r = PostRegister b ->
  successful (snd (handle db r)) ->
  bcryptCompare (str (ub_password b)) (bcryptHash (str (ub_password b))) = true ->
  Js.toLowerCase (normalizeEmail (str (ub_email b))) = normalizeEmail (str (ub_email b)) ->
  call r' = PostLogin (ub_email b) (ub_password b) ->
  status (snd (handle (fst (handle db r)) r')) = 200 /\
  getField "token"
    (match body (snd (handle (fst (handle db r)) r')) with JObj fs => fs | _ => [] end)
  = Some (generateToken (nextId db) RUser (now r')).
Proof.
  intros Hcall Hok Hcmp Hlow Hcall'.
  assert (Hval : fst (validateUserRegistration b) = []).
  { unfold handle in Hok. rewrite Hcall in Hok. cbn [chain] in Hok.
    destruct (runChain db (auth r) [MValidate (fst (validateUserRegistration b))]
                       (mkReq None None)) as [req|resp] eqn:E.
    - now apply (runChain_validated db (auth r) [] _ _ E).
    - exfalso. eapply runChain_Send; eauto. }
  cbn [validateUserRegistration fst] in Hval. unfold userBodyErrors in Hval.
  apply app_eq_nil in Hval. destruct Hval as [_ Hval].
  apply app_eq_nil in Hval. destruct Hval as [Hmail Hval].
  apply app_eq_nil in Hval. destruct Hval as [Hlen _].
  apply ensure_nil in Hmail. apply ensure_nil in Hlen.
  assert (Hpw : negb (String.eqb (str (ub_password b)) "") = true).
  { unfold isLength in Hlen. apply andb_true_iff in Hlen. destruct Hlen as [Hlo _].
    apply Nat.leb_le in Hlo. pose proof (charLength_le (str (ub_password b))) as Hle.
    destruct (str (ub_password b)); [simpl in Hle; lia|reflexivity]. }
  assert (Hdb : exists new,
             fst (handle db r) = writeUser true new db /\
             u_id new = nextId db /\ u_role new = RUser /\ u_isActive new = true /\
             u_email new = normalizeEmail (str (ub_email b)) /\
             u_password new = bcryptHash (str (ub_password b)) /\
             find (fun u => String.eqb (u_email u) (normalizeEmail (str (ub_email b))))
                  (Users db) = None).
  { unfold handle in *. rewrite Hcall in *.
    destruct (runChain db (auth r) (chain (PostRegister b)) (mkReq None None))
      as [req|resp] eqn:E; [|exfalso; eapply runChain_Send; eauto].
    cbn [handler] in *. unfold auth_register in *.
    apply createUser_success in Hok. cbv zeta in Hok.
    destruct Hok as (-> & _ & Hnone & _). eexists. split; [reflexivity|].
    cbn [stampUser User_new u_id u_role u_isActive u_email u_password
         validateUserRegistration userBodySanitized snd ub_email ub_password str] in *.
    repeat split; auto. }
  destruct Hdb as (new & -> & Hid & Hrole & Hact & Hemail & Hpass & Hnone).
  unfold handle. rewrite Hcall'. cbn [chain runChain runMiddleware validateUserLogin fst].
  rewrite Hmail, Hpw. cbn [ensure app handler]. cbv zeta.
  cbn [validateUserLogin fst snd str]. unfold auth_login, writeUser.
  cbn [Users bumpId setUsers str]. rewrite (find_snoc _ _ new Hnone).
  rewrite Hemail, String.eqb_refl, Hact. cbn [negb].
  unfold User_comparePassword. rewrite Hpass, Hcmp. cbn [negb snd status ok body].
  split; [reflexivity|]. simpl. now rewrite Hid, Hrole.
Qed.

(** X13. PATCH /api/auth/password changes the password only when
    [bcrypt.compare] accepts the current password against the stored hash:
    otherwise the answer is 400 and nothing changes.  A success rewrites the
    caller's document only, storing the bcrypt hash of the new password
    (when the new password is not literally the stored string) and the time
    of the request in [updatedAt]; every other field, the stores and the
    ratings stay. *)
Theorem X13_password_change_needs_the_current_password db r current new user :
  call r = PatchPassword current new ->
  authenticated db (auth r) user ->
  (bcryptCompare (str current) (u_password user) = false ->
   status (snd (handle db r)) = 400 /\ fst (handle db r) = db) /\
  (successful (snd (handle db r)) ->
   bcryptCompare (str current) (u_password user) = true /\
   validatePasswordUpdate current new = [] /\
   Users (fst (handle db r))
   = replaceById u_id
       (mkUser (u_id user) (u_name user) (u_email user)
               (if String.eqb (str new) (u_password user) then u_password user
                else bcryptHash (str new))
               (u_address user) (u_role user) (u_storeId user) (u_isActive user)
               (u_createdAt user) (now r))
       (Users db) /\
   Stores (fst (handle db r)) = Stores db /\
   Ratings (fst (handle db r)) = Ratings db).
Proof.
  intros Hcall Hauth. pose proof Hauth as (_ & Hfind & _).
  unfold handle. rewrite Hcall. cbn [chain runChain runMiddleware].
  erewrite authenticateToken_pass by exact Hauth.
  destruct (validatePasswordUpdate current new) as [|e es] eqn:Hval.
  2:{ cbn [fst snd]. split; [intros _; split; reflexivity|not_ok]. }
  cbn [handler req_user]. unfold auth_password. rewrite Hfind.
  unfold User_comparePassword.
  destruct (bcryptCompare (str current) (u_password user)) eqn:Hc; cbn [negb].
  2:{ cbn [fst snd]. split; [intros _; split; reflexivity|not_ok]. }
  split; [discriminate|]. cbv zeta.
  match goal with |- context [User_save false ?m (now r) ?d db] =>
    destruct (User_save false m (now r) d db) as [e|[saved db']] eqn:Hsave end.
  { destruct e; cbn [fst snd]; not_ok. }
  cbn [fst snd]. intros _. split; [reflexivity|]. split; [reflexivity|].
  destruct (User_save_inr _ _ _ _ _ Hsave) as (HS & HR & _ & _ & HU).
  apply User_save_inv in Hsave. destruct Hsave as (_ & Hdoc & _ & _).
  rewrite HU, Hdoc. split; [|auto].
  unfold stampUser. cbn [u_id u_name u_email u_password u_address u_role u_storeId
                          u_isActive u_createdAt].
  destruct (String.eqb (str new) (u_password user)) eqn:E; cbn [negb]; [|reflexivity].
  apply String.eqb_eq in E. now rewrite E.
Qed.

End Auth.

(** ** Requests that do not succeed *)

Ltac quiet_split :=
  match goal with
  | |- ~ successful (snd (?d, _)) -> fst (?d, _) = ?d => intros _; reflexivity
  | |- ~ successful (snd (_, ok _)) -> _ =>
      let H := fresh in intros H; exfalso; apply H; left; reflexivity
  | |- ~ successful (snd (_, created _)) -> _ =>
      let H := fresh in intros H; exfalso; apply H; right; reflexivity
  | |- ~ successful (snd (match ?x with _ => _ end)) -> _ => destruct x eqn:?
  | |- ~ successful (snd (if ?b then _ else _)) -> _ => destruct b eqn:?
  end.

Ltac quiet_auto := cbv zeta; repeat quiet_split.

Section Quiet.
Context {ext : Externals}.

Lemma createUser_quiet db now b role okMessage errMessage withToken :
  ~ successful (snd (createUser db now b role okMessage errMessage withToken)) ->
  fst (createUser db now b role okMessage errMessage withToken) = db.
Proof. unfold createUser. quiet_auto. Qed.

Lemma auth_password_quiet db now u c n :
  ~ successful (snd (auth_password db now u c n)) -> fst (auth_password db now u c n) = db.
Proof. unfold auth_password. quiet_auto. Qed.

Lemma users_create_quiet db now b :
  ~ successful (snd (users_create db now b)) -> fst (users_create db now b) = db.
Proof.
  unfold users_create. destruct (Role_ofString _); [apply createUser_quiet|]. quiet_auto.
Qed.

Lemma users_update_quiet db now i b :
  ~ successful (snd (users_update db now i b)) -> fst (users_update db now i b) = db.
Proof. unfold users_update. quiet_auto. Qed.

Lemma users_delete_quiet db now i :
  ~ successful (snd (users_delete db now i)) -> fst (users_delete db now i) = db.
Proof. unfold users_delete. quiet_auto. Qed.

Lemma ratings_submit_quiet db now u b :
  ~ successful (snd (ratings_submit db now u b)) -> fst (ratings_submit db now u b) = db.
Proof. unfold ratings_submit, ratingSaveFailed. quiet_auto. Qed.

Lemma ratings_update_quiet db now u i rating comment :
  ~ successful (snd (ratings_update db now u i rating comment)) ->
  fst (ratings_update db now u i rating comment) = db.
Proof. unfold ratings_update, ratingSaveFailed. quiet_auto. Qed.

Lemma ratings_delete_quiet db now u i :
  ~ successful (snd (ratings_delete db now u i)) -> fst (ratings_delete db now u i) = db.
Proof. unfold ratings_delete. quiet_auto. Qed.

Lemma stores_update_quiet db now i name email address :
  ~ successful (snd (stores_update db now i name email address)) ->
  fst (stores_update db now i name email address) = db.
Proof. unfold stores_update. quiet_auto. Qed.

Lemma stores_delete_quiet db now i :
  ~ successful (snd (stores_delete db now i)) -> fst (stores_delete db now i) = db.
Proof. unfold stores_delete. quiet_auto. Qed.

Lemma stores_create_quiet db now b :
  Inv db ->
  ~ successful (snd (stores_create db now b)) -> fst (stores_create db now b) = db.
Proof.
  intros Hinv. unfold stores_create. quiet_auto; exfalso;
    match goal with
    | Hs : Store_save true _ _ ?d0 = inr (_, ?d),
      Hu : User_save false false ?t ?doc ?d = inl _,
      Ho : findById u_id _ (Users ?d0) = Some ?owner |- _ =>
        assert (Hinv1 : Inv d) by (eapply Inv_Store_save; eauto);
        assert (HU : Users d = Users d0) by (eapply Store_save_Users; eauto);
        destruct (findById_In _ _ _ Ho) as [Hin _];
        rewrite <- HU in Hin;
        destruct (@User_save_again _ d t owner doc Hinv1 Hin eq_refl eq_refl eq_refl eq_refl
                                   eq_refl) as (saved & d' & Hok);
        rewrite Hok in Hu; discriminate Hu
    end.
Qed.

(** On a database that satisfies the invariant, a request that is not
    answered with a success changed nothing. *)
Lemma handle_quiet db r :
  Inv db -> ~ successful (snd (handle db r)) -> fst (handle db r) = db.
Proof.
  intros Hinv. destruct (fst_readers db)
    as (R1 & R2 & R3 & R4 & R5 & R6 & R7 & R8 & R9 & R10 & R11 & R12 & R13 & R14).
  unfold handle.
  destruct (runChain db (auth r) (chain (call r)) (mkReq None None)) as [req|resp];
    [|intros _; reflexivity].
  unfold handler.
  destruct (call r); cbv zeta;
    repeat match goal with
    | |- context [match req_user req with _ => _ end] => destruct (req_user req)
    | |- context [match ?p with Id _ => _ | BadId => _ end] => destruct p
    end;
    try (intros _; cbn [fst]; reflexivity); unfold auth_register;
    rewrite ?R1, ?R2, ?R3, ?R4, ?R5, ?R6, ?R7, ?R8, ?R9, ?R10, ?R11, ?R12, ?R13, ?R14;
    auto using createUser_quiet, auth_password_quiet, users_create_quiet, users_update_quiet,
      users_delete_quiet, ratings_submit_quiet, ratings_update_quiet, ratings_delete_quiet,
      stores_create_quiet, stores_update_quiet, stores_delete_quiet.
Qed.

(** X14. In every reachable state a request that is not answered 200 or
    201 (it was refused by a middleware, by a check of the handler, by a
    schema validation or a unique index at [save()], or the handler's
    [catch] answered 500) leaves the database exactly as it was. *)
Theorem X14_failed_requests_change_nothing db r :
  reachable db -> ~ successful (snd (handle db r)) -> fst (handle db r) = db.
Proof. intros Hreach. apply handle_quiet. now apply reachable_Inv. Qed.

End Quiet.

Ltac keeps_split :=
  match goal with
  | |- keeps _ (fst (_, _)) => cbn [fst]
  | |- keeps _ (fst (match ?x with _ => _ end)) => destruct x eqn:?
  | |- keeps _ (fst (if ?b then _ else _)) => destruct b eqn:?
  end.

(** ** Documents are never removed *)

Section Keeps.
Context {ext : Externals}.

Lemma keeps_refl db : keeps db db.
Proof. split; exists []; now rewrite app_nil_r. Qed.

Lemma keeps_trans a b c : keeps a b -> keeps b c -> keeps a c.
Proof.
  intros [[l1 H1] [l2 H2]] [[l3 H3] [l4 H4]]. split.
  - exists (l1 ++ l3). now rewrite H3, H1, app_assoc.
  - exists (l2 ++ l4). now rewrite H4, H2, app_assoc.
Qed.

Lemma keeps_eq db db' :
  map u_id (Users db') = map u_id (Users db) ->
  map s_id (Stores db') = map s_id (Stores db) -> keeps db db'.
Proof. intros H1 H2. split; exists []; now rewrite app_nil_r. Qed.

Lemma keeps_User_save isNew modified now doc db doc' db' :
  User_save isNew modified now doc db = inr (doc', db') -> keeps db db'.
Proof.
  intros H. destruct (User_save_inr _ _ _ _ _ H) as (HS & _ & _ & _ & HU). split.
  - rewrite HU. destruct isNew.
    + exists [u_id doc']. now rewrite map_app.
    + exists []. now rewrite map_id_replaceById, app_nil_r.
  - exists []. now rewrite HS, app_nil_r.
Qed.

Lemma keeps_Store_save isNew now doc db doc' db' :
  Store_save isNew now doc db = inr (doc', db') -> keeps db db'.
Proof.
  intros H. pose proof (Store_save_Users _ _ _ _ H) as HU.
  apply Store_save_inr in H. destruct H as (_ & _ & _ & ->). split.
  - exists []. now rewrite HU, app_nil_r.
  - unfold writeStore. destruct isNew; cbn [Stores bumpId setStores].
    + exists [s_id doc']. now rewrite map_app.
    + exists []. now rewrite map_id_replaceById, app_nil_r.
Qed.

Lemma keeps_updateStoreHook now doc db : keeps db (Rating_updateStoreHook now doc db).
Proof.
  unfold Rating_updateStoreHook.
  destruct (findById s_id (r_storeId doc) (Stores db)) as [store|]; [|apply keeps_refl].
  destruct (Store_updateRating now store db) as [e|[s' db']] eqn:E; [apply keeps_refl|].
  unfold Store_updateRating in E. eapply keeps_Store_save; eauto.
Qed.

Lemma keeps_Rating_save isNew now doc db doc' db' :
  Rating_save isNew now doc db = inr (doc', db') -> keeps db db'.
Proof.
  intros H. apply Rating_save_inr in H. destruct H as (_ & _ & _ & ->).
  eapply keeps_trans; [|apply keeps_updateStoreHook].
  apply keeps_eq; unfold writeRating; destruct isNew; reflexivity.
Qed.

Lemma keeps_Rating_delete now i db : keeps db (Rating_findByIdAndDelete now i db).
Proof. rewrite Rating_findByIdAndDelete_eq. now apply keeps_eq. Qed.

Lemma keeps_clearStoreId i db : keeps db (User_clearStoreId i db).
Proof.
  unfold User_clearStoreId. destruct (findById u_id i (Users db)); [|apply keeps_refl].
  apply keeps_eq; cbn [Users Stores setUsers]; [apply map_id_replaceById|reflexivity].
Qed.

Ltac keeps_leaf :=
  first
    [ apply keeps_refl
    | apply keeps_Rating_delete
    | match goal with
      | H : User_save _ _ _ _ ?db = inr (_, ?db') |- keeps ?db ?db' =>
          exact (keeps_User_save _ _ _ _ _ H)
      | H : Store_save _ _ _ ?db = inr (_, ?db') |- keeps ?db ?db' =>
          exact (keeps_Store_save _ _ _ _ H)
      | H : Rating_save _ _ _ ?db = inr (_, ?db') |- keeps ?db ?db' =>
          exact (keeps_Rating_save _ _ _ _ H)
      | H : Store_save _ _ _ ?db = inr (_, ?db1),
        H' : User_save _ _ _ _ ?db1 = inr (_, ?db') |- keeps ?db ?db' =>
          exact (keeps_trans (keeps_Store_save _ _ _ _ H) (keeps_User_save _ _ _ _ _ H'))
      | H : Store_save _ _ _ ?db = inr (_, ?db1) |- keeps ?db (User_clearStoreId _ ?db1) =>
          exact (keeps_trans (keeps_Store_save _ _ _ _ H) (keeps_clearStoreId _ _))
      end ].

Ltac keeps_auto := cbv zeta; repeat keeps_split; keeps_leaf.

Lemma keeps_handler db now req c : keeps db (fst (handler db now req c)).
Proof.
  destruct (fst_readers db)
    as (R1 & R2 & R3 & R4 & R5 & R6 & R7 & R8 & R9 & R10 & R11 & R12 & R13 & R14).
  unfold handler.
  destruct c; cbv zeta;
    repeat match goal with
    | |- context [match req_user req with _ => _ end] => destruct (req_user req)
    | |- context [match ?p with Id _ => _ | BadId => _ end] => destruct p
    end;
    cbn [fst]; unfold auth_register;
    rewrite ?R1, ?R2, ?R3, ?R4, ?R5, ?R6, ?R7, ?R8, ?R9, ?R10, ?R11, ?R12, ?R13, ?R14;
    try apply keeps_refl;
    unfold users_create, createUser, auth_password, users_update, users_delete,
      ratings_submit, ratings_update, ratings_delete, ratingSaveFailed,
      stores_create, stores_update, stores_delete;
    keeps_auto.
Qed.

Lemma keeps_handle db r : keeps db (fst (handle db r)).
Proof.
  unfold handle.
  destruct (runChain db (auth r) (chain (call r)) (mkReq None None)); cbn [fst].
  - apply keeps_handler.
  - apply keeps_refl.
Qed.

Lemma keeps_run db rs : keeps db (run db rs).
Proof.
  revert db. induction rs as [|r rest IH]; simpl; intros db; [apply keeps_refl|].
  eapply keeps_trans; [apply keeps_handle|apply IH].
Qed.

(** X15. No sequence of requests removes a user or a store: a user or
    store that is found under an [_id] is still found under it after any
    requests, DELETE /api/users/:userId and DELETE /api/stores/:storeId
    included. *)
Theorem X15_users_and_stores_are_never_removed db rs :
  (forall i u, findById u_id i (Users db) = Some u ->
               exists u', findById u_id i (Users (run db rs)) = Some u') /\
  (forall i s, findById s_id i (Stores db) = Some s ->
               exists s', findById s_id i (Stores (run db rs)) = Some s').
Proof.
  destruct (keeps_run db rs) as [[l1 H1] [l2 H2]]. split.
  - intros i u Hu. apply findById_Some_of_In. rewrite H1. apply in_or_app. left.
    destruct (findById_In _ _ _ Hu) as [Hin Hid]. rewrite <- Hid. now apply in_map.
  - intros i s Hs. apply findById_Some_of_In. rewrite H2. apply in_or_app. left.
    destruct (findById_In _ _ _ Hs) as [Hin Hid]. rewrite <- Hid. now apply in_map.
Qed.

End Keeps.

(** ** Pages *)

Section Pages.
Variable A : Type.

Lemma length_paginate page limit (l : list A) :
  List.length (paginate page limit l) <= Z.to_nat limit.
Proof. unfold paginate. apply firstn_le_length. Qed.

Lemma In_firstn_In n (l : list A) x : In x (firstn n l) -> In x l.
Proof. intros H. rewrite <- (firstn_skipn n l). apply in_or_app. now left. Qed.

Lemma In_skipn_In n (l : list A) x : In x (skipn n l) -> In x l.
Proof. intros H. rewrite <- (firstn_skipn n l). apply in_or_app. now right. Qed.

Lemma In_paginate page limit (l : list A) x : In x (paginate page limit l) -> In x l.
Proof.
  unfold paginate. intros H. apply In_firstn_In in H. now apply In_skipn_In in H.
Qed.

Lemma StronglySorted_skipn (R : A -> A -> Prop) n (l : list A) :
  StronglySorted R l -> StronglySorted R (skipn n l).
Proof.
  revert l. induction n as [|n IH]; intros l H; [exact H|].
  destruct l as [|x t]; [constructor|]. simpl. apply IH. now inversion H.
Qed.

Lemma StronglySorted_firstn (R : A -> A -> Prop) n (l : list A) :
  StronglySorted R l -> StronglySorted R (firstn n l).
Proof.
  revert l. induction n as [|n IH]; intros l H; [constructor|].
  destruct l as [|x t]; [constructor|]. simpl. inversion H as [|? ? Ht Hx]; subst.
  constructor; [now apply IH|].
  rewrite Forall_forall in *. intros y Hy. apply Hx. now apply In_firstn_In in Hy.
Qed.

Lemma StronglySorted_paginate (R : A -> A -> Prop) page limit (l : list A) :
  StronglySorted R l -> StronglySorted R (paginate page limit l).
Proof.
  intros H. unfold paginate. now apply StronglySorted_firstn, StronglySorted_skipn.
Qed.

(** The page [k + 1] of size [n]. *)
Lemma paginate_nat k n (l : list A) :
  paginate (Z.of_nat (S k)) (Z.of_nat n) l = firstn n (skipn (k * n) l).
Proof.
  unfold paginate. rewrite Nat2Z.id. f_equal. f_equal.
  replace (Z.of_nat (S k) - 1)%Z with (Z.of_nat k) by lia.
  rewrite <- Nat2Z.inj_mul. apply Nat2Z.id.
Qed.

Lemma firstn_split n m (l : list A) :
  firstn (n + m) l = firstn n l ++ firstn m (skipn n l).
Proof.
  revert l. induction n as [|n IH]; intros l; [reflexivity|].
  destruct l as [|x t]; simpl.
  - now rewrite firstn_nil.
  - now rewrite IH.
Qed.

Lemma pages_concat n pages (l : list A) :
  List.concat (map (fun k => paginate (Z.of_nat (S k)) (Z.of_nat n) l) (seq 0 pages))
  = firstn (pages * n) l.
Proof.
  induction pages as [|p IH]; [reflexivity|].
  rewrite seq_S, map_app, concat_app, IH. cbn [map List.concat Nat.add].
  rewrite app_nil_r, paginate_nat.
  rewrite <- firstn_split. f_equal. lia.
Qed.

Lemma ceilDiv_spec total n :
  (0 <= total)%Z -> (0 < n)%Z ->
  forall k, (0 <= k)%Z -> (k < ceilDiv total n)%Z <-> (k * n < total)%Z.
Proof.
  intros Ht Hn k Hk. unfold ceilDiv. split; intros H.
  - assert (k + 1 <= (total + n - 1) / n)%Z by lia.
    assert ((k + 1) * n <= total + n - 1)%Z.
    { apply Z.le_trans with (n * ((total + n - 1) / n))%Z; [nia|].
      apply Z.mul_div_le. lia. }
    nia.
  - assert (k + 1 <= (total + n - 1) / n)%Z; [|lia].
    apply Z.div_le_lower_bound; [lia|]. nia.
Qed.

End Pages.

Section PagesTheorem.
Variable A : Type.

Lemma ceilDiv_nonneg total n : (0 <= total)%Z -> (0 < n)%Z -> (0 <= ceilDiv total n)%Z.
Proof. intros Ht Hn. unfold ceilDiv. apply Z.div_pos; lia. Qed.

Lemma paginate_next_empty k n (l : list A) :
  0 < n ->
  (paginate (Z.of_nat (S (S k))) (Z.of_nat n) l = [] <-> List.length l <= S k * n).
Proof.
  intros Hn. rewrite paginate_nat. split.
  - intros H. destruct (Nat.le_gt_cases (List.length l) (S k * n)) as [Hle|Hgt]; [exact Hle|].
    exfalso. assert (Hlen : List.length (firstn n (skipn (S k * n) l)) = 0) by now rewrite H.
    rewrite length_firstn, length_skipn in Hlen. lia.
  - intros H. rewrite skipn_all2 by exact H. apply firstn_nil.
Qed.

(** X16. The pages of the list routes ([skip((page - 1) * limit)],
    [limit(limit)], [Math.ceil(totalCount / limit)]): a page never holds more
    than [limit] entries; the pages 1 to [totalPages], one after the other,
    are the whole list, each entry once and in order; [hasNextPage] is true
    exactly when the next page is not empty, and [hasPrevPage] exactly when
    the page is not the first. *)
Theorem X16_pages_cover_the_list (l : list A) (limit : nat) :
  0 < limit ->
  let total := Z.of_nat (List.length l) in
  let totalPages := ceilDiv total (Z.of_nat limit) in
  (forall page, List.length (paginate page (Z.of_nat limit) l) <= limit) /\
  List.concat (map (fun k => paginate (Z.of_nat (S k)) (Z.of_nat limit) l)
                   (seq 0 (Z.to_nat totalPages))) = l /\
  (forall k,
      pagination (Z.of_nat (S k)) (Z.of_nat limit) total
      = JObj [ ("currentPage", jint (Z.of_nat (S k))); ("totalPages", jint totalPages);
               ("totalCount", jint total);
               ("hasNextPage",
                JBool (match paginate (Z.of_nat (S (S k))) (Z.of_nat limit) l with
                       | [] => false
                       | _ :: _ => true
                       end));
               ("hasPrevPage", JBool (0 <? k)) ]).
Proof.
  intros Hlimit total totalPages.
  assert (Ht : (0 <= total)%Z) by (unfold total; lia).
  assert (Hn : (0 < Z.of_nat limit)%Z) by lia.
  pose proof (ceilDiv_nonneg Ht Hn) as Hpages.
  split; [|split].
  - intros page. pose proof (length_paginate page (Z.of_nat limit) l) as H.
    now rewrite Nat2Z.id in H.
  - rewrite pages_concat. apply firstn_all2.
    pose proof (proj2 (ceilDiv_spec Ht Hn Hpages)) as H.
    fold totalPages in H.
    assert (~ (totalPages * Z.of_nat limit < total)%Z) by (intros Hx; apply H in Hx; lia).
    unfold total in *. nia.
  - intros k. unfold pagination. cbv zeta. fold totalPages. repeat f_equal.
    + pose proof (ceilDiv_spec Ht Hn (k := Z.of_nat (S k)) ltac:(lia)) as H.
      fold totalPages in H.
      destruct (paginate (Z.of_nat (S (S k))) (Z.of_nat limit) l) as [|x t] eqn:E.
      * apply (paginate_next_empty k l Hlimit) in E.
        apply Z.ltb_ge. apply Z.nlt_ge. intros Hx. apply H in Hx. unfold total in Hx. nia.
      * apply Z.ltb_lt. apply H.
        destruct (Nat.le_gt_cases (List.length l) (S k * limit)) as [Hle|Hgt].
        -- apply (paginate_next_empty k l Hlimit) in Hle. congruence.
        -- unfold total. nia.
    + destruct k; simpl; [reflexivity|]. apply Z.ltb_lt. lia.
Qed.

End PagesTheorem.

Lemma StronglySorted_impl (A : Type) (R R' : A -> A -> Prop) (l : list A) :
  (forall a b, R a b -> R' a b) -> StronglySorted R l -> StronglySorted R' l.
Proof.
  intros Himp. induction 1 as [|x t Ht IH Hx]; constructor; [exact IH|].
  eapply Forall_impl; [|exact Hx]. intros; auto.
Qed.

(** ** The list routes *)

Section Lists.
Context {ext : Externals}.

Ltac not_ok := intros [Hx|Hx]; simpl in Hx; discriminate Hx.

(** A chain that calls the handler passed every validation in it. *)
Lemma runChain_validations db a ms req0 req :
  runChain db a ms req0 = Next req ->
  forall errors, In (MValidate errors) ms -> errors = [].
Proof.
  revert req0. induction ms as [|m rest IH]; simpl; intros req0 H errors Hin; [contradiction|].
  destruct (runMiddleware db a m req0) as [req1|resp] eqn:E; [|discriminate].
  destruct Hin as [->|Hin]; [|eauto].
  simpl in E. destruct errors; [reflexivity|discriminate].
Qed.

(** What [validatePagination] lets through. *)
Lemma validatePagination_limit q :
  validatePagination q = [] ->
  (1 <= parseIntOr 1 (q_page q))%Z /\
  (1 <= parseIntOr 10 (q_limit q) <= 100)%Z.
Proof.
  unfold validatePagination. intros H. apply app_eq_nil in H. destruct H as [Hp Hl].
  split.
  - destruct (q_page q) as [[|z]|]; simpl in *; try lia; try discriminate.
    apply ensure_nil in Hp. rewrite andb_true_r in Hp. apply Z.leb_le in Hp.
    destruct (z =? 0)%Z; lia.
  - destruct (q_limit q) as [[|z]|]; simpl in *; try lia; try discriminate.
    apply ensure_nil in Hl. apply andb_true_iff in Hl. destruct Hl as [H1 H2].
    apply Z.leb_le in H1. apply Z.leb_le in H2.
    destruct (z =? 0)%Z; lia.
Qed.

Lemma newestFirst_total (a b : Time) : newestFirst a b = true \/ newestFirst b a = true.
Proof. unfold newestFirst. rewrite !Nat.leb_le. lia. Qed.

Lemma newestFirst_trans (a b c : Time) :
  newestFirst a b = true -> newestFirst b c = true -> newestFirst a c = true.
Proof. unfold newestFirst. rewrite !Nat.leb_le. lia. Qed.

(** X17. A successful GET /api/users answers with one page of at most 100
    users, each one an active user of the database (a soft-deleted user is
    never listed), ordered by [createdAt] from the newest to the oldest, and
    all of the role the query asks for when it names one. *)
Theorem X17_user_list_is_active_sorted_bounded db r q :
  call r = GetUsers q ->
  successful (snd (handle db r)) ->
  exists l page,
    body (snd (handle db r))
    = JObj [ ("message", JStr "Users retrieved successfully");
             ("users",
              JArr (map (fun u => User_toJSON false
                                    (populateStore ["name"; "averageRating"] (u_storeId u) db) u)
                        l));
             ("pagination", page) ] /\
    List.length l <= 100 /\
    Forall (fun u => In u (Users db) /\ u_isActive u = true) l /\
    StronglySorted (fun a b => u_createdAt b <= u_createdAt a) l /\
    (forall role, q_role q = Some role -> role <> "" ->
                  Forall (fun u => Role_toString (u_role u) = role) l).
Proof.
  intros Hcall Hok. unfold handle in *. rewrite Hcall in *.
  destruct (runChain db (auth r) (chain (GetUsers q)) (mkReq None None)) as [req|resp] eqn:E.
  2:{ exfalso. eapply runChain_Send; eauto. }
  assert (Hval : validatePagination q = []).
  { apply (runChain_validations _ _ _ _ E). simpl. auto. }
  destruct (validatePagination_limit q Hval) as [Hpage Hlimit].
  cbn [handler snd] in *. unfold users_list in *. cbv zeta in *.
  cbn [snd body ok validateSearch q_page q_limit q_name q_email q_address q_role] in *.
  eexists. eexists. split; [reflexivity|].
  match goal with |- context [paginate ?p ?n (sortBy ?b (filter ?f ?l))] =>
    set (flt := f); set (bef := b); set (pg := paginate p n (sortBy b (filter f l))) end.
  assert (Hin : forall u, In u pg -> In u (Users db) /\ flt u = true).
  { intros u Hu. apply In_paginate in Hu. apply In_sortBy in Hu. now apply filter_In in Hu. }
  split; [|split; [|split]].
  - eapply Nat.le_trans; [apply length_paginate|]. lia.
  - apply Forall_forall. intros u Hu. destruct (Hin u Hu) as [H1 H2]. split; [exact H1|].
    unfold flt in H2. rewrite !andb_true_iff in H2. tauto.
  - apply StronglySorted_paginate.
    apply StronglySorted_impl with (R := fun a b => bef a b = true).
    + intros a b Hab. unfold bef, newestFirst in Hab. now apply Nat.leb_le in Hab.
    + apply sortBy_sorted.
      * intros a b. apply newestFirst_total.
      * intros a b c. apply newestFirst_trans.
  - intros role Hrole Hne. apply Forall_forall. intros u Hu. destruct (Hin u Hu) as [_ H2].
    unfold flt in H2. rewrite !andb_true_iff in H2. destruct H2 as [_ H2].
    rewrite Hrole in H2. cbn [Js.truthyStr str] in H2.
    destruct (String.eqb role "") eqn:Er; [apply String.eqb_eq in Er; contradiction|].
    cbn [negb] in H2. now apply String.eqb_eq in H2.
Qed.

End Lists.

Section FindFacts.
Variable A : Type.

Lemma find_filter (f p : A -> bool) l :
  find p (filter f l) = find (fun x => f x && p x) l.
Proof.
  induction l as [|x t IH]; simpl; [reflexivity|].
  destruct (f x); simpl; [|exact IH]. destruct (p x); [reflexivity|exact IH].
Qed.

Lemma find_ext_in (p q : A -> bool) l :
  (forall x, In x l -> p x = q x) -> find p l = find q l.
Proof.
  induction l as [|x t IH]; simpl; intros H; [reflexivity|].
  rewrite (H x) by now left. destruct (q x); [reflexivity|]. apply IH. intros; apply H. now right.
Qed.

Lemma find_rev_unique (p : A -> bool) l :
  (forall a b, In a l -> In b l -> p a = true -> p b = true -> a = b) ->
  find p (rev l) = find p l.
Proof.
  intros Huniq. destruct (find p l) as [a|] eqn:F.
  - apply find_some in F. destruct F as [Ha Hpa].
    destruct (find p (rev l)) as [b|] eqn:G.
    + apply find_some in G. destruct G as [Hb Hpb]. apply in_rev in Hb.
      f_equal. now apply Huniq.
    + exfalso. pose proof (find_none _ _ G a) as Hn.
      rewrite <- in_rev in Hn. rewrite (Hn Ha) in Hpa. discriminate.
  - destruct (find p (rev l)) as [b|] eqn:G; [|reflexivity].
    apply find_some in G. destruct G as [Hb Hpb]. apply in_rev in Hb.
    rewrite (find_none _ _ F b Hb) in Hpb. discriminate.
Qed.

End FindFacts.

Section Stores.
Context {ext : Externals}.

Ltac not_ok := intros [Hx|Hx]; simpl in Hx; discriminate Hx.

(** The rating the store list attaches to a store of the page (the last of
    the caller's ratings of the page's stores that has the store's id) is
    the caller's rating of the store. *)
Lemma ratingsMap_lookup db userId (page : list Store) s :
  Inv db -> In s page ->
  find (fun r => r_storeId r =? s_id s)
       (rev (filter (fun r => (r_userId r =? userId)
                              && existsb (fun s' => s_id s' =? r_storeId r) page)
                    (Ratings db)))
  = Rating_findOne userId (s_id s) db.
Proof.
  intros Hinv Hin. unfold Rating_findOne.
  rewrite find_rev_unique.
  - rewrite find_filter. apply find_ext_in. intros r _.
    destruct (r_userId r =? userId); cbn [andb]; [|reflexivity].
    destruct (r_storeId r =? s_id s) eqn:E; [|now rewrite andb_false_r].
    rewrite andb_true_r. apply existsb_exists. exists s. split; [exact Hin|].
    apply Nat.eqb_eq in E. rewrite E. apply Nat.eqb_refl.
  - intros a b Ha Hb Hpa Hpb. apply filter_In in Ha, Hb.
    destruct Ha as [Ha Hfa], Hb as [Hb Hfb].
    apply andb_true_iff in Hfa, Hfb. destruct Hfa as [Hua _], Hfb as [Hub _].
    apply Nat.eqb_eq in Hua, Hub, Hpa, Hpb.
    apply (@NoDup_map_eq _ _ ratingKey (Ratings db)); auto.
    + exact (inv_rating_keys Hinv).
    + unfold ratingKey. congruence.
Qed.

(** X18. A successful GET /api/stores answers with one page of at most 100
    stores, each one an active store of the database (a soft-deleted store
    is never listed), ordered by [createdAt] from the newest to the oldest.
    For a caller of role [user] in a reachable state, each entry carries in
    [userRating] the caller's own rating of that store, or [null] when the
    caller has not rated it. *)
Theorem X18_store_list_is_active_sorted_bounded db r q user :
  call r = GetStores q ->
  authenticated db (auth r) user ->
  successful (snd (handle db r)) ->
  exists l entries page,
    body (snd (handle db r))
    = JObj [ ("message", JStr "Stores retrieved successfully");
             ("stores", JArr entries); ("pagination", page) ] /\
    List.length entries = List.length l /\ List.length l <= 100 /\
    Forall (fun s => In s (Stores db) /\ s_isActive s = true) l /\
    StronglySorted (fun a b => s_createdAt b <= s_createdAt a) l /\
    (reachable db -> u_role user = RUser ->
     entries
     = map (fun s => JObj (Store_toObject
                             (populateUserObject ["name"; "email"] (s_ownerId s) db) s
                           ++ [ ("userRating",
                                 userRatingSummary (Rating_findOne (u_id user) (s_id s) db)) ]))
           l).
Proof.
  intros Hcall Hauth Hok. unfold handle in *. rewrite Hcall in *.
  destruct (runChain db (auth r) (chain (GetStores q)) (mkReq None None)) as [req|resp] eqn:E.
  2:{ exfalso. eapply runChain_Send; eauto. }
  assert (Hval : validatePagination q = []).
  { apply (runChain_validations _ _ _ _ E). simpl. auto. }
  destruct (validatePagination_limit q Hval) as [Hpage Hlimit].
  assert (Hreq : req_user req = Some user).
  { cbn [chain runChain runMiddleware] in E.
    erewrite authenticateToken_pass in E by exact Hauth.
    destruct (validatePagination q); [|discriminate].
    destruct (fst (validateSearch q)); [|discriminate].
    now inversion E. }
  cbn [handler snd] in *. rewrite Hreq in *. unfold stores_list in *. cbv zeta in *.
  cbn [snd body ok validateSearch q_page q_limit q_name q_email q_address q_role] in *.
  match goal with |- context [paginate ?p ?n (sortBy ?b (filter ?f ?l))] =>
    set (flt := f); set (bef := b); set (pg := paginate p n (sortBy b (filter f l))) end.
  assert (Hin : forall s, In s pg -> In s (Stores db) /\ flt s = true).
  { intros s Hs. apply In_paginate in Hs. apply In_sortBy in Hs. now apply filter_In in Hs. }
  exists pg. eexists. eexists. split; [reflexivity|].
  split; [|split; [|split; [|split]]].
  - destruct (Role_eqb (u_role user) RUser); now rewrite length_map.
  - eapply Nat.le_trans; [apply length_paginate|]. lia.
  - apply Forall_forall. intros s Hs. destruct (Hin s Hs) as [H1 H2]. split; [exact H1|].
    unfold flt in H2. rewrite !andb_true_iff in H2. tauto.
  - apply StronglySorted_paginate.
    apply StronglySorted_impl with (R := fun a b => bef a b = true).
    + intros a b Hab. unfold bef, newestFirst in Hab. now apply Nat.leb_le in Hab.
    + apply sortBy_sorted.
      * intros a b. apply newestFirst_total.
      * intros a b c. apply newestFirst_trans.
  - intros Hreach Hrole. rewrite Hrole. cbn [Role_eqb].
    apply map_ext_in. intros s Hs.
    match goal with |- context [find ?p (rev ?L)] =>
      replace (find p (rev L)) with (Rating_findOne (u_id user) (s_id s) db)
        by (symmetry; exact (ratingsMap_lookup (u_id user) pg s (reachable_Inv Hreach) Hs))
    end.
    reflexivity.
Qed.

(** X19. A soft-deleted store is hidden: GET /api/stores/:storeId answers
    404 for it, and a POST /api/ratings that names it does not succeed,
    whoever the authenticated caller is; neither request changes
    anything. *)
Theorem X19_soft_deleted_store_is_hidden db r i store user :
  findById s_id i (Stores db) = Some store -> s_isActive store = false ->
  authenticated db (auth r) user ->
  (call r = GetStore (Id i) ->
   status (snd (handle db r)) = 404 /\ fst (handle db r) = db) /\
  (forall b, call r = PostRating b -> rb_storeId b = Some (Id i) ->
             ~ successful (snd (handle db r)) /\ fst (handle db r) = db).
Proof.
  intros Hfind Hact Hauth. split.
  - intros Hcall. unfold handle. rewrite Hcall. cbn [chain runChain runMiddleware].
    erewrite authenticateToken_pass by exact Hauth.
    cbn [validateObjectId isMongoId ensure handler req_user].
    unfold stores_get. rewrite Hfind, Hact. cbn [negb]. split; reflexivity.
  - intros b Hcall Hsid. unfold handle. rewrite Hcall.
    destruct (runChain db (auth r) (chain (PostRating b)) (mkReq None None)) as [req|resp] eqn:E.
    2:{ split; [eapply runChain_Send; eauto|reflexivity]. }
    cbn [handler]. destruct (req_user req) as [u|]; [|split; [not_ok|reflexivity]].
    unfold ratings_submit. cbv zeta. cbn [validateRating snd rb_storeId rb_rating].
    rewrite Hsid, Hfind, Hact. cbn [negb]. split; [not_ok|reflexivity].
Qed.

(** X20. What GET /api/stores/:storeId adds to the store by role.  The
    handler compares the populated owner document of the store, not its
    [_id], with the caller's [_id], and the two are never equal: so the list
    of the store's ratings goes to an administrator only, and a store owner
    never gets it, not even for the owner's own store.  A caller of role
    [user] gets no list but [userRating], the caller's own rating of the
    store or [null]; a store owner gets neither.  In a reachable state the
    request for an active store is answered 200, whatever the role. *)
Theorem X20_store_details_by_role db r i user :
  call r = GetStore (Id i) ->
  authenticated db (auth r) user ->
  (forall fields,
      successful (snd (handle db r)) ->
      body (snd (handle db r)) = JObj fields ->
      exists store,
        findById s_id i (Stores db) = Some store /\ s_isActive store = true /\
        (getField "ratings" fields <> None <-> u_role user = RAdmin) /\
        getField "userRating" fields
        = (if Role_eqb (u_role user) RUser
           then Some (userRatingSummary (Rating_findOne (u_id user) i db))
           else None))
  /\
  (forall store,
      reachable db ->
      findById s_id i (Stores db) = Some store -> s_isActive store = true ->
      status (snd (handle db r)) = 200).
Proof.
  intros Hcall Hauth. unfold handle. rewrite Hcall.
  cbn [chain runChain runMiddleware].
  erewrite authenticateToken_pass by exact Hauth.
  cbn [validateObjectId isMongoId ensure handler req_user].
  unfold stores_get. split.
  - intros fields Hok Hbody.
    destruct (findById s_id i (Stores db)) as [store|] eqn:F; [|exfalso; revert Hok; not_ok].
    destruct (s_isActive store) eqn:Ha; cbn [negb] in *; [|exfalso; revert Hok; not_ok].
    exists store. split; [reflexivity|]. split; [exact Ha|].
    destruct (findById_In _ _ _ F) as [_ Hid].
    cbv zeta in Hbody, Hok. unfold populatedIs in Hbody, Hok.
    destruct (u_role user) eqn:Hrole; cbn [Role_eqb] in Hbody, Hok |- *.
    + cbn [orb snd body ok app] in Hbody. injection Hbody as <-.
      cbn [getField String.eqb Ascii.eqb Bool.eqb].
      split; [|reflexivity]. split; [auto|discriminate].
    + cbn [orb snd body ok app] in Hbody. injection Hbody as <-.
      cbn [getField String.eqb Ascii.eqb Bool.eqb]. rewrite Hid.
      split; [|reflexivity]. split; [intros H; now contradiction H|discriminate].
    + destruct (populatedUser ["name"; "email"; "address"] (s_ownerId store) db);
        [|exfalso; revert Hok; not_ok].
      cbn [orb snd body ok app] in Hbody. injection Hbody as <-.
      cbn [getField String.eqb Ascii.eqb Bool.eqb].
      split; [|reflexivity]. split; [intros H; now contradiction H|discriminate].
  - intros store Hreach F Ha. rewrite F, Ha. cbn [negb]. cbv zeta.
    destruct (findById_In _ _ _ F) as [Hin _].
    pose proof (wf_store_refs (reachable_Wf Hreach)) as Hrefs.
    rewrite Forall_forall in Hrefs. specialize (Hrefs store Hin).
    destruct (findById_Some_of_In u_id _ _ Hrefs) as [owner Howner].
    unfold populatedIs, populatedUser. rewrite Howner.
    destruct (Role_eqb (u_role user) RStoreOwner); reflexivity.
Qed.

End Stores.

(** ** Valid requests are accepted *)

Section Liveness.
Context {ext : Externals}.

Ltac not_ok := intros [Hx|Hx]; simpl in Hx; discriminate Hx.

(** X21. In a reachable state a rating that passes [validateRating], sent
    by an authenticated caller of role [user] for an active store, is always
    accepted, provided its comment is within the 500 units of the schema
    after [trim] (the validator counts a surrogate pair once, the schema
    twice): 201 when the caller had not rated the store, 200 when the
    caller's rating was there and is updated. *)
Theorem X21_valid_rating_is_accepted db r b user i store :
  reachable db ->
  call r = PostRating b ->
  authenticated db (auth r) user -> u_role user = RUser ->
  fst (validateRating b) = [] ->
  String.length (Js.trim (match rb_comment b with Some c => c | None => "" end)) <= 500 ->
  rb_storeId b = Some (Id i) ->
  findById s_id i (Stores db) = Some store -> s_isActive store = true ->
  status (snd (handle db r))
  = match Rating_findOne (u_id user) i db with Some _ => 200 | None => 201 end.
Proof.
  intros Hreach Hcall Hauth Hrole Hval Hlen Hsid Hstore Hact.
  pose proof (reachable_Inv Hreach) as Hinv. pose proof (reachable_Wf Hreach) as Hwf.
  destruct (@validateRating_ok _ b Hval Hlen) as (q & sid & Hq & Hsid' & _ & Hvalid).
  unfold handle. rewrite Hcall. cbn [chain runChain runMiddleware].
  erewrite authenticateToken_pass by exact Hauth.
  unfold authorize. cbn [req_user req_store]. rewrite Hrole, Hval.
  cbn [existsb Role_eqb orb negb handler req_user].
  unfold ratings_submit. cbv zeta.
  replace (rb_storeId (snd (validateRating b))) with (Some (Id i)) by (now rewrite <- Hsid).
  replace (rb_rating (snd (validateRating b))) with (Some q) by (now rewrite <- Hq).
  rewrite Hstore, Hact. cbn [negb].
  destruct (Rating_findOne (u_id user) i db) as [existing|] eqn:F.
  - destruct (Rating_findOne_Some _ _ _ F) as (Hin & Hu & Hs).
    rewrite Rating_save_ok; [reflexivity| |].
    + apply Hvalid.
    + match goal with |- duplicateKey _ _ false ?d _ = false =>
        change (duplicateKey r_id
                  (fun o => (r_userId o =? r_userId d) && (r_storeId o =? r_storeId d))
                  false d (Ratings db) = false)
      end.
      eapply duplicateKey_rating_update; [exact Hinv|exact Hin|..]; reflexivity.
  - rewrite Rating_save_ok; [reflexivity| |].
    + apply Hvalid.
    + unfold duplicateKey.
      match goal with |- existsb ?f ?l = false =>
        destruct (existsb f l) eqn:E; [|reflexivity] end.
      apply existsb_exists in E. destruct E as [o [Ho Hk]].
      apply orb_true_iff in Hk. destruct Hk as [Hk|Hk].
      * apply Nat.eqb_eq in Hk. cbn [stampRating Rating_new r_id] in Hk.
        pose proof (wf_fresh_ratings Hwf) as Hf. rewrite Forall_forall in Hf.
        specialize (Hf o Ho). lia.
      * unfold Rating_findOne in F. pose proof (find_none _ _ F o Ho) as Hn.
        cbn [stampRating Rating_new r_userId r_storeId] in Hk. simpl in Hn. congruence.
Qed.

End Liveness.

(** ** Updates and deletions *)

Section Recomputed.
Context {ext : Externals}.

Ltac not_ok := intros [Hx|Hx]; simpl in Hx; discriminate Hx.
Ltac fin :=
  try (intros Hx; discriminate Hx); try not_ok;
  try match goal with
      | H : successful _ |- _ => destruct H as [Hx|Hx]; simpl in Hx; discriminate Hx
      | H : _ = _ |- _ => discriminate H
      end.

(** X22. A successful PUT /api/ratings/:ratingId leaves the store of the
    updated rating with [averageRating] the mean of its ratings rounded to
    one decimal and [totalRatings] their number, both taken over the
    ratings as they are after the update. *)
Theorem X22_rating_update_recomputes_store db r ratingId rating comment :
  reachable db ->
  call r = PutRating (Id ratingId) rating comment ->
  successful (snd (handle db r)) ->
  exists existing store,
    findById r_id ratingId (Ratings db) = Some existing /\
    findById s_id (r_storeId existing) (Stores (fst (handle db r))) = Some store /\
    ratingValues (r_storeId existing) (fst (handle db r)) <> [] /\
    (s_averageRating store
     == roundToOneDecimal (mean (ratingValues (r_storeId existing) (fst (handle db r)))))%Q /\
    s_totalRatings store
    = Z.of_nat (List.length (ratingValues (r_storeId existing) (fst (handle db r)))).
Proof.
  intros Hreach Hcall Hok.
  pose proof (reachable_Inv Hreach) as Hinv. pose proof (reachable_Wf Hreach) as Hwf.
  unfold handle in *. rewrite Hcall in *. cbn [chain] in *.
  destruct (runChain db (auth r) _ (mkReq None None)) as [req|resp] eqn:Hchain;
    [|exfalso; eapply runChain_Send; eauto].
  cbn [handler] in *. destruct (req_user req) as [user|]; [|fin].
  unfold ratings_update, ratingSaveFailed in *. cbv zeta in *.
  destruct (match rating with
            | Some q => Js.truthyNum q && (Js.lt q 1 || Js.gt q 5 || negb (Js.isInteger q))
            | None => false
            end); [fin|].
  destruct (findById r_id ratingId (Ratings db)) as [existing|] eqn:F; [|fin].
  destruct (r_userId existing =? u_id user); cbn [negb] in *; [|fin].
  match type of Hok with context [Rating_save false (now r) ?d db] =>
    set (doc := d) in *; destruct (Rating_save false (now r) doc db) as [e|[saved db']] eqn:Hsave end.
  { destruct e; fin. }
  cbn [fst snd] in *. clear Hok.
  assert (Hsid : r_storeId doc = r_storeId existing).
  { unfold doc. destruct rating as [q|]; [destruct (Js.truthyNum q)|]; reflexivity. }
  assert (Hrid : r_id doc = r_id existing).
  { unfold doc. destruct rating as [q|]; [destruct (Js.truthyNum q)|]; reflexivity. }
  destruct (findById_In _ _ _ F) as [Hin _].
  assert (Hs : exists store, findById s_id (r_storeId existing) (Stores db) = Some store).
  { pose proof (wf_rating_refs Hwf) as Hrefs. rewrite Forall_forall in Hrefs.
    destruct (Hrefs existing Hin) as [_ Hst]. now apply findById_Some_of_In. }
  destruct Hs as [store Hstore]. rewrite <- Hsid in Hstore.
  destruct (@Rating_save_recomputes ext false (now r) doc db saved db' store Hinv Hsave Hstore)
    as [Hr Hfound].
  exists existing, (recompute (now r) store db'). rewrite <- Hsid. split; [reflexivity|].
  split; [exact Hfound|].
  assert (Hne : ratingValues (r_storeId doc) db' <> []).
  { unfold ratingValues. rewrite Hr.
    assert (Hin' : In (stampRating (now r) doc)
                      (Ratings (writeRating false (stampRating (now r) doc) db))).
    { unfold writeRating. simpl. eapply In_replaceById_self; [exact Hin|]. symmetry. exact Hrid. }
    intros Hnil. apply map_eq_nil in Hnil.
    assert (Hf : In (stampRating (now r) doc)
                    (filter (fun x => r_storeId x =? r_storeId doc)
                            (Ratings (writeRating false (stampRating (now r) doc) db)))).
    { apply filter_In. split; [exact Hin'|]. simpl. apply Nat.eqb_refl. }
    rewrite Hnil in Hf. exact Hf. }
  split; [exact Hne|].
  destruct (findById_In _ _ _ Hstore) as [_ Hid].
  unfold recompute. cbn [s_averageRating s_totalRatings]. rewrite Hid.
  split; [|reflexivity].
  unfold expectedAverage.
  destruct (ratingValues (r_storeId doc) db'); [congruence|reflexivity].
Qed.

(** X23. After a successful DELETE /api/stores/:storeId in a reachable
    state no user record points to the store any more, the store is
    inactive, and its ratings stay as they were. *)
Theorem X23_store_delete_unlinks_the_owner db r i :
  reachable db ->
  call r = DeleteStore (Id i) ->
  successful (snd (handle db r)) ->
  Forall (fun u => u_storeId u <> Some i) (Users (fst (handle db r))) /\
  (exists s, findById s_id i (Stores (fst (handle db r))) = Some s /\ s_isActive s = false) /\
  Ratings (fst (handle db r)) = Ratings db.
Proof.
  intros Hreach Hcall Hok.
  pose proof (reachable_Wf (reach_handle r Hreach)) as Hwf'.
  assert (Hst : (exists s, findById s_id i (Stores (fst (handle db r))) = Some s
                           /\ s_isActive s = false) /\
                Ratings (fst (handle db r)) = Ratings db).
  { unfold handle in *. rewrite Hcall in *. cbn [chain] in *.
    destruct (runChain db (auth r) _ (mkReq None None)) as [req|resp] eqn:Hchain;
      [|exfalso; eapply runChain_Send; eauto].
    cbn [handler] in *. unfold stores_delete in *.
    destruct (findById s_id i (Stores db)) as [s|] eqn:Hs; [|fin].
    destruct (Store_save false (now r) _ db) as [e|[saved db']] eqn:Hsave; [fin|].
    cbn [fst]. apply Store_save_inr in Hsave. destruct Hsave as (_ & -> & _ & ->).
    match goal with |- context [User_clearStoreId ?o ?d] =>
      destruct (User_clearStoreId_frame o d) as [HS HR] end.
    rewrite HS, HR. unfold writeStore. cbn [Stores Ratings setStores].
    split; [|reflexivity].
    destruct (findById_In _ _ _ Hs) as [_ Hid].
    eexists. split; [|shelve].
    rewrite <- Hid at 1.
    match goal with |- findById _ _ (replaceById _ ?x _) = _ =>
      change (s_id s) with (s_id x) end.
    eapply findById_replaceById_same. simpl. rewrite Hid. exact Hs.
    Unshelve. reflexivity. }
  split; [|exact Hst]. destruct Hst as [(s & Hs & Ha) _].
  apply Forall_forall. intros u Hu Hlink.
  pose proof (wf_user_refs Hwf') as Hrefs. rewrite Forall_forall in Hrefs.
  destruct (Hrefs u Hu i Hlink) as (s' & Hin' & Hid' & _ & Ha').
  pose proof (@findById_NoDup _ s_id i _ s' (wf_store_ids Hwf') Hin' Hid') as Hs'.
  rewrite Hs in Hs'. inversion Hs'; subst. congruence.
Qed.

End Recomputed.

(** ** Counting ratings by value *)

Lemma isInteger_inject q : Js.isInteger q = true -> (q == inject_Z (Qnum q / Zpos (Qden q)))%Q.
Proof.
  unfold Js.isInteger. intros H. apply Z.eqb_eq in H.
  unfold Qeq, inject_Z. simpl. rewrite Z.mul_1_r.
  pose proof (Z.div_mod (Qnum q) (Zpos (Qden q))) as E.
  rewrite H in E. lia.
Qed.

Lemma countOf_one q :
  Js.isInteger q = true -> (1 <= q)%Q -> (q <= 5)%Q ->
  (if Qeq_bool q (inject_Z 1) then 1 else 0) + (if Qeq_bool q (inject_Z 2) then 1 else 0)
  + (if Qeq_bool q (inject_Z 3) then 1 else 0) + (if Qeq_bool q (inject_Z 4) then 1 else 0)
  + (if Qeq_bool q (inject_Z 5) then 1 else 0) = 1.
Proof.
  intros Hint Hlo Hhi. apply isInteger_inject in Hint.
  set (m := (Qnum q / Zpos (Qden q))%Z) in *. clearbody m.
  assert (Hm : (1 <= m <= 5)%Z).
  { rewrite Hint in Hlo, Hhi. unfold Qle, inject_Z in Hlo, Hhi. simpl in Hlo, Hhi. lia. }
  assert (E : forall k, Qeq_bool q (inject_Z k) = (m =? k)%Z).
  { intros k. destruct (m =? k)%Z eqn:Ek.
    - apply Z.eqb_eq in Ek. subst k. now apply Qeq_bool_iff.
    - apply Z.eqb_neq in Ek. destruct (Qeq_bool q (inject_Z k)) eqn:Eq; [|reflexivity].
      apply Qeq_bool_iff in Eq. rewrite Hint in Eq.
      unfold Qeq, inject_Z in Eq. simpl in Eq. lia. }
  rewrite !E.
  assert (Hcases : m = 1%Z \/ m = 2%Z \/ m = 3%Z \/ m = 4%Z \/ m = 5%Z) by lia.
  destruct Hcases as [->|[->|[->|[->| ->]]]]; reflexivity.
Qed.

Lemma countOf_sum values :
  Forall (fun q => Js.isInteger q = true /\ (1 <= q)%Q /\ (q <= 5)%Q) values ->
  countOf 1 values + countOf 2 values + countOf 3 values + countOf 4 values + countOf 5 values
  = List.length values.
Proof.
  unfold countOf. induction 1 as [|q t (Hint & Hlo & Hhi) _ IH]; [reflexivity|].
  pose proof (countOf_one Hint Hlo Hhi) as H1. cbn [filter List.length].
  destruct (Qeq_bool q (inject_Z 1)), (Qeq_bool q (inject_Z 2)), (Qeq_bool q (inject_Z 3)),
    (Qeq_bool q (inject_Z 4)), (Qeq_bool q (inject_Z 5));
    cbn [List.length] in *; lia.
Qed.

Section Statistics.
Context {ext : Externals}.

Ltac not_ok := intros [Hx|Hx]; simpl in Hx; discriminate Hx.
Ltac fin :=
  try (intros Hx; discriminate Hx); try not_ok;
  try match goal with
      | H : successful _ |- _ => destruct H as [Hx|Hx]; simpl in Hx; discriminate Hx
      | H : _ = _ |- _ => discriminate H
      end.

(** X24. The rating statistics of a reachable state are consistent: the
    five counts of [ratingDistribution] add up to [totalRatings], which is
    the number of ratings stored; [overallAverageRating] is 0 when there is
    no rating and between 1 and 5 otherwise; [topStores] has at most ten
    entries, all of them active stores; and nothing changes. *)
Theorem X24_rating_statistics_add_up db r :
  reachable db ->
  call r = GetRatingStats ->
  successful (snd (handle db r)) ->
  fst (handle db r) = db /\
  exists average c1 c2 c3 c4 c5 top,
    body (snd (handle db r))
    = JObj [ ("message", JStr "Rating statistics retrieved successfully");
             ("stats",
              JObj [ ("totalRatings", jnat (List.length (Ratings db)));
                     ("overallAverageRating", JNum average);
                     ("ratingDistribution",
                      JObj [ ("1", jnat c1); ("2", jnat c2); ("3", jnat c3);
                             ("4", jnat c4); ("5", jnat c5) ]);
                     ("topStores",
                      JArr (map (fun s =>
                              JObj (pick ["id"; "name"; "averageRating"; "totalRatings"]
                                         (Store_toObject (jnat (s_ownerId s)) s)))
                                top)) ]) ] /\
    c1 + c2 + c3 + c4 + c5 = List.length (Ratings db) /\
    (Ratings db = [] -> average = 0%Q) /\
    (Ratings db <> [] -> (1 <= average)%Q /\ (average <= 5)%Q) /\
    List.length top <= 10 /\
    Forall (fun s => In s (Stores db) /\ s_isActive s = true) top.
Proof.
  intros Hreach Hcall Hok. pose proof (reachable_Inv Hreach) as Hinv.
  assert (Hall : Forall (fun q => Js.isInteger q = true /\ (1 <= q)%Q /\ (q <= 5)%Q)
                        (map r_rating (Ratings db))).
  { apply Forall_map. eapply Forall_impl; [|exact (inv_ratings Hinv)].
    intros x Hx. apply Rating_validate_nil in Hx. unfold ratingOK in Hx. tauto. }
  unfold handle in *. rewrite Hcall in *. cbn [chain] in *.
  destruct (runChain db (auth r) _ (mkReq None None)) as [req|resp] eqn:Hchain;
    [|exfalso; eapply runChain_Send; eauto].
  cbn [handler] in *. unfold ratings_stats. cbv zeta. cbn [fst snd body ok].
  split; [reflexivity|].
  match goal with |- context [("topStores", JArr (map _ ?l))] => set (top := l) end.
  exists (match map r_rating (Ratings db) with
          | [] => 0%Q
          | _ => (inject_Z (Js.Math_round
                    (sumQ (map r_rating (Ratings db))
                     / inject_Z (Z.of_nat (List.length (map r_rating (Ratings db)))) * 10))
                  / 10)%Q
          end),
    (countOf 1 (map r_rating (Ratings db))), (countOf 2 (map r_rating (Ratings db))),
    (countOf 3 (map r_rating (Ratings db))), (countOf 4 (map r_rating (Ratings db))),
    (countOf 5 (map r_rating (Ratings db))), top.
  split; [|split; [|split; [|split; [|split]]]].
  - rewrite length_map. unfold countOf.
    destruct (map r_rating (Ratings db)); reflexivity.
  - rewrite (countOf_sum Hall). apply length_map.
  - intros ->. reflexivity.
  - intros Hne.
    assert (Hne' : map r_rating (Ratings db) <> []).
    { intros E. apply map_eq_nil in E. contradiction. }
    assert (Hall' : Forall (fun q => (1 <= q)%Q /\ (q <= 5)%Q) (map r_rating (Ratings db))).
    { eapply Forall_impl; [|exact Hall]. simpl. tauto. }
    destruct (mean_bounds Hne' Hall') as [Hlo Hhi].
    destruct (roundToOneDecimal_bounds Hlo Hhi) as [Hlo' Hhi'].
    destruct (map r_rating (Ratings db)) as [|q t]; [congruence|].
    split; [exact Hlo'|exact Hhi'].
  - unfold top. rewrite length_firstn. apply Nat.le_min_l.
  - apply Forall_forall. intros s Hs. unfold top in Hs.
    apply In_firstn_In in Hs. apply In_sortBy in Hs. now apply filter_In in Hs.
Qed.

End Statistics.

(** ** Administration *)

Section Administration.
Context {ext : Externals}.

Ltac not_ok := intros [Hx|Hx]; simpl in Hx; discriminate Hx.
Ltac fin :=
  try (intros Hx; discriminate Hx); try not_ok;
  try match goal with
      | H : successful _ |- _ => destruct H as [Hx|Hx]; simpl in Hx; discriminate Hx
      | H : _ = _ |- _ => discriminate H
      end.

(** X25. A successful POST /api/stores adds one store, active, with no
    ratings counted, whose owner is the user named by [ownerId]: an existing
    user of role [storeOwner] who owned no store record; that user's
    [storeId] then points to the new store and [updatedAt] is the time of
    the request; nothing else of the user, and no rating, changes. *)
Theorem X25_store_creation_links_the_owner db r b :
  call r = PostStore b ->
  successful (snd (handle db r)) ->
  exists owner store,
    sb_ownerId b = Some (Id (u_id owner)) /\
    findById u_id (u_id owner) (Users db) = Some owner /\
    u_role owner = RStoreOwner /\
    (forall s, In s (Stores db) -> s_ownerId s <> u_id owner) /\
    Stores (fst (handle db r)) = Stores db ++ [store] /\
    s_id store = nextId db /\ s_ownerId store = u_id owner /\
    s_averageRating store = 0%Q /\ s_totalRatings store = 0%Z /\ s_isActive store = true /\
    Users (fst (handle db r))
    = replaceById u_id
        (mkUser (u_id owner) (u_name owner) (u_email owner) (u_password owner)
                (u_address owner) (u_role owner) (Some (nextId db)) (u_isActive owner)
                (u_createdAt owner) (now r))
        (Users db) /\
    Ratings (fst (handle db r)) = Ratings db.
Proof.
  intros Hcall Hok. unfold handle in *. rewrite Hcall in *. cbn [chain] in *.
  destruct (runChain db (auth r) _ (mkReq None None)) as [req|resp] eqn:Hchain;
    [|exfalso; eapply runChain_Send; eauto].
  cbn [handler] in *. unfold stores_create in *. cbv zeta in *.
  cbn [validateStore snd sb_ownerId sb_email sb_name sb_address str] in *.
  destruct (find _ (Stores db)) as [x|]; [fin|].
  destruct (sb_ownerId b) as [[|j]|] eqn:Hown; [fin| |fin].
  destruct (findById u_id j (Users db)) as [owner|] eqn:Ho; [|fin].
  destruct (Role_eqb (u_role owner) RStoreOwner) eqn:Hrole; cbn [negb] in *; [|fin].
  destruct (find (fun s => s_ownerId s =? u_id owner) (Stores db)) as [x|] eqn:Hnone; [fin|].
  destruct (Store_save true (now r) _ db) as [e|[store db1]] eqn:Hsave.
  { destruct e as [errors|code]; [fin|]. destruct (code =? DUPLICATE_KEY)%Z; fin. }
  destruct (User_save false false (now r) _ db1) as [e|[saved db2]] eqn:Hsave2.
  { destruct e as [errors|code]; [fin|]. destruct (code =? DUPLICATE_KEY)%Z; fin. }
  cbn [fst snd] in *. clear Hok.
  destruct (findById_In _ _ _ Ho) as [Hin Hid]. subst j.
  pose proof (User_save_unmodified _ _ _ _ Hsave2) as Hdoc. cbn in Hdoc.
  apply User_save_inr in Hsave2. destruct Hsave2 as (HS & HR & _ & _ & HU).
  apply Store_save_inr in Hsave. destruct Hsave as (_ & Hst & _ & Hdb1).
  exists owner, store. split; [reflexivity|]. split; [exact Ho|].
  split; [now destruct (u_role owner)|].
  split.
  { intros s Hs E. pose proof (find_none _ _ Hnone s Hs) as Hx. simpl in Hx.
    rewrite E, Nat.eqb_refl in Hx. discriminate. }
  rewrite HS, HR, HU, Hdb1. unfold writeStore. cbn [Stores Users Ratings bumpId setStores].
  subst store. cbn [stampStore Store_new s_id s_ownerId s_averageRating s_totalRatings s_isActive].
  repeat split. rewrite Hdoc. reflexivity.
Qed.

(** X26. A successful PUT /api/users/:userId rewrites that one user record
    and nothing else: its [_id], [password], [storeId] and [createdAt] stay
    as they were, [updatedAt] is the time of the request, no other user has
    the e-mail the record then holds, and stores and ratings are untouched.
    The administrator's PUT for an existing user with an e-mail in the body
    that is not the one the record holds and that, lower-cased as the query
    casts it, is the e-mail of another user, is answered with 400 and changes
    nothing: so also for an address that differs from the other user's in
    the case of its letters only. *)
Theorem X26_user_update_keeps_the_password db r i b :
  call r = PutUser (Id i) b ->
  (successful (snd (handle db r)) ->
   exists user user',
     findById u_id i (Users db) = Some user /\
     Users (fst (handle db r)) = replaceById u_id user' (Users db) /\
     u_id user' = u_id user /\ u_password user' = u_password user /\
     u_storeId user' = u_storeId user /\ u_createdAt user' = u_createdAt user /\
     u_updatedAt user' = now r /\
     (forall o, In o (Users db) -> u_id o <> i -> u_email o <> u_email user') /\
     Stores (fst (handle db r)) = Stores db /\
     Ratings (fst (handle db r)) = Ratings db) /\
  (forall user target other email,
      authenticated db (auth r) user -> u_role user = RAdmin ->
      findById u_id i (Users db) = Some target ->
      uu_email b = Some email -> email <> "" -> email <> u_email target ->
      In other (Users db) -> u_email other = castEmail email -> u_id other <> i ->
      status (snd (handle db r)) = 400 /\ fst (handle db r) = db).
Proof.
  intros Hcall. split.
  - intros Hok. unfold handle in *. rewrite Hcall in *. cbn [chain] in *.
    destruct (runChain db (auth r) _ (mkReq None None)) as [req|resp] eqn:Hchain;
      [|exfalso; eapply runChain_Send; eauto].
    cbn [handler] in *. unfold users_update in *. cbv zeta in *.
    destruct (findById u_id i (Users db)) as [user|] eqn:F; [|fin].
    match type of Hok with context [if ?c then (db, fail 400 _ _) else _] =>
      destruct c; [fin|] end.
    match type of Hok with context [match ?ro with Some _ => _ | None => _ end] =>
      destruct ro as [role|]; [|fin] end.
    destruct (User_save false false (now r) _ db) as [e|[saved db']] eqn:Hsave.
    { destruct e; fin. }
    cbn [fst snd] in *. clear Hok.
    pose proof (User_save_unmodified _ _ _ _ Hsave) as Hdoc. cbn in Hdoc.
    pose proof (User_save_inv _ _ _ _ _ Hsave) as (_ & _ & Hdup & _).
    apply User_save_inr in Hsave. destruct Hsave as (HS & HR & _ & _ & HU).
    destruct (findById_In _ _ _ F) as [Hin Hid].
    exists user, saved. split; [reflexivity|]. split; [exact HU|].
    rewrite Hdoc at 1 2 3 4 5. cbn [u_id u_password u_storeId u_createdAt u_updatedAt].
    repeat split; auto.
    intros o Ho Hne E. apply Hne.
    assert (Hk : String.eqb (u_email o) (u_email saved) = true)
      by (rewrite E; apply String.eqb_refl).
    rewrite Hdoc in Hk at 1. cbn [u_email] in Hk.
    pose proof (duplicateKey_update _ _ _ _ Hdup o Ho Hk) as Ho'.
    rewrite Hdoc in Ho'. cbn [u_id] in Ho'. congruence.
  - intros user target other email Hauth Hrole F Hemail Hne Hown Hin He Hid.
    unfold handle. rewrite Hcall. cbn [chain adminOnly runChain runMiddleware].
    erewrite authenticateToken_pass by exact Hauth.
    unfold authorize. cbn [req_user req_store]. rewrite Hrole.
    cbn [existsb Role_eqb orb negb validateObjectId isMongoId ensure handler].
    unfold users_update. rewrite F, Hemail. cbn [str].
    assert (Ht : Js.truthyStr (Some email) = true).
    { unfold Js.truthyStr. destruct email; [congruence|reflexivity]. }
    rewrite Ht. cbn [andb].
    destruct (findById_In _ _ _ F) as [Hint Hidt].
    assert (Hx : existsb (fun o => String.eqb (u_email o) (castEmail email)
                                   && negb (u_id o =? u_id target))
                         (Users db) = true).
    { apply existsb_exists. exists other. split; [exact Hin|].
      rewrite He, String.eqb_refl. cbn [andb].
      apply negb_true_iff, Nat.eqb_neq. congruence. }
    rewrite Hx.
    assert (Hd : String.eqb email (u_email target) = false)
      by (now apply String.eqb_neq).
    rewrite Hd. cbn [negb andb fst snd status fail]. split; reflexivity.
Qed.

(** X27. GET /api/ratings/user/my-ratings answers a normal user with that
    user's ratings and no one else's: the listed ratings are a permutation
    of the stored ratings whose [userId] is the caller, newest first, and
    [totalRatings] is their number; nothing changes. *)
Theorem X27_my_ratings_are_the_callers db r user :
  call r = GetMyRatings ->
  authenticated db (auth r) user -> u_role user = RUser ->
  fst (handle db r) = db /\
  exists l,
    Permutation l (filter (fun x => r_userId x =? u_id user) (Ratings db)) /\
    Forall (fun x => r_userId x = u_id user) l /\
    StronglySorted (fun a b => r_createdAt b <= r_createdAt a) l /\
    snd (handle db r)
    = ok [ ("message", JStr "User ratings retrieved successfully");
           ("ratings",
            JArr (map (fun x =>
                    JObj (Rating_toObject (jnat (r_userId x))
                            (populateStore ["name"; "email"; "address"; "averageRating"]
                                           (Some (r_storeId x)) db) x)) l));
           ("totalRatings",
            jnat (List.length (filter (fun x => r_userId x =? u_id user) (Ratings db)))) ].
Proof.
  intros Hcall Hauth Hrole. unfold handle. rewrite Hcall.
  cbn [chain runChain runMiddleware].
  erewrite authenticateToken_pass by exact Hauth.
  unfold authorize. cbn [req_user req_store]. rewrite Hrole.
  cbn [existsb Role_eqb orb negb handler req_user]. unfold ratings_ofUser. cbv zeta.
  cbn [fst snd]. split; [reflexivity|].
  match goal with |- context [sortBy ?f ?l] => exists (sortBy f l) end.
  split; [apply sortBy_perm|]. split; [|split].
  - apply Forall_forall. intros x Hx. apply In_sortBy in Hx. apply filter_In in Hx.
    now apply Nat.eqb_eq.
  - eapply StronglySorted_impl; [|apply sortBy_sorted].
    + intros a b' H. unfold newestFirst in H. now apply Nat.leb_le in H.
    + intros a b'. apply newestFirst_total.
    + intros a b' c. apply newestFirst_trans.
  - now rewrite length_sortBy.
Qed.

Lemma eqb_empty_length s : 1 <= String.length s -> String.eqb s "" = false.
Proof. destruct s; simpl; [lia|reflexivity]. Qed.

(** X28. In a reachable state a registration that passes the validators of
    the route is accepted with 201, provided that the name, the password and
    the address are within the 60, 16 and 400 units of the schema (the
    validators count a surrogate pair once, the schema twice), and that the
    normalized e-mail, in lower case, is not empty, matches the pattern of
    the schema, and is the e-mail of no user, and neither is the normalized
    e-mail as it stands. *)
Theorem X28_valid_registration_is_accepted db r b :
  reachable db ->
  call r = PostRegister b ->
  fst (validateUserRegistration b) = [] ->
  String.length (Js.trim (str (ub_name b))) <= 60 ->
  String.length (str (ub_password b)) <= 16 ->
  String.length (Js.trim (str (ub_address b))) <= 400 ->
  Js.toLowerCase (normalizeEmail (str (ub_email b))) <> "" ->
  emailPattern (Js.toLowerCase (normalizeEmail (str (ub_email b)))) = true ->
  (forall u, In u (Users db) ->
             u_email u <> normalizeEmail (str (ub_email b)) /\
             u_email u <> Js.toLowerCase (normalizeEmail (str (ub_email b)))) ->
  status (snd (handle db r)) = 201 /\
  exists new, Users (fst (handle db r)) = Users db ++ [new] /\ u_id new = nextId db.
Proof.
  intros Hreach Hcall Hval Hname Hpass Haddr Hne Hpat Hfree.
  pose proof (reachable_Wf Hreach) as Hwf.
  pose proof (charLength_le (Js.trim (str (ub_name b)))) as Ln.
  pose proof (charLength_le (str (ub_password b))) as Lp.
  pose proof (charLength_le (Js.trim (str (ub_address b)))) as La.
  unfold handle. rewrite Hcall. cbn [chain runChain runMiddleware]. rewrite Hval.
  cbn [handler]. unfold auth_register, createUser. cbv zeta.
  cbn [validateUserRegistration userBodySanitized snd ub_email ub_name ub_password ub_address str].
  cbn [validateUserRegistration fst] in Hval. unfold userBodyErrors in Hval.
  repeat (apply app_eq_nil in Hval; let H := fresh "V" in destruct Hval as [H Hval]).
  apply ensure_nil in V, V1, V2, V3. clear V0 Hval.
  unfold isLength in V, V1, V3. apply andb_true_iff in V, V1, V3.
  destruct V as [Vn1 Vn2], V1 as [Vp1 Vp2], V3 as [Va1 Va2].
  apply Nat.leb_le in Vn1, Vn2, Vp1, Vp2, Va1, Va2.
  destruct (find _ (Users db)) as [u|] eqn:F.
  { apply find_some in F. destruct F as [Hin E]. apply String.eqb_eq in E.
    now destruct (Hfree u Hin). }
  rewrite User_save_ok.
  - cbn [fst snd status created]. split; [reflexivity|].
    unfold writeUser. cbn [Users bumpId setUsers]. eexists. split; reflexivity.
  - unfold User_validate, User_new.
    cbn [u_name u_email u_password u_address]. rewrite !trim_idempotent.
    repeat match goal with
           | |- context [check ?p ?rules] =>
               replace (check p rules) with (@nil (string * string));
               [|symmetry; apply check_nil; cbn [forallb fst]]
           end;
    try match goal with
        | |- context [emailPattern] =>
            destruct (String.eqb (Js.toLowerCase (normalizeEmail (str (ub_email b)))) "") eqn:E;
            [apply String.eqb_eq in E; contradiction|];
            cbn [negb andb]; now rewrite Hpat
        | |- context [User_passwordValidator] =>
            rewrite eqb_empty_length by lia; cbn [negb andb]; rewrite andb_true_r;
            unfold User_passwordValidator;
            destruct (Js.startsWith "$2a" (str (ub_password b))
                      || Js.startsWith "$2b" (str (ub_password b))); [reflexivity|];
            replace (String.length (str (ub_password b)) <? 8) with false
              by (symmetry; apply Nat.ltb_ge; lia);
            replace (16 <? String.length (str (ub_password b))) with false
              by (symmetry; apply Nat.ltb_ge; lia);
            exact V2
        | |- context [Nat.leb] =>
            rewrite ?eqb_empty_length by lia; cbn [negb andb];
            repeat (apply andb_true_iff; split); try reflexivity; apply Nat.leb_le; lia
        end.
    reflexivity.
  - unfold duplicateKey.
    match goal with |- existsb ?f ?l = false =>
      destruct (existsb f l) eqn:E; [|reflexivity] end.
    apply existsb_exists in E. destruct E as [o [Ho Hk]].
    apply orb_true_iff in Hk. destruct Hk as [Hk|Hk].
    + apply Nat.eqb_eq in Hk. cbn [stampUser User_new u_id] in Hk.
      pose proof (wf_fresh_users Hwf) as Hf. rewrite Forall_forall in Hf.
      specialize (Hf o Ho). lia.
    + apply String.eqb_eq in Hk. cbn [User_new u_email] in Hk.
      now destruct (Hfree o Ho).
Qed.

End Administration.

(** ** The further properties at concrete requests on the seeded database *)

(** X1 on the seeded database, and at a registration with the password
    [$2aSecret!], which starts as a hash does: what is stored for the new
    user is the hash of it, not the password. *)
Lemma X1_witness :
  let b := mkUserBody (Some "Dave New Customer") (Some "dave@example.com") (Some "$2aSecret!")
                      (Some "1 Main Street") None in
  let r := mkRequest NoToken 200 (PostRegister b) in
  @reachable standIn seeded /\
  Forall (fun u => (exists plain, u_password u = @bcryptHash standIn plain) /\
                   isHash (u_password u) = true) (Users seeded) /\
  status (snd (@handle standIn seeded r)) = 201 /\
  exists new,
    In new (Users (fst (@handle standIn seeded r))) /\ u_id new = 13 /\
    u_password new = @bcryptHash standIn "$2aSecret!" /\ u_password new <> "$2aSecret!".
Proof.
  intros b r.
  assert (Hr : @reachable standIn seeded) by apply reach_seed.
  destruct (@X1_stored_passwords_are_hashes standIn seeded Hr) as [Hall Hstored].
  split; [exact Hr|]. split; [exact Hall|]. split; [vm_compute; reflexivity|].
  pose (new := nth 6 (Users (fst (@handle standIn seeded r)))
                   (mkUser 0 "" "" "" "" RUser None false 0 0)).
  assert (Hin : In new (Users (fst (@handle standIn seeded r))))
    by (apply nth_In; vm_compute; lia).
  assert (Hid : u_id new = 13) by (vm_compute; reflexivity).
  assert (Hold : forallb (fun u => negb (u_id u =? 13)) (Users seeded) = true)
    by (vm_compute; reflexivity).
  exists new. split; [exact Hin|]. split; [exact Hid|].
  destruct (Hstored r new Hin) as [(u & Hu & Hu13 & _)|(password & Hsent & Hpw)].
  - exfalso. rewrite forallb_forall in Hold. specialize (Hold u Hu).
    rewrite Hu13, Hid in Hold. discriminate Hold.
  - assert (Hp : password = "$2aSecret!") by (vm_compute in Hsent; congruence).
    rewrite Hp in Hpw. split; [exact Hpw|].
    rewrite Hpw. vm_compute. discriminate.
Defined.

(** X2 on the seeded database. *)
Lemma X2_witness :
  @reachable standIn seeded /\
  NoDup (map u_email (Users seeded)) /\ NoDup (map s_email (Stores seeded)).
Proof.
  assert (Hr : @reachable standIn seeded) by apply reach_seed.
  split; [exact Hr|].
  destruct (@X2_ids_and_emails_are_unique standIn seeded Hr) as (_ & Hu & _ & Hs & _).
  split; [exact Hu|exact Hs].
Defined.

(** X3 at the administrator's POST of a second store for the owner of
    store 7. *)
Lemma X3_witness :
  let b := mkStoreBody (Some "Second Electronics Store") (Some "second@example.com")
                       (Some "1 Main Street") (Some (Id 2)) in
  let r := mkRequest (Bearer 1) 200 (PostStore b) in
  @reachable standIn seeded /\
  option_map s_ownerId (findById s_id 7 (Stores seeded)) = Some 2 /\
  ~ successful (snd (@handle standIn seeded r)) /\ fst (@handle standIn seeded r) = seeded.
Proof.
  intros b r.
  assert (Hr : @reachable standIn seeded) by apply reach_seed.
  pose (s := nth 0 (Stores seeded) (mkStore 0 "" "" "" 0 0 0 false 0 0)).
  assert (Hin : In s (Stores seeded)) by (vm_compute; left; reflexivity).
  assert (Hown : s_ownerId s = 2) by (vm_compute; reflexivity).
  split; [exact Hr|]. split; [vm_compute; reflexivity|].
  exact (proj2 (@X3_one_store_per_owner standIn seeded Hr) r b 2 s eq_refl eq_refl Hin Hown).
Defined.

(** X4 on the seeded database. *)
Lemma X4_witness :
  @reachable standIn seeded /\
  Forall (fun s => exists u, findById u_id (s_ownerId s) (Users seeded) = Some u)
         (Stores seeded).
Proof.
  assert (Hr : @reachable standIn seeded) by apply reach_seed.
  split; [exact Hr|].
  exact (proj1 (proj2 (@X4_references_resolve standIn seeded Hr))).
Defined.

(** X5 at the administrator's GET of the dashboard of store 7. *)
Lemma X5_witness :
  let r := mkRequest (Bearer 1) 200 (GetStoreDashboard (Id 7)) in
  exists user,
    authenticated seeded (auth r) user /\ u_role user = RAdmin /\
    status (snd (@handle standIn seeded r)) = 500.
Proof.
  intros r.
  pose (user := nth 0 (Users seeded) (mkUser 0 "" "" "" "" RUser None false 0 0)).
  assert (Hauth : authenticated seeded (auth r) user)
    by (repeat split; vm_compute; reflexivity).
  exists user. split; [exact Hauth|]. split; [vm_compute; reflexivity|].
  exact (proj1 (proj2 (@X5_dashboard_is_for_the_owner standIn seeded r (Id 7) user
                         eq_refl Hauth)) eq_refl).
Defined.

(** X6 at Alice's GET of the ratings of store 7. *)
Lemma X6_witness :
  let r := mkRequest (Bearer 4) 200 (GetStoreRatings (Id 7)) in
  exists user,
    authenticated seeded (auth r) user /\ u_role user = RUser /\
    status (snd (@handle standIn seeded r)) = 403.
Proof.
  intros r.
  pose (user := nth 3 (Users seeded) (mkUser 0 "" "" "" "" RUser None false 0 0)).
  assert (Hauth : authenticated seeded (auth r) user)
    by (repeat split; vm_compute; reflexivity).
  exists user. split; [exact Hauth|]. split; [vm_compute; reflexivity|].
  exact (proj1 (proj2 (@X6_store_ratings_are_for_admin_and_owner standIn seeded r (Id 7) user
                         eq_refl Hauth)) eq_refl).
Defined.

(** X7 at Alice's PUT on rating 10, which is Bob's. *)
Lemma X7_witness :
  let r := mkRequest (Bearer 4) 200 (PutRating (Id 10) (Some 1%Q) None) in
  option_map r_userId (findById r_id 10 (Ratings seeded)) = Some 5 /\
  ~ successful (snd (@handle standIn seeded r)) /\ fst (@handle standIn seeded r) = seeded.
Proof.
  intros r.
  pose (user := nth 3 (Users seeded) (mkUser 0 "" "" "" "" RUser None false 0 0)).
  pose (existing := nth 1 (Ratings seeded) (mkRating 0 0 0 0 "" 0 0)).
  assert (Hauth : authenticated seeded (auth r) user)
    by (repeat split; vm_compute; reflexivity).
  assert (Hfind : findById r_id 10 (Ratings seeded) = Some existing)
    by (vm_compute; reflexivity).
  assert (Hne : r_userId existing <> u_id user) by (vm_compute; lia).
  split; [vm_compute; reflexivity|].
  exact (proj1 (@X7_rating_update_is_for_the_author standIn seeded r 10 (Some 1%Q) None user
                  eq_refl Hauth eq_refl) existing Hfind Hne).
Defined.

(** X8 at the DELETE of rating 9 by the owner of store 7. *)
Lemma X8_witness :
  let r := mkRequest (Bearer 2) 200 (DeleteRating (Id 9)) in
  exists user,
    authenticated seeded (auth r) user /\ u_role user = RStoreOwner /\
    status (snd (@handle standIn seeded r)) = 403 /\ fst (@handle standIn seeded r) = seeded.
Proof.
  intros r.
  pose (user := nth 1 (Users seeded) (mkUser 0 "" "" "" "" RUser None false 0 0)).
  pose (rating := nth 0 (Ratings seeded) (mkRating 0 0 0 0 "" 0 0)).
  assert (Hauth : authenticated seeded (auth r) user)
    by (repeat split; vm_compute; reflexivity).
  assert (Hfind : findById r_id 9 (Ratings seeded) = Some rating)
    by (vm_compute; reflexivity).
  exists user. split; [exact Hauth|]. split; [vm_compute; reflexivity|].
  exact (proj1 (proj2 (@X8_rating_delete_is_for_admin_and_author standIn seeded r 9 user
                         eq_refl Hauth)) rating Hfind (or_introl eq_refl)).
Defined.

(** X9 at Dave's registration. *)
Lemma X9_witness :
  let b := mkUserBody (Some "Dave New Customer") (Some "Dave@Example.com") (Some "Secret12!")
                      (Some "1 Main Street") (Some "admin") in
  let r := mkRequest NoToken 200 (PostRegister b) in
  successful (snd (@handle standIn seeded r)) /\
  exists new,
    Users (fst (@handle standIn seeded r)) = Users seeded ++ [new] /\
    u_role new = RUser /\ u_email new = "dave@example.com".
Proof.
  intros b r.
  assert (Hok : successful (snd (@handle standIn seeded r)))
    by (right; vm_compute; reflexivity).
  split; [exact Hok|].
  destruct (@X9_register_creates_a_normal_user standIn seeded r b eq_refl Hok)
    as (_ & new & HU & Hrole & _ & _ & _ & He & _).
  exists new. split; [exact HU|]. split; [exact Hrole|]. rewrite He. vm_compute. reflexivity.
Defined.

(** X10 at a login with a wrong password. *)
Lemma X10_witness :
  let r := mkRequest NoToken 200 (PostLogin (Some "user@example.com") (Some "guess")) in
  fst (@handle standIn seeded r) = seeded.
Proof.
  intros r.
  exact (proj1 (@X10_login_failures_look_alike standIn seeded r (Some "user@example.com")
                  (Some "guess") eq_refl)).
Defined.

(** X11 at Alice's login. *)
Lemma X11_witness :
  let r := mkRequest NoToken 200 (PostLogin (Some "user@example.com") (Some "User123!")) in
  @reachable standIn seeded /\
  successful (snd (@handle standIn seeded r)) /\
  exists user,
    getField "token"
      (match body (snd (@handle standIn seeded r)) with JObj fs => fs | _ => [] end)
    = Some (generateToken (u_id user) (u_role user) 200) /\
    authenticated seeded (Bearer (u_id user)) user.
Proof.
  intros r.
  assert (Hr : @reachable standIn seeded) by apply reach_seed.
  assert (Hok : successful (snd (@handle standIn seeded r)))
    by (left; vm_compute; reflexivity).
  split; [exact Hr|]. split; [exact Hok|].
  destruct (@X11_login_token_authenticates standIn seeded r (Some "user@example.com")
              (Some "User123!") Hr eq_refl Hok) as (user & Htoken & Hauth & _).
  exists user. split; [exact Htoken|exact Hauth].
Defined.

(** X12 at Dave's registration and his login after it. *)
Lemma X12_witness :
  let b := mkUserBody (Some "Dave New Customer") (Some "dave@example.com") (Some "Secret12!")
                      (Some "1 Main Street") None in
  let r := mkRequest NoToken 200 (PostRegister b) in
  let r' := mkRequest NoToken 201 (PostLogin (ub_email b) (ub_password b)) in
  successful (snd (@handle standIn seeded r)) /\
  status (snd (@handle standIn (fst (@handle standIn seeded r)) r')) = 200.
Proof.
  intros b r r'.
  assert (Hok : successful (snd (@handle standIn seeded r)))
    by (right; vm_compute; reflexivity).
  split; [exact Hok|].
  refine (proj1 (@X12_register_then_login standIn seeded r b r' eq_refl Hok _ _ eq_refl)).
  - vm_compute. reflexivity.
  - vm_compute. reflexivity.
Defined.

(** X13 at Alice's change of password with a wrong current password. *)
Lemma X13_witness :
  let r := mkRequest (Bearer 4) 200 (PatchPassword (Some "guess") (Some "Secret12!")) in
  exists user,
    authenticated seeded (auth r) user /\
    @bcryptCompare standIn "guess" (u_password user) = false /\
    status (snd (@handle standIn seeded r)) = 400 /\ fst (@handle standIn seeded r) = seeded.
Proof.
  intros r.
  pose (user := nth 3 (Users seeded) (mkUser 0 "" "" "" "" RUser None false 0 0)).
  assert (Hauth : authenticated seeded (auth r) user)
    by (repeat split; vm_compute; reflexivity).
  assert (Hbad : @bcryptCompare standIn (str (Some "guess")) (u_password user) = false)
    by (vm_compute; reflexivity).
  exists user. split; [exact Hauth|]. split; [exact Hbad|].
  exact (proj1 (@X13_password_change_needs_the_current_password standIn seeded r
                  (Some "guess") (Some "Secret12!") user eq_refl Hauth) Hbad).
Defined.

(** X14 at Bob's POST of the value 9 for store 7. *)
Lemma X14_witness :
  let r := mkRequest (Bearer 5) 200 (PostRating (mkRatingBody (Some (Id 7)) (Some 9%Q) None)) in
  @reachable standIn seeded /\
  status (snd (@handle standIn seeded r)) = 400 /\ fst (@handle standIn seeded r) = seeded.
Proof.
  intros r.
  assert (Hr : @reachable standIn seeded) by apply reach_seed.
  assert (Hs : status (snd (@handle standIn seeded r)) = 400) by (vm_compute; reflexivity).
  assert (Hno : ~ successful (snd (@handle standIn seeded r))).
  { unfold successful. rewrite Hs. intros [H|H]; discriminate H. }
  split; [exact Hr|]. split; [exact Hs|].
  exact (@X14_failed_requests_change_nothing standIn seeded r Hr Hno).
Defined.

(** X15 at the soft deletes of Alice and of store 7. *)
Lemma X15_witness :
  let rs := [ mkRequest (Bearer 1) 200 (DeleteUser (Id 4));
              mkRequest (Bearer 1) 201 (DeleteStore (Id 7)) ] in
  (exists u, findById u_id 4 (Users (@run standIn seeded rs)) = Some u) /\
  (exists s, findById s_id 7 (Stores (@run standIn seeded rs)) = Some s).
Proof.
  intros rs.
  pose (user := nth 3 (Users seeded) (mkUser 0 "" "" "" "" RUser None false 0 0)).
  pose (store := nth 0 (Stores seeded) (mkStore 0 "" "" "" 0 0 0 false 0 0)).
  assert (Hu : findById u_id 4 (Users seeded) = Some user) by (vm_compute; reflexivity).
  assert (Hs : findById s_id 7 (Stores seeded) = Some store) by (vm_compute; reflexivity).
  split.
  - exact (proj1 (@X15_users_and_stores_are_never_removed standIn seeded rs) 4 user Hu).
  - exact (proj2 (@X15_users_and_stores_are_never_removed standIn seeded rs) 7 store Hs).
Defined.

(** X16 at five entries in pages of two. *)
Lemma X16_witness :
  0 < 2 /\
  List.concat (map (fun k => paginate (Z.of_nat (S k)) 2 [1; 2; 3; 4; 5]) (seq 0 3))
  = [1; 2; 3; 4; 5].
Proof.
  assert (H : 0 < 2) by lia.
  split; [exact H|].
  exact (proj1 (proj2 (@X16_pages_cover_the_list nat [1; 2; 3; 4; 5] 2 H))).
Defined.

(** X17 at the administrator's list of the users of role [user]. *)
Lemma X17_witness :
  let q := mkQuery None None None None None (Some "user") in
  let r := mkRequest (Bearer 1) 200 (GetUsers q) in
  successful (snd (@handle standIn seeded r)) /\
  exists l page,
    body (snd (@handle standIn seeded r))
    = JObj [ ("message", JStr "Users retrieved successfully");
             ("users",
              JArr (map (fun u => User_toJSON false
                                    (populateStore ["name"; "averageRating"] (u_storeId u) seeded)
                                    u) l));
             ("pagination", page) ] /\
    Forall (fun u => In u (Users seeded) /\ u_isActive u = true) l /\
    Forall (fun u => Role_toString (u_role u) = "user") l.
Proof.
  intros q r.
  assert (Hok : successful (snd (@handle standIn seeded r)))
    by (left; vm_compute; reflexivity).
  split; [exact Hok|].
  destruct (@X17_user_list_is_active_sorted_bounded standIn seeded r q eq_refl Hok)
    as (l & page & Hbody & _ & Hact & _ & Hrole).
  exists l, page. split; [exact Hbody|]. split; [exact Hact|].
  apply (Hrole "user" eq_refl). discriminate.
Defined.

(** X18 at Alice's list of the stores. *)
Lemma X18_witness :
  let q := mkQuery None None None None None None in
  let r := mkRequest (Bearer 4) 200 (GetStores q) in
  successful (snd (@handle standIn seeded r)) /\
  exists l entries page,
    body (snd (@handle standIn seeded r))
    = JObj [ ("message", JStr "Stores retrieved successfully");
             ("stores", JArr entries); ("pagination", page) ] /\
    List.length entries = List.length l /\
    Forall (fun s => In s (Stores seeded) /\ s_isActive s = true) l.
Proof.
  intros q r.
  pose (user := nth 3 (Users seeded) (mkUser 0 "" "" "" "" RUser None false 0 0)).
  assert (Hauth : authenticated seeded (auth r) user)
    by (repeat split; vm_compute; reflexivity).
  assert (Hok : successful (snd (@handle standIn seeded r)))
    by (left; vm_compute; reflexivity).
  split; [exact Hok|].
  destruct (@X18_store_list_is_active_sorted_bounded standIn seeded r q user eq_refl Hauth Hok)
    as (l & entries & page & Hbody & Hlen & _ & Hact & _).
  exists l, entries, page. split; [exact Hbody|]. split; [exact Hlen|exact Hact].
Defined.

(** X19 at Alice's GET of store 7 after its soft delete. *)
Lemma X19_witness :
  let db1 := fst (@handle standIn seeded (mkRequest (Bearer 1) 200 (DeleteStore (Id 7)))) in
  let r := mkRequest (Bearer 4) 201 (GetStore (Id 7)) in
  option_map s_isActive (findById s_id 7 (Stores db1)) = Some false /\
  status (snd (@handle standIn db1 r)) = 404 /\ fst (@handle standIn db1 r) = db1.
Proof.
  intros db1 r.
  pose (user := nth 3 (Users db1) (mkUser 0 "" "" "" "" RUser None false 0 0)).
  pose (store := nth 0 (Stores db1) (mkStore 0 "" "" "" 0 0 0 false 0 0)).
  assert (Hauth : authenticated db1 (auth r) user)
    by (repeat split; vm_compute; reflexivity).
  assert (Hfind : findById s_id 7 (Stores db1) = Some store) by (vm_compute; reflexivity).
  assert (Hina : s_isActive store = false) by (vm_compute; reflexivity).
  split; [vm_compute; reflexivity|].
  exact (proj1 (@X19_soft_deleted_store_is_hidden standIn db1 r 7 store user Hfind Hina Hauth)
           eq_refl).
Defined.

(** X20 at the GET of store 7 by its owner, user 2: the request is answered
    200, with neither the list of ratings nor [userRating]; and at Alice's
    GET of the store, with her own rating and no list. *)
Lemma X20_witness :
  let r := mkRequest (Bearer 2) 200 (GetStore (Id 7)) in
  let r' := mkRequest (Bearer 4) 200 (GetStore (Id 7)) in
  @reachable standIn seeded /\
  (option_map s_ownerId (findById s_id 7 (Stores seeded)) = Some 2 /\
   status (snd (@handle standIn seeded r)) = 200 /\
   exists fields,
     body (snd (@handle standIn seeded r)) = JObj fields /\
     getField "ratings" fields = None /\ getField "userRating" fields = None)
  /\
  (successful (snd (@handle standIn seeded r')) /\
   exists fields,
     body (snd (@handle standIn seeded r')) = JObj fields /\
     getField "ratings" fields = None /\
     getField "userRating" fields = Some (userRatingSummary (Rating_findOne 4 7 seeded))).
Proof.
  intros r r'.
  assert (Hr : @reachable standIn seeded) by apply reach_seed.
  split; [exact Hr|]. split.
  - pose (owner := nth 1 (Users seeded) (mkUser 0 "" "" "" "" RUser None false 0 0)).
    pose (store := nth 0 (Stores seeded) (mkStore 0 "" "" "" 0 0 0 false 0 0)).
    assert (Hauth : authenticated seeded (auth r) owner)
      by (repeat split; vm_compute; reflexivity).
    assert (Hrole : u_role owner = RStoreOwner) by (vm_compute; reflexivity).
    assert (Hfind : findById s_id 7 (Stores seeded) = Some store) by (vm_compute; reflexivity).
    assert (Hact : s_isActive store = true) by (vm_compute; reflexivity).
    destruct (@X20_store_details_by_role standIn seeded r 7 owner eq_refl Hauth)
      as [Hfields Hlive].
    pose proof (Hlive store Hr Hfind Hact) as H200.
    split; [vm_compute; reflexivity|]. split; [exact H200|].
    assert (Hbody : exists fields, body (snd (@handle standIn seeded r)) = JObj fields)
      by (eexists; vm_compute; reflexivity).
    destruct Hbody as [fields Hbody]. exists fields. split; [exact Hbody|].
    destruct (Hfields fields (or_introl H200) Hbody) as (store' & _ & _ & Hlist & Hmine).
    rewrite Hrole in Hlist, Hmine. split; [|exact Hmine].
    destruct (getField "ratings" fields) as [j|]; [|reflexivity].
    exfalso. assert (Hx : RStoreOwner = RAdmin) by (apply Hlist; discriminate).
    discriminate Hx.
  - pose (user := nth 3 (Users seeded) (mkUser 0 "" "" "" "" RUser None false 0 0)).
    assert (Hauth : authenticated seeded (auth r') user)
      by (repeat split; vm_compute; reflexivity).
    assert (Hrole : u_role user = RUser) by (vm_compute; reflexivity).
    assert (Hid : u_id user = 4) by (vm_compute; reflexivity).
    assert (Hok : successful (snd (@handle standIn seeded r')))
      by (left; vm_compute; reflexivity).
    split; [exact Hok|].
    assert (Hbody : exists fields, body (snd (@handle standIn seeded r')) = JObj fields)
      by (eexists; vm_compute; reflexivity).
    destruct Hbody as [fields Hbody]. exists fields. split; [exact Hbody|].
    destruct (proj1 (@X20_store_details_by_role standIn seeded r' 7 user eq_refl Hauth)
                    fields Hok Hbody) as (store' & _ & _ & Hlist & Hmine).
    rewrite Hrole in Hlist, Hmine. rewrite Hid in Hmine. split; [|exact Hmine].
    destruct (getField "ratings" fields) as [j|]; [|reflexivity].
    exfalso. assert (Hx : RUser = RAdmin) by (apply Hlist; discriminate).
    discriminate Hx.
Defined.

(** X21 at Carol's first rating of store 7. *)
Lemma X21_witness :
  let b := mkRatingBody (Some (Id 7)) (Some 3%Q) (Some " fair ") in
  let r := mkRequest (Bearer 6) 200 (PostRating b) in
  @reachable standIn seeded /\
  fst (@validateRating standIn b) = [] /\
  Rating_findOne 6 7 seeded = None /\
  status (snd (@handle standIn seeded r)) = 201.
Proof.
  intros b r.
  assert (Hr : @reachable standIn seeded) by apply reach_seed.
  pose (user := nth 5 (Users seeded) (mkUser 0 "" "" "" "" RUser None false 0 0)).
  pose (store := nth 0 (Stores seeded) (mkStore 0 "" "" "" 0 0 0 false 0 0)).
  assert (Hauth : authenticated seeded (auth r) user)
    by (repeat split; vm_compute; reflexivity).
  assert (Hval : fst (@validateRating standIn b) = []) by (vm_compute; reflexivity).
  assert (Hlen : String.length (Js.trim (match rb_comment b with Some c => c | None => "" end))
                 <= 500) by (vm_compute; lia).
  assert (Hfind : findById s_id 7 (Stores seeded) = Some store) by (vm_compute; reflexivity).
  assert (Hnone : Rating_findOne 6 7 seeded = None) by (vm_compute; reflexivity).
  split; [exact Hr|]. split; [exact Hval|]. split; [exact Hnone|].
  rewrite (@X21_valid_rating_is_accepted standIn seeded r b user 7 store Hr eq_refl Hauth
             eq_refl Hval Hlen eq_refl Hfind eq_refl).
  change (u_id user) with 6. rewrite Hnone. reflexivity.
Defined.

(** X22 at Alice's PUT of the value 1 on her rating 9 of store 7: the store
    then holds 2.5 over 2 ratings. *)
Lemma X22_witness :
  let r := mkRequest (Bearer 4) 200 (PutRating (Id 9) (Some 1%Q) None) in
  @reachable standIn seeded /\
  successful (snd (@handle standIn seeded r)) /\
  exists store,
    findById s_id 7 (Stores (fst (@handle standIn seeded r))) = Some store /\
    (s_averageRating store == 25 # 10)%Q /\ s_totalRatings store = 2%Z.
Proof.
  intros r.
  assert (Hr : @reachable standIn seeded) by apply reach_seed.
  assert (Hok : successful (snd (@handle standIn seeded r)))
    by (left; vm_compute; reflexivity).
  split; [exact Hr|]. split; [exact Hok|].
  destruct (@X22_rating_update_recomputes_store standIn seeded r 9 (Some 1%Q) None Hr eq_refl Hok)
    as (existing & store & Hfind & Hstore & _ & Havg & Htot).
  assert (Hf : findById r_id 9 (Ratings seeded)
               = Some (nth 0 (Ratings seeded) (mkRating 0 0 0 0 "" 0 0)))
    by (vm_compute; reflexivity).
  pose proof (f_equal (fun o => match o with Some x => r_storeId x | None => 0 end)
                      (eq_trans (eq_sym Hfind) Hf)) as H7.
  cbv beta iota in H7.
  assert (H7' : r_storeId (nth 0 (Ratings seeded) (mkRating 0 0 0 0 "" 0 0)) = 7)
    by (vm_compute; reflexivity).
  rewrite H7' in H7. clear H7' Hf Hfind.
  rewrite H7 in Hstore, Htot. exists store. split; [exact Hstore|]. split.
  - rewrite Havg, H7. vm_compute. reflexivity.
  - rewrite Htot. vm_compute. reflexivity.
Defined.

(** X23 at the administrator's DELETE of store 7. *)
Lemma X23_witness :
  let r := mkRequest (Bearer 1) 200 (DeleteStore (Id 7)) in
  @reachable standIn seeded /\
  successful (snd (@handle standIn seeded r)) /\
  Forall (fun u => u_storeId u <> Some 7) (Users (fst (@handle standIn seeded r))).
Proof.
  intros r.
  assert (Hr : @reachable standIn seeded) by apply reach_seed.
  assert (Hok : successful (snd (@handle standIn seeded r)))
    by (left; vm_compute; reflexivity).
  split; [exact Hr|]. split; [exact Hok|].
  exact (proj1 (@X23_store_delete_unlinks_the_owner standIn seeded r 7 Hr eq_refl Hok)).
Defined.

(** X24 at the administrator's GET of the statistics. *)
Lemma X24_witness :
  let r := mkRequest (Bearer 1) 200 GetRatingStats in
  @reachable standIn seeded /\
  successful (snd (@handle standIn seeded r)) /\
  fst (@handle standIn seeded r) = seeded.
Proof.
  intros r.
  assert (Hr : @reachable standIn seeded) by apply reach_seed.
  assert (Hok : successful (snd (@handle standIn seeded r)))
    by (left; vm_compute; reflexivity).
  split; [exact Hr|]. split; [exact Hok|].
  exact (proj1 (@X24_rating_statistics_add_up standIn seeded r Hr eq_refl Hok)).
Defined.

(** X25 at the administrator's POST of a store for a store owner registered
    by the administrator just before. *)
Lemma X25_witness :
  let u := mkUserBody (Some "Erin Third Owner") (Some "erin@example.com") (Some "Secret12!")
                      (Some "1 Main Street") (Some "storeOwner") in
  let db1 := fst (@handle standIn seeded (mkRequest (Bearer 1) 200 (PostUser u))) in
  let b := mkStoreBody (Some "Third Store Name") (Some "third@example.com")
                       (Some "2 Main Street") (Some (Id 13)) in
  let r := mkRequest (Bearer 1) 201 (PostStore b) in
  successful (snd (@handle standIn db1 r)) /\
  exists owner store,
    findById u_id 13 (Users db1) = Some owner /\ u_role owner = RStoreOwner /\
    Stores (fst (@handle standIn db1 r)) = Stores db1 ++ [store] /\
    s_ownerId store = 13 /\
    option_map u_storeId (findById u_id 13 (Users (fst (@handle standIn db1 r))))
    = Some (Some 14).
Proof.
  intros u db1 b r.
  assert (Hok : successful (snd (@handle standIn db1 r)))
    by (right; vm_compute; reflexivity).
  split; [exact Hok|].
  destruct (@X25_store_creation_links_the_owner standIn db1 r b eq_refl Hok)
    as (owner & store & Hown & Hfind & Hrole & _ & HS & _ & Hso & _).
  inversion Hown as [Hid]. rewrite <- Hid in Hfind, Hso. exists owner, store.
  split; [exact Hfind|]. split; [exact Hrole|]. split; [exact HS|].
  split; [exact Hso|]. vm_compute. reflexivity.
Defined.

(** X26 at the administrator's PUT that renames Alice, and at the PUT that
    gives her Bob's e-mail address in capital letters, which is answered
    400. *)
Lemma X26_witness :
  let b := mkUserUpdate (Some "Alice Renamed Customer") None None None None in
  let r := mkRequest (Bearer 1) 200 (PutUser (Id 4) b) in
  let b' := mkUserUpdate None (Some "BOB.USER@EXAMPLE.COM") None None None in
  let r' := mkRequest (Bearer 1) 200 (PutUser (Id 4) b') in
  (successful (snd (@handle standIn seeded r)) /\
   option_map u_password (findById u_id 4 (Users (fst (@handle standIn seeded r))))
   = option_map u_password (findById u_id 4 (Users seeded)) /\
   Ratings (fst (@handle standIn seeded r)) = Ratings seeded)
  /\
  (option_map u_email (findById u_id 5 (Users seeded)) = Some "bob.user@example.com" /\
   status (snd (@handle standIn seeded r')) = 400 /\ fst (@handle standIn seeded r') = seeded).
Proof.
  intros b r b' r'. split.
  - assert (Hok : successful (snd (@handle standIn seeded r)))
      by (left; vm_compute; reflexivity).
    split; [exact Hok|].
    destruct (proj1 (@X26_user_update_keeps_the_password standIn seeded r 4 b eq_refl) Hok)
      as (user & user' & _ & _ & _ & _ & _ & _ & _ & _ & _ & HR).
    split; [vm_compute; reflexivity|exact HR].
  - pose (admin := nth 0 (Users seeded) (mkUser 0 "" "" "" "" RUser None false 0 0)).
    pose (alice := nth 3 (Users seeded) (mkUser 0 "" "" "" "" RUser None false 0 0)).
    pose (bob := nth 4 (Users seeded) (mkUser 0 "" "" "" "" RUser None false 0 0)).
    assert (Hauth : authenticated seeded (auth r') admin)
      by (repeat split; vm_compute; reflexivity).
    assert (Hrole : u_role admin = RAdmin) by (vm_compute; reflexivity).
    assert (Hfind : findById u_id 4 (Users seeded) = Some alice) by (vm_compute; reflexivity).
    assert (Hne : "BOB.USER@EXAMPLE.COM" <> "") by discriminate.
    assert (Hown : "BOB.USER@EXAMPLE.COM" <> u_email alice) by (vm_compute; discriminate).
    assert (Hin : In bob (Users seeded)) by (apply nth_In; vm_compute; lia).
    assert (Hmail : u_email bob = castEmail "BOB.USER@EXAMPLE.COM") by (vm_compute; reflexivity).
    assert (Hid : u_id bob <> 4) by (vm_compute; discriminate).
    split; [vm_compute; reflexivity|].
    exact (proj2 (@X26_user_update_keeps_the_password standIn seeded r' 4 b' eq_refl)
                 admin alice bob "BOB.USER@EXAMPLE.COM" Hauth Hrole Hfind eq_refl Hne Hown
                 Hin Hmail Hid).
Defined.

(** X27 at Alice's GET of her ratings. *)
Lemma X27_witness :
  let r := mkRequest (Bearer 4) 200 GetMyRatings in
  exists user,
    authenticated seeded (auth r) user /\ u_role user = RUser /\
    fst (@handle standIn seeded r) = seeded /\
    exists l,
      Permutation l (filter (fun x => r_userId x =? 4) (Ratings seeded)) /\
      Forall (fun x => r_userId x = 4) l.
Proof.
  intros r.
  pose (user := nth 3 (Users seeded) (mkUser 0 "" "" "" "" RUser None false 0 0)).
  assert (Hauth : authenticated seeded (auth r) user)
    by (repeat split; vm_compute; reflexivity).
  exists user. split; [exact Hauth|]. split; [vm_compute; reflexivity|].
  destruct (@X27_my_ratings_are_the_callers standIn seeded r user eq_refl Hauth eq_refl)
    as (Hdb & l & Hperm & Hall & _).
  split; [exact Hdb|]. exists l. split; [exact Hperm|exact Hall].
Defined.

(** X28 at Dave's registration. *)
Lemma X28_witness :
  let b := mkUserBody (Some "Dave New Customer") (Some "dave@example.com") (Some "Secret12!")
                      (Some "1 Main Street") None in
  let r := mkRequest NoToken 200 (PostRegister b) in
  @reachable standIn seeded /\
  fst (@validateUserRegistration standIn b) = [] /\
  status (snd (@handle standIn seeded r)) = 201.
Proof.
  intros b r.
  assert (Hr : @reachable standIn seeded) by apply reach_seed.
  assert (Hval : fst (@validateUserRegistration standIn b) = []) by (vm_compute; reflexivity).
  split; [exact Hr|]. split; [exact Hval|].
  refine (proj1 (@X28_valid_registration_is_accepted standIn seeded r b Hr eq_refl Hval
                   _ _ _ _ _ _)).
  - vm_compute. lia.
  - vm_compute. lia.
  - vm_compute. lia.
  - vm_compute. discriminate.
  - vm_compute. reflexivity.
  - intros u Hu. vm_compute in Hu.
    repeat (destruct Hu as [<-|Hu]; [split; vm_compute; discriminate|]). contradiction.
Defined.
